(* ===== verification/_CoqProject ===== *)
-Q . S2P
Prelude.v
Prog.v
Str.v
PathLib.v
Sys.v
World.v
Verity.v
Efi.v
BootOption.v
Verify.v
Tpm.v
TpmModel.v
Fscrypt.v
Cmd.v
RecoverySpec.v
Mount.v
Boot.v
BootDisk.v
RootPath.v
FileModel.v
Calm.v
BootSpec.v
BootSteps.v
AgeSpec.v
BootMachine.v
Attached.v
BootClock.v
BootLive.v
Main.v
Options.v
SealVault.v
TpmPolicy.v
TpmLive.v
Install.v
Loader.v
LoaderScan.v
LoaderSpec.v
LoaderLive.v
ChainOfTrust.v
