(* ===== verification/Prelude.v ===== *)
(** * initos: a verification development

    initos boots a machine from a verified UEFI loader to the init of an
    encrypted host.  The crate is one library ([src/src/*.rs]), one command
    ([src/src/main.rs]), which is also PID 1 of the initrd, and one UEFI
    application ([src/src/bin/efi.rs]).  This library models all of them.

    ** How the code is modelled

    Pure code is a function; code that can panic returns [comp] (below), with
    the panics where Rust has them.  Code that calls the kernel, the firmware
    or the terminal is a [prog E] (Prog.v): a finite tree of calls, each one a
    constructor of [E] whose index is the type of the answer ([sysE] of Sys.v
    for Linux, [fwE] of Loader.v for UEFI).  [let?] is the [?] operator.  An
    execution [exec p t o] is a trace [t] of calls with the answers they got,
    whatever they were, and an outcome: a value, a panic, an exit, a process
    replaced by [execve].  A property of all executions is therefore a property
    for every kernel, disk, TPM and firmware.  [run] evaluates a program
    against a concrete machine (World.v, and toy machines beside the
    witnesses), which is how the witnesses compute their traces.

    A [protocol] gives a guard, what the history must satisfy when a call is
    made, and an assumption on answers; [wp] is the weakest precondition of a
    program under a protocol, and [wp_sound] turns it into a statement on
    traces: [guarded] calls, provided the calls were [answered] as assumed.
    Two programs are equivalent ([≡]) when they have the same executions;
    [bind] is a morphism of this relation.  [tame] bounds both the calls and
    the stops of a program.

    ** Files

    - Prelude.v, Prog.v: results, panics, bytes, little and big endian; calls,
      executions and the logic above, with the database [wp].
    - Str.v, PathLib.v: what the code uses of [str], [u32::from_str_radix],
      formatting, and of [std::path] ([components], [join], [parent],
      [file_name]).
    - Sys.v: the calls of Linux, [io::Error], and the classes of parameters.
      World.v: a machine that answers them, for the witnesses.
    - Verity.v, Verify.v ([verity.rs], [verify.rs]): fs-verity measurement, and
      the two verifications of an image, by key and by database certificate.
      [verify_image_db] is characterised exactly: true on a signature of the
      measured digest, false only after refusing every certificate.
    - Efi.v ([efi.rs]): efivarfs variables, boot options, device paths, and the
      signature database.  [parse_esl] ends on every input and inverts an
      encoder of well-formed databases; the boot option readers invert an
      encoder of load options.  BootOption.v: the record they give is well
      typed, and which boot options make them panic.
    - Tpm.v ([tpm2.rs]): the commands byte for byte, against a reference
      marshalling ([command]); the transport with its retries; the operations.
      TpmModel.v: an abstract TPM behind the device ([tpm]: PCR 7, sessions,
      objects), which decodes the bytes of the commands; the runs of a program
      against it, with a restart or other software in between.
    - Fscrypt.v ([fscrypt.rs]): the two ioctls and the structures they pass.
    - Cmd.v ([cmd.rs]): prompts, the fscrypt key, age and recovery commands.
      RecoverySpec.v: the owner decrypts what [encrypt_for_recovery] makes.
      AgeSpec.v: what [initos encrypt] writes, [initos decrypt] reads back, and
      the password prompt of the boot accepts as [c.age].
    - Mount.v ([mount.rs]): mounts, loop devices, [switch_root], and the
      searches through sysfs by label, partition number and GUID.
    - Boot.v ([boot.rs]): [cmd_boot] and everything it is made of, statement by
      statement.  BootDisk.v: on given hardware ([hardware]: disks, partitions,
      GUIDs, as sysfs shows them) the search for the boot disk is exact, and
      with the boot option of the firmware it finds the partition started.
      RootPath.v: the paths computed from the links of the root.
      Calm.v: the functions of the sequence that neither attach an image nor
      execute an init.  BootSpec.v: the rules of verified boot, as a protocol,
      and the theorem that every execution follows them.  BootSteps.v: what
      the success of each step means (root, host images, unlocking, sealed
      key, init).  BootMachine.v: the phases of the sequence as a step
      relation with the contract of each step; every execution is a run of
      this machine, and what init relies on has happened, in order.
      FileModel.v, Attached.v: an abstract kernel with names, files, fs-verity
      and loop devices ([files]), and the theorem that the bytes attached are
      bytes that were measured and found signed.
      BootClock.v: the search for the data device ends.  BootLive.v: the whole
      sequence ends, without a panic, on a machine that answers in the
      documented formats ([good_machine]).
    - Main.v ([main.rs]): options, sealing, and the dispatch.  Options.v: the
      parsers of the options of [seal] and [unseal] invert a printer.
    - Across the commands.  SealVault.v: what [initos seal] is given is what the
      boot unseals, on any device that keeps its persistent objects
      ([tpm_vault]).  TpmPolicy.v: on the abstract TPM, the secret opens only
      with the PCR 7 it was sealed to, and once per boot.  TpmLive.v: and it
      does open, on a TPM that carries out what it can ([working_tpm]).  Install.v:
      [fscrypt-setup], [seal] and the boot together: the key that the boot adds
      is the one that the policy of the directory names.
    - Loader.v, LoaderSpec.v ([bin/efi.rs]): the UEFI loader on an explicit
      memory; what it hands over is what it verified, in memory, at the moment
      the kernel is entered.  LoaderScan.v: its scan of the database is
      equivalent to the loop over the entries that [parse_esl] reads.
      LoaderLive.v: on a firmware that works ([good_firmware]) a signed machine
      starts.
    - ChainOfTrust.v: the loader and the boot sequence together, on one
      database: what was entered and what is mounted is endorsed by one of its
      certificates.

    The parts meet in the calls: [Boot] calls [Verify], [Tpm], [Fscrypt],
    [Cmd], [Mount] and [Efi] as [boot.rs] does; theorems of the callers use the
    lemmas of the callees ([verify_image_db_exec], [unseal_ok], ...).

    ** What the theorems show

    - Safety: in verified mode nothing unsigned is attached or executed
      (BootSpec, BootSteps, BootMachine), and this in terms of the bytes of the
      files, not only of their paths (Attached); the loader enters a signed
      kernel only (LoaderSpec); no decision, no boot; and from the firmware to
      init, one database endorses everything (ChainOfTrust).
    - Refinement: [cmd_boot] refines the machine of BootMachine.v, the command
      builders of the TPM their specification; the commands that install a
      machine and its boot agree on the key (Install).
    - Sealing: what the TPM gives back, when it does not (TpmPolicy), and that
      it does otherwise (TpmLive).
    - Devices: the partition that is found is the one the machine was started
      from, in whatever order sysfs lists them (BootDisk).
    - Liveness and termination: the boot sequence and the loader come to their
      end (BootLive, LoaderLive, BootClock), the TPM transport, the prompts and
      the parsers are bounded.
    - Round trips and types: databases, boot options, sealed secrets, options
      and handles, age files, recovery payloads.
    - Errors: where the code panics, leaks or leaves the root, as theorems.

    ** Parameters

    The cryptography and the formats that third-party crates implement are
    fields of classes: [Externals] (SHA-256, Ed25519 and RSA verification,
    base64, X.509 parsing), [Age] and [Recovery] (the age crate and the curve
    arithmetic), [Uefi] (text conversion of the uefi crate).  What a theorem
    assumes of them is a law stated with the class ([ExternalsLaws],
    [RecoveryLaws], [AgeLaws], [UefiLaws]) or in its hypotheses, and the
    witnesses instantiate it.  The hash of the abstract TPM is a parameter; a
    theorem that depends on it has the collision as an alternative.  The
    identifier that the kernel derives from a key ([identifies], Install.v) is a
    function of the key alone.  A theorem that an image is signed says that
    the verification function of the crate accepted the signature.  What the
    kernel, the firmware or the TPM is assumed to answer is the assumption of a
    protocol ([sysfs], [good_machine], [good_firmware], [working_tpm]), which
    the witnesses check on the traces of concrete machines.

    ** Bounds and fuel

    Parsers are given one round more than the bytes they have ([S (length
    data)]); every round consumes at least one.  The polling loops of
    [find_data_device] have 41 and 21 rounds, since 20 seconds hold 40 sleeps
    of 500 ms and 20 of 1 s; BootClock.v proves that they are enough on a
    clock that advances by what is slept.  The TPM transport retries 20 times
    in the code itself, and the password prompt three times.  No theorem
    assumes that a loop ends.  Integers are [Z] with the wrap-around of their
    width written out ([u16_wrap], [u32_wrap], [u64_wrap]), as the release
    profile computes; [usize] is unbounded, sizes being those of buffers; so
    [pages_for] does not wrap on a file that the firmware says to have nearly
    2^64 bytes, which no FAT volume holds.  The size of the buffer of a
    firmware variable is an argument of [FwGetVariable] (4096 bytes for the
    database): a variable that does not fit is an answer [Err].

    ** Not modelled

    Messages on the terminal (the prompts, logs and help texts), the closing of
    files and firmware protocols by [Drop] (descriptors handled by hand are
    modelled; the TPM device, whose file is never closed by hand, is reached
    through [FileWriteAll] and [FileRead] alone), the failure of allocations
    inside the standard library, case mapping and escapes of characters beyond
    ASCII, the text of firmware errors and of parsers of third-party crates.  A directory listing is one call.
    [Instant::now] is in nanoseconds.  The shell scripts, the kernel
    configuration, the Nix packaging and the tests are outside.

    ** Plan

    Every operation of the Rust sources is modelled.  What could be added: the
    mount table in the kernel of FileModel.v, so that the paths of the running
    system are followed from the root to the attached images. *)

From Stdlib Require Export ZArith Lia.
From Stdlib Require Export Strings.Ascii Strings.Byte.
From stdpp Require Export base numbers pretty strings gmap list.

#[global] Open Scope Z_scope.

Abbreviation byte := Init.Byte.byte.

(** ** Rust's [Result], and pure computations that may panic *)

Inductive result (A Er : Type) : Type :=
| Ok (a : A)
| Err (e : Er).
Arguments Ok {A Er} a.
Arguments Err {A Er} e.

Definition is_ok {A Er} (r : result A Er) : bool :=
  match r with Ok _ => true | Err _ => false end.

Definition map_err {A Er Er'} (f : Er -> Er') (r : result A Er) : result A Er' :=
  match r with Ok a => Ok a | Err e => Err (f e) end.

Definition result_map {A B Er} (f : A -> B) (r : result A Er) : result B Er :=
  match r with Ok a => Ok (f a) | Err e => Err e end.

(** [.ok()]: forget the error. *)
Definition result_ok {A Er} (r : result A Er) : option A :=
  match r with Ok a => Some a | Err _ => None end.

(** [.ok_or(e)] *)
Definition ok_or {A Er} (o : option A) (e : Er) : result A Er :=
  match o with Some a => Ok a | None => Err e end.

(** A pure Rust computation: it returns, panics (an index out of range, an
    overflowing [copy_from_slice]), or -- for the model only -- runs out of the
    fuel its loop was given.  Every loop has a theorem that excludes [NoFuel]. *)
Inductive comp (A : Type) : Type :=
| Val (a : A)
| Panicked
| NoFuel.
Arguments Val {A} a.
Arguments Panicked {A}.
Arguments NoFuel {A}.

#[export] Instance comp_eq_dec {A} `{EqDecision A} : EqDecision (comp A).
Proof. solve_decision. Defined.

#[export] Instance comp_ret : MRet comp := fun A a => Val a.
#[export] Instance comp_bind : MBind comp := fun A B f c =>
  match c with Val a => f a | Panicked => Panicked | NoFuel => NoFuel end.

(** The [?] operator, for any monad that carries a [Result]. *)
Definition try_bind {M : Type -> Type} `{MBind M, MRet M} {A B Er}
    (p : M (result A Er)) (f : A -> M (result B Er)) : M (result B Er) :=
  p ≫= fun r => match r with Ok a => f a | Err e => mret (Err e) end.

Declare Scope rust_scope.
Delimit Scope rust_scope with rust.
Notation "'let?' x ':=' p 'in' q" := (try_bind p (fun x => q))
  (at level 10, x name, p at level 100, q at level 200) : rust_scope.
Notation "'let?' ' x ':=' p 'in' q" := (try_bind p (fun x => q))
  (at level 10, x strict pattern, p at level 100, q at level 200) : rust_scope.
Notation "'let!' x ':=' p 'in' q" := (mbind (fun x => q) p)
  (at level 10, x name, p at level 100, q at level 200) : rust_scope.
Notation "'let!' ' x ':=' p 'in' q" := (mbind (fun x => q) p)
  (at level 10, x strict pattern, p at level 100, q at level 200) : rust_scope.
Notation "'do!' p 'in' q" := (mbind (fun _ => q) p)
  (at level 10, p at level 100, q at level 200) : rust_scope.
#[global] Open Scope rust_scope.

(** ** Machine integers and bytes *)

Definition b2z (b : byte) : Z := Z.of_N (Byte.to_N b).
Definition z2b (z : Z) : byte :=
  match Byte.of_N (Z.to_N (z mod 256)) with Some b => b | None => x00 end.

Definition U16 : Z := 65536.
Definition U32 : Z := 4294967296.
Definition U64 : Z := 18446744073709551616.
Definition u16_wrap (z : Z) : Z := z mod U16.
Definition u32_wrap (z : Z) : Z := z mod U32.
Definition u64_wrap (z : Z) : Z := z mod U64.

(** Little- and big-endian integers of any width, as [from_le_bytes],
    [from_be_bytes], [to_le_bytes] and [to_be_bytes]. *)
Fixpoint le_of (bs : list byte) : Z :=
  match bs with [] => 0 | b :: bs => b2z b + 256 * le_of bs end.
Definition be_of (bs : list byte) : Z := le_of (rev bs).
Fixpoint to_le (n : nat) (z : Z) : list byte :=
  match n with O => [] | S n => z2b z :: to_le n (z / 256) end.
Definition to_be (n : nat) (z : Z) : list byte := rev (to_le n z).

(** ** Vectors and slices indexed by [usize] *)

Definition len {A} (l : list A) : Z := Z.of_nat (length l).

(** [&l[a..b]] where the bounds hold. *)
Definition sub {A} (l : list A) (a b : Z) : list A :=
  take (Z.to_nat (b - a)) (drop (Z.to_nat a) l).

Definition in_bounds {A} (l : list A) (a b : Z) : bool :=
  (0 <=? a) && (a <=? b) && (b <=? len l).

(** [&l[a..b]]: panics when the range is decreasing or past the end. *)
Definition slice {A} (l : list A) (a b : Z) : comp (list A) :=
  if in_bounds l a b then Val (sub l a b) else Panicked.

(** [l[i]] *)
Definition index {A} (l : list A) (i : Z) : comp A :=
  if 0 <=? i then
    match l !! Z.to_nat i with Some a => Val a | None => Panicked end
  else Panicked.

(** [l[a..b].copy_from_slice(src)] *)
Definition copy_into {A} (l : list A) (a b : Z) (src : list A) : comp (list A) :=
  if in_bounds l a b && (len src =? b - a) then
    Val (take (Z.to_nat a) l ++ src ++ drop (Z.to_nat b) l)
  else Panicked.

(** [l[i] = v] *)
Definition set_index {A} (l : list A) (i : Z) (v : A) : comp (list A) :=
  copy_into l i (i + 1) [v].

(** [vec![0u8; n]] *)
Definition zeros (n : Z) : list byte := replicate (Z.to_nat n) x00.

(** Results of reading integers out of a slice at constant offsets. *)
Definition read_le (n : nat) (l : list byte) (a : Z) : comp Z :=
  let! bs := slice l a (a + Z.of_nat n) in mret (le_of bs).
Definition read_be (n : nat) (l : list byte) (a : Z) : comp Z :=
  let! bs := slice l a (a + Z.of_nat n) in mret (be_of bs).

(** ** Tactics *)

(** Reduce the monadic plumbing and nothing else. *)
Ltac mcbn := cbn [mbind comp_bind mret comp_ret try_bind].
Tactic Notation "mcbn" "in" hyp(H) := cbn [mbind comp_bind mret comp_ret try_bind] in H.

Ltac invc H := inversion H; subst; clear H.

(** Destruct the innermost [match] of the goal. *)
Ltac case_goal :=
  match goal with
  | |- context [match ?x with _ => _ end] =>
      lazymatch x with context [match _ with _ => _ end] => fail | _ => destruct x eqn:? end
  end.

(** Turn boolean integer tests in the hypotheses and the goal into propositions. *)
Ltac bool_prop :=
  repeat match goal with
  | H : _ && _ = true |- _ => apply andb_prop in H; destruct H
  | H : _ && _ = false |- _ => apply andb_false_iff in H
  | H : _ || _ = false |- _ => apply orb_false_elim in H; destruct H
  | H : _ || _ = true |- _ => apply orb_prop in H
  | H : negb _ = true |- _ => apply negb_true_iff in H
  | H : negb _ = false |- _ => apply negb_false_iff in H
  | H : (_ <=? _)%Z = true |- _ => apply Z.leb_le in H
  | H : (_ <=? _)%Z = false |- _ => apply Z.leb_gt in H
  | H : (_ <? _)%Z = true |- _ => apply Z.ltb_lt in H
  | H : (_ <? _)%Z = false |- _ => apply Z.ltb_ge in H
  | H : (_ =? _)%Z = true |- _ => apply Z.eqb_eq in H
  | H : (_ =? _)%Z = false |- _ => apply Z.eqb_neq in H
  end.

(** ** Bytes and integers *)

#[export] Instance byte_eq_dec : EqDecision byte := Byte.byte_eq_dec.

Lemma b2z_range b : 0 <= b2z b < 256.
Proof.
  unfold b2z. pose proof (Byte.to_N_bounded b). lia.
Qed.

Lemma z2b_b2z b : z2b (b2z b) = b.
Proof.
  unfold z2b. rewrite Z.mod_small by apply b2z_range.
  unfold b2z. rewrite N2Z.id, Byte.of_to_N. done.
Qed.

Lemma b2z_z2b z : b2z (z2b z) = z mod 256.
Proof.
  unfold z2b. pose proof (Z.mod_pos_bound z 256 ltac:(lia)) as Hr.
  destruct (Byte.of_N (Z.to_N (z mod 256))) as [b|] eqn:E.
  - unfold b2z. apply Byte.to_of_N in E. rewrite E. lia.
  - apply Byte.of_N_None_iff in E. lia.
Qed.

Lemma b2z_inj b c : b2z b = b2z c -> b = c.
Proof. intros H. rewrite <- (z2b_b2z b), H. apply z2b_b2z. Qed.

Lemma z2b_mod z : z2b (z mod 256) = z2b z.
Proof. apply b2z_inj. rewrite !b2z_z2b, Zmod_mod. done. Qed.

Lemma length_to_le n z : length (to_le n z) = n.
Proof. revert z. induction n; intros; cbn; auto. Qed.

Lemma length_to_be n z : length (to_be n z) = n.
Proof. unfold to_be. rewrite length_rev. apply length_to_le. Qed.

Lemma pow256_pos n : 0 < 256 ^ Z.of_nat n.
Proof. apply Z.pow_pos_nonneg; lia. Qed.

Lemma le_of_range bs : 0 <= le_of bs < 256 ^ Z.of_nat (length bs).
Proof.
  induction bs as [|b bs IH]; cbn [le_of length].
  - cbn. lia.
  - rewrite Nat2Z.inj_succ, Z.pow_succ_r by lia.
    pose proof (b2z_range b). nia.
Qed.

Lemma le_of_to_le n z : le_of (to_le n z) = z mod 256 ^ Z.of_nat n.
Proof.
  revert z. induction n as [|n IH]; intros z; cbn [to_le le_of].
  - cbn. rewrite Z.mod_1_r. done.
  - rewrite IH, b2z_z2b, Nat2Z.inj_succ, Z.pow_succ_r by lia.
    rewrite Z.rem_mul_r by (try apply pow256_pos; lia). lia.
Qed.

Lemma to_le_le_of bs : to_le (length bs) (le_of bs) = bs.
Proof.
  induction bs as [|b bs IH]; cbn [to_le le_of length]; [done|].
  f_equal.
  - apply b2z_inj. rewrite b2z_z2b, Z.mul_comm, Z.mod_add by lia.
    apply Z.mod_small, b2z_range.
  - rewrite Z.mul_comm, Z.div_add, Z.div_small by (try apply b2z_range; lia).
    done.
Qed.

Lemma be_of_to_be n z : be_of (to_be n z) = z mod 256 ^ Z.of_nat n.
Proof. unfold be_of, to_be. rewrite rev_involutive. apply le_of_to_le. Qed.

Lemma be_of_range bs : 0 <= be_of bs < 256 ^ Z.of_nat (length bs).
Proof. unfold be_of. rewrite <- length_rev. apply le_of_range. Qed.

Lemma le_of_lt (n : nat) bs : length bs = n -> 0 <= le_of bs < 256 ^ Z.of_nat n.
Proof. intros <-. apply le_of_range. Qed.

(** ** Slices *)

Section slices.
Context {A : Type}.
Implicit Types l m : list A.

Lemma len_nil : len (@nil A) = 0.
Proof. done. Qed.

Lemma len_cons (a : A) l : len (a :: l) = 1 + len l.
Proof. unfold len. cbn [length]. lia. Qed.

Lemma len_app l m : len (l ++ m) = len l + len m.
Proof. unfold len. rewrite length_app. lia. Qed.

Lemma len_nonneg l : 0 <= len l.
Proof. unfold len. lia. Qed.

Lemma len_sub l a b : 0 <= a <= b -> b <= len l -> len (sub l a b) = b - a.
Proof. unfold len, sub. intros. rewrite length_take, length_drop. lia. Qed.

Lemma in_bounds_spec l a b : in_bounds l a b = true <-> 0 <= a <= b /\ b <= len l.
Proof. unfold in_bounds. rewrite !andb_true_iff, !Z.leb_le. tauto. Qed.

Lemma slice_val l a b : 0 <= a <= b -> b <= len l -> slice l a b = Val (sub l a b).
Proof.
  intros. unfold slice.
  rewrite (proj2 (in_bounds_spec l a b)) by tauto. done.
Qed.

Lemma slice_inv l a b r :
  slice l a b = Val r -> 0 <= a <= b /\ b <= len l /\ r = sub l a b.
Proof.
  unfold slice. destruct (in_bounds l a b) eqn:E; [|done].
  apply in_bounds_spec in E. intros [= <-]. tauto.
Qed.

Lemma slice_panics l a b : b < a \/ len l < b -> slice l a b = Panicked.
Proof.
  intros H. unfold slice. destruct (in_bounds l a b) eqn:E; [|done].
  apply in_bounds_spec in E. lia.
Qed.

Lemma index_val l i (a : A) : 0 <= i -> l !! Z.to_nat i = Some a -> index l i = Val a.
Proof. intros Hi H. unfold index. destruct (Z.leb_spec 0 i); [|lia]. rewrite H. done. Qed.

Lemma index_some l i : 0 <= i < len l -> exists a, l !! Z.to_nat i = Some a /\ index l i = Val a.
Proof.
  unfold len. intros Hi.
  destruct (lookup_lt_is_Some_2 l (Z.to_nat i)) as [a Ha]; [lia|].
  exists a. split; [done|]. apply index_val; [lia|done].
Qed.

Lemma index_panics l i : len l <= i -> index l i = Panicked.
Proof.
  unfold index, len. intros Hi. destruct (0 <=? i); [|done].
  rewrite lookup_ge_None_2 by lia. done.
Qed.

Lemma sub_app_l l m b : b = len l -> sub (l ++ m) 0 b = l.
Proof.
  intros ->. unfold sub, len. rewrite Z.sub_0_r, Nat2Z.id. cbn.
  apply take_app_length.
Qed.

Lemma sub_app_skip l m a b :
  len l <= a -> a <= b -> sub (l ++ m) a b = sub m (a - len l) (b - len l).
Proof.
  unfold sub, len. intros. rewrite drop_app_ge by lia.
  f_equal; [lia|]. f_equal. lia.
Qed.

Lemma sub_app_take l m a b :
  0 <= a -> b <= len l -> sub (l ++ m) a b = sub l a b.
Proof.
  unfold sub, len. intros. destruct (Z.le_gt_cases a b); [|].
  - rewrite drop_app_le by lia. rewrite take_app_le; [done|]. rewrite length_drop. lia.
  - replace (Z.to_nat (b - a)) with 0%nat by lia. done.
Qed.

Lemma sub_all l b : b = len l -> sub l 0 b = l.
Proof.
  intros ->. unfold sub, len. rewrite Z.sub_0_r, Nat2Z.id. cbn. apply take_ge. done.
Qed.

Lemma sub_nil l a : sub l a a = [].
Proof. unfold sub. rewrite Z.sub_diag. done. Qed.

Lemma copy_into_val l a b src :
  0 <= a <= b -> b <= len l -> len src = b - a ->
  copy_into l a b src = Val (take (Z.to_nat a) l ++ src ++ drop (Z.to_nat b) l).
Proof.
  intros. unfold copy_into.
  rewrite (proj2 (in_bounds_spec l a b)) by tauto.
  destruct (Z.eqb_spec (len src) (b - a)); [done|lia].
Qed.

Lemma copy_into_panics l a b src :
  len l < b \/ b < a \/ len src <> b - a -> copy_into l a b src = Panicked.
Proof.
  intros H. unfold copy_into. destruct (in_bounds l a b && _) eqn:E; [|done].
  bool_prop. apply in_bounds_spec in H0. lia.
Qed.

(** Writing [src] just after [pre]: the buffer is what was written, then
    [src], then what remains. *)
Lemma copy_into_app (pre hole rest src : list A) b :
  len src = len hole -> b = len pre + len src ->
  copy_into (pre ++ hole ++ rest) (len pre) b src = Val (pre ++ src ++ rest).
Proof.
  intros Hl ->. rewrite copy_into_val; rewrite ?len_app;
    [|pose proof (len_nonneg pre); pose proof (len_nonneg src); lia
     |pose proof (len_nonneg rest); lia|lia].
  f_equal. unfold len in *. rewrite Nat2Z.id, take_app_length.
  rewrite drop_app_ge by lia. rewrite drop_app_ge by lia.
  replace (_ - _ - _)%nat with 0%nat by lia. done.
Qed.

Lemma copy_at (data pre hole rest src : list A) a b :
  data = pre ++ hole ++ rest -> a = len pre -> len src = len hole -> b = len pre + len src ->
  copy_into data a b src = Val (pre ++ src ++ rest).
Proof. intros -> ->. apply copy_into_app. Qed.

End slices.

Create Rewrite HintDb len.
#[export] Hint Rewrite @len_nil : len.
#[export] Hint Rewrite @len_cons : len.
#[export] Hint Rewrite @len_app : len.

Lemma len_zeros n : 0 <= n -> len (zeros n) = n.
Proof. intros. unfold zeros, len. rewrite length_replicate. lia. Qed.

Lemma zeros_app n m : 0 <= n -> 0 <= m -> zeros (n + m) = zeros n ++ zeros m.
Proof.
  intros. unfold zeros. rewrite Z2Nat.inj_add by lia. apply replicate_add.
Qed.

Lemma read_le_val n l a :
  0 <= a -> a + Z.of_nat n <= len l -> read_le n l a = Val (le_of (sub l a (a + Z.of_nat n))).
Proof. intros. unfold read_le. rewrite slice_val by lia. done. Qed.

Lemma read_le_inv n l a v :
  read_le n l a = Val v -> 0 <= a /\ a + Z.of_nat n <= len l /\ 0 <= v < 256 ^ Z.of_nat n.
Proof.
  unfold read_le. destruct (slice l a _) as [bs| |] eqn:E; cbn; [|done|done].
  intros [= <-]. apply slice_inv in E as (?&?&->). split; [lia|]. split; [lia|].
  apply le_of_lt. apply Nat2Z.inj. fold (len (sub l a (a + Z.of_nat n))).
  rewrite len_sub; lia.
Qed.

(** ** The monad of [comp] *)

Lemma comp_bind_val {A B} (f : A -> comp B) a : (Val a ≫= f) = f a.
Proof. done. Qed.

Lemma comp_bind_inv {A B} (f : A -> comp B) c b :
  c ≫= f = Val b -> exists a, c = Val a /\ f a = Val b.
Proof. destruct c; cbn; intros; [eauto|done|done]. Qed.

(** ** Reading at a position of a concatenation *)

Lemma slice_at {A} (data pre mid post : list A) a b :
  data = pre ++ mid ++ post -> a = len pre -> b = len pre + len mid ->
  slice data a b = Val mid.
Proof.
  intros -> -> ->. pose proof (len_nonneg pre). pose proof (len_nonneg mid).
  rewrite slice_val by (rewrite ?len_app; pose proof (len_nonneg post); lia).
  f_equal. rewrite sub_app_skip by lia. rewrite Z.sub_diag.
  apply sub_app_l. lia.
Qed.

Lemma read_le_at n data (pre mid post : list byte) a :
  data = pre ++ mid ++ post -> a = len pre -> length mid = n ->
  read_le n data a = Val (le_of mid).
Proof.
  intros Hd Ha Hn. unfold read_le.
  rewrite (slice_at data pre mid post); [done|done|done|unfold len in *; lia].
Qed.

Lemma read_be_at n data (pre mid post : list byte) a :
  data = pre ++ mid ++ post -> a = len pre -> length mid = n ->
  read_be n data a = Val (be_of mid).
Proof.
  intros Hd Ha Hn. unfold read_be.
  rewrite (slice_at data pre mid post); [done|done|done|unfold len in *; lia].
Qed.

Lemma index_at {A} (data pre post : list A) x a :
  data = pre ++ x :: post -> a = len pre -> index data a = Val x.
Proof.
  intros -> ->. apply index_val; [apply len_nonneg|]. unfold len. rewrite Nat2Z.id.
  apply list_lookup_middle. done.
Qed.

Lemma le_of_to_le_small n z : 0 <= z < 256 ^ Z.of_nat n -> le_of (to_le n z) = z.
Proof. intros. rewrite le_of_to_le. apply Z.mod_small. done. Qed.

Lemma len_to_le n z : len (to_le n z) = Z.of_nat n.
Proof. unfold len. rewrite length_to_le. done. Qed.

Lemma len_to_be n z : len (to_be n z) = Z.of_nat n.
Proof. unfold len. rewrite length_to_be. done. Qed.

#[export] Hint Rewrite len_to_le : len.
#[export] Hint Rewrite len_to_be : len.

Lemma read_le_bounds n l a :
  0 <= a -> a + Z.of_nat n <= len l ->
  exists v, read_le n l a = Val v /\ 0 <= v < 256 ^ Z.of_nat n.
Proof.
  intros. eexists. split; [by apply read_le_val|].
  apply le_of_lt. apply Nat2Z.inj. fold (len (sub l a (a + Z.of_nat n))).
  rewrite len_sub; lia.
Qed.

(** Equality of concatenations up to associativity. *)
Ltac app_eq := rewrite <- ?(assoc_L app); cbn [app]; rewrite <- ?(assoc_L app); reflexivity.
Ltac len_tac := autorewrite with len in *; lia.
