(* ===== verification/Prog.v ===== *)
(** Effectful Rust code as trees of system calls.

    A function that talks to the kernel or to the firmware is a finite tree
    [prog E A]: it returns, it stops the process (panic, exit, a successful
    [execve]), or it issues one call [e : E X] and continues with the answer.
    Nothing is assumed about the answers: a statement about every execution
    ([exec]) holds for every kernel, and [run] executes a program against a
    concrete one.  [wp] is the program logic: [guard] is what must hold when a
    call is issued, [assume] what may be relied on about its answer. *)

From S2P Require Import Prelude.

(** Why a process stopped without returning. *)
Inductive halt : Type :=
| Panic
| OutOfFuel            (** model only: a fuelled loop ran out of fuel *)
| Exit (code : Z)      (** [process::exit] *)
| Replaced             (** [execve] or a firmware handover succeeded *)
.

Inductive outcome (A : Type) : Type :=
| Done (a : A)
| Stopped (s : halt).
Arguments Done {A} a.
Arguments Stopped {A} s.

Inductive prog (E : Type -> Type) (A : Type) : Type :=
| Ret (a : A)
| Halt (s : halt)
| Vis {X : Type} (e : E X) (k : X -> prog E A).
Arguments Ret {E A} a.
Arguments Halt {E A} s.
Arguments Vis {E A X} e k.

(** One call of an execution, with its answer. *)
Inductive event (E : Type -> Type) : Type :=
| Ev {X : Type} (e : E X) (x : X).
Arguments Ev {E X} e x.

Abbreviation hist E := (list (event E)).

Fixpoint prog_bind {E A B} (p : prog E A) (f : A -> prog E B) : prog E B :=
  match p with
  | Ret a => f a
  | Halt s => Halt s
  | Vis e k => Vis e (fun x => prog_bind (k x) f)
  end.

#[export] Instance prog_ret E : MRet (prog E) := fun A a => Ret a.
#[export] Instance prog_mbind E : MBind (prog E) := fun A B f p => prog_bind p f.

Definition trigger {E X} (e : E X) : prog E X := Vis e Ret.

(** A pure computation inside an effectful one. *)
Definition lift {E A} (c : comp A) : prog E A :=
  match c with Val a => Ret a | Panicked => Halt Panic | NoFuel => Halt OutOfFuel end.

(** [t] and [o] are the calls and the outcome of some execution of [p]. *)
Fixpoint exec {E A} (p : prog E A) (t : hist E) (o : outcome A) : Prop :=
  match p with
  | Ret a => t = [] /\ o = Done a
  | Halt s => t = [] /\ o = Stopped s
  | Vis e k => exists x t', t = Ev e x :: t' /\ exec (k x) t' o
  end.

(** The execution of [p] against the handler [os] of the calls. *)
Fixpoint run {E A W} (os : forall X, E X -> W -> X * W) (p : prog E A) (w : W)
    : hist E * outcome A * W :=
  match p with
  | Ret a => ([], Done a, w)
  | Halt s => ([], Stopped s, w)
  | Vis e k =>
      let '(x, w') := os _ e w in
      let '(t, o, w'') := run os (k x) w' in
      (Ev e x :: t, o, w'')
  end.

Record protocol (E : Type -> Type) : Type := Protocol {
  guard : hist E -> forall X, E X -> Prop;
  assume : hist E -> forall X, E X -> X -> Prop;
}.
Arguments Protocol {E} guard assume.
Arguments guard {E} p h {X} e.
Arguments assume {E} p h {X} e x.

Fixpoint wp {E A} (S : protocol E) (p : prog E A) (h : hist E)
    (Q : hist E -> outcome A -> Prop) : Prop :=
  match p with
  | Ret a => Q h (Done a)
  | Halt s => Q h (Stopped s)
  | Vis e k => guard S h e /\ forall x, assume S h e x -> wp S (k x) (h ++ [Ev e x]) Q
  end.

(** [p] only issues calls that satisfy [ok]. *)
Fixpoint quiet {E A} (ok : forall X, E X -> Prop) (p : prog E A) : Prop :=
  match p with
  | Ret _ | Halt _ => True
  | Vis e k => ok _ e /\ forall x, quiet ok (k x)
  end.

(** The same, and where [p] stops, it stops with a [fin]. *)
Fixpoint tame {E A} (ok : forall X, E X -> Prop) (fin : halt -> Prop) (p : prog E A) : Prop :=
  match p with
  | Ret _ => True
  | Halt s => fin s
  | Vis e k => ok _ e /\ forall x, tame ok fin (k x)
  end.

(** The process stopped because of an error in the program. *)
Definition crash (s : halt) : Prop := s = Panic \/ s = OutOfFuel.

(** Every call of [t], issued after [h], satisfies the guard; every answer the
    assumption. *)
Definition event_guard {E} (S : protocol E) (h : hist E) (v : event E) : Prop :=
  match v with Ev e _ => guard S h e end.
Definition event_assume {E} (S : protocol E) (h : hist E) (v : event E) : Prop :=
  match v with Ev e x => assume S h e x end.
Definition guarded {E} (S : protocol E) (h t : hist E) : Prop :=
  forall t1 v t2, t = t1 ++ v :: t2 -> event_guard S (h ++ t1) v.
Definition answered {E} (S : protocol E) (h t : hist E) : Prop :=
  forall t1 v t2, t = t1 ++ v :: t2 -> event_assume S (h ++ t1) v.

(** The protocol that asks and assumes nothing. *)
Definition free_protocol {E} : protocol E :=
  Protocol (fun _ _ _ => True) (fun _ _ _ _ => True).

(** ** Equations of the monad *)

Section equations.
Context {E : Type -> Type}.

Lemma prog_bind_ret {A B} (a : A) (f : A -> prog E B) : (Ret a ≫= f) = f a.
Proof. done. Qed.

Lemma prog_bind_halt {A B} s (f : A -> prog E B) : (Halt s ≫= f) = Halt s.
Proof. done. Qed.

Lemma prog_bind_vis {A B X} (e : E X) k (f : A -> prog E B) :
  (Vis e k ≫= f) = Vis e (fun x => k x ≫= f).
Proof. done. Qed.

Lemma lift_val {A} (a : A) : lift (E:=E) (Val a) = Ret a.
Proof. done. Qed.

End equations.

(** ** Executions *)

Section executions.
Context {E : Type -> Type}.

Lemma exec_bind {A B} (p : prog E A) (f : A -> prog E B) t o :
  exec (p ≫= f) t o <->
  (exists t1 t2 a, t = t1 ++ t2 /\ exec p t1 (Done a) /\ exec (f a) t2 o) \/
  (exists s, exec p t (Stopped s) /\ o = Stopped s).
Proof.
  revert t. induction p as [a|s|X e k IH]; intros t; cbn.
  - split.
    + intros H. left. exists [], t, a. done.
    + intros [(t1&t2&a'&->&[-> Ha]&Hf)|(s&[_ ?]&_)]; [|done].
      injection Ha as <-. done.
  - split.
    + intros [-> ->]. right. eauto.
    + intros [(t1&t2&a'&_&[_ ?]&_)|(s'&[-> Hs]&->)]; [done|].
      injection Hs as <-. done.
  - split.
    + intros (x&t'&->&H). apply IH in H as [(t1&t2&a&->&H1&H2)|(s&H&->)].
      * left. exists (Ev e x :: t1), t2, a. eauto 10.
      * right. eauto 10.
    + intros [(t1&t2&a&->&(x&t'&->&H1)&H2)|(s&(x&t'&->&H)&->)].
      * exists x, (t' ++ t2). split; [done|]. apply IH. left. eauto 10.
      * exists x, t'. split; [done|]. apply IH. right. eauto 10.
Qed.

Lemma run_exec {A W} (os : forall X, E X -> W -> X * W) (p : prog E A) w t o w' :
  run os p w = (t, o, w') -> exec p t o.
Proof.
  revert w t. induction p as [a|s|X e k IH]; intros w t; cbn.
  - intros [= <- <- _]. done.
  - intros [= <- <- _]. done.
  - destruct (os X e w) as [x w1] eqn:E1. destruct (run os (k x) w1) as [[t1 o1] w2] eqn:E2.
    intros [= <- <- <-]. eauto.
Qed.

Lemma run_is_exec {A W} (os : forall X, E X -> W -> X * W) (p : prog E A) w :
  exec p (run os p w).1.1 (run os p w).1.2.
Proof. destruct (run os p w) as [[t o] w'] eqn:H. by eapply run_exec. Qed.

End executions.

(** ** The program logic *)

Section wp.
Context {E : Type -> Type}.
Implicit Type S : protocol E.

Lemma wp_bind {A B} S (p : prog E A) (f : A -> prog E B) h Q :
  wp S p h (fun h' o => match o with Done a => wp S (f a) h' Q | Stopped s => Q h' (Stopped s) end) ->
  wp S (p ≫= f) h Q.
Proof.
  revert h. induction p as [a|s|X e k IH]; intros h; cbn; [done|done|].
  intros [Hg H]. split; [done|]. intros x Hx. apply IH. auto.
Qed.

Lemma wp_mono {A} S (p : prog E A) h (Q Q' : hist E -> outcome A -> Prop) :
  wp S p h Q -> (forall h' o, Q h' o -> Q' h' o) -> wp S p h Q'.
Proof.
  revert h. induction p as [a|s|X e k IH]; intros h; cbn; auto.
  intros [Hg H] HQ. split; [done|]. intros x Hx. eapply IH; eauto.
Qed.

(** The history only grows. *)
Lemma wp_prefix {A} S (p : prog E A) h (Q : hist E -> outcome A -> Prop) :
  wp S p h Q -> wp S p h (fun h' o => h `prefix_of` h' /\ Q h' o).
Proof.
  revert h. induction p as [a|s|X e k IH]; intros h; cbn; [done|done|].
  intros [Hg H]. split; [done|]. intros x Hx.
  eapply wp_mono; [apply IH; auto|]. cbn. intros h' o [Hp HQ]. split; [|done].
  etrans; [|exact Hp]. eexists. done.
Qed.

Lemma wp_conj {A} S (p : prog E A) h (Q Q' : hist E -> outcome A -> Prop) :
  wp S p h Q -> wp S p h Q' -> wp S p h (fun h' o => Q h' o /\ Q' h' o).
Proof.
  revert h. induction p as [a|s|X e k IH]; intros h; cbn; [done|done|].
  intros [Hg H] [_ H']. split; auto.
Qed.

(** Any number of postconditions at once. *)
Lemma wp_forall {A I} S (p : prog E A) (Q : I -> hist E -> outcome A -> Prop) h Q0 :
  wp S p h Q0 -> (forall i, wp S p h (Q i)) -> wp S p h (fun h' o => Q0 h' o /\ forall i, Q i h' o).
Proof.
  revert h. induction p as [a|s|X e k IH]; intros h; cbn; [done..|].
  intros [Hg H0] H. split; [done|]. intros x Hx. apply IH; [by apply H0|]. intros i. by apply H.
Qed.

Lemma wp_ret {A} S (a : A) h (Q : hist E -> outcome A -> Prop) : Q h (Done a) -> wp S (Ret a) h Q.
Proof. done. Qed.

Lemma wp_trigger {X} S (e : E X) h (Q : hist E -> outcome X -> Prop) :
  guard S h e -> (forall x, assume S h e x -> Q (h ++ [Ev e x]) (Done x)) -> wp S (trigger e) h Q.
Proof. done. Qed.

Lemma wp_lift {A} S (c : comp A) h (Q : hist E -> outcome A -> Prop) :
  match c with Val a => Q h (Done a) | Panicked => Q h (Stopped Panic)
  | NoFuel => Q h (Stopped OutOfFuel) end -> wp S (lift c) h Q.
Proof. destruct c; done. Qed.

Lemma wp_try {A B Er} S (p : prog E (result A Er)) (f : A -> prog E (result B Er)) h Q :
  wp S p h (fun h' o => match o with
                        | Done (Ok a) => wp S (f a) h' Q
                        | Done (Err e) => Q h' (Done (Err e))
                        | Stopped s => Q h' (Stopped s) end) ->
  wp S (try_bind p f) h Q.
Proof.
  intros H. unfold try_bind. apply wp_bind. eapply wp_mono; [exact H|].
  intros h' [[a|e]|s] HQ; done.
Qed.

(** A program that only issues calls whose guard always holds. *)
Lemma wp_quiet {A} S ok (p : prog E A) h :
  (forall h X (e : E X), ok X e -> guard S h e) ->
  quiet ok p -> wp S p h (fun h' _ => h `prefix_of` h').
Proof.
  intros Hok. revert h. induction p as [a|s|X e k IH]; intros h; cbn; [done|done|].
  intros [He H]. split; [auto|]. intros x _. eapply wp_mono; [apply IH; auto|]. cbn.
  intros h' _ Hp. etrans; [|exact Hp]. eexists. done.
Qed.

(** The same, when the guard only holds from the current history on. *)
Lemma wp_quiet_from {A} S ok (p : prog E A) h :
  (forall h' X (e : E X), h `prefix_of` h' -> ok X e -> guard S h' e) ->
  quiet ok p -> wp S p h (fun h' _ => h `prefix_of` h').
Proof.
  intros Hok Hq.
  assert (forall h1, h `prefix_of` h1 -> wp S p h1 (fun h' _ => h `prefix_of` h')) as H; [|by apply H].
  induction p as [a|s|X e k IH]; intros h1 Hp; cbn in *; [done|done|].
  destruct Hq as [He Hq]. split; [auto|]. intros x _. apply IH; [auto|].
  etrans; [exact Hp|]. eexists. done.
Qed.

(** A program that only issues calls of [ok] may be considered under a protocol
    that allows them. *)
Lemma wp_weaken {A} S ok (p : prog E A) h Q :
  (forall h X (e : E X), ok X e -> guard S h e) -> quiet ok p ->
  wp free_protocol p h Q -> wp S p h Q.
Proof.
  intros Hok. revert h. induction p as [a|s|X e k IH]; intros h Hq H; cbn in *; [done|done|].
  destruct Hq as [He Hq], H as [_ H]. split; [auto|]. intros x _. apply IH; auto.
Qed.

(** More may be assumed of the answers. *)
Lemma wp_assume {A} S S' (p : prog E A) h Q :
  (forall h X (e : E X), guard S' h e) -> (forall h X (e : E X) x, assume S' h e x -> assume S h e x) ->
  wp S p h Q -> wp S' p h Q.
Proof.
  intros Hg Ha. revert h. induction p as [a|s|X e k IH]; intros h H; cbn in *; [done|done|].
  split; [done|]. intros x Hx. apply IH, H, Ha, Hx.
Qed.

(** A postcondition for a composition of which only the histories matter. *)
Lemma wp_bind_prefix {A B} S (p : prog E A) (f : A -> prog E B) h :
  wp S p h (fun h' _ => h `prefix_of` h') ->
  (forall a h', h `prefix_of` h' -> wp S (f a) h' (fun h'' _ => h' `prefix_of` h'')) ->
  wp S (p ≫= f) h (fun h' _ => h `prefix_of` h').
Proof.
  intros Hp Hf. apply wp_bind. eapply wp_mono; [exact Hp|]. intros h' [a|s] Hp'; [|done].
  eapply wp_mono; [by apply Hf|]. intros h'' o Hp''. cbn in *. by etrans.
Qed.

Lemma quiet_bind {A B} ok (p : prog E A) (f : A -> prog E B) :
  quiet ok p -> (forall a, quiet ok (f a)) -> quiet ok (p ≫= f).
Proof.
  intros Hp Hf. induction p as [a|s|X e k IH]; cbn in *; [auto|done|].
  destruct Hp as [He H]. split; [done|]. intros x. apply IH, H.
Qed.

Lemma quiet_try {A B Er} ok (p : prog E (result A Er)) (f : A -> prog E (result B Er)) :
  quiet ok p -> (forall a, quiet ok (f a)) -> quiet ok (try_bind p f).
Proof. intros Hp Hf. apply quiet_bind; [done|]. intros [a|e]; [auto|done]. Qed.

Lemma quiet_try_ok {A B Er} ok (a : A) (f : A -> prog E (result B Er)) :
  quiet ok (f a) -> quiet ok (try_bind (mret (Ok a)) f).
Proof. done. Qed.

Lemma quiet_lift {A} ok (c : comp A) : quiet (E:=E) ok (lift c).
Proof. destruct c; done. Qed.

Lemma quiet_mono {A} (ok ok' : forall X, E X -> Prop) (p : prog E A) :
  quiet ok p -> (forall X e, ok X e -> ok' X e) -> quiet ok' p.
Proof.
  intros Hp Hm. induction p as [a|s|X e k IH]; cbn in *; [done|done|].
  destruct Hp. split; auto.
Qed.

Lemma guarded_cons S h X (e : E X) x t :
  guard S h e -> guarded S (h ++ [Ev e x]) t -> guarded S h (Ev e x :: t).
Proof.
  intros Hg Ht [|v' t1] v t2; cbn.
  - intros [= <- _]. rewrite app_nil_r. done.
  - intros [= <- ->]. rewrite (cons_middle _ h), (assoc_L app).
    eapply Ht. done.
Qed.

Lemma answered_cons S h X (e : E X) x t :
  answered S h (Ev e x :: t) -> assume S h e x /\ answered S (h ++ [Ev e x]) t.
Proof.
  intros H. split.
  - specialize (H [] _ t eq_refl). rewrite app_nil_r in H. done.
  - intros t1 v t2 ->. rewrite <- (assoc_L app). apply (H (Ev e x :: t1) v t2). done.
Qed.

Lemma answered_nil S h : answered S h [].
Proof. intros [|] ???; done. Qed.

Lemma answered_step S h v t : event_assume S h v -> answered S (h ++ [v]) t -> answered S h (v :: t).
Proof.
  intros Hv Ht [|v' t1] w t2; cbn.
  - intros [= <- _]. by rewrite app_nil_r.
  - intros [= <- ->]. rewrite (cons_middle _ h), (assoc_L app). by eapply Ht.
Qed.

(** Soundness of [wp]: in every execution whose answers satisfy the
    assumptions, every call satisfies its guard and the outcome the
    postcondition. *)
Lemma wp_sound {A} S (p : prog E A) h t o Q :
  wp S p h Q -> exec p t o -> answered S h t -> guarded S h t /\ Q (h ++ t) o.
Proof.
  revert h t. induction p as [a|s|X e k IH]; intros h t; cbn.
  - intros HQ [-> ->] _. rewrite app_nil_r. split; [|done].
    intros [|] ???; done.
  - intros HQ [-> ->] _. rewrite app_nil_r. split; [|done].
    intros [|] ???; done.
  - intros [Hg H] (x&t'&->&Hx) Ha. apply answered_cons in Ha as [Hax Ha].
    destruct (IH x (h ++ [Ev e x]) t' (H x Hax) Hx Ha) as [Hgt HQ].
    split; [by apply guarded_cons|]. by rewrite cons_middle, (assoc_L app).
Qed.

(** Every kernel: the protocol assumes nothing. *)
Lemma wp_sound_all {A} S (p : prog E A) t o Q :
  wp S p [] Q -> exec p t o -> (forall h X (e : E X) x, assume S h e x) ->
  guarded S [] t /\ Q t o.
Proof.
  intros H Hx Ha. apply (wp_sound _ _ [] t o Q H Hx). intros t1 [X e x] t2 _. apply Ha.
Qed.

(** What was called is an execution. *)
Lemma wp_trace {A} S (p : prog E A) h Q :
  wp S p h Q -> wp S p h (fun h' o => Q h' o /\ exists t, h' = h ++ t /\ exec p t o).
Proof.
  revert h Q. induction p as [a|s|X e k IH]; intros h Q H; cbn in *.
  1,2: split; [done|]; exists []; by rewrite app_nil_r.
  destruct H as [Hg H]. split; [done|]. intros x Hx.
  eapply wp_mono; [apply IH, H, Hx|]. intros h' o (HQ&t&->&Ht). split; [done|].
  exists (Ev e x :: t). split; [by rewrite <- (assoc_L app)|]. by exists x, t.
Qed.

(** A program about which nothing is asked. *)
Lemma wp_any {A} (p : prog E A) h : wp free_protocol p h (fun h' _ => h `prefix_of` h').
Proof.
  revert h. induction p as [a|s|X e k IH]; intros h; cbn; [done|done|].
  split; [done|]. intros x _. eapply wp_mono; [apply IH|]. cbn.
  intros h' _ Hp. etrans; [|exact Hp]. eexists. done.
Qed.

Lemma wp_exec {A} (p : prog E A) t o Q : wp free_protocol p [] Q -> exec p t o -> Q t o.
Proof. intros H Hx. by eapply wp_sound_all. Qed.

End wp.

(** What a program can return. *)
Fixpoint returns {E A} (Q : A -> Prop) (p : prog E A) : Prop :=
  match p with
  | Ret a => Q a
  | Halt _ => True
  | Vis e k => forall x, returns Q (k x)
  end.

Lemma returns_exec {E A} Q (p : prog E A) t a : returns Q p -> exec p t (Done a) -> Q a.
Proof.
  revert t. induction p as [b|s|X e k IH]; intros t; cbn.
  - intros H [_ [= ->]]. done.
  - intros _ [_ [=]].
  - intros H (x&t'&_&Hx). eapply IH; eauto.
Qed.

Lemma returns_bind {E A B} Q (p : prog E A) (f : A -> prog E B) :
  (forall a, returns Q (f a)) -> returns Q (p ≫= f).
Proof. intros H. induction p as [a|s|X e k IH]; cbn; auto. Qed.

Lemma returns_try {E A B Er} (Q : result B Er -> Prop) (p : prog E (result A Er)) f :
  (forall e, Q (Err e)) -> (forall a, returns Q (f a)) -> returns Q (try_bind p f).
Proof. intros He H. apply returns_bind. intros [a|e]; [apply H|apply He]. Qed.

(** A program that always returns. *)
Fixpoint total {E A} (p : prog E A) : Prop :=
  match p with
  | Ret _ => True
  | Halt _ => False
  | Vis e k => forall x, total (k x)
  end.

Lemma total_bind {E A B} (p : prog E A) (f : A -> prog E B) :
  total p -> (forall a, total (f a)) -> total (p ≫= f).
Proof. intros Hp Hf. induction p as [a|s|X e k IH]; cbn in *; [apply Hf|done|]. intros x. apply IH, Hp. Qed.

Lemma total_try {E A B Er} (p : prog E (result A Er)) (f : A -> prog E (result B Er)) :
  total p -> (forall a, total (f a)) -> total (try_bind p f).
Proof. intros Hp Hf. apply total_bind; [done|]. intros [a|e]; [apply Hf|done]. Qed.

Lemma wp_total {E A} (S : protocol E) ok (p : prog E A) h :
  (forall h X (e : E X), ok X e -> guard S h e) -> quiet ok p -> total p ->
  wp S p h (fun h' o => h `prefix_of` h' /\ exists a, o = Done a).
Proof.
  intros Hok. revert h. induction p as [a|s|X e k IH]; intros h Hq Ht; cbn in *; [eauto|done|].
  destruct Hq as [He Hq]. split; [auto|]. intros x _. eapply wp_mono; [apply IH; auto|]. cbn.
  intros h' o [Hp Ho]. split; [|done]. etrans; [|exact Hp]. eexists. done.
Qed.

Lemma quiet_total_tame {E A} (ok : forall X, E X -> Prop) fin (p : prog E A) :
  quiet ok p -> total p -> tame ok fin p.
Proof. induction p as [a|s|X e k IH]; cbn; [done..|]. intros [? Hq] Ht. split; auto. Qed.

(** Executions of the compositions that succeed. *)
Lemma outcome_ok_inj {A Er} (a b : A) : Done (Ok (Er := Er) a) = Done (Ok b) -> a = b.
Proof. by intros [= ->]. Qed.

Lemma exec_bind_done {E A B} (p : prog E A) (f : A -> prog E B) t b :
  exec (p ≫= f) t (Done b) -> exists t1 t2 a, t = t1 ++ t2 /\ exec p t1 (Done a) /\ exec (f a) t2 (Done b).
Proof. intros H. apply exec_bind in H as [H|(s&_&[=])]; done. Qed.

Lemma exec_try_ok {E A B Er} (p : prog E (result A Er)) (f : A -> prog E (result B Er)) t b :
  exec (try_bind p f) t (Done (Ok b)) ->
  exists t1 t2 a, t = t1 ++ t2 /\ exec p t1 (Done (Ok a)) /\ exec (f a) t2 (Done (Ok b)).
Proof.
  intros H. apply exec_bind_done in H as (t1&t2&[a|e]&->&H1&H2); [by exists t1, t2, a|].
  destruct H2 as [_ [=]].
Qed.

Lemma exec_ret {E A} (a : A) t (o : outcome A) : exec (E:=E) (mret a) t o -> t = [] /\ o = Done a.
Proof. done. Qed.

(** Every call of an execution satisfies what [quiet] says of them. *)
Definition event_ok {E} (ok : forall X, E X -> Prop) (v : event E) : Prop :=
  match v with Ev e _ => ok _ e end.

Lemma quiet_exec {E A} ok (p : prog E A) t o : quiet ok p -> exec p t o -> Forall (event_ok ok) t.
Proof.
  revert t. induction p as [a|s|X e k IH]; intros t; cbn.
  - intros _ [-> _]. constructor.
  - intros _ [-> _]. constructor.
  - intros [He Hk] (x&t'&->&H). constructor; [exact He|]. eapply IH; eauto.
Qed.

Lemma elem_of_prefix {A} (x : A) l k : l `prefix_of` k -> x ∈ l -> x ∈ k.
Proof. intros [m ->] H. apply elem_of_app. auto. Qed.

(** ** Calls and stops *)

Section tame.
Context {E : Type -> Type} (ok : forall X, E X -> Prop).

Lemma tame_quiet {A} fin (p : prog E A) : tame ok fin p -> quiet ok p.
Proof. induction p as [a|s|X e k IH]; cbn; [done..|]. intros [? H]. split; auto. Qed.

Lemma tame_exec {A} fin (p : prog E A) t o :
  tame ok fin p -> exec p t o ->
  Forall (event_ok ok) t /\ match o with Done _ => True | Stopped s => fin s end.
Proof.
  intros Hp H. split; [eapply quiet_exec, H; by eapply tame_quiet|]. revert t H.
  induction p as [a|s|X e k IH]; intros t; cbn in *.
  - by intros [_ ->].
  - by intros [_ ->].
  - intros (x&t'&_&H). destruct Hp as [_ Hp]. eapply IH; eauto.
Qed.

Lemma tame_mono {A} (ok' : forall X, E X -> Prop) fin (p : prog E A) :
  tame ok fin p -> (forall X e, ok X e -> ok' X e) -> tame ok' fin p.
Proof.
  intros Hp Hm. induction p as [a|s|X e k IH]; cbn in *; [done..|]. destruct Hp. split; auto.
Qed.

Lemma tame_bind {A B} fin (p : prog E A) (f : A -> prog E B) :
  tame ok fin p -> (forall a, tame ok fin (f a)) -> tame ok fin (p ≫= f).
Proof.
  intros Hp Hf. induction p as [a|s|X e k IH]; cbn in *; [auto|done|].
  destruct Hp as [He H]. split; [done|]. intros x. apply IH, H.
Qed.

Lemma tame_try {A B Er} fin (p : prog E (result A Er)) (f : A -> prog E (result B Er)) :
  tame ok fin p -> (forall a, tame ok fin (f a)) -> tame ok fin (try_bind p f).
Proof. intros Hp Hf. apply tame_bind; [done|]. by intros [a|e]. Qed.

Lemma tame_lift {A} (c : comp A) : tame (E:=E) ok crash (lift c).
Proof. destruct c; cbn; unfold crash; auto. Qed.

End tame.

(** ** Programs with the same executions *)

#[export] Instance prog_equiv E A : Equiv (prog E A) := fun p q => forall t o, exec p t o <-> exec q t o.

#[export] Instance prog_equivalence E A : Equivalence (@equiv (prog E A) _).
Proof.
  split.
  - by intros p t o.
  - intros p q H t o. symmetry. apply H.
  - intros p q r H1 H2 t o. etrans; [apply H1|apply H2].
Qed.

#[export] Instance prog_bind_proper E A B :
  Proper (pointwise_relation A (≡) ==> (≡) ==> (≡)) (@mbind (prog E) _ A B).
Proof.
  intros f g Hf p q Hp t o. rewrite !exec_bind. split.
  - intros [(t1&t2&a&->&H1&H2)|(s&H1&->)].
    + left. exists t1, t2, a. split; [done|]. split; [by apply Hp|by apply Hf].
    + right. exists s. split; [by apply Hp|done].
  - intros [(t1&t2&a&->&H1&H2)|(s&H1&->)].
    + left. exists t1, t2, a. split; [done|]. split; [by apply Hp|by apply Hf].
    + right. exists s. split; [by apply Hp|done].
Qed.

(** The same calls, with equivalent continuations. *)
Lemma vis_equiv {E A X} (e : E X) (k k' : X -> prog E A) :
  (forall x, k x ≡ k' x) -> Vis e k ≡ Vis e k'.
Proof. intros H t o. cbn. split; intros (x&t'&->&Hx); exists x, t'; (split; [done|]); by apply H. Qed.

Lemma prog_bind_assoc {E A B C} (p : prog E A) (f : A -> prog E B) (g : B -> prog E C) :
  (p ≫= f) ≫= g ≡ p ≫= fun a => f a ≫= g.
Proof. induction p as [a|s|X e k IH]; [done|done|]. by apply vis_equiv. Qed.

(** A protocol that asks nothing is about executions only. *)
Lemma wp_equiv {E A} (S : protocol E) (p q : prog E A) h Q :
  (forall h X (e : E X), guard S h e) -> p ≡ q -> wp S q h Q -> wp S p h Q.
Proof.
  intros Hg Hpq Hq. assert (forall t o, exec p t o -> answered S h t -> Q (h ++ t) o) as H.
  { intros t o Ht Ha. apply (wp_sound S q h t o Q Hq); [by apply Hpq|done]. }
  clear Hpq Hq. revert h H. induction p as [a|s|X e k IH]; intros h H; cbn.
  - specialize (H [] (Done a)). rewrite app_nil_r in H. apply H; [done|apply answered_nil].
  - specialize (H [] (Stopped s)). rewrite app_nil_r in H. apply H; [done|apply answered_nil].
  - split; [done|]. intros x Hx. apply IH. intros t o Ht Ha.
    rewrite <- (assoc_L app). apply (H (Ev e x :: t)); [by exists x, t|]. by apply answered_step.
Qed.

(** The three ways through a fallible step. *)
Lemma exec_try {E A B Er} (p : prog E (result A Er)) (f : A -> prog E (result B Er)) t o :
  exec (try_bind p f) t o ->
  (exists t1 t2 a, t = t1 ++ t2 /\ exec p t1 (Done (Ok a)) /\ exec (f a) t2 o) \/
  (exists e, exec p t (Done (Err e)) /\ o = Done (Err e)) \/
  (exists s, exec p t (Stopped s) /\ o = Stopped s).
Proof.
  intros H. apply exec_bind in H as [(t1&t2&[a|e]&->&H1&H2)|H]; [left; eauto 10| |auto].
  destruct H2 as [-> ->]. rewrite app_nil_r. eauto.
Qed.

(** ** Automation *)

Create HintDb quiet.
#[export] Hint Resolve quiet_lift : quiet.
Create HintDb tame.
