(* ===== verification/Str.v ===== *)
(** The functions of Rust's [str], [char] and integer formatting and parsing
    that initos uses.  A [str] is a [string] of UTF-8 bytes; [chars] and
    [of_chars] go to lists and back where a function works from the end or by
    position. *)

From S2P Require Import Prelude.

Definition chars (s : string) : list ascii := String.list_ascii_of_string s.
Definition of_chars (l : list ascii) : string := String.string_of_list_ascii l.
Definition as_bytes (s : string) : list byte := String.list_byte_of_string s.
Definition of_bytes (l : list byte) : string := String.string_of_list_byte l.
Definition slen (s : string) : Z := Z.of_nat (String.length s).

(** The character with code [n]. *)
Definition chr (n : N) : ascii := Ascii.ascii_of_N n.
Definition code (c : ascii) : Z := Z.of_N (Ascii.N_of_ascii c).
Definition str1 (c : ascii) : string := String c EmptyString.

Definition is_empty (s : string) : bool := match s with EmptyString => true | _ => false end.

(** ** Prefixes and suffixes *)

(** [s.strip_prefix(p)] *)
Fixpoint strip_prefix (p s : string) : option string :=
  match p, s with
  | EmptyString, _ => Some s
  | String a p, String b s => if Ascii.eqb a b then strip_prefix p s else None
  | _, EmptyString => None
  end.

Definition starts_with (p s : string) : bool :=
  match strip_prefix p s with Some _ => true | None => false end.

Definition srev (s : string) : string := of_chars (rev (chars s)).

Definition ends_with (p s : string) : bool := starts_with (srev p) (srev s).

Fixpoint drop_while {A} (f : A -> bool) (l : list A) : list A :=
  match l with a :: l' => if f a then drop_while f l' else l | [] => [] end.

(** [s.trim_start_matches(f)] and [s.trim_end_matches(f)] for a character
    predicate. *)
Definition trim_start_matches (f : ascii -> bool) (s : string) : string :=
  of_chars (drop_while f (chars s)).
Definition trim_end_matches (f : ascii -> bool) (s : string) : string :=
  of_chars (rev (drop_while f (rev (chars s)))).

(** ** White space (Unicode [White_Space], in UTF-8) *)

Definition ws1 (a : ascii) : bool := ((9 <=? code a) && (code a <=? 13)) || (code a =? 32).
Definition ws2 (a b : ascii) : bool := (code a =? 194) && ((code b =? 133) || (code b =? 160)).
Definition ws3 (a b c : ascii) : bool :=
  ((code a =? 225) && (code b =? 154) && (code c =? 128)) ||
  ((code a =? 226) && (code b =? 128) && (((128 <=? code c) && (code c <=? 138))
     || (code c =? 168) || (code c =? 169) || (code c =? 175))) ||
  ((code a =? 226) && (code b =? 129) && (code c =? 159)) ||
  ((code a =? 227) && (code b =? 128) && (code c =? 128)).

Fixpoint drop_ws (l : list ascii) : list ascii :=
  match l with
  | a :: ((b :: ((c :: l3) as l2)) as l1) =>
      if ws1 a then drop_ws l1 else if ws2 a b then drop_ws l2
      else if ws3 a b c then drop_ws l3 else l
  | a :: ((b :: l2) as l1) => if ws1 a then drop_ws l1 else if ws2 a b then drop_ws l2 else l
  | a :: l1 => if ws1 a then drop_ws l1 else l
  | [] => []
  end.

(** The same, reading a reversed string. *)
Fixpoint drop_ws_rev (l : list ascii) : list ascii :=
  match l with
  | a :: ((b :: ((c :: l3) as l2)) as l1) =>
      if ws1 a then drop_ws_rev l1 else if ws2 b a then drop_ws_rev l2
      else if ws3 c b a then drop_ws_rev l3 else l
  | a :: ((b :: l2) as l1) => if ws1 a then drop_ws_rev l1 else if ws2 b a then drop_ws_rev l2 else l
  | a :: l1 => if ws1 a then drop_ws_rev l1 else l
  | [] => []
  end.

Definition trim_start (s : string) : string := of_chars (drop_ws (chars s)).
Definition trim_end (s : string) : string := of_chars (rev (drop_ws_rev (rev (chars s)))).
Definition trim (s : string) : string := trim_end (trim_start s).

(** ** Lines, joining, replacing *)

Definition cr : ascii := chr 13.
Definition nl : ascii := chr 10.

Definition strip_cr (acc : list ascii) : list ascii :=
  match acc with c :: acc' => if Ascii.eqb c cr then acc' else acc | [] => [] end.

(** [acc] is the current line, reversed.  A carriage return is only removed
    before a newline, and the text after the last newline is a line only when
    it is not empty. *)
Fixpoint lines_go (acc l : list ascii) : list string :=
  match l with
  | [] => match acc with [] => [] | _ => [of_chars (rev acc)] end
  | c :: l => if Ascii.eqb c nl then of_chars (rev (strip_cr acc)) :: lines_go [] l
              else lines_go (c :: acc) l
  end.
Definition lines (s : string) : list string := lines_go [] (chars s).

Fixpoint join (sep : string) (l : list string) : string :=
  match l with
  | [] => ""
  | [s] => s
  | s :: l => s +:+ sep +:+ join sep l
  end.

(** [s.replace(pat, rep)] for a non-empty [pat]. *)
Fixpoint replace_go (pat rep : string) (skip : nat) (s : string) : string :=
  match s with
  | EmptyString => ""
  | String c s' =>
      match skip with
      | S k => replace_go pat rep k s'
      | O => if starts_with pat s then rep +:+ replace_go pat rep (pred (String.length pat)) s'
             else String c (replace_go pat rep 0 s')
      end
  end.
Definition replace (pat rep s : string) : string := replace_go pat rep 0 s.

Definition is_ascii_digit (c : ascii) : bool := (48 <=? code c) && (code c <=? 57).
Definition is_ascii_hexdigit (c : ascii) : bool :=
  is_ascii_digit c || ((65 <=? code c) && (code c <=? 70)) || ((97 <=? code c) && (code c <=? 102)).

(** [to_lowercase]: ASCII letters only.  No other character has an ASCII hex
    digit as its lower case, and the results are only compared with those. *)
Definition lower_char (c : ascii) : ascii :=
  if (65 <=? code c) && (code c <=? 90) then chr (Ascii.N_of_ascii c + 32) else c.
Definition to_lowercase (s : string) : string := of_chars (map lower_char (chars s)).

(** ** Formatting integers *)

Definition hex_digit (upper : bool) (d : Z) : ascii :=
  if d <? 10 then chr (Z.to_N (48 + d))
  else if upper then chr (Z.to_N (55 + d)) else chr (Z.to_N (87 + d)).

(** Exactly [n] hexadecimal digits of [v], most significant first. *)
Fixpoint hex_fixed (upper : bool) (n : nat) (v : Z) : list ascii :=
  match n with
  | O => []
  | S n => hex_fixed upper n (v / 16) ++ [hex_digit upper (v mod 16)]
  end.

(** The number of hexadecimal digits of [v], at least one ([v < 2 ^ 64]). *)
Fixpoint hex_width (fuel : nat) (v : Z) : nat :=
  match fuel with
  | O => 1
  | S f => if v <? 16 then 1 else S (hex_width f (v / 16))
  end.

(** [{:0wx}] and [{:0wX}] *)
Definition fmt_hex (upper : bool) (w : nat) (v : Z) : string :=
  of_chars (hex_fixed upper (Nat.max w (hex_width 16 v)) v).

(** [{:02x}] of a byte. *)
Definition hex2 (b : byte) : string := of_chars (hex_fixed false 2 (b2z b)).

(** [{}] of an unsigned integer. *)
Definition fmt_dec (v : Z) : string := pretty (Z.to_N v).

Definition fmt_bool (b : bool) : string := if b then "true" else "false".

(** ** Parsing integers *)

(** [char::to_digit] *)
Definition to_digit (radix : Z) (c : ascii) : option Z :=
  let d := if is_ascii_digit c then code c - 48
           else if (65 <=? code c) && (code c <=? 90) then code c - 55
           else if (97 <=? code c) && (code c <=? 122) then code c - 87 else 36 in
  if d <? radix then Some d else None.

Inductive int_error : Type := IntEmpty | IntInvalidDigit | IntPosOverflow.

Definition int_error_msg (e : int_error) : string :=
  match e with
  | IntEmpty => "cannot parse integer from empty string"
  | IntInvalidDigit => "invalid digit found in string"
  | IntPosOverflow => "number too large to fit in target type"
  end.

Fixpoint digits_value (radix bound acc : Z) (s : string) : result Z int_error :=
  match s with
  | EmptyString => Ok acc
  | String c s =>
      match to_digit radix c with
      | None => Err IntInvalidDigit
      | Some d =>
          if bound <=? acc * radix then Err IntPosOverflow
          else if bound <=? acc * radix + d then Err IntPosOverflow
          else digits_value radix bound (acc * radix + d) s
      end
  end.

(** [u32::from_str_radix]; [str::parse::<u32>] is radix ten. *)
Definition from_str_radix (radix : Z) (s : string) : result Z int_error :=
  match s with
  | EmptyString => Err IntEmpty
  | String c s' =>
      if Ascii.eqb c "+" then
        if is_empty s' then Err IntInvalidDigit else digits_value radix U32 0 s'
      else digits_value radix U32 0 s
  end.
Definition parse_u32 (s : string) : result Z int_error := from_str_radix 10 s.

(** ** UTF-8 *)

Definition is_cont (b : Z) : bool := (128 <=? b) && (b <=? 191).
Definition between (a b x : Z) : bool := (a <=? x) && (x <=? b).
Definition byte_at (l : list byte) (i : nat) : Z :=
  match l !! i with Some b => b2z b | None => 0 end.

(** The first character of a non-empty byte string: is it well formed, and how
    many bytes it takes -- or, when it is not, how many bytes the replacement
    character stands for (the maximal subpart). *)
Definition utf8_step (l : list byte) : bool * nat :=
  let b0 := byte_at l 0 in let b1 := byte_at l 1 in
  let b2 := byte_at l 2 in let b3 := byte_at l 3 in
  if b0 <? 128 then (true, 1%nat)
  else if between 194 223 b0 then
    if is_cont b1 then (true, 2%nat) else (false, 1%nat)
  else if between 224 239 b0 then
    if ((b0 =? 224) && between 160 191 b1) || (between 225 236 b0 && is_cont b1)
       || ((b0 =? 237) && between 128 159 b1) || (between 238 239 b0 && is_cont b1) then
      if is_cont b2 then (true, 3%nat) else (false, 2%nat)
    else (false, 1%nat)
  else if between 240 244 b0 then
    if ((b0 =? 240) && between 144 191 b1) || (between 241 243 b0 && is_cont b1)
       || ((b0 =? 244) && between 128 143 b1) then
      if is_cont b2 then if is_cont b3 then (true, 4%nat) else (false, 3%nat)
      else (false, 2%nat)
    else (false, 1%nat)
  else (false, 1%nat).

Definition replacement : list byte := [xef; xbf; xbd].

Fixpoint lossy_go (fuel : nat) (l : list byte) : list byte :=
  match fuel, l with
  | _, [] => []
  | O, _ => l
  | S f, _ =>
      let '(valid, n) := utf8_step l in
      (if valid then take n l else replacement) ++ lossy_go f (drop n l)
  end.

(** [String::from_utf8_lossy] *)
Definition from_utf8_lossy (l : list byte) : string := of_bytes (lossy_go (length l) l).

Fixpoint utf8_valid_go (fuel : nat) (l : list byte) : bool :=
  match fuel, l with
  | _, [] => true
  | O, _ => false
  | S f, _ => let '(valid, n) := utf8_step l in valid && utf8_valid_go f (drop n l)
  end.
Definition utf8_valid (l : list byte) : bool := utf8_valid_go (length l) l.

(** [String::from_utf8] *)
Definition from_utf8 (l : list byte) : option string :=
  if utf8_valid l then Some (of_bytes l) else None.

(** [Display] of the error of [String::from_utf8]. *)
Fixpoint utf8_error_go (fuel : nat) (index : Z) (l : list byte) : string :=
  match fuel, l with
  | S f, _ :: _ =>
      let '(valid, n) := utf8_step l in
      if valid then utf8_error_go f (index + Z.of_nat n) (drop n l)
      else if (Z.of_nat n =? len l) && between 194 244 (byte_at l 0) then
        "incomplete utf-8 byte sequence from index " +:+ fmt_dec index
      else "invalid utf-8 sequence of " +:+ fmt_dec (Z.of_nat n) +:+ " bytes from index " +:+ fmt_dec index
  | _, _ => ""
  end.
Definition utf8_error_msg (l : list byte) : string := utf8_error_go (length l) 0 l.

(** [{:?}] of a [str] or a [Path]: quoted, with the ASCII escapes. *)
Definition debug_char (c : ascii) : string :=
  if code c =? 34 then of_chars [chr 92; chr 34]
  else if code c =? 92 then of_chars [chr 92; chr 92]
  else if code c =? 9 then of_chars [chr 92; "t"%char]
  else if code c =? 10 then of_chars [chr 92; "n"%char]
  else if code c =? 13 then of_chars [chr 92; "r"%char]
  else if code c =? 0 then of_chars [chr 92; "0"%char]
  else if (code c <? 32) || (code c =? 127) then
    of_chars [chr 92; "u"%char; "{"%char] +:+ fmt_hex false 1 (code c) +:+ "}"
  else str1 c.
Definition debug_str (s : string) : string :=
  str1 (chr 34) +:+ String.concat "" (map debug_char (chars s)) +:+ str1 (chr 34).

(** ** Lemmas *)

Lemma chars_of_chars l : chars (of_chars l) = l.
Proof. apply String.list_ascii_of_string_of_list_ascii. Qed.

Lemma of_chars_chars s : of_chars (chars s) = s.
Proof. apply String.string_of_list_ascii_of_string. Qed.

Lemma app_cons_str c s t : String c s +:+ t = String c (s +:+ t).
Proof. done. Qed.

Lemma app_nil_str s : "" +:+ s = s.
Proof. done. Qed.

Lemma chars_app s t : chars (s +:+ t) = chars s ++ chars t.
Proof.
  induction s as [|c s IH]; [done|].
  change (c :: chars (s +:+ t) = c :: (chars s ++ chars t)). rewrite IH. done.
Qed.

Lemma of_chars_app l m : of_chars (l ++ m) = of_chars l +:+ of_chars m.
Proof.
  induction l as [|c l IH]; [done|].
  change (String c (of_chars (l ++ m)) = String c (of_chars l +:+ of_chars m)).
  rewrite IH. done.
Qed.

Lemma as_bytes_of_bytes l : as_bytes (of_bytes l) = l.
Proof. apply String.list_byte_of_string_of_list_byte. Qed.

Lemma of_bytes_as_bytes s : of_bytes (as_bytes s) = s.
Proof. apply String.string_of_list_byte_of_string. Qed.

Lemma as_bytes_chars s : as_bytes s = map Ascii.byte_of_ascii (chars s).
Proof. done. Qed.

Lemma as_bytes_app s t : as_bytes (s +:+ t) = as_bytes s ++ as_bytes t.
Proof. rewrite !as_bytes_chars, chars_app, map_app. done. Qed.

Lemma app_assoc_str (s t u : string) : s +:+ (t +:+ u) = (s +:+ t) +:+ u.
Proof. induction s as [|c s IH]; [done|]. rewrite !app_cons_str, IH. done. Qed.

Lemma app_nil_r_str (s : string) : s +:+ "" = s.
Proof. induction s as [|c s IH]; [done|]. rewrite app_cons_str, IH. done. Qed.

Lemma strip_prefix_app p s : strip_prefix p (p +:+ s) = Some s.
Proof.
  induction p as [|a p IH]; [done|]. rewrite app_cons_str. cbn.
  rewrite Ascii.eqb_refl. done.
Qed.

Lemma strip_prefix_inv p s t : strip_prefix p s = Some t -> s = p +:+ t.
Proof.
  revert s. induction p as [|a p IH]; intros s; cbn; [intros [= ->]; done|].
  destruct s as [|b s]; [done|].
  destruct (Ascii.eqb_spec a b) as [->|]; [|done]. intros H.
  rewrite app_cons_str. f_equal. auto.
Qed.

Lemma starts_with_app p s : starts_with p (p +:+ s) = true.
Proof. unfold starts_with. rewrite strip_prefix_app. done. Qed.

Lemma starts_with_inv p s : starts_with p s = true -> exists t, s = p +:+ t.
Proof.
  unfold starts_with. destruct (strip_prefix p s) as [t|] eqn:E; [|done].
  eauto using strip_prefix_inv.
Qed.

Lemma code_chr n : (n < 256)%N -> code (chr n) = Z.of_N n.
Proof. intros. unfold code, chr. rewrite Ascii.N_ascii_embedding by lia. done. Qed.

Lemma code_range c : 0 <= code c < 256.
Proof. unfold code. pose proof (Ascii.N_ascii_bounded c). lia. Qed.

Lemma hex_digit_code up d : 0 <= d < 16 ->
  code (hex_digit up d) = if d <? 10 then 48 + d else if up then 55 + d else 87 + d.
Proof.
  intros. unfold hex_digit. destruct (d <? 10) eqn:E; bool_prop.
  - rewrite code_chr; lia.
  - destruct up; rewrite code_chr; lia.
Qed.

Lemma to_digit_hex_digit up d : 0 <= d < 16 -> to_digit 16 (hex_digit up d) = Some d.
Proof.
  intros. unfold to_digit, is_ascii_digit. rewrite hex_digit_code by done.
  destruct (d <? 10) eqn:E; bool_prop; [|destruct up];
    repeat match goal with |- context [?a <=? ?b] => destruct (Z.leb_spec a b); try lia end;
    cbn; match goal with |- context [?a <? 16] => destruct (Z.ltb_spec a 16); [f_equal|]; lia end.
Qed.

Lemma hex_digit_is_hexdigit up d : 0 <= d < 16 -> is_ascii_hexdigit (hex_digit up d) = true.
Proof.
  intros. unfold is_ascii_hexdigit, is_ascii_digit. rewrite hex_digit_code by done.
  destruct (d <? 10) eqn:E; bool_prop; [|destruct up];
    repeat match goal with |- context [?a <=? ?b] => destruct (Z.leb_spec a b); try lia end; done.
Qed.

Lemma length_hex_fixed up n v : length (hex_fixed up n v) = n.
Proof. revert v. induction n; intros; cbn; [done|]. rewrite length_app, IHn. cbn. lia. Qed.

Lemma hex_fixed_hexdigit up n v :
  Forall (fun c => is_ascii_hexdigit c = true) (hex_fixed up n v).
Proof.
  revert v. induction n; intros; cbn; [done|]. apply Forall_app. split; [done|].
  constructor; [|done]. apply hex_digit_is_hexdigit. apply Z.mod_pos_bound. lia.
Qed.

Lemma digits_value_app radix bound acc s t :
  digits_value radix bound acc (s +:+ t) =
  match digits_value radix bound acc s with
  | Ok a => digits_value radix bound a t | Err e => Err e end.
Proof.
  revert acc. induction s as [|c s IH]; intros acc; [done|].
  rewrite app_cons_str. cbn.
  destruct (to_digit radix c); [|done]. do 2 (case_match; [done|]). apply IH.
Qed.

(** Parsing the digits that formatting wrote gives the number back. *)
Lemma digits_value_hex_fixed up n v :
  0 <= v < 16 ^ Z.of_nat n -> 16 ^ Z.of_nat n <= U32 ->
  digits_value 16 U32 0 (of_chars (hex_fixed up n v)) = Ok v.
Proof.
  revert v. induction n as [|n IH]; intros v Hv Hb; cbn [hex_fixed].
  - change (16 ^ Z.of_nat 0) with 1 in Hv. cbn. f_equal. lia.
  - rewrite Nat2Z.inj_succ, Z.pow_succ_r in Hv, Hb by lia.
    pose proof (Z.div_mod v 16 ltac:(lia)) as Hd.
    pose proof (Z.mod_pos_bound v 16 ltac:(lia)).
    rewrite of_chars_app, digits_value_app, IH by (split; [apply Z.div_pos|apply Z.div_lt_upper_bound]; lia) || lia.
    cbn. rewrite to_digit_hex_digit by lia.
    destruct (Z.leb_spec U32 (v / 16 * 16)); [lia|].
    destruct (Z.leb_spec U32 (v / 16 * 16 + v mod 16)); [lia|]. f_equal. lia.
Qed.

Lemma digits_value_bound radix bound acc s v :
  1 < radix -> 0 <= acc < bound -> digits_value radix bound acc s = Ok v -> 0 <= v < bound.
Proof.
  intros Hr. revert acc. induction s as [|c s IH]; intros acc Ha; cbn.
  - intros [= <-]. done.
  - destruct (to_digit radix c) as [d|] eqn:Ed; [|done].
    repeat case_match; try done. bool_prop. apply IH. split; [|done].
    assert (0 <= d); [|nia]. revert Ed. unfold to_digit, is_ascii_digit.
    repeat case_match; try done; bool_prop; intros [= <-]; lia.
Qed.

(** White space is trimmed only at the ends. *)
Definition no_ws (c : ascii) : Prop := 33 <= code c < 127.

Lemma no_ws_spec c : no_ws c ->
  ws1 c = false /\ (forall b, ws2 c b = false) /\ (forall b d, ws3 c b d = false) /\
  (forall b, ws2 b c = false) /\ (forall b d, ws3 d b c = false).
Proof.
  unfold no_ws, ws1, ws2, ws3. intros Hc.
  repeat split; intros;
  repeat match goal with
  | |- context [code c <=? ?n] => destruct (Z.leb_spec (code c) n); try lia
  | |- context [?n <=? code c] => destruct (Z.leb_spec n (code c)); try lia
  | |- context [code c =? ?n] => destruct (Z.eqb_spec (code c) n); try lia
  end; cbn; rewrite ?andb_false_r, ?orb_false_r; done.
Qed.

Lemma drop_ws_no_ws c l : no_ws c -> drop_ws (c :: l) = c :: l.
Proof.
  intros H. destruct (no_ws_spec c H) as (H1&H2&H3&_).
  destruct l as [|b [|d l]]; cbn; rewrite H1, ?H2, ?H3; done.
Qed.

Lemma drop_ws_rev_no_ws c l : no_ws c -> drop_ws_rev (c :: l) = c :: l.
Proof.
  intros H. destruct (no_ws_spec c H) as (H1&_&_&H2&H3).
  destruct l as [|b [|d l]]; cbn; rewrite H1, ?H2, ?H3; done.
Qed.

Lemma trim_no_ws s : Forall no_ws (chars s) -> trim s = s.
Proof.
  intros H. unfold trim, trim_start, trim_end.
  assert (drop_ws (chars s) = chars s) as ->.
  { destruct (chars s) as [|c l]; [done|]. apply drop_ws_no_ws. by inversion H. }
  rewrite chars_of_chars. apply Forall_rev in H.
  assert (drop_ws_rev (rev (chars s)) = rev (chars s)) as ->.
  { destruct (rev (chars s)) as [|c l]; [done|]. apply drop_ws_rev_no_ws. by inversion H. }
  rewrite rev_involutive. apply of_chars_chars.
Qed.

Lemma hexdigit_no_ws c : is_ascii_hexdigit c = true -> no_ws c.
Proof.
  unfold is_ascii_hexdigit, is_ascii_digit, no_ws. intros H.
  apply orb_prop in H as [H|H]; [apply orb_prop in H as [H|H]|]; bool_prop; lia.
Qed.

(** ASCII text is unchanged by [from_utf8_lossy]. *)
Definition is_ascii (c : ascii) : Prop := code c < 128.

#[export] Instance is_ascii_dec c : Decision (is_ascii c).
Proof. unfold is_ascii. apply _. Defined.

Lemma b2z_byte_of_ascii c : b2z (Ascii.byte_of_ascii c) = code c.
Proof. destruct c as [[] [] [] [] [] [] [] []]; reflexivity. Qed.

Lemma utf8_step_ascii b l : b2z b < 128 -> utf8_step (b :: l) = (true, 1%nat).
Proof.
  intros H. unfold utf8_step. change (byte_at (b :: l) 0) with (b2z b).
  rewrite (proj2 (Z.ltb_lt _ _)) by done. done.
Qed.

Lemma lossy_go_ascii fuel l : Forall (fun b => b2z b < 128) l -> lossy_go fuel l = l.
Proof.
  intros H. revert l H. induction fuel as [|fuel IH]; intros [|b l] H; [done..|].
  inversion H as [|?? Hb Hl]. subst. cbn [lossy_go]. rewrite utf8_step_ascii by done.
  change (b :: lossy_go fuel l = b :: l). f_equal. apply IH. done.
Qed.

Lemma from_utf8_lossy_ascii s : Forall is_ascii (chars s) -> from_utf8_lossy (as_bytes s) = s.
Proof.
  intros H. unfold from_utf8_lossy. rewrite lossy_go_ascii; [apply of_bytes_as_bytes|].
  rewrite as_bytes_chars. apply Forall_map. eapply Forall_impl; [exact H|].
  intros c Hc. cbn. rewrite b2z_byte_of_ascii. done.
Qed.

(** Decimal numbers are made of digits. *)
Lemma pretty_N_char_digit x : is_ascii_digit (pretty_N_char x) = true.
Proof. unfold pretty_N_char. repeat case_match; reflexivity. Qed.

Lemma pretty_N_go_digits x s :
  Forall (fun c => is_ascii_digit c = true) (chars s) ->
  Forall (fun c => is_ascii_digit c = true) (chars (pretty_N_go x s)).
Proof.
  revert s. induction x as [x IH] using (well_founded_induction N.lt_wf_0). intros s Hs.
  destruct (decide (x = 0)%N) as [->|Hx]; [rewrite pretty_N_go_0; done|].
  rewrite pretty_N_go_step by lia. apply IH; [apply N.div_lt; lia|].
  constructor; [apply pretty_N_char_digit|done].
Qed.

Lemma fmt_dec_digits n : Forall (fun c => is_ascii_digit c = true) (chars (fmt_dec n)).
Proof.
  unfold fmt_dec, pretty, pretty_N. case_decide; [repeat constructor|].
  apply pretty_N_go_digits. constructor.
Qed.

Lemma fmt_dec_nonempty n : chars (fmt_dec n) <> [].
Proof.
  unfold fmt_dec, pretty, pretty_N. case_decide as Hd; [done|].
  set (x := Z.to_N n) in *. clearbody x. rewrite pretty_N_go_step by lia.
  enough (forall y s, chars s <> [] -> chars (pretty_N_go y s) <> []) as H by (apply H; done).
  intros y. induction y as [y IH] using (well_founded_induction N.lt_wf_0). intros s Hs.
  destruct (decide (y = 0)%N) as [->|Hy]; [rewrite pretty_N_go_0; done|].
  rewrite pretty_N_go_step by lia. apply IH; [apply N.div_lt; lia|done].
Qed.

(** Parsing a decimal number that was formatted. *)
Lemma to_digit_pretty x : (x < 10)%N -> to_digit 10 (pretty_N_char x) = Some (Z.of_N x).
Proof.
  intros. assert (x ∈ [0; 1; 2; 3; 4; 5; 6; 7; 8; 9]%N) as Hx.
  { rewrite !elem_of_cons, elem_of_nil. lia. }
  repeat (apply elem_of_cons in Hx as [->|Hx]; [reflexivity|]). inversion Hx.
Qed.

Lemma digits_value_pretty bound x s :
  Z.of_N x < bound ->
  digits_value 10 bound 0 (pretty_N_go x s) = digits_value 10 bound (Z.of_N x) s.
Proof.
  revert s. induction x as [x IH] using (well_founded_induction N.lt_wf_0). intros s Hx.
  destruct (decide (x = 0)%N) as [->|Hx0]; [rewrite pretty_N_go_0; done|].
  rewrite pretty_N_go_step by lia.
  pose proof (N.div_mod x 10 ltac:(lia)) as Hd. pose proof (N.mod_lt x 10 ltac:(lia)).
  specialize (IH (x / 10)%N ltac:(apply N.div_lt; lia)).
  set (q := (x / 10)%N) in *. set (r := (x mod 10)%N) in *. clearbody q r.
  rewrite IH by lia. cbn [digits_value].
  rewrite to_digit_pretty by done.
  destruct (Z.leb_spec bound (Z.of_N q * 10)); [lia|].
  destruct (Z.leb_spec bound (Z.of_N q * 10 + Z.of_N r)); [lia|].
  f_equal. lia.
Qed.

Lemma digits_value_fmt_dec n : 0 <= n < U32 -> digits_value 10 U32 0 (fmt_dec n) = Ok n.
Proof.
  intros Hn. unfold fmt_dec, pretty, pretty_N. case_decide as Hd.
  - assert (n = 0) as -> by lia. reflexivity.
  - rewrite digits_value_pretty by lia. cbn. f_equal. lia.
Qed.

Lemma parse_u32_fmt_dec n : 0 <= n < U32 -> parse_u32 (fmt_dec n) = Ok n.
Proof.
  intros Hn. unfold parse_u32, from_str_radix.
  pose proof (digits_value_fmt_dec n Hn) as Hv. pose proof (fmt_dec_nonempty n) as Hne.
  pose proof (fmt_dec_digits n) as Hd.
  destruct (fmt_dec n) as [|c s] eqn:E; [done|].
  destruct (Ascii.eqb_spec c "+"%char) as [->|]; [|done].
  inversion Hd as [|?? Hc _]. discriminate Hc.
Qed.

(** Trimming a tail of matching characters. *)
Definition last_is (f : ascii -> bool) (s : string) : bool :=
  match last (chars s) with Some c => f c | None => false end.

Lemma drop_while_app {A} (f : A -> bool) l m :
  Forall (fun a => f a = true) l -> drop_while f (l ++ m) = drop_while f m.
Proof. induction 1 as [|a l Ha _ IH]; [done|]. cbn. rewrite Ha. done. Qed.

Lemma trim_end_matches_app f s d :
  Forall (fun c => f c = true) (chars d) -> last_is f s = false ->
  trim_end_matches f (s +:+ d) = s.
Proof.
  intros Hd Hs. unfold trim_end_matches. rewrite chars_app, rev_app_distr.
  rewrite drop_while_app by by apply Forall_rev. unfold last_is in Hs.
  destruct (chars s) as [|c l _] eqn:E using rev_ind.
  - rewrite <- (of_chars_chars s), E. done.
  - rewrite last_snoc in Hs. rewrite rev_app_distr. cbn. rewrite Hs.
    cbn. rewrite rev_involutive, <- E. apply of_chars_chars.
Qed.

(** Suffixes. *)
Lemma srev_involutive s : srev (srev s) = s.
Proof. unfold srev. rewrite chars_of_chars, rev_involutive. apply of_chars_chars. Qed.

Lemma srev_app s t : srev (s +:+ t) = srev t +:+ srev s.
Proof. unfold srev. rewrite chars_app, rev_app_distr. apply of_chars_app. Qed.

Lemma ends_with_app p s : ends_with p (s +:+ p) = true.
Proof. unfold ends_with. rewrite srev_app. apply starts_with_app. Qed.

Lemma ends_with_inv p s : ends_with p s = true -> exists t, s = t +:+ p.
Proof.
  intros H. apply starts_with_inv in H as [t Ht]. exists (srev t).
  rewrite <- (srev_involutive s), Ht, srev_app, srev_involutive. done.
Qed.
