(* ===== verification/PathLib.v ===== *)
(** [std::path] on Unix: paths are strings of bytes, and the functions below
    follow the component parser of the Rust standard library, which skips
    repeated separators and [.] components but keeps the text it does not
    touch. *)

From S2P Require Import Prelude Str.

Definition slash : ascii := "/"%char.

Fixpoint split_slash (s : string) : list string :=
  match s with
  | EmptyString => [""]
  | String c s' =>
      if Ascii.eqb c slash then "" :: split_slash s'
      else match split_slash s' with
           | h :: t => String c h :: t
           | [] => [str1 c]
           end
  end.

(** What comes before the first component, and the rest. *)
Definition path_parts (p : string) : string * string :=
  match p with
  | String c p' =>
      if Ascii.eqb c slash then ("/", p')
      else if Ascii.eqb c "."%char && (is_empty p' || starts_with "/" p') then (".", p')
      else ("", p)
  | EmptyString => ("", "")
  end.

(** A piece of text between separators that is no component. *)
Definition skipped (s : string) : bool := (s =? "")%string || (s =? ".")%string.

(** The pieces up to the last component. *)
Definition path_segs (p : string) : list string :=
  rev (drop_while skipped (rev (split_slash (snd (path_parts p))))).

Inductive component : Type :=
| RootDir
| CurDir
| ParentDir
| Normal (s : string).

Definition seg_component (s : string) : component :=
  if (s =? "..")%string then ParentDir else Normal s.

Definition components (p : string) : list component :=
  let '(pre, body) := path_parts p in
  (if (pre =? "/")%string then [RootDir] else if (pre =? ".")%string then [CurDir] else [])
  ++ map seg_component (List.filter (fun s => negb (skipped s)) (split_slash body)).

Definition is_absolute (p : string) : bool := starts_with "/" p.

(** [Path::join] *)
Definition path_join (p q : string) : string :=
  if is_absolute q then q
  else if is_empty p || ends_with "/" p then p +:+ q
  else p +:+ "/" +:+ q.

Definition file_name (p : string) : option string :=
  match last (path_segs p) with
  | Some s => if (s =? "..")%string then None else Some s
  | None => None
  end.

Definition parent (p : string) : option string :=
  let pre := fst (path_parts p) in
  match rev (path_segs p) with
  | _ :: init => Some (pre +:+ join "/" (rev (drop_while skipped init)))
  | [] => if (pre =? ".")%string then Some "" else None
  end.

(** The last dot of a file name that is neither [..] nor a leading dot. *)
Fixpoint rsplit_dot_go (acc : list ascii) (l : list ascii) : option (list ascii * list ascii) :=
  match l with
  | [] => None
  | c :: l => if Ascii.eqb c "."%char then Some (rev l, acc) else rsplit_dot_go (c :: acc) l
  end.
Definition rsplit_file_at_dot (name : string) : option (string * string) :=
  if (name =? "..")%string then None
  else match rsplit_dot_go [] (rev (chars name)) with
       | Some ([], _) | None => None
       | Some (b, a) => Some (of_chars b, of_chars a)
       end.

Definition name_extension (name : string) : option string :=
  match rsplit_file_at_dot name with Some (_, e) => Some e | None => None end.
Definition name_stem (name : string) : string :=
  match rsplit_file_at_dot name with Some (s, _) => s | None => name end.

Definition extension (p : string) : option string := file_name p ≫= name_extension.

(** [Path::with_extension] for a non-empty extension. *)
Definition with_extension (p ext : string) : string :=
  match file_name p, rev (path_segs p) with
  | Some name, _ :: init =>
      fst (path_parts p) +:+ join "/" (rev init ++ [name_stem name +:+ "." +:+ ext])
  | _, _ => p
  end.

(** [Path::strip_prefix("/")] of an absolute path. *)
Definition strip_root (p : string) : option string :=
  if is_absolute p then Some (join "/" (drop_while skipped (path_segs p))) else None.

Definition component_eqb (a b : component) : bool :=
  match a, b with
  | RootDir, RootDir | CurDir, CurDir | ParentDir, ParentDir => true
  | Normal s, Normal t => (s =? t)%string
  | _, _ => false
  end.
Fixpoint list_eqb {A} (eqb : A -> A -> bool) (l m : list A) : bool :=
  match l, m with
  | [], [] => true
  | a :: l, b :: m => eqb a b && list_eqb eqb l m
  | _, _ => false
  end.

(** [Path::ends_with] *)
Definition path_ends_with (p child : string) : bool :=
  let cp := components p in
  let cc := components child in
  (length cc <=? length cp)%nat && list_eqb component_eqb (drop (length cp - length cc) cp) cc.

(** ** Lemmas *)

Lemma split_slash_nonempty s : split_slash s <> [].
Proof. destruct s as [|c s]; cbn; [done|]. repeat case_match; done. Qed.

Lemma join_cons sep s l : l <> [] -> join sep (s :: l) = s +:+ sep +:+ join sep l.
Proof. destruct l; done. Qed.

Lemma join_snoc sep l s : l <> [] -> join sep (l ++ [s]) = join sep l +:+ sep +:+ s.
Proof.
  induction l as [|a l IH]; [done|]. intros _. destruct l as [|b l]; [done|].
  cbn [app]. rewrite join_cons by done. change (b :: l ++ [s]) with ((b :: l) ++ [s]).
  rewrite IH by done. rewrite (join_cons _ a) by done. rewrite !app_assoc_str. done.
Qed.

Lemma join_split s : join "/" (split_slash s) = s.
Proof.
  induction s as [|c s IH]; [done|]. cbn [split_slash].
  pose proof (split_slash_nonempty s) as Hn.
  destruct (Ascii.eqb_spec c slash) as [->|].
  - rewrite join_cons by done. rewrite IH. done.
  - destruct (split_slash s) as [|h t]; [done|].
    destruct t as [|h' t]; [cbn in *; subst; done|].
    rewrite join_cons in IH |- * by done. rewrite <- IH. done.
Qed.

Lemma split_slash_app a b :
  split_slash (a +:+ "/" +:+ b) = split_slash a ++ split_slash b.
Proof.
  induction a as [|c a IH]; [done|].
  rewrite app_cons_str. cbn [split_slash]. rewrite IH.
  destruct (Ascii.eqb c slash); [done|].
  pose proof (split_slash_nonempty a). destruct (split_slash a); done.
Qed.

(** Text with no separator is one piece. *)
Definition no_slash (s : string) : Prop := Forall (fun c => c <> slash) (chars s).

#[export] Instance no_slash_dec s : Decision (no_slash s).
Proof. unfold no_slash. apply _. Defined.

Lemma split_slash_no_slash s : no_slash s -> split_slash s = [s].
Proof.
  induction s as [|c s IH]; [done|]. intros H. inversion H as [|?? Hc Hs]. subst. cbn.
  destruct (Ascii.eqb_spec c slash); [done|]. rewrite IH by done. done.
Qed.

Lemma path_parts_join p : fst (path_parts p) +:+ snd (path_parts p) = p.
Proof.
  destruct p as [|c p]; [done|]. cbn. destruct (Ascii.eqb_spec c slash) as [->|]; [done|].
  destruct (Ascii.eqb_spec c "."%char) as [->|]; cbn; [|done]. case_match; done.
Qed.

(** A path that ends with a component, not with a separator or a dot. *)
Definition clean_tail (p : string) : Prop :=
  match rev (split_slash (snd (path_parts p))) with
  | s :: _ => skipped s = false
  | [] => False
  end.

#[export] Instance clean_tail_dec p : Decision (clean_tail p).
Proof. unfold clean_tail. case_match; apply _. Defined.

Lemma clean_tail_segs p : clean_tail p -> path_segs p = split_slash (snd (path_parts p)).
Proof.
  unfold clean_tail, path_segs. destruct (rev (split_slash _)) as [|s l] eqn:E; [done|].
  intros H. cbn. rewrite H, <- E, rev_involutive. done.
Qed.

Lemma rsplit_dot_go_spec acc l b a :
  rsplit_dot_go acc l = Some (b, a) ->
  exists a', l = rev a' ++ "."%char :: rev b /\ a = a' ++ acc.
Proof.
  revert acc. induction l as [|c l IH]; intros acc; cbn; [done|].
  destruct (Ascii.eqb_spec c "."%char) as [->|].
  - intros [= <- <-]. exists []. rewrite rev_involutive. done.
  - intros H. apply IH in H as (a'&->&->). exists (a' ++ [c]).
    rewrite rev_app_distr. split; [done|]. rewrite <- (assoc_L app). done.
Qed.

Lemma rsplit_file_at_dot_spec name s e :
  rsplit_file_at_dot name = Some (s, e) -> name = s +:+ "." +:+ e.
Proof.
  unfold rsplit_file_at_dot. destruct (name =? "..")%string; [done|].
  destruct (rsplit_dot_go [] _) as [[b a]|] eqn:E; [|done].
  apply rsplit_dot_go_spec in E as (a'&Ha&->). rewrite app_nil_r in *.
  assert (chars name = b ++ "."%char :: a') as Hc.
  { apply (f_equal (@rev _)) in Ha. rewrite rev_involutive in Ha. rewrite Ha.
    rewrite rev_app_distr. cbn [rev]. rewrite !rev_involutive, <- (assoc_L app). done. }
  destruct b as [|c b]; [done|]. intros [= <- <-].
  rewrite <- (of_chars_chars name), Hc, of_chars_app. done.
Qed.

(** Joining a name below a directory. *)
Lemma path_join_rel p q :
  is_absolute q = false -> is_empty p = false -> ends_with "/" p = false ->
  path_join p q = p +:+ "/" +:+ q.
Proof. unfold path_join. intros -> -> ->. done. Qed.

Lemma path_join_abs p q : is_absolute q = true -> path_join p q = q.
Proof. unfold path_join. intros ->. done. Qed.

Lemma join_snoc_app sep l s t : join sep (l ++ [s +:+ t]) = join sep (l ++ [s]) +:+ t.
Proof.
  destruct (decide (l = [])) as [->|Hl]; [done|].
  rewrite !join_snoc by done. rewrite !app_assoc_str. done.
Qed.

(** A path with a file name ends with it. *)
Lemma path_snoc p name init :
  path_segs p = init ++ [name] -> clean_tail p ->
  p = fst (path_parts p) +:+ join "/" (init ++ [name]).
Proof.
  intros Hs Hc. rewrite <- Hs, clean_tail_segs, join_split by done.
  symmetry. apply path_parts_join.
Qed.

Lemma name_stem_extension name :
  name = match name_extension name with
         | Some e => name_stem name +:+ "." +:+ e
         | None => name_stem name
         end.
Proof.
  unfold name_extension, name_stem. destruct (rsplit_file_at_dot name) as [[s e]|] eqn:E; [|done].
  apply rsplit_file_at_dot_spec. done.
Qed.

(** The file name of a device node. *)
Lemma file_name_dev s :
  no_slash s -> skipped s = false -> s <> ".." -> file_name ("/dev/" +:+ s) = Some s.
Proof.
  intros Hs Hk Hd. unfold file_name, path_segs.
  change (path_parts ("/dev/" +:+ s)) with ("/", "dev" +:+ "/" +:+ s). cbn [snd].
  rewrite split_slash_app, (split_slash_no_slash s) by done.
  change (split_slash "dev" ++ [s]) with ["dev"; s].
  change (rev ["dev"; s]) with [s; "dev"]. cbn [drop_while]. rewrite Hk.
  change (last (rev [s; "dev"])) with (Some s). cbv iota beta.
  rewrite (proj2 (String.eqb_neq _ _)) by done. done.
Qed.

(** A directory with a name below it. *)
Lemma path_parts_below d n :
  d <> "" -> path_parts (d +:+ "/" +:+ n) = (fst (path_parts d), snd (path_parts d) +:+ "/" +:+ n).
Proof.
  destruct d as [|c d]; [done|]. intros _. rewrite app_cons_str. cbn [path_parts].
  destruct (Ascii.eqb c slash); [done|].
  assert ((is_empty (d +:+ "/" +:+ n) || starts_with "/" (d +:+ "/" +:+ n)) =
          (is_empty d || starts_with "/" d)) as ->.
  { destruct d as [|b d]; [done|]. rewrite app_cons_str. unfold starts_with.
    cbn [is_empty orb strip_prefix]. by destruct (Ascii.eqb "/"%char b). }
  case_match; done.
Qed.

Definition is_name (n : string) : Prop := no_slash n /\ skipped n = false.

Lemma path_parts_name n : is_name n -> path_parts n = ("", n).
Proof.
  intros [Hn Hk]. destruct n as [|c n]; [done|]. inversion Hn as [|?? Hc Hs]. subst. cbn.
  destruct (Ascii.eqb_spec c slash); [done|].
  destruct (Ascii.eqb_spec c "."%char) as [->|]; [|done]. destruct n as [|b n]; [done|].
  inversion Hs as [|?? Hb _]. subst. unfold starts_with. cbn [is_empty orb strip_prefix].
  destruct (Ascii.eqb_spec "/"%char b) as [<-|]; done.
Qed.

Lemma is_name_rel n : is_name n -> is_absolute n = false.
Proof.
  intros [Hn Hk]. unfold is_absolute. destruct (starts_with "/" n) eqn:E; [|done].
  apply starts_with_inv in E as [t ->]. inversion Hn. done.
Qed.

Lemma split_join_name p n :
  is_name n -> exists l, split_slash (snd (path_parts (path_join p n))) = l ++ [n].
Proof.
  intros Hn. pose proof Hn as [Hs _]. unfold path_join. rewrite is_name_rel by done.
  assert (forall d, exists l, split_slash (snd (path_parts (d +:+ "/" +:+ n))) = l ++ [n]) as Hb.
  { intros d. destruct (decide (d = "")) as [->|Hd].
    - exists []. change (path_parts ("" +:+ "/" +:+ n)) with ("/", n). by apply split_slash_no_slash.
    - rewrite path_parts_below by done. cbn [snd]. rewrite split_slash_app, (split_slash_no_slash n) by done.
      by eexists. }
  destruct (is_empty p) eqn:He; cbn [orb].
  { destruct p; [|done]. rewrite app_nil_str, path_parts_name by done. exists [].
    by apply split_slash_no_slash. }
  destruct (ends_with "/" p) eqn:E; [|by apply Hb].
  apply ends_with_inv in E as [q ->]. rewrite <- app_assoc_str. apply Hb.
Qed.

Lemma clean_tail_join p n : is_name n -> clean_tail (path_join p n).
Proof.
  intros Hn. destruct (split_join_name p n Hn) as [l Hl]. unfold clean_tail.
  rewrite Hl, rev_app_distr. cbn. apply Hn.
Qed.

Lemma path_segs_join p n : is_name n -> last (path_segs (path_join p n)) = Some n.
Proof.
  intros Hn. destruct (split_join_name p n Hn) as [l Hl].
  rewrite clean_tail_segs, Hl by by apply clean_tail_join. by rewrite last_snoc.
Qed.

Lemma file_name_join p n : is_name n -> n <> ".." -> file_name (path_join p n) = Some n.
Proof.
  intros Hn Hd. unfold file_name. rewrite path_segs_join by done.
  rewrite (proj2 (String.eqb_neq _ _)) by done. done.
Qed.

Lemma elem_of_split_slash s p : s ∈ split_slash p -> no_slash s.
Proof.
  revert s. induction p as [|c p IH]; intros s; cbn.
  - rewrite list_elem_of_singleton. intros ->. constructor.
  - destruct (Ascii.eqb_spec c slash) as [->|Hc].
    + rewrite elem_of_cons. intros [->|H]; [constructor|auto].
    + destruct (split_slash p) as [|h t].
      * rewrite list_elem_of_singleton. intros ->. by repeat constructor.
      * rewrite elem_of_cons. intros [->|H]; [|apply IH; by right].
        constructor; [done|]. apply IH. left.
Qed.

Lemma file_name_inv p n : file_name p = Some n -> is_name n /\ n <> "..".
Proof.
  unfold file_name, path_segs. destruct (last _) as [s|] eqn:E; [|done].
  destruct (String.eqb_spec s ".."); [done|]. intros [= <-]. split; [|done].
  set (l := split_slash _) in E. assert (forall x, x ∈ rev l -> no_slash x) as Hl.
  { intros x Hx. apply list_elem_of_In, in_rev, list_elem_of_In in Hx. by eapply elem_of_split_slash. }
  clearbody l. revert Hl E. generalize (rev l). clear l. intros l. induction l as [|a l IH]; [done|].
  intros Hl. cbn. destruct (skipped a) eqn:Ea.
  - apply IH. intros x Hx. apply Hl. by right.
  - cbn. rewrite last_snoc. intros [= ->]. split; [apply Hl; left|done].
Qed.

(** The parent of a name below a clean directory. *)
Lemma parent_below d n :
  is_name n -> clean_tail d -> d <> "" -> parent (d +:+ "/" +:+ n) = Some d.
Proof.
  intros Hn Hc Hd. pose proof Hn as [Hs Hk].
  assert (path_segs (d +:+ "/" +:+ n) = split_slash (snd (path_parts d)) ++ [n]) as Hp.
  { rewrite clean_tail_segs; unfold clean_tail; rewrite path_parts_below by done; cbn [snd];
      rewrite split_slash_app, (split_slash_no_slash n) by done; [done|].
    rewrite rev_app_distr. cbn. done. }
  unfold parent. rewrite Hp, rev_app_distr, path_parts_below by done. cbn [rev app fst].
  f_equal. rewrite <- (path_parts_join d) at 3. f_equal.
  change (rev (drop_while skipped (rev (split_slash (snd (path_parts d)))))) with (path_segs d).
  rewrite clean_tail_segs by done. apply join_split.
Qed.
