(* ===== verification/Sys.v ===== *)
(** The Linux side of the programs: the calls initos makes into the standard
    library and libc that reach the kernel ([sysE]), I/O errors, the wrappers
    of the standard library the source uses, and the external crates as
    parameters ([Externals]). *)

From S2P Require Import Prelude Prog Str.

(** ** I/O errors *)

Inductive error_kind : Type :=
| NotFound | PermissionDenied | InvalidInput | InvalidData | UnexpectedEof | OtherKind.

#[export] Instance error_kind_eq_dec : EqDecision error_kind.
Proof. solve_decision. Defined.

(** [io::Error]: an errno, or a kind with a message. *)
Inductive io_error : Type :=
| OsError (errno : Z)
| IoError (k : error_kind) (msg : string).

Abbreviation io A := (result A io_error).

(** The part of [decode_error_kind] that the source distinguishes. *)
Definition kind (e : io_error) : error_kind :=
  match e with
  | OsError n => if n =? 2 then NotFound else if (n =? 1) || (n =? 13) then PermissionDenied
                 else if n =? 22 then InvalidInput else OtherKind
  | IoError k _ => k
  end.

Definition raw_os_error (e : io_error) : option Z :=
  match e with OsError n => Some n | IoError _ _ => None end.

(** ** The structures passed to the verity ioctls *)

Record FsVerityDigest : Type := {
  digest_algorithm : Z;
  digest_size : Z;
  digest : list byte;
}.

Record FsVerityEnableArg : Type := {
  version : Z;
  hash_algorithm : Z;
  block_size : Z;
  salt_size : Z;
  salt_ptr : Z;
  sig_size : Z;
  reserved1 : Z;
  sig_ptr : Z;
  reserved2 : list Z;
}.

(** ** Calls *)

Inductive sysE : Type -> Type :=
(* process and environment *)
| EnvVar (name : string) : sysE (option string)
| SetVar (name value : string) : sysE unit
| VarsOs : sysE (list (string * string))
| ProcessId : sysE Z
| ProcArgs : sysE (list string)
| InstantNow : sysE Z   (** nanoseconds of the monotonic clock *)
| OsRandom (n : Z) : sysE (option (list byte))   (** [None]: the system generator fails *)
| ThreadSleep (ms : Z) : sysE unit
(* files and directories *)
| FsRead (path : string) : sysE (io (list byte))
| FsWrite (path : string) (data : list byte) : sysE (io unit)
| PathExists (path : string) : sysE bool
| PathIsFile (path : string) : sysE bool
| PathIsDir (path : string) : sysE bool
| FsReadLink (path : string) : sysE (io string)
| FsCanonicalize (path : string) : sysE (io string)
| FsReadDir (path : string) : sysE (io (list (io string)))
| FsCreateDirAll (path : string) : sysE (io unit)
| FileOpen (path : string) (write : bool) : sysE (io Z)
| FileSeek (fd pos : Z) : sysE (io unit)
| FileRead (fd cap : Z) : sysE (io (list byte))
| FileReadExact (fd n : Z) : sysE (io (list byte))
| FileWriteAll (fd : Z) (data : list byte) : sysE (io unit)
(* ioctls on open files *)
| IoctlMeasureVerity (fd : Z) (arg : FsVerityDigest) : sysE (io FsVerityDigest)
| IoctlEnableVerity (fd : Z) (arg : FsVerityEnableArg) : sysE (io unit)
| IoctlBuf (fd req : Z) (buf : list byte) : sysE (io (list byte))
(* libc *)
| LibcMount (source target : string) (fstype : option string) (flags : Z) (data : option string)
    : sysE (io unit)
| LibcOpen (path : string) (flags : Z) : sysE (io Z)
| LibcClose (fd : Z) : sysE unit
| LibcIoctl (fd req arg : Z) : sysE (io Z)
| LibcChdir (path : string) : sysE (io unit)
| LibcChroot (path : string) : sysE (io unit)
| LibcExecve (path : string) (argv envp : list string) : sysE (option io_error)
| LibcExecv (path : string) (argv : list string) : sysE (option io_error)
| LibcUname : sysE (io (list byte))
(* terminal and standard streams *)
| TcGetAttr : sysE (option Z)
| TcSetAttr (lflag : Z) : sysE (io unit)
| StdinReadLine : sysE (io (list byte))
| StdinReadToEnd : sysE (io (list byte))
| StdoutWriteAll (data : list byte) : sysE (io unit).

Abbreviation sys := (prog sysE).

(** ** External crates *)

(** What the source reads of [x509_cert] values. *)
Record AttributeTypeAndValue : Type := {
  atv_oid : string;
  atv_utf8 : option string;        (** [Utf8StringRef::try_from] *)
  atv_printable : option string;   (** [PrintableStringRef::try_from] *)
  atv_value : list byte;
}.

Inductive GeneralName : Type :=
| DnsName (s : string)
| Rfc822Name (s : string)
| UniformResourceIdentifier (s : string)
| IpAddress (bytes : list byte)
| OtherGeneralName (debug : string).

Record Extension : Type := {
  extn_id : string;
  extn_value : list byte;
}.

Record Certificate : Type := {
  spki_to_der : result (list byte) string;
  spki_algorithm_oid : string;
  spki_public_key : option (list byte);
  cert_subject : list (list AttributeTypeAndValue);
  cert_extensions : option (list Extension);
}.

(** The crates and the C library as parameters: [sha2], [base64], [x509-cert],
    [rsa], [ed25519-dalek] and [strerror]. *)
Class Externals : Type := {
  strerror : Z -> string;
  sha256 : list byte -> list byte;
  b64_encode : list byte -> string;
  b64_decode : string -> result (list byte) string;
  x509_from_der : list byte -> result Certificate string;
  san_from_der : list byte -> option (list GeneralName);
  rsa_key : Type;
  rsa_from_pkcs1_der : list byte -> option rsa_key;
  rsa_verify : rsa_key -> list byte -> list byte -> bool;
  ed25519_key : Type;
  ed25519_from_bytes : list byte -> result ed25519_key string;
  ed25519_verify_strict : ed25519_key -> list byte -> list byte -> bool;
}.

(** The documented behaviour of those crates that the source relies on. *)
Class ExternalsLaws (X : Externals) : Prop := {
  sha256_length : forall d, length (sha256 d) = 32%nat;
  b64_decode_encode : forall d, b64_decode (b64_encode d) = Ok d;
  b64_encode_empty : forall d, is_empty (b64_encode d) = true -> d = [];
}.

Section std.
Context `{X : Externals}.

(** [Display] of an [io::Error], which is all a [Box<dyn Error>] keeps of it. *)
Definition io_display (e : io_error) : string :=
  match e with
  | OsError n => strerror n +:+ " (os error " +:+ fmt_dec n +:+ ")"
  | IoError _ msg => msg
  end.

(** [?] from [io::Result] into [Result<_, Box<dyn Error>>]. *)
Definition boxed {A} (p : sys (io A)) : sys (result A string) :=
  let! r := p in mret (map_err io_display r).

(** [.map_err(f)?] *)
Definition with_err {A Er Er'} (f : Er -> Er') (p : sys (result A Er)) : sys (result A Er') :=
  let! r := p in mret (map_err f r).

(** The position of the first zero byte. *)
Fixpoint nul_position (s : string) : option Z :=
  match s with
  | EmptyString => None
  | String c s => if code c =? 0 then Some 0 else Z.succ <$> nul_position s
  end.

(** [CString::new(s).map_err(|e| io::Error::new(InvalidInput, e))] *)
Definition cstring (s : string) : io string :=
  match nul_position s with
  | None => Ok s
  | Some i => Err (IoError InvalidInput
                     ("nul byte found in provided data at position: " +:+ fmt_dec i))
  end.

Definition read_to_string (path : string) : sys (io string) :=
  let? data := trigger (FsRead path) in
  match from_utf8 data with
  | Some s => mret (Ok s)
  | None => mret (Err (IoError InvalidData "stream did not contain valid UTF-8"))
  end.

(** [file.read_exact(&mut buf)] fills the whole buffer or fails. *)
Definition read_exact (fd n : Z) : sys (io (list byte)) :=
  let? data := trigger (FileReadExact fd n) in
  if len data =? n then mret (Ok data)
  else mret (Err (IoError UnexpectedEof "failed to fill whole buffer")).

(** [dev.read(&mut buf)] returns at most the buffer. *)
Definition read_some (fd cap : Z) : sys (io (list byte)) :=
  let? data := trigger (FileRead fd cap) in
  mret (Ok (take (Z.to_nat cap) data)).

Definition env_var (name : string) : sys (option string) := trigger (EnvVar name).

Definition env_or (name default : string) : sys string :=
  let! v := env_var name in
  mret (match v with Some s => s | None => default end).

(** [fs::read_dir(p)?.flatten()]: the names of the readable entries. *)
Definition ok_entries (l : list (io string)) : list string := omap result_ok l.

End std.

Definition MS_RDONLY : Z := 1.
Definition MS_NOSUID : Z := 2.
Definition MS_NODEV : Z := 4.
Definition MS_NOEXEC : Z := 8.
Definition MS_BIND : Z := 4096.
Definition MS_MOVE : Z := 8192.
Definition MS_REC : Z := 16384.
Definition O_RDONLY : Z := 0.
Definition O_RDWR : Z := 2.

(** ** Lemmas *)

Section wp_std.
Context `{X : Externals}.
Implicit Type S : protocol sysE.

Lemma wp_boxed {A} S (p : sys (io A)) h Q :
  wp S p h (fun h' o => match o with
                        | Done r => Q h' (Done (map_err io_display r))
                        | Stopped s => Q h' (Stopped s) end) ->
  wp S (boxed p) h Q.
Proof. intros H. apply wp_bind. eapply wp_mono; [exact H|]. intros h' [[a|e]|s] HQ; done. Qed.

Lemma wp_with_err {A Er Er'} S (f : Er -> Er') (p : sys (result A Er)) h Q :
  wp S p h (fun h' o => match o with
                        | Done r => Q h' (Done (map_err f r))
                        | Stopped s => Q h' (Stopped s) end) ->
  wp S (with_err f p) h Q.
Proof. intros H. apply wp_bind. eapply wp_mono; [exact H|]. intros h' [[a|e]|s] HQ; done. Qed.

Lemma quiet_boxed {A} ok (p : sys (io A)) : quiet ok p -> quiet ok (boxed p).
Proof. intros H. apply quiet_bind; [done|]. done. Qed.

Lemma quiet_with_err {A Er Er'} ok (f : Er -> Er') (p : sys (result A Er)) :
  quiet ok p -> quiet ok (with_err f p).
Proof. intros H. apply quiet_bind; [done|]. done. Qed.

Lemma tame_boxed {A} ok fin (p : sys (io A)) : tame ok fin p -> tame ok fin (boxed p).
Proof. intros H. by apply tame_bind. Qed.

Lemma tame_with_err {A Er Er'} ok fin (f : Er -> Er') (p : sys (result A Er)) :
  tame ok fin p -> tame ok fin (with_err f p).
Proof. intros H. by apply tame_bind. Qed.

Lemma total_boxed {A} (p : sys (io A)) : total p -> total (boxed p).
Proof. intros H. apply total_bind; [done|]. done. Qed.

Lemma total_with_err {A Er Er'} (f : Er -> Er') (p : sys (result A Er)) : total p -> total (with_err f p).
Proof. intros H. apply total_bind; [done|]. done. Qed.

Lemma exec_boxed_ok {A} (p : sys (io A)) t a : exec (boxed p) t (Done (Ok a)) -> exec p t (Done (Ok a)).
Proof.
  intros H. apply exec_bind_done in H as (t1&t2&[b|e]&->&H1&[-> H2]); [|done].
  rewrite (app_nil_r t1). injection H2 as ->. done.
Qed.

Lemma exec_with_err_ok {A Er Er'} (f : Er -> Er') (p : sys (result A Er)) t a :
  exec (with_err f p) t (Done (Ok a)) -> exec p t (Done (Ok a)).
Proof.
  intros H. apply exec_bind_done in H as (t1&t2&[b|e]&->&H1&[-> H2]); [|done].
  rewrite (app_nil_r t1). injection H2 as ->. done.
Qed.

Lemma exec_trigger {A} (e : sysE A) t (o : outcome A) : exec (trigger e) t o -> exists x, t = [Ev e x] /\ o = Done x.
Proof. intros (x&t'&->&[-> ->]). by exists x. Qed.

Lemma cstring_ok s : nul_position s = None -> cstring s = Ok s.
Proof. unfold cstring. intros ->. done. Qed.

Lemma cstring_inv s t : cstring s = Ok t -> t = s.
Proof. unfold cstring. case_match; [done|]. intros [= <-]. done. Qed.

End wp_std.

#[export] Hint Resolve quiet_boxed quiet_with_err : quiet.

Lemma nul_position_none s : Forall (fun c => code c <> 0) (chars s) -> nul_position s = None.
Proof.
  induction s as [|c s IH]; [done|]. intros H. inversion H as [|?? Hc Hs]. subst. cbn.
  rewrite (proj2 (Z.eqb_neq _ _)) by done. rewrite IH by done. done.
Qed.

Lemma nul_position_app s t : nul_position s = None -> nul_position (s +:+ t) = Z.add (slen s) <$> nul_position t.
Proof.
  induction s as [|c s IH]; intros H.
  - rewrite app_nil_str. destruct (nul_position t); done.
  - rewrite app_cons_str. cbn in *. destruct (code c =? 0); [done|].
    destruct (nul_position s); [done|]. rewrite IH by done.
    destruct (nul_position t); [|done]. cbn. f_equal. unfold slen. cbn. lia.
Qed.

Lemma nul_position_fmt_dec n : nul_position (fmt_dec n) = None.
Proof.
  apply nul_position_none. eapply Forall_impl; [apply fmt_dec_digits|].
  intros c Hc. unfold is_ascii_digit in Hc. bool_prop. lia.
Qed.

(** ** Automation *)

Ltac quiet_step :=
  match goal with
  | |- quiet _ (mbind _ _) => apply quiet_bind; [|intros ?]
  | |- quiet _ (try_bind _ _) => apply quiet_try; [|intros ?]
  | |- quiet _ (with_err _ _) => apply quiet_with_err
  | |- quiet _ (boxed _) => apply quiet_boxed
  | |- quiet _ (lift _) => apply quiet_lift
  | |- quiet _ (trigger _) => split; [first [exact I|discriminate]|intros ?; exact I]
  | |- quiet _ (mret _) => exact I
  | |- quiet _ (Ret _) => exact I
  | |- quiet _ (Halt _) => exact I
  | |- quiet _ (match ?x with _ => _ end) => destruct x
  | |- quiet _ _ => progress cbv beta zeta
  | |- quiet _ _ => solve [auto with quiet nocore]
  end.
Ltac quiet_tac := repeat quiet_step.
