(* ===== verification/World.v ===== *)
(** A concrete kernel and concrete crates, on which witnesses run the models.
    Nothing here models initos: it instantiates the parameters of the
    development, so that the hypotheses of the theorems are seen to hold. *)

From S2P Require Import Prelude Prog Str Sys.

Definition toy_sha256 (d : list byte) : list byte := take 32 (d ++ zeros 32).

(** A certificate is [0x30] and its key; the key's DER form is the key. *)
Definition toy_cert (key : list byte) : Certificate :=
  {| spki_to_der := Ok key; spki_algorithm_oid := "1.2.840.113549.1.1.1";
     spki_public_key := Some key;
     cert_subject := [[{| atv_oid := "2.5.4.3"; atv_utf8 := Some "owner";
                          atv_printable := None; atv_value := [] |}]];
     cert_extensions := None |}.

(** A signature is the key followed by the signed hash. *)
Definition toy_verify (k h s : list byte) : bool := bool_decide (s = k ++ h).

#[export] Instance toy_externals : Externals := {|
  strerror _ := "error";
  sha256 := toy_sha256;
  b64_encode := of_bytes;
  b64_decode s := Ok (as_bytes s);
  x509_from_der d := match d with b :: key => if b2z b =? 0x30 then Ok (toy_cert key) else Err "tag"
                     | [] => Err "empty" end;
  san_from_der _ := None;
  rsa_key := list byte;
  rsa_from_pkcs1_der := Some;
  rsa_verify := toy_verify;
  ed25519_key := list byte;
  ed25519_from_bytes k := Ok k;
  ed25519_verify_strict := toy_verify;
|}.

(** The state of the toy kernel: regular files, directories, environment, the
    clock, and open files (path and position).  [wdev] answers the reads of
    character devices, in order, per path. *)
Record world : Type := {
  wfiles : gmap string (list byte);
  wdirs : list string;
  wlinks : gmap string string;
  wentries : gmap string (list string);
  wenv : gmap string string;
  wclock : Z;
  wnext : Z;
  wopen : gmap Z (string * Z);
  wdev : gmap string (list (list byte));
  wstdin : list (list byte);
  wpid : Z;
  wargs : list string;
}.

Definition world0 : world :=
  {| wfiles := ∅; wdirs := []; wlinks := ∅; wentries := ∅; wenv := ∅; wclock := 0;
     wnext := 3; wopen := ∅; wdev := ∅; wstdin := []; wpid := 1; wargs := ["initos"] |}.

Definition set_env (w : world) (e : gmap string string) : world :=
  {| wfiles := wfiles w; wdirs := wdirs w; wlinks := wlinks w; wentries := wentries w;
     wenv := e; wclock := wclock w; wnext := wnext w; wopen := wopen w; wdev := wdev w;
     wstdin := wstdin w; wpid := wpid w; wargs := wargs w |}.
Definition set_clock (w : world) (c : Z) : world :=
  {| wfiles := wfiles w; wdirs := wdirs w; wlinks := wlinks w; wentries := wentries w;
     wenv := wenv w; wclock := c; wnext := wnext w; wopen := wopen w; wdev := wdev w;
     wstdin := wstdin w; wpid := wpid w; wargs := wargs w |}.
Definition set_dirs (w : world) (d : list string) : world :=
  {| wfiles := wfiles w; wdirs := d; wlinks := wlinks w; wentries := wentries w;
     wenv := wenv w; wclock := wclock w; wnext := wnext w; wopen := wopen w; wdev := wdev w;
     wstdin := wstdin w; wpid := wpid w; wargs := wargs w |}.
Definition set_files (w : world) (f : gmap string (list byte)) : world :=
  {| wfiles := f; wdirs := wdirs w; wlinks := wlinks w; wentries := wentries w;
     wenv := wenv w; wclock := wclock w; wnext := wnext w; wopen := wopen w; wdev := wdev w;
     wstdin := wstdin w; wpid := wpid w; wargs := wargs w |}.
Definition set_entries (w : world) (l : gmap string (list string)) : world :=
  {| wfiles := wfiles w; wdirs := wdirs w; wlinks := wlinks w; wentries := l;
     wenv := wenv w; wclock := wclock w; wnext := wnext w; wopen := wopen w; wdev := wdev w;
     wstdin := wstdin w; wpid := wpid w; wargs := wargs w |}.
Definition set_fds (w : world) (n : Z) (o : gmap Z (string * Z)) : world :=
  {| wfiles := wfiles w; wdirs := wdirs w; wlinks := wlinks w; wentries := wentries w;
     wenv := wenv w; wclock := wclock w; wnext := n; wopen := o; wdev := wdev w;
     wstdin := wstdin w; wpid := wpid w; wargs := wargs w |}.
Definition set_dev (w : world) (d : gmap string (list (list byte))) : world :=
  {| wfiles := wfiles w; wdirs := wdirs w; wlinks := wlinks w; wentries := wentries w;
     wenv := wenv w; wclock := wclock w; wnext := wnext w; wopen := wopen w; wdev := d;
     wstdin := wstdin w; wpid := wpid w; wargs := wargs w |}.
Definition set_stdin (w : world) (s : list (list byte)) : world :=
  {| wfiles := wfiles w; wdirs := wdirs w; wlinks := wlinks w; wentries := wentries w;
     wenv := wenv w; wclock := wclock w; wnext := wnext w; wopen := wopen w; wdev := wdev w;
     wstdin := s; wpid := wpid w; wargs := wargs w |}.

Definition ENOENT : io_error := OsError 2.

Definition mem_str (s : string) (l : list string) : bool := existsb (String.eqb s) l.

Definition world_exists (w : world) (p : string) : bool :=
  mem_str p (wdirs w) || bool_decide (is_Some (wfiles w !! p)) || bool_decide (is_Some (wdev w !! p)).

Definition world_open (w : world) (p : string) : io Z * world :=
  if world_exists w p then (Ok (wnext w), set_fds w (wnext w + 1) (<[wnext w := (p, 0)]> (wopen w)))
  else (Err ENOENT, w).

(** Reads return what is left of a file, or the next message of a device. *)
Definition world_read (w : world) (fd cap : Z) : io (list byte) * world :=
  match wopen w !! fd with
  | None => (Err (OsError 9), w)
  | Some (p, pos) =>
      match wfiles w !! p, wdev w !! p with
      | Some data, _ =>
          let bs := take (Z.to_nat cap) (drop (Z.to_nat pos) data) in
          (Ok bs, set_fds w (wnext w) (<[fd := (p, pos + len bs)]> (wopen w)))
      | _, Some (m :: ms) => (Ok (take (Z.to_nat cap) m), set_dev w (<[p := ms]> (wdev w)))
      | _, _ => (Ok [], w)
      end
  end.

Definition world_os : forall A, sysE A -> world -> A * world := fun A e w =>
  match e in sysE A return A * world with
  | EnvVar n => (wenv w !! n, w)
  | SetVar n v => (tt, set_env w (<[n := v]> (wenv w)))
  | VarsOs => (map_to_list (wenv w), w)
  | ProcessId => (wpid w, w)
  | ProcArgs => (wargs w, w)
  | InstantNow => (wclock w, w)
  | OsRandom n => (Some (zeros n), w)
  | ThreadSleep ms => (tt, set_clock w (wclock w + ms * 1000000))
  | FsRead p => (match wfiles w !! p with Some d => Ok d | None => Err ENOENT end, w)
  | FsWrite p d => (Ok tt, set_files w (<[p := d]> (wfiles w)))
  | PathExists p => (world_exists w p, w)
  | PathIsFile p => (bool_decide (is_Some (wfiles w !! p)), w)
  | PathIsDir p => (mem_str p (wdirs w), w)
  | FsReadLink p => (match wlinks w !! p with Some l => Ok l
                     | None => Err (OsError (if world_exists w p then 22 else 2)) end, w)
  | FsCanonicalize p => (Ok p, w)
  | FsReadDir p => (match wentries w !! p with Some l => Ok (map Ok l) | None => Err ENOENT end, w)
  | FsCreateDirAll p => (Ok tt, if mem_str p (wdirs w) then w else set_dirs w (p :: wdirs w))
  | FileOpen p _ => world_open w p
  | FileSeek fd pos =>
      match wopen w !! fd with
      | Some (p, _) => (Ok tt, set_fds w (wnext w) (<[fd := (p, pos)]> (wopen w)))
      | None => (Err (OsError 9), w)
      end
  | FileRead fd cap => world_read w fd cap
  | FileReadExact fd n => world_read w fd n
  | FileWriteAll fd _ => (Ok tt, w)
  | IoctlMeasureVerity fd _ =>
      (match wopen w !! fd with
       | Some (p, _) => match wfiles w !! p with
                        | Some d => Ok {| digest_algorithm := 1; digest_size := 32;
                                          digest := toy_sha256 d |}
                        | None => Err (OsError 61)
                        end
       | None => Err (OsError 9)
       end, w)
  | IoctlEnableVerity _ _ => (Ok tt, w)
  | IoctlBuf _ _ buf => (Ok buf, w)
  | LibcMount _ target _ _ _ => (Ok tt, set_dirs w (target :: wdirs w))
  | LibcOpen p _ => world_open w p
  | LibcClose fd => (tt, set_fds w (wnext w) (delete fd (wopen w)))
  | LibcIoctl _ _ _ => (Ok 0, w)
  | LibcChdir _ => (Ok tt, w)
  | LibcChroot _ => (Ok tt, w)
  | LibcExecve _ _ _ => (None, w)
  | LibcExecv _ _ => (None, w)
  | LibcUname => (Ok (as_bytes "6.18"), w)
  | TcGetAttr => (None, w)
  | TcSetAttr _ => (Ok tt, w)
  | StdinReadLine => match wstdin w with l :: ls => (Ok l, set_stdin w ls) | [] => (Ok [], w) end
  | StdinReadToEnd => (Ok (concat (wstdin w)), set_stdin w [])
  | StdoutWriteAll _ => (Ok tt, w)
  end.

#[export] Instance toy_laws : ExternalsLaws toy_externals.
Proof.
  split.
  - intros d. cbn [sha256 toy_externals]. unfold toy_sha256, zeros.
    rewrite length_take, length_app, length_replicate. lia.
  - intros d. apply (f_equal Ok), as_bytes_of_bytes.
  - intros d H. change (is_empty (of_bytes d) = true) in H.
    rewrite <- (as_bytes_of_bytes d). destruct (of_bytes d); done.
Qed.

(** The execution of a program in a toy world. *)
Definition trace_of {A} (w : world) (p : sys A) : hist sysE := (run world_os p w).1.1.
Definition outcome_of {A} (w : world) (p : sys A) : outcome A := (run world_os p w).1.2.

Lemma toy_exec {A} (w : world) (p : sys A) o : outcome_of w p = o -> exec p (trace_of w p) o.
Proof.
  intros <-. apply run_is_exec.
Qed.
