(* ===== verification/Verity.v ===== *)
(** fs-verity measurement and enabling ([src/verity.rs]). *)

From S2P Require Import Prelude Prog Str Sys.

Definition FS_IOC_MEASURE_VERITY : Z := 0xC0046686.
Definition FS_IOC_ENABLE_VERITY : Z := 0x40806685.
Definition FS_VERITY_HASH_ALG_SHA256 : Z := 1.
Definition FS_VERITY_HASH_ALG_SHA512 : Z := 2.

(** The contents of a [u8] array of [n] elements that the kernel wrote. *)
Definition array (n : Z) (l : list byte) : list byte := take (Z.to_nat n) (l ++ zeros n).

Definition measure_verity_fd (file : Z) : sys (io (Z * list byte)) :=
  let? d := trigger (IoctlMeasureVerity file
              {| digest_algorithm := 0; digest_size := 64; digest := zeros 64 |}) in
  let! bs := lift (slice (array 64 (digest d)) 0 (digest_size d)) in
  mret (Ok (digest_algorithm d, bs)).

Definition measure_verity (path : string) : sys (io (Z * list byte)) :=
  let? file := trigger (FileOpen path false) in
  measure_verity_fd file.

Definition enable_verity_fd (file : Z) : sys (io unit) :=
  trigger (IoctlEnableVerity file
    {| version := 1; hash_algorithm := FS_VERITY_HASH_ALG_SHA256; block_size := 4096;
       salt_size := 0; salt_ptr := 0; sig_size := 0; reserved1 := 0; sig_ptr := 0;
       reserved2 := replicate 11 0 |}).

(** Lower-case hexadecimal, two digits per byte.  [tpm2::hex] and
    [fscrypt::hex] are the same function. *)
Definition digest_to_hex (digest : list byte) : string :=
  String.concat "" (map hex2 digest).

(** ** Lemmas *)

Lemma concat_cons_empty s l : String.concat "" (s :: l) = s +:+ String.concat "" l.
Proof. destruct l; cbn; [by rewrite app_nil_r_str|done]. Qed.

Lemma digest_to_hex_cons b l : digest_to_hex (b :: l) = hex2 b +:+ digest_to_hex l.
Proof. unfold digest_to_hex. cbn [map]. apply concat_cons_empty. Qed.

Lemma digest_to_hex_app l m : digest_to_hex (l ++ m) = digest_to_hex l +:+ digest_to_hex m.
Proof.
  induction l as [|b l IH]; [done|].
  rewrite <- app_comm_cons, !digest_to_hex_cons, IH. apply app_assoc_str.
Qed.

Lemma chars_hex2 b : chars (hex2 b) = hex_fixed false 2 (b2z b).
Proof. apply chars_of_chars. Qed.

Lemma digest_to_hex_hexdigit l :
  Forall (fun c => is_ascii_hexdigit c = true) (chars (digest_to_hex l)).
Proof.
  induction l as [|b l IH]; [constructor|].
  rewrite digest_to_hex_cons, chars_app, chars_hex2. apply Forall_app. split; [|done].
  apply hex_fixed_hexdigit.
Qed.

Lemma length_digest_to_hex l : length (chars (digest_to_hex l)) = (2 * length l)%nat.
Proof.
  induction l as [|b l IH]; [done|].
  rewrite digest_to_hex_cons, chars_app, length_app, IH, chars_hex2, length_hex_fixed.
  cbn. lia.
Qed.

Lemma hex2_inj b c : hex2 b = hex2 c -> b = c.
Proof.
  intros H. apply b2z_inj.
  pose proof (b2z_range b). pose proof (b2z_range c).
  pose proof (digits_value_hex_fixed false 2 (b2z b) ltac:(lia) ltac:(unfold U32; lia)) as Hb.
  pose proof (digits_value_hex_fixed false 2 (b2z c) ltac:(lia) ltac:(unfold U32; lia)) as Hc.
  unfold hex2 in H. rewrite H, Hc in Hb. congruence.
Qed.

(** Two bytes strings with the same text are the same. *)
Lemma digest_to_hex_inj l m : digest_to_hex l = digest_to_hex m -> l = m.
Proof.
  revert m. induction l as [|b l IH]; intros m H.
  - destruct m as [|c m]; [done|]. apply (f_equal (fun s => length (chars s))) in H.
    rewrite !length_digest_to_hex in H. cbn in H. lia.
  - destruct m as [|c m].
    { apply (f_equal (fun s => length (chars s))) in H. rewrite !length_digest_to_hex in H. cbn in H. lia. }
    rewrite !digest_to_hex_cons in H. apply (f_equal chars) in H.
    rewrite !chars_app in H. apply app_inj_1 in H as [H1 H2];
      [|rewrite !chars_hex2, !length_hex_fixed; done].
    f_equal.
    + apply hex2_inj. rewrite <- (of_chars_chars (hex2 b)), H1. apply of_chars_chars.
    + apply IH. rewrite <- (of_chars_chars (digest_to_hex l)), H2. apply of_chars_chars.
Qed.

(** The digits are lower case. *)
Definition lower_hex (c : ascii) : Prop := 48 <= code c <= 57 \/ 97 <= code c <= 102.

Lemma hex_digit_lower d : 0 <= d < 16 -> lower_hex (hex_digit false d).
Proof.
  intros. unfold lower_hex. rewrite hex_digit_code by done. destruct (Z.ltb_spec d 10); lia.
Qed.

Lemma hex_fixed_lower n v : Forall lower_hex (hex_fixed false n v).
Proof.
  revert v. induction n; intros; cbn; [done|]. apply Forall_app. split; [done|].
  constructor; [|done]. apply hex_digit_lower, Z.mod_pos_bound. lia.
Qed.

Lemma digest_to_hex_lower l : Forall lower_hex (chars (digest_to_hex l)).
Proof.
  induction l as [|b l IH]; [constructor|].
  rewrite digest_to_hex_cons, chars_app, chars_hex2. apply Forall_app. split; [|done].
  apply hex_fixed_lower.
Qed.
