(* ===== verification/Efi.v ===== *)
(** The EFI variable reader ([src/efi.rs]): SecureBoot, BootCurrent, the boot
    option's device path, and the X.509 certificates of the signature database. *)

From S2P Require Import Prelude Prog Str Sys World.

Definition EFI_GLOBAL_GUID : string := "8be4df61-93ca-11d2-aa0d-00e098032b8c".
Definition EFI_IMAGE_SECURITY_DB_GUID : string := "d719b2cb-3d3a-4596-a3bc-dad00e67656f".
Definition EFI_CERT_X509_GUID : list byte :=
  map z2b [0xa1; 0x59; 0xc0; 0xa5; 0xe4; 0x94; 0xa7; 0x4a; 0x87; 0xb5; 0xab; 0x15; 0x5c; 0x2b; 0xf0; 0x72].

Record BootDeviceInfo : Type := {
  partition_number : Z;
  partition_guid : option (list byte);
  mbr_signature : option Z;
  partition_format : Z;
}.

(** [g[i]] of a 16-byte array, formatted [{:02x}]. *)
Definition guid_hex (g : list byte) (order : list nat) : string :=
  String.concat "" (map (fun i => hex2 (nth i g x00)) order).

Definition format_guid_uuid (g : list byte) : string :=
  guid_hex g [3; 2; 1; 0]%nat +:+ "-" +:+ guid_hex g [5; 4]%nat +:+ "-" +:+
  guid_hex g [7; 6]%nat +:+ "-" +:+ guid_hex g [8; 9]%nat +:+ "-" +:+
  guid_hex g [10; 11; 12; 13; 14; 15]%nat.

Definition partition_guid_uuid (info : BootDeviceInfo) : option string :=
  format_guid_uuid <$> partition_guid info.

Record EfiCert : Type := {
  key_id : string;
  public_key_b64 : string;
  rsa_public_key_b64 : string;
  cn : string;
  sans : list string;
}.

Definition efi_cert_display (c : EfiCert) : string :=
  public_key_b64 c +:+ " CN=" +:+ cn c +:+
  (match sans c with [] => "" | l => " SAN=" +:+ join "," l end).

Definition invalid_data (msg : string) : io_error := IoError InvalidData msg.

(** The four attribute bytes are dropped. *)
Definition strip_attributes (data : list byte) : io (list byte) :=
  if len data <? 4 then
    Err (invalid_data ("EFI variable too short: " +:+ fmt_dec (len data) +:+ " bytes"))
  else Ok (drop 4 data).

Section Efi.
Context `{X : Externals}.

Definition read_efi_var (name base_path : string) : sys (io (list byte)) :=
  let? data := trigger (FsRead (base_path +:+ "/" +:+ name +:+ "-" +:+ EFI_GLOBAL_GUID)) in
  mret (strip_attributes data).

Definition read_efi_var_file (path : string) : sys (io (list byte)) :=
  let? data := trigger (FsRead path) in
  mret (strip_attributes data).

Definition read_secure_boot (base_path : string) : sys (io Z) :=
  let? payload := read_efi_var "SecureBoot" base_path in
  match payload with
  | [] => mret (Err (invalid_data "SecureBoot payload is empty"))
  | b :: _ => mret (Ok (b2z b))
  end.

Definition read_boot_current (base_path : string) : sys (io Z) :=
  let? payload := read_efi_var "BootCurrent" base_path in
  if len payload <? 2 then
    mret (Err (invalid_data ("BootCurrent payload too short: " +:+ fmt_dec (len payload) +:+ " bytes")))
  else
    let! v := lift (read_le 2 payload 0) in
    mret (Ok v).

(** The loop that skips the description: the offset after the terminator. *)
Fixpoint skip_description (fuel : nat) (payload : list byte) (offset : Z) : comp (option Z) :=
  match fuel with
  | O => NoFuel
  | S fuel =>
      if offset + 1 <? len payload then
        let! char_val := read_le 2 payload offset in
        let offset := offset + 2 in
        if char_val =? 0 then mret (Some offset) else skip_description fuel payload offset
      else mret None
  end.

(** The device path of an [EFI_LOAD_OPTION]. *)
Definition load_option_file_path_list (boot_var_name : string) (payload : list byte)
    : comp (io (list byte)) :=
  if len payload <? 6 then
    mret (Err (invalid_data ("Boot variable " +:+ boot_var_name +:+ " payload too short: "
                             +:+ fmt_dec (len payload) +:+ " bytes")))
  else
    let! file_path_list_len := read_le 2 payload 4 in
    let! skipped := skip_description (length payload) payload 6 in
    match skipped with
    | None => mret (Err (invalid_data ("Boot variable " +:+ boot_var_name
                                       +:+ " Description is not null-terminated")))
    | Some offset =>
        let file_path_list_end := offset + file_path_list_len in
        if len payload <? file_path_list_end then
          mret (Err (invalid_data ("Boot variable " +:+ boot_var_name
            +:+ " FilePathList extends beyond payload (" +:+ fmt_dec file_path_list_end
            +:+ " > " +:+ fmt_dec (len payload) +:+ ")")))
        else
          let! l := slice payload offset file_path_list_end in
          mret (Ok l)
    end.

(** The loops over the device path nodes. *)
Fixpoint scan_partition_id (fuel : nat) (l : list byte) (node_offset : Z) : comp (option Z) :=
  match fuel with
  | O => NoFuel
  | S fuel =>
      if node_offset + 4 <=? len l then
        let! node_type := index l node_offset in
        let! node_subtype := index l (node_offset + 1) in
        let! node_length := read_le 2 l (node_offset + 2) in
        if (node_length <? 4) || (len l <? node_offset + node_length) then mret None
        else if (b2z node_type =? 4) && (b2z node_subtype =? 1) && (42 <=? node_length) then
          let! part_num := read_le 4 l (node_offset + 4) in
          mret (Some part_num)
        else scan_partition_id fuel l (node_offset + node_length)
      else mret None
  end.

(** The Hard Drive node at [base]. *)
Definition hard_drive_node (l : list byte) (base node_length : Z) : comp BootDeviceInfo :=
  let! part_num := read_le 4 l (base + 4) in
  if 42 <=? node_length then
    let! format := index l (base + 40) in
    let! signature_type := index l (base + 41) in
    if (b2z format =? 2) && (b2z signature_type =? 2) then
      let! guid := slice l (base + 24) (base + 40) in
      mret {| partition_number := part_num; partition_guid := Some guid;
              mbr_signature := None; partition_format := b2z format |}
    else if (b2z format =? 1) && (b2z signature_type =? 1) then
      let! sig := read_le 4 l (base + 24) in
      mret {| partition_number := part_num; partition_guid := None;
              mbr_signature := Some sig; partition_format := b2z format |}
    else
      mret {| partition_number := part_num; partition_guid := None;
              mbr_signature := None; partition_format := b2z format |}
  else if 25 <=? node_length then
    let! format := index l (base + 24) in
    mret {| partition_number := part_num; partition_guid := None;
            mbr_signature := None; partition_format := b2z format |}
  else
    mret {| partition_number := part_num; partition_guid := None;
            mbr_signature := None; partition_format := 0 |}.

Fixpoint scan_device_info (fuel : nat) (l : list byte) (node_offset : Z)
    : comp (option BootDeviceInfo) :=
  match fuel with
  | O => NoFuel
  | S fuel =>
      if node_offset + 4 <=? len l then
        let! node_type := index l node_offset in
        let! node_subtype := index l (node_offset + 1) in
        let! node_length := read_le 2 l (node_offset + 2) in
        if (node_length <? 4) || (len l <? node_offset + node_length) then mret None
        else if (b2z node_type =? 4) && (b2z node_subtype =? 1) then
          let! info := hard_drive_node l node_offset node_length in
          mret (Some info)
        else scan_device_info fuel l (node_offset + node_length)
      else mret None
  end.

Definition partition_id_of_option (boot_var_name : string) (payload : list byte)
    : comp (io (option Z)) :=
  let? l := load_option_file_path_list boot_var_name payload in
  let! r := scan_partition_id (S (length l)) l 0 in
  mret (Ok r).

Definition device_info_of_option (boot_var_name : string) (payload : list byte)
    : comp (io (option BootDeviceInfo)) :=
  let? l := load_option_file_path_list boot_var_name payload in
  let! r := scan_device_info (S (length l)) l 0 in
  mret (Ok r).

(** [BootCurrent] selects [Boot####]; an unreadable variable is no answer, a
    malformed one is an error. *)
Definition with_boot_option {A} (base_path : string)
    (parse : string -> list byte -> comp (io (option A))) : sys (io (option A)) :=
  let! bc := read_boot_current base_path in
  match bc with
  | Err _ => mret (Ok None)
  | Ok boot_current =>
      let boot_var_name := "Boot" +:+ fmt_hex true 4 boot_current in
      let! var := read_efi_var boot_var_name base_path in
      match var with
      | Err _ => mret (Ok None)
      | Ok payload => lift (parse boot_var_name payload)
      end
  end.

Definition extract_boot_partition_id (base_path : string) : sys (io (option Z)) :=
  with_boot_option base_path partition_id_of_option.

Definition extract_boot_device_info (base_path : string) : sys (io (option BootDeviceInfo)) :=
  with_boot_option base_path device_info_of_option.

(** ** Certificates *)

Definition public_key_id (spki_der : list byte) : string :=
  String.concat "" (map hex2 (take 8 (sha256 spki_der))).

Definition CN_OID : string := "2.5.4.3".
Definition SAN_OID : string := "2.5.29.17".

Definition atv_string (atv : AttributeTypeAndValue) : string :=
  match atv_utf8 atv with
  | Some s => s
  | None => match atv_printable atv with
            | Some s => s
            | None => from_utf8_lossy (atv_value atv)
            end
  end.

Definition extract_cn (name : list (list AttributeTypeAndValue)) : string :=
  match List.find (fun atv => (atv_oid atv =? CN_OID)%string) (concat name) with
  | Some atv => atv_string atv
  | None => ""
  end.

Fixpoint chunks2 (l : list byte) : list Z :=
  match l with
  | a :: b :: l => be_of [a; b] :: chunks2 l
  | _ => []
  end.

Definition format_ip (bytes : list byte) : string :=
  if len bytes =? 4 then "IP:" +:+ join "." (map (fun b => fmt_dec (b2z b)) bytes)
  else if len bytes =? 16 then "IP:" +:+ join ":" (map (fmt_hex false 1) (chunks2 bytes))
  else "IP:<" +:+ fmt_dec (len bytes) +:+ " bytes>".

Definition format_general_name (gn : GeneralName) : string :=
  match gn with
  | DnsName dns => "DNS:" +:+ dns
  | Rfc822Name email => "email:" +:+ email
  | UniformResourceIdentifier uri => "URI:" +:+ uri
  | IpAddress bytes => format_ip bytes
  | OtherGeneralName debug => debug
  end.

(** The first subject-alternative-name extension that parses. *)
Fixpoint sans_of_extensions (exts : list Extension) : list string :=
  match exts with
  | [] => []
  | ext :: exts =>
      if (extn_id ext =? SAN_OID)%string then
        match san_from_der (extn_value ext) with
        | Some names => map format_general_name names
        | None => sans_of_extensions exts
        end
      else sans_of_extensions exts
  end.
Definition extract_sans (c : Certificate) : list string :=
  match cert_extensions c with Some exts => sans_of_extensions exts | None => [] end.

Definition parse_x509_cert (der_bytes : list byte) : io EfiCert :=
  match x509_from_der der_bytes with
  | Err e => Err (invalid_data ("DER parse: " +:+ e))
  | Ok cert =>
      match spki_to_der cert with
      | Err e => Err (invalid_data ("SPKI DER: " +:+ e))
      | Ok spki_der =>
          Ok {| key_id := public_key_id spki_der;
                public_key_b64 := b64_encode spki_der;
                rsa_public_key_b64 :=
                  match spki_public_key cert with Some bytes => b64_encode bytes | None => "" end;
                cn := extract_cn (cert_subject cert);
                sans := extract_sans cert |}
      end
  end.

(** The signatures of one X.509 list; a certificate that does not parse is
    skipped. *)
Fixpoint parse_sigs (fuel : nat) (data : list byte) (sig_size sigs_end sig_offset : Z)
    : comp (list EfiCert) :=
  match fuel with
  | O => NoFuel
  | S fuel =>
      if sig_offset + sig_size <=? sigs_end then
        let der_start := sig_offset + 16 in
        let der_end := der_start + (sig_size - 16) in
        if len data <? der_end then mret []
        else
          let! der_bytes := slice data der_start der_end in
          let! certs := parse_sigs fuel data sig_size sigs_end (sig_offset + sig_size) in
          mret (match parse_x509_cert der_bytes with
                | Ok cert => cert :: certs
                | Err _ => certs
                end)
      else mret []
  end.

Definition bytes_eqb (a b : list byte) : bool := bool_decide (a = b).

Fixpoint parse_esl_go (fuel : nat) (data : list byte) (certs : list EfiCert) (offset : Z)
    : comp (io (list EfiCert)) :=
  match fuel with
  | O => NoFuel
  | S fuel =>
      if offset + 28 <=? len data then
        let! sig_type := slice data offset (offset + 16) in
        let! list_size := read_le 4 data (offset + 16) in
        let! header_size := read_le 4 data (offset + 20) in
        let! sig_size := read_le 4 data (offset + 24) in
        if negb (bytes_eqb sig_type EFI_CERT_X509_GUID) then
          if list_size =? 0 then mret (Ok certs)
          else parse_esl_go fuel data certs (offset + list_size)
        else if (sig_size <? 16) || (list_size <? 28 + header_size) then
          mret (Err (invalid_data "Invalid ESL signature size"))
        else
          let! found := parse_sigs (S (length data)) data sig_size (offset + list_size)
                          (offset + 28 + header_size) in
          parse_esl_go fuel data (certs ++ found) (offset + list_size)
      else mret (Ok certs)
  end.

Definition parse_esl (data : list byte) : comp (io (list EfiCert)) :=
  parse_esl_go (S (length data)) data [] 0.

Definition read_db (base_path : string) : sys (io (list EfiCert)) :=
  let? data := trigger (FsRead (base_path +:+ "/db-" +:+ EFI_IMAGE_SECURITY_DB_GUID)) in
  match strip_attributes data with
  | Ok payload => lift (parse_esl payload)
  | Err e => mret (Err e)
  end.

Fixpoint db_lines (i : Z) (certs : list EfiCert) : string :=
  match certs with
  | [] => ""
  | c :: certs =>
      "db[" +:+ fmt_dec i +:+ "]: " +:+ public_key_b64 c +:+ " CN=" +:+ cn c +:+ str1 nl +:+
      (match sans c with
       | [] => ""
       | l => "db[" +:+ fmt_dec i +:+ "] SAN: " +:+ join ", " l +:+ str1 nl
       end) +:+ db_lines (i + 1) certs
  end.

Definition info_line {A} (name : string) (show : A -> string) (r : io A) : string :=
  match r with
  | Ok v => show v
  | Err e => name +:+ ": error: " +:+ io_display e +:+ str1 nl
  end.

Definition read_efi_info (base_path : string) : sys (io string) :=
  let! sb := read_secure_boot base_path in
  let! bc := read_boot_current base_path in
  let! db := read_db base_path in
  mret (Ok (info_line "SecureBoot" (fun v => "SecureBoot: " +:+ fmt_dec v +:+ str1 nl) sb +:+
            info_line "BootCurrent" (fun v => "BootCurrent: " +:+ fmt_dec v +:+ str1 nl) bc +:+
            info_line "db" (db_lines 0) db)).

End Efi.

(** ** The formats, as encoders *)

(** A signature list of the database. *)
Record SignatureList : Type := {
  sl_type : list byte;
  sl_header : list byte;
  sl_sig_size : Z;
  sl_sigs : list (list byte * list byte);   (** owner, certificate *)
}.

Definition encode_sig (s : list byte * list byte) : list byte := s.1 ++ s.2.

Definition sl_size (l : SignatureList) : Z :=
  28 + len (sl_header l) + len (concat (map encode_sig (sl_sigs l))).

Definition encode_signature_list (l : SignatureList) : list byte :=
  sl_type l ++ to_le 4 (sl_size l) ++ to_le 4 (len (sl_header l)) ++ to_le 4 (sl_sig_size l) ++
  sl_header l ++ concat (map encode_sig (sl_sigs l)).

Definition encode_esl (ls : list SignatureList) : list byte :=
  concat (map encode_signature_list ls).

Definition sl_wf (l : SignatureList) : Prop :=
  length (sl_type l) = 16%nat /\ 16 <= sl_sig_size l < U32 /\ sl_size l < U32 /\
  Forall (fun s => length s.1 = 16%nat /\ len s.2 = sl_sig_size l - 16) (sl_sigs l).

(** A device path node and an [EFI_LOAD_OPTION]. *)
Definition encode_node (node_type subtype : byte) (body : list byte) : list byte :=
  node_type :: subtype :: to_le 2 (4 + len body) ++ body.

Definition is_hard_drive (node_type subtype : byte) : bool :=
  (b2z node_type =? 4) && (b2z subtype =? 1).

Definition encode_nodes (ns : list (byte * byte * list byte)) : list byte :=
  concat (map (fun '(t, s, body) => encode_node t s body) ns).

Definition encode_gpt_node (part_num : Z) (start_size guid rest : list byte) : list byte :=
  encode_node x04 x01 (to_le 4 part_num ++ start_size ++ guid ++ [x02; x02] ++ rest).

Definition encode_load_option (attrs : list byte) (desc : list Z) (path opt : list byte) : list byte :=
  attrs ++ to_le 2 (len path) ++ concat (map (to_le 2) desc) ++ [x00; x00] ++ path ++ opt.

(** ** Termination and absence of panics *)

Section facts.
Context `{X : Externals}.

Lemma parse_sigs_total fuel data sig_size sigs_end sig_offset :
  16 <= sig_size -> 0 <= sig_offset -> len data - sig_offset < Z.of_nat fuel -> (0 < fuel)%nat ->
  exists r, parse_sigs fuel data sig_size sigs_end sig_offset = Val r.
Proof.
  intros Hs. revert sig_offset. induction fuel as [|fuel IH]; intros off Ho Hf H0; [lia|].
  cbn. destruct (Z.leb_spec (off + sig_size) sigs_end); [|eauto].
  destruct (Z.ltb_spec (len data) (off + 16 + (sig_size - 16))); [eauto|].
  rewrite slice_val by lia. cbn.
  destruct (IH (off + sig_size)) as [r ->]; [lia..|]. cbn. eauto.
Qed.

Lemma parse_esl_go_total fuel data certs offset :
  0 <= offset -> len data - offset < Z.of_nat fuel -> (0 < fuel)%nat ->
  exists r, parse_esl_go fuel data certs offset = Val r.
Proof.
  revert certs offset. induction fuel as [|fuel IH]; intros certs off Ho Hf H0; [lia|].
  cbn [parse_esl_go]. destruct (Z.leb_spec (off + 28) (len data)); [|mcbn; eauto].
  rewrite slice_val by lia. mcbn.
  destruct (read_le_bounds 4 data (off + 16)) as (ls&->&Hls); [lia..|].
  destruct (read_le_bounds 4 data (off + 20)) as (hs&->&Hhs); [lia..|].
  destruct (read_le_bounds 4 data (off + 24)) as (ss&->&Hss); [lia..|]. mcbn.
  case_match.
  - destruct (Z.eqb_spec ls 0); [eauto|]. apply IH; lia.
  - case_match; [eauto|]. bool_prop.
    destruct (parse_sigs_total (S (length data)) data ss (off + ls) (off + 28 + hs)) as [r ->];
      [lia|lia|unfold len; lia|lia|]. mcbn.
    apply IH; lia.
Qed.

(** Every certificate comes from a slice of the database. *)
Definition from_data (data : list byte) (c : EfiCert) : Prop :=
  exists off sig_size, 0 <= off /\ off + sig_size <= len data /\
    parse_x509_cert (sub data (off + 16) (off + sig_size)) = Ok c.

Lemma parse_sigs_sound fuel data sig_size sigs_end sig_offset r :
  16 <= sig_size -> 0 <= sig_offset ->
  parse_sigs fuel data sig_size sigs_end sig_offset = Val r -> Forall (from_data data) r.
Proof.
  intros Hs. revert sig_offset r. induction fuel as [|fuel IH]; intros off r Ho; [done|]. cbn.
  case_match; [|intros [= <-]; done]. case_match; [intros [= <-]; done|]. bool_prop.
  rewrite slice_val by lia. cbn.
  destruct (parse_sigs fuel data sig_size sigs_end (off + sig_size)) as [r'| |] eqn:E; [|done..].
  cbn. intros [= <-]. apply IH in E; [|lia].
  destruct (parse_x509_cert _) as [c|e] eqn:Ec; [|done]. constructor; [|done].
  exists off, sig_size. split; [lia|]. split; [lia|].
  replace (off + 16 + (sig_size - 16)) with (off + sig_size) in Ec by lia. done.
Qed.

Lemma parse_esl_go_sound fuel data certs offset r :
  0 <= offset -> Forall (from_data data) certs ->
  parse_esl_go fuel data certs offset = Val (Ok r) -> Forall (from_data data) r.
Proof.
  revert certs offset. induction fuel as [|fuel IH]; intros certs off Ho Hc; [done|].
  cbn [parse_esl_go]. mcbn.
  case_match; [|intros [= <-]; done]. bool_prop.
  rewrite slice_val by lia. mcbn.
  destruct (read_le_bounds 4 data (off + 16)) as (ls&->&Hls); [lia..|].
  destruct (read_le_bounds 4 data (off + 20)) as (hs&->&Hhs); [lia..|].
  destruct (read_le_bounds 4 data (off + 24)) as (ss&->&Hss); [lia..|]. mcbn.
  case_match.
  - case_match; [intros [= <-]; done|]. apply IH; [lia|done].
  - case_match; [done|]. bool_prop.
    destruct (parse_sigs _ _ _ _ _) as [found| |] eqn:E; [|done..]. mcbn.
    apply IH; [lia|]. apply Forall_app. split; [done|].
    eapply parse_sigs_sound; [| |exact E]; lia.
Qed.

(** ** Round trip of the signature database *)

Lemma concat_sigs_cons o d sigs :
  concat (map encode_sig ((o, d) :: sigs)) = o ++ d ++ concat (map encode_sig sigs).
Proof. cbn. app_eq. Qed.

Lemma parse_sigs_encode fuel data pre sigs post sig_size sigs_end :
  16 <= sig_size ->
  Forall (fun s => length s.1 = 16%nat /\ len s.2 = sig_size - 16) sigs ->
  data = pre ++ concat (map encode_sig sigs) ++ post ->
  sigs_end = len pre + len (concat (map encode_sig sigs)) ->
  (length sigs < fuel)%nat ->
  parse_sigs fuel data sig_size sigs_end (len pre) =
    Val (omap (fun s => result_ok (parse_x509_cert s.2)) sigs).
Proof.
  intros Hs Hw. revert fuel pre. induction Hw as [|[o d] sigs [Ho Hd] Hw IH];
    intros fuel pre -> -> Hf; (destruct fuel as [|fuel]; [cbn in Hf; lia|]); cbn [parse_sigs].
  - cbn. rewrite (proj2 (Z.leb_gt _ _)) by (autorewrite with len; lia). done.
  - cbn [fst snd] in *.
    rewrite concat_sigs_cons in IH |- *.
    assert (len o = 16) as Ho' by (unfold len; lia).
    pose proof (len_nonneg (concat (map encode_sig sigs))). pose proof (len_nonneg post).
    rewrite (proj2 (Z.leb_le _ _)) by len_tac.
    rewrite (proj2 (Z.ltb_ge _ _)) by len_tac.
    rewrite (slice_at _ (pre ++ o) d (concat (map encode_sig sigs) ++ post)); [|app_eq|len_tac..].
    mcbn. replace (len pre + sig_size) with (len (pre ++ o ++ d)) by len_tac.
    rewrite IH; [|app_eq|len_tac|cbn in Hf; lia]. mcbn.
    cbn. destruct (parse_x509_cert d); done.
Qed.


Lemma len_16 (l : list byte) : length l = 16%nat -> len l = 16.
Proof. unfold len. lia. Qed.

Lemma len_sigs_ge sigs sig_size :
  0 <= sig_size ->
  Forall (fun s => length s.1 = 16%nat /\ len s.2 = sig_size - 16) sigs ->
  len (concat (map encode_sig sigs)) = sig_size * Z.of_nat (length sigs).
Proof.
  intros Hs. induction 1 as [|[o d] sigs [Ho Hd] _ IH]; [by rewrite Z.mul_0_r|].
  rewrite concat_sigs_cons. cbn [length fst snd] in *.
  apply len_16 in Ho. rewrite Nat2Z.inj_succ, Z.mul_succ_r. autorewrite with len. lia.
Qed.

(** The certificates a database carries. *)
Definition list_certs (l : SignatureList) : list EfiCert :=
  if bytes_eqb (sl_type l) EFI_CERT_X509_GUID
  then omap (fun s => result_ok (parse_x509_cert s.2)) (sl_sigs l) else [].
Definition esl_certs (ls : list SignatureList) : list EfiCert := concat (map list_certs ls).

(** The header of a well-formed list. *)
Lemma signature_list_header pre l rest data :
  sl_wf l -> data = pre ++ encode_signature_list l ++ rest ->
  len pre + 28 <= len data /\ slice data (len pre) (len pre + 16) = Val (sl_type l) /\
  read_le 4 data (len pre + 16) = Val (sl_size l) /\
  read_le 4 data (len pre + 20) = Val (len (sl_header l)) /\
  read_le 4 data (len pre + 24) = Val (sl_sig_size l) /\
  len pre + sl_size l = len (pre ++ encode_signature_list l) /\ 28 + len (sl_header l) <= sl_size l.
Proof.
  intros (Hty&Hss&Hsz&_) ->. apply len_16 in Hty. unfold encode_signature_list.
  set (enc := concat (map encode_sig (sl_sigs l))).
  assert (sl_size l = 28 + len (sl_header l) + len enc) as Hsize by done.
  pose proof (len_nonneg (sl_header l)). pose proof (len_nonneg enc). pose proof (len_nonneg rest).
  split_and!; [len_tac|..|len_tac|lia].
  - apply (slice_at _ pre (sl_type l) (to_le 4 (sl_size l) ++ to_le 4 (len (sl_header l)) ++
      to_le 4 (sl_sig_size l) ++ sl_header l ++ enc ++ rest)); [app_eq|len_tac..].
  - rewrite (read_le_at 4 _ (pre ++ sl_type l) (to_le 4 (sl_size l)) (to_le 4 (len (sl_header l)) ++
      to_le 4 (sl_sig_size l) ++ sl_header l ++ enc ++ rest)); [|app_eq|len_tac|done].
    by rewrite le_of_to_le_small by (change (256 ^ Z.of_nat 4) with U32; lia).
  - rewrite (read_le_at 4 _ (pre ++ sl_type l ++ to_le 4 (sl_size l)) (to_le 4 (len (sl_header l)))
      (to_le 4 (sl_sig_size l) ++ sl_header l ++ enc ++ rest)); [|app_eq|len_tac|done].
    by rewrite le_of_to_le_small by (change (256 ^ Z.of_nat 4) with U32; lia).
  - rewrite (read_le_at 4 _ (pre ++ sl_type l ++ to_le 4 (sl_size l) ++ to_le 4 (len (sl_header l)))
      (to_le 4 (sl_sig_size l)) (sl_header l ++ enc ++ rest)); [|app_eq|len_tac|done].
    by rewrite le_of_to_le_small by (change (256 ^ Z.of_nat 4) with U32; lia).
Qed.

(** Its signatures: what precedes them, their bytes, and their number. *)
Lemma signature_list_body pre l rest data :
  sl_wf l -> data = pre ++ encode_signature_list l ++ rest ->
  exists before, data = before ++ concat (map encode_sig (sl_sigs l)) ++ rest /\
    len before = len pre + 28 + len (sl_header l) /\
    len pre + sl_size l = len before + len (concat (map encode_sig (sl_sigs l))) /\
    (length (sl_sigs l) < S (length data))%nat.
Proof.
  intros (Hty&Hss&Hsz&Hsigs) ->. apply len_16 in Hty.
  pose proof (len_sigs_ge (sl_sigs l) (sl_sig_size l) ltac:(lia) Hsigs) as Hls.
  exists (pre ++ sl_type l ++ to_le 4 (sl_size l) ++ to_le 4 (len (sl_header l)) ++
    to_le 4 (sl_sig_size l) ++ sl_header l). unfold encode_signature_list.
  set (enc := concat (map encode_sig (sl_sigs l))) in *.
  assert (sl_size l = 28 + len (sl_header l) + len enc) as Hsize by done.
  split_and!; [app_eq|len_tac|len_tac|]. rewrite !length_app. unfold len in *. nia.
Qed.

Lemma parse_esl_go_encode fuel pre ls tail certs data :
  Forall sl_wf ls -> len tail < 28 -> data = pre ++ encode_esl ls ++ tail ->
  (length ls < fuel)%nat ->
  parse_esl_go fuel data certs (len pre) = Val (Ok (certs ++ esl_certs ls)).
Proof.
  intros Hw Ht. revert fuel pre certs. induction Hw as [|l ls Hl Hw IH];
    intros fuel pre certs Hd Hf; (destruct fuel as [|fuel]; [cbn in Hf; lia|]);
    cbn [parse_esl_go].
  - rewrite Hd, (proj2 (Z.leb_gt _ _)) by (cbn; len_tac). mcbn. rewrite app_nil_r. done.
  - assert (data = pre ++ encode_signature_list l ++ encode_esl ls ++ tail) as Hd'
      by (rewrite Hd; unfold encode_esl; cbn [map concat]; app_eq).
    destruct (signature_list_header _ _ _ _ Hl Hd') as (Hlen&->&->&->&->&Hnext&Hmin).
    rewrite (proj2 (Z.leb_le _ _)) by done. mcbn. rewrite Hnext.
    assert (data = (pre ++ encode_signature_list l) ++ encode_esl ls ++ tail) as Hd2
      by (rewrite Hd'; app_eq).
    pose proof (len_nonneg (sl_header l)).
    unfold esl_certs. cbn [map concat]. unfold list_certs at 1.
    destruct (bytes_eqb (sl_type l) EFI_CERT_X509_GUID); cbn [negb].
    + destruct (signature_list_body _ _ _ _ Hl Hd') as (before&Hb&Hlb&He&Hn). rewrite <- Hlb, <- Hnext, He.
      destruct Hl as (_&Hss&_&Hsigs).
      rewrite (proj2 (Z.ltb_ge _ _)), (proj2 (Z.ltb_ge _ _)) by lia. cbn [orb].
      rewrite (parse_sigs_encode _ _ before (sl_sigs l) (encode_esl ls ++ tail)); [|lia|done..].
      mcbn. rewrite <- He, Hnext, (IH fuel _ _ Hd2) by (cbn in Hf; lia). by rewrite <- (assoc_L app).
    + rewrite (proj2 (Z.eqb_neq _ _)) by lia. by rewrite (IH fuel _ _ Hd2) by (cbn in Hf; lia).
Qed.

Lemma length_encode_esl ls : (length ls <= length (encode_esl ls))%nat.
Proof.
  unfold encode_esl. induction ls as [|l ls IH]; [cbn; lia|].
  cbn [map concat]. rewrite length_app. unfold encode_signature_list at 1.
  rewrite !length_app, !length_to_le. cbn [length]. lia.
Qed.

(** ** Boot options *)

Lemma skip_description_encode fuel data pre desc post :
  Forall (fun u => 0 < u < U16) desc ->
  data = pre ++ concat (map (to_le 2) desc) ++ [x00; x00] ++ post ->
  (length desc < fuel)%nat ->
  skip_description fuel data (len pre) =
    Val (Some (len (pre ++ concat (map (to_le 2) desc) ++ [x00; x00]))).
Proof.
  intros Hw. revert fuel pre. induction Hw as [|u desc Hu Hw IH];
    intros fuel pre -> Hf; (destruct fuel as [|fuel]; [cbn in Hf; lia|]); cbn [skip_description].
  - pose proof (len_nonneg post).
    rewrite (proj2 (Z.ltb_lt _ _)) by (cbn [map concat]; len_tac).
    rewrite (read_le_at 2 _ pre [x00; x00] post); [|app_eq|done|done]. mcbn.
    cbn [map concat app]. change (le_of [x00; x00] =? 0) with true. cbv iota.
    do 2 f_equal. len_tac.
  - cbn [map concat]. pose proof (len_nonneg post).
    pose proof (len_nonneg (concat (map (to_le 2) desc))).
    rewrite (proj2 (Z.ltb_lt _ _)) by len_tac.
    rewrite (read_le_at 2 _ pre (to_le 2 u) (concat (map (to_le 2) desc) ++ [x00; x00] ++ post));
      [|app_eq|done|done]. mcbn.
    rewrite le_of_to_le_small by (change (256 ^ Z.of_nat 2) with U16; lia).
    rewrite (proj2 (Z.eqb_neq _ _)) by lia.
    replace (len pre + 2) with (len (pre ++ to_le 2 u)) by len_tac.
    rewrite IH; [|app_eq|cbn in Hf; lia]. do 2 f_equal. len_tac.
Qed.

Lemma length_desc desc : length (concat (map (to_le 2) desc)) = (2 * length desc)%nat.
Proof. induction desc as [|u l IH]; [done|].
  cbn [map concat]. rewrite length_app, length_to_le, IH. cbn [length]. lia.
Qed.

Lemma load_option_encode name attrs desc path opt :
  length attrs = 4%nat -> Forall (fun u => 0 < u < U16) desc -> len path < U16 ->
  load_option_file_path_list name (encode_load_option attrs desc path opt) = Val (Ok path).
Proof.
  intros Ha Hd Hp. unfold load_option_file_path_list.
  assert (len attrs = 4) as Ha' by (unfold len; lia).
  unfold encode_load_option. set (d := concat (map (to_le 2) desc)).
  pose proof (len_nonneg path). pose proof (len_nonneg opt). pose proof (len_nonneg d).
  rewrite (proj2 (Z.ltb_ge _ _)) by len_tac.
  rewrite (read_le_at 2 _ attrs (to_le 2 (len path)) (d ++ [x00; x00] ++ path ++ opt));
    [|app_eq|done|done]. mcbn.
  rewrite le_of_to_le_small by (change (256 ^ Z.of_nat 2) with U16; lia).
  replace 6 with (len (attrs ++ to_le 2 (len path))) by len_tac.
  rewrite (skip_description_encode _ _ _ desc (path ++ opt)); [|done|fold d; app_eq|].
  2:{ rewrite !length_app. unfold d. rewrite length_desc. lia. }
  mcbn. fold d. rewrite (proj2 (Z.ltb_ge _ _)) by len_tac.
  rewrite (slice_at _ (attrs ++ to_le 2 (len path) ++ d ++ [x00; x00]) path opt);
    [done|app_eq|len_tac..].
Qed.

(** Nodes before the Hard Drive node are passed over. *)
Definition node_wf (n : byte * byte * list byte) : Prop :=
  is_hard_drive n.1.1 n.1.2 = false /\ len n.2 + 4 < U16.

(** One step of either loop over a well-formed node. *)
Lemma node_header_read pre t s body post data :
  data = pre ++ encode_node t s body ++ post -> len body + 4 < U16 ->
  (len pre + 4 <=? len data) = true /\ index data (len pre) = Val t /\
  index data (len pre + 1) = Val s /\ read_le 2 data (len pre + 2) = Val (4 + len body) /\
  ((4 + len body <? 4) || (len data <? len pre + (4 + len body))) = false /\
  len pre + (4 + len body) = len (pre ++ encode_node t s body).
Proof.
  intros -> Hb. pose proof (len_nonneg body). pose proof (len_nonneg post).
  unfold encode_node. split_and!.
  - apply Z.leb_le. len_tac.
  - apply (index_at _ pre ((s :: to_le 2 (4 + len body) ++ body) ++ post)); [app_eq|done].
  - apply (index_at _ (pre ++ [t]) ((to_le 2 (4 + len body) ++ body) ++ post)); [app_eq|len_tac].
  - rewrite (read_le_at 2 _ (pre ++ [t; s]) (to_le 2 (4 + len body)) (body ++ post));
      [|app_eq|len_tac|done].
    rewrite le_of_to_le_small; [done|]. change (256 ^ Z.of_nat 2) with U16. lia.
  - apply orb_false_intro; apply Z.ltb_ge; len_tac.
  - len_tac.
Qed.

Lemma encode_nodes_cons t s body ns :
  encode_nodes ((t, s, body) :: ns) = encode_node t s body ++ encode_nodes ns.
Proof. done. Qed.

Lemma scan_device_info_skip fuel pre ns post data :
  Forall node_wf ns -> data = pre ++ encode_nodes ns ++ post ->
  scan_device_info (length ns + fuel) data (len pre) =
  scan_device_info fuel data (len (pre ++ encode_nodes ns)).
Proof.
  intros Hw. revert pre. induction Hw as [|[[t s] body] ns [Hn Hb] Hw IH]; intros pre ->.
  - cbn. rewrite app_nil_r. done.
  - cbn [fst snd] in *. rewrite encode_nodes_cons in IH |- *.
    cbn [length Nat.add scan_device_info].
    destruct (node_header_read pre t s body (encode_nodes ns ++ post)
      (pre ++ (encode_node t s body ++ encode_nodes ns) ++ post)) as (H1&H2&H3&H4&H5&H6);
      [app_eq|lia|].
    rewrite H1, H2. mcbn. rewrite H3. mcbn. rewrite H4. mcbn. rewrite H5, H6.
    unfold is_hard_drive in Hn. rewrite Hn. rewrite IH by app_eq. f_equal. len_tac.
Qed.

Lemma scan_partition_id_skip fuel pre ns post data :
  Forall node_wf ns -> data = pre ++ encode_nodes ns ++ post ->
  scan_partition_id (length ns + fuel) data (len pre) =
  scan_partition_id fuel data (len (pre ++ encode_nodes ns)).
Proof.
  intros Hw. revert pre. induction Hw as [|[[t s] body] ns [Hn Hb] Hw IH]; intros pre ->.
  - cbn. rewrite app_nil_r. done.
  - cbn [fst snd] in *. rewrite encode_nodes_cons in IH |- *.
    cbn [length Nat.add scan_partition_id].
    destruct (node_header_read pre t s body (encode_nodes ns ++ post)
      (pre ++ (encode_node t s body ++ encode_nodes ns) ++ post)) as (H1&H2&H3&H4&H5&H6);
      [app_eq|lia|].
    rewrite H1, H2. mcbn. rewrite H3. mcbn. rewrite H4. mcbn. rewrite H5, H6.
    unfold is_hard_drive in Hn. rewrite Hn. cbn [andb]. rewrite IH by app_eq. f_equal. len_tac.
Qed.

Lemma length_encode_nodes ns : (length ns <= length (encode_nodes ns))%nat.
Proof.
  unfold encode_nodes. induction ns as [|[[t s] b] ns IH]; [cbn; lia|].
  cbn [map concat]. rewrite length_app. unfold encode_node at 1. cbn [length]. lia.
Qed.

(** The Hard Drive node of a GPT partition. *)
Lemma hard_drive_node_gpt data pre part_num ss guid rest post node_length :
  data = pre ++ encode_gpt_node part_num ss guid rest ++ post ->
  0 <= part_num < U32 -> length ss = 16%nat -> length guid = 16%nat -> 42 <= node_length ->
  hard_drive_node data (len pre) node_length =
    Val {| partition_number := part_num; partition_guid := Some guid;
           mbr_signature := None; partition_format := 2 |}.
Proof.
  intros -> Hn Hss Hg Hl. apply len_16 in Hss, Hg.
  unfold encode_gpt_node, encode_node.
  set (lenb := to_le 2 _). assert (len lenb = 2) as Hlb by done. clearbody lenb.
  unfold hard_drive_node.
  rewrite (read_le_at 4 _ (pre ++ x04 :: x01 :: lenb) (to_le 4 part_num)
    (ss ++ guid ++ [x02; x02] ++ rest ++ post) (len pre + 4)); [|app_eq|len_tac|done]. mcbn.
  rewrite le_of_to_le_small by (change (256 ^ Z.of_nat 4) with U32; lia).
  rewrite (proj2 (Z.leb_le _ _)) by lia.
  rewrite (index_at _ (pre ++ x04 :: x01 :: lenb ++ to_le 4 part_num ++ ss ++ guid)
    (x02 :: rest ++ post) x02 (len pre + 40)); [|app_eq|len_tac]. mcbn.
  rewrite (index_at _ (pre ++ x04 :: x01 :: lenb ++ to_le 4 part_num ++ ss ++ guid ++ [x02])
    (rest ++ post) x02 (len pre + 41)); [|app_eq|len_tac]. mcbn.
  change (b2z x02) with 2. cbn [Z.eqb Pos.eqb andb].
  rewrite (slice_at _ (pre ++ x04 :: x01 :: lenb ++ to_le 4 part_num ++ ss) guid
    ([x02; x02] ++ rest ++ post)); [|app_eq|len_tac..]. done.
Qed.

End facts.

(** ** Properties *)

Section properties.
Context `{X : Externals}.

(** C38: The database parser terminates and never panics, whatever bytes the
    firmware variable holds: it returns certificates or an error; and every
    certificate it returns was parsed from a slice of the variable, after the
    16-byte owner GUID of a signature. *)
Theorem parse_esl_total_sound (data : list byte) :
  exists r, parse_esl data = Val r /\
    match r with Ok certs => Forall (from_data data) certs | Err _ => True end.
Proof.
  destruct (parse_esl_go_total (S (length data)) data [] 0) as [r Hr]; [lia|unfold len; lia|lia|].
  exists r. split; [done|]. destruct r as [certs|]; [|done].
  eapply parse_esl_go_sound; [| |exact Hr]; [lia|done].
Qed.

(** Round trip of the signature database: parsing the encoding of any
    sequence of well-formed signature lists (followed by fewer than 28 stray
    bytes) gives exactly the certificates of its X.509 lists that parse, in
    order; other lists, list headers and owner GUIDs are skipped. *)
Theorem parse_esl_encode (ls : list SignatureList) (tail : list byte) :
  Forall sl_wf ls -> len tail < 28 ->
  parse_esl (encode_esl ls ++ tail) = Val (Ok (esl_certs ls)).
Proof.
  intros Hw Ht. unfold parse_esl.
  rewrite (parse_esl_go_encode _ [] ls tail []); [done..|].
  rewrite length_app. pose proof (length_encode_esl ls). lia.
Qed.

(** Round trip of the boot option: for a load option with any description
    and any device path whose first Hard Drive node is a GPT node, both readers
    give the partition number, and [extract_boot_device_info] the partition GUID
    and the GPT format. *)
Theorem boot_option_gpt_roundtrip (name : string) (attrs ss guid rest path_rest opt : list byte)
    (desc : list Z) (ns : list (byte * byte * list byte)) (part_num : Z) (path : list byte) :
  length attrs = 4%nat -> Forall (fun u => 0 < u < U16) desc -> Forall node_wf ns ->
  0 <= part_num < U32 -> length ss = 16%nat -> length guid = 16%nat ->
  path = encode_nodes ns ++ encode_gpt_node part_num ss guid rest ++ path_rest -> len path < U16 ->
  device_info_of_option name (encode_load_option attrs desc path opt) =
    Val (Ok (Some {| partition_number := part_num; partition_guid := Some guid;
                     mbr_signature := None; partition_format := 2 |})) /\
  partition_id_of_option name (encode_load_option attrs desc path opt) = Val (Ok (Some part_num)).
Proof.
  intros Ha Hd Hns Hn Hss Hg Hp Hl.
  pose proof (length_encode_nodes ns) as Hlen.
  assert (exists f, S (length path) = (length ns + S f)%nat) as [f Hf].
  { exists (length path - length ns)%nat. subst path. rewrite length_app in *. lia. }
  unfold device_info_of_option, partition_id_of_option.
  rewrite load_option_encode by done. mcbn. rewrite Hf.
  change 0 with (len (@nil byte)).
  rewrite (scan_device_info_skip _ [] ns (encode_gpt_node part_num ss guid rest ++ path_rest)) by done.
  rewrite (scan_partition_id_skip _ [] ns (encode_gpt_node part_num ss guid rest ++ path_rest)) by done.
  cbn [app scan_device_info scan_partition_id].
  assert (len ss = 16) by (by apply len_16). assert (len guid = 16) by (by apply len_16).
  set (body := to_le 4 part_num ++ ss ++ guid ++ [x02; x02] ++ rest).
  assert (42 <= 4 + len body) as Hb by (unfold body; pose proof (len_nonneg rest); len_tac).
  destruct (node_header_read (encode_nodes ns) x04 x01 body path_rest path) as (H1&H2&H3&H4&H5&_);
    [done| |].
  { subst path. unfold encode_gpt_node, encode_node in Hl. fold body in Hl.
    pose proof (len_nonneg (encode_nodes ns)). pose proof (len_nonneg path_rest). len_tac. }
  rewrite H1, H2. mcbn. rewrite H3. mcbn. rewrite H4. mcbn. rewrite H5.
  change (b2z x04 =? 4) with true. change (b2z x01 =? 1) with true. cbn [andb].
  rewrite (hard_drive_node_gpt path _ part_num ss guid rest path_rest) by done. mcbn.
  split; [done|]. rewrite (proj2 (Z.leb_le _ _)) by done.
  rewrite (read_le_at 4 path (encode_nodes ns ++ x04 :: x01 :: to_le 2 (4 + len body))
    (to_le 4 part_num) (ss ++ guid ++ [x02; x02] ++ rest ++ path_rest));
    [|subst path; unfold encode_gpt_node, encode_node; fold body; unfold body at 2; app_eq
     |len_tac|done].
  mcbn. rewrite le_of_to_le_small by (change (256 ^ Z.of_nat 4) with U32; lia). done.
Qed.

(** C40: A Hard Drive node too short to hold a partition number, last in the
    device path, makes [extract_boot_device_info] panic (it reads bytes 4 to 7
    of the node without checking its length), where [extract_boot_partition_id]
    skips the node and answers that there is no partition. *)
Theorem short_hard_drive_node_panics (name : string) (attrs body opt : list byte)
    (desc : list Z) (ns : list (byte * byte * list byte)) (path : list byte) :
  length attrs = 4%nat -> Forall (fun u => 0 < u < U16) desc -> Forall node_wf ns ->
  len body < 4 -> path = encode_nodes ns ++ encode_node x04 x01 body -> len path < U16 ->
  device_info_of_option name (encode_load_option attrs desc path opt) = Panicked /\
  partition_id_of_option name (encode_load_option attrs desc path opt) = Val (Ok None).
Proof.
  intros Ha Hd Hns Hb Hp Hl. pose proof (len_nonneg body).
  pose proof (length_encode_nodes ns) as Hlen.
  assert (exists f, S (length path) = (length ns + S (S f))%nat) as [f Hf].
  { exists (length path - length ns - 1)%nat. subst path. rewrite length_app in *.
    unfold encode_node. cbn [length]. lia. }
  unfold device_info_of_option, partition_id_of_option.
  rewrite load_option_encode by done. mcbn. rewrite Hf. change 0 with (len (@nil byte)).
  rewrite (scan_device_info_skip _ [] ns (encode_node x04 x01 body)) by done.
  rewrite (scan_partition_id_skip _ [] ns (encode_node x04 x01 body)) by done.
  cbn [app]. cbn [scan_device_info]. remember (S f) as f1. cbn [scan_partition_id].
  destruct (node_header_read (encode_nodes ns) x04 x01 body [] path) as (H1&H2&H3&H4&H5&H6);
    [by rewrite app_nil_r|unfold U16; lia|].
  rewrite H1, H2. mcbn. rewrite H3. mcbn. rewrite H4. mcbn. rewrite H5.
  change (b2z x04 =? 4) with true. change (b2z x01 =? 1) with true. cbn [andb].
  rewrite (proj2 (Z.leb_gt 42 _)) by lia. cbn [andb].
  assert (len path = len (encode_nodes ns) + (4 + len body)) as Hlp by (subst path; len_tac).
  assert (read_le 4 path (len (encode_nodes ns) + 4) = Panicked) as Hr.
  { unfold read_le. rewrite slice_panics by lia. done. }
  unfold hard_drive_node. rewrite Hr. split; [done|].
  subst f1. cbn [scan_partition_id]. rewrite (proj2 (Z.leb_gt _ _)) by lia. done.
Qed.

End properties.

(** ** Witnesses *)

Definition toy_list : SignatureList :=
  {| sl_type := EFI_CERT_X509_GUID; sl_header := [x07]; sl_sig_size := 19;
     sl_sigs := [(zeros 16, [x30; x01; x02]); (zeros 16, [x31; x01; x02]);
                 (zeros 16, [x30; x03; x04])] |}.
Definition toy_other_list : SignatureList :=
  {| sl_type := zeros 16; sl_header := []; sl_sig_size := 48; sl_sigs := [(zeros 16, zeros 32)] |}.

Lemma parse_esl_encode_witness :
  length (esl_certs [toy_other_list; toy_list]) = 2%nat /\
  parse_esl (encode_esl [toy_other_list; toy_list] ++ [x00; x01])
    = Val (Ok (esl_certs [toy_other_list; toy_list])).
Proof.
  split; [vm_compute; reflexivity|]. apply parse_esl_encode.
  - repeat constructor; vm_compute; try reflexivity; intros H; discriminate H.
  - vm_compute. reflexivity.
Defined.

Definition toy_guid : list byte :=
  [xaa; x11; xbb; x22; xcc; x33; xdd; x44; xee; x55; xff; x66; x77; x88; x99; x00].
Definition toy_path : list byte :=
  encode_nodes [(x02, x01, zeros 8)] ++ encode_gpt_node 101 (zeros 16) toy_guid [] ++ [].

Lemma boot_option_gpt_roundtrip_witness :
  format_guid_uuid toy_guid = "22bb11aa-33cc-44dd-ee55-ff6677889900" /\
  partition_id_of_option "Boot0003"
    (encode_load_option (zeros 4) [66; 111; 111; 116] toy_path []) = Val (Ok (Some 101)).
Proof.
  split; [vm_compute; reflexivity|].
  apply (boot_option_gpt_roundtrip "Boot0003" (zeros 4) (zeros 16) toy_guid [] [] []
    [66; 111; 111; 116] [(x02, x01, zeros 8)] 101 toy_path);
    repeat constructor; vm_compute; try reflexivity; intros H; discriminate H.
Defined.

Lemma short_hard_drive_node_panics_witness :
  device_info_of_option "Boot0003"
    (encode_load_option (zeros 4) [66] (encode_node x04 x01 []) []) = Panicked.
Proof.
  apply (short_hard_drive_node_panics "Boot0003" (zeros 4) [] [] [66] [] (encode_node x04 x01 []));
    repeat constructor; vm_compute; try reflexivity; intros H; discriminate H.
Defined.
