(* ===== verification/BootOption.v ===== *)
(** The boot option of the firmware ([src/efi.rs], [extract_boot_device_info]):
    the record that is read is well typed, and the only boot options that make
    the reader panic are those whose device path is cut inside a node. *)

From S2P Require Import Prelude Prog Str Sys World Verity Efi.

(** The offsets of the device path nodes. *)
Inductive node_at (l : list byte) : Z -> Prop :=
| node_first : node_at l 0
| node_next k n : node_at l k -> read_le 2 l (k + 2) = Val n -> 4 <= n -> node_at l (k + n).

(** The Hard Drive nodes hold the partition number. *)
Definition complete_nodes (l : list byte) : Prop :=
  forall k, node_at l k -> index l k = Val x04 -> index l (k + 1) = Val x01 -> k + 8 <= len l.

(** The values have the widths of the Rust fields, and a GUID or an MBR
    signature comes with the format it belongs to. *)
Definition info_wf (i : BootDeviceInfo) : Prop :=
  0 <= partition_number i < U32 /\ 0 <= partition_format i < 256 /\
  (forall g, partition_guid i = Some g -> length g = 16%nat /\ partition_format i = 2 /\ mbr_signature i = None) /\
  (forall s, mbr_signature i = Some s -> 0 <= s < U32 /\ partition_format i = 1 /\ partition_guid i = None).

(** ** Totality *)

Lemma skip_description_total fuel payload off :
  0 <= off -> len payload - off < 2 * Z.of_nat fuel -> (0 < fuel)%nat ->
  exists r, skip_description fuel payload off = Val r /\ forall k, r = Some k -> off <= k.
Proof.
  revert off. induction fuel as [|fuel IH]; intros off Ho Hf H0; [lia|]. cbn [skip_description].
  destruct (Z.ltb_spec (off + 1) (len payload)); [|by eexists].
  destruct (read_le_bounds 2 payload off) as (v&->&_); [lia..|]. mcbn.
  destruct (v =? 0); [eexists; split; [done|]; intros k [= <-]; lia|].
  destruct (IH (off + 2)) as (r&->&Hr); [lia..|]. exists r. split; [done|].
  intros k Hk. specialize (Hr k Hk). lia.
Qed.

Lemma load_option_total name payload : exists r, load_option_file_path_list name payload = Val r.
Proof.
  unfold load_option_file_path_list. destruct (Z.ltb_spec (len payload) 6); [by eexists|].
  destruct (read_le_bounds 2 payload 4) as (n&->&Hn); [lia..|]. mcbn.
  destruct (skip_description_total (length payload) payload 6) as (r&->&Hr); [lia|unfold len in *; lia..|].
  mcbn. destruct r as [k|]; [|by eexists]. specialize (Hr k eq_refl).
  destruct (Z.ltb_spec (len payload) (k + n)); [by eexists|].
  rewrite slice_val by lia. mcbn. by eexists.
Qed.

Lemma hard_drive_node_total l base n :
  0 <= base -> base + n <= len l -> base + 8 <= len l -> exists i, hard_drive_node l base n = Val i.
Proof.
  intros Hb Hn H8. unfold hard_drive_node.
  destruct (read_le_bounds 4 l (base + 4)) as (p&->&_); [lia..|]. mcbn.
  destruct (Z.leb_spec 42 n).
  - destruct (index_some l (base + 40)) as (f&_&->); [lia|].
    destruct (index_some l (base + 41)) as (s&_&->); [lia|]. mcbn.
    case_match; [rewrite slice_val by lia; mcbn; by eexists|].
    case_match; [|by eexists]. destruct (read_le_bounds 4 l (base + 24)) as (m&->&_); [lia..|].
    mcbn. by eexists.
  - destruct (Z.leb_spec 25 n); [|by eexists].
    destruct (index_some l (base + 24)) as (f&_&->); [lia|]. mcbn. by eexists.
Qed.

Lemma scan_device_info_total fuel l off :
  complete_nodes l -> node_at l off -> 0 <= off -> len l - off < Z.of_nat fuel -> (0 < fuel)%nat ->
  exists r, scan_device_info fuel l off = Val r.
Proof.
  intros Hc. revert off. induction fuel as [|fuel IH]; intros off Hn Ho Hf H0; [lia|].
  cbn [scan_device_info]. destruct (Z.leb_spec (off + 4) (len l)); [|by eexists].
  destruct (index_some l off) as (ty&_&Hty); [lia|]. rewrite Hty.
  destruct (index_some l (off + 1)) as (st&_&Hst); [lia|]. rewrite Hst.
  destruct (read_le_bounds 2 l (off + 2)) as (n&Hr&_); [lia..|]. rewrite Hr. mcbn.
  destruct (Z.ltb_spec n 4); [by eexists|]. destruct (Z.ltb_spec (len l) (off + n)); [by eexists|].
  cbn [orb]. destruct (Z.eqb_spec (b2z ty) 4) as [E1|]; [destruct (Z.eqb_spec (b2z st) 1) as [E2|]|]; cbn [andb].
  - destruct (hard_drive_node_total l off n) as [i ->]; [lia..| |mcbn; by eexists].
    apply Hc; [done|..].
    + rewrite Hty. f_equal. by apply (b2z_inj ty x04).
    + rewrite Hst. f_equal. by apply (b2z_inj st x01).
  - apply IH; [by eapply node_next|lia..].
  - apply IH; [by eapply node_next|lia..].
Qed.

Lemma device_info_complete name payload :
  (forall l, load_option_file_path_list name payload = Val (Ok l) -> complete_nodes l) ->
  exists r, device_info_of_option name payload = Val r.
Proof.
  intros Hc. unfold device_info_of_option.
  destruct (load_option_total name payload) as [[l|e] Hl]; rewrite Hl; mcbn; [|by eexists].
  destruct (scan_device_info_total (S (length l)) l 0) as [r ->];
    [by apply Hc|constructor|lia|unfold len; lia|lia|]. mcbn. by eexists.
Qed.

(** The reader ends on every path. *)
Lemma bind_fuel {A B} (c : comp A) (f : A -> comp B) :
  c <> NoFuel -> (forall a, c = Val a -> f a <> NoFuel) -> (c ≫= f) <> NoFuel.
Proof. destruct c; cbn; auto. Qed.

Lemma slice_fuel {A} (l : list A) a b : slice l a b <> NoFuel.
Proof. unfold slice. by case_match. Qed.
Lemma read_le_fuel n l a : read_le n l a <> NoFuel.
Proof. apply bind_fuel; [apply slice_fuel|done]. Qed.
Lemma index_fuel {A} (l : list A) i : index l i <> NoFuel.
Proof. unfold index. repeat case_match; done. Qed.

Lemma hard_drive_node_fuel l base n : hard_drive_node l base n <> NoFuel.
Proof.
  unfold hard_drive_node.
  repeat first [done | apply bind_fuel; [first [apply slice_fuel|apply read_le_fuel|apply index_fuel]|intros ? _]
               | match goal with |- (if ?b then _ else _) <> _ => destruct b end].
Qed.

Lemma scan_device_info_fuel fuel l off :
  0 <= off -> len l - off < Z.of_nat fuel -> (0 < fuel)%nat -> scan_device_info fuel l off <> NoFuel.
Proof.
  revert off. induction fuel as [|fuel IH]; intros off Ho Hf H0; [lia|]. cbn [scan_device_info].
  destruct (Z.leb_spec (off + 4) (len l)); [|done].
  do 2 (apply bind_fuel; [apply index_fuel|intros ? _]). apply bind_fuel; [apply read_le_fuel|intros n _].
  destruct (Z.ltb_spec n 4); [done|]. cbn [orb]. destruct (len l <? off + n); [done|].
  destruct (_ && _); [|apply IH; lia]. apply bind_fuel; [apply hard_drive_node_fuel|done].
Qed.

(** ** Types *)

Lemma info_wf_plain p f :
  0 <= p < U32 -> 0 <= f < 256 ->
  info_wf {| partition_number := p; partition_guid := None; mbr_signature := None; partition_format := f |}.
Proof. intros Hp Hf. by repeat split; try apply Hp; try apply Hf. Qed.

Lemma hard_drive_node_typed l base n i : hard_drive_node l base n = Val i -> info_wf i.
Proof.
  unfold hard_drive_node. intros H. apply comp_bind_inv in H as (p&Hp&H).
  apply read_le_inv in Hp as (_&_&Hp). change (256 ^ Z.of_nat 4) with U32 in Hp.
  destruct (42 <=? n); [|destruct (25 <=? n)].
  - apply comp_bind_inv in H as (f&_&H). apply comp_bind_inv in H as (s&_&H). pose proof (b2z_range f) as Hf.
    destruct (_ && _) eqn:E.
    { apply comp_bind_inv in H as (g&Hg&H). apply slice_inv in Hg as (?&?&->). injection H as <-. bool_prop.
      split; [done|]. split; [done|]. split; [|done]. intros g [= <-]. split; [|by split; [cbn; lia|]].
      apply Nat2Z.inj. fold (len (sub l (base + 24) (base + 40))). rewrite len_sub; lia. }
    clear E. destruct (_ && _) eqn:E; [|injection H as <-; by apply info_wf_plain].
    apply comp_bind_inv in H as (m&Hm&H). apply read_le_inv in Hm as (_&_&Hm). injection H as <-. bool_prop.
    split; [done|]. split; [done|]. split; [done|]. intros s' [= <-]. by split; [|split; [cbn; lia|]].
  - apply comp_bind_inv in H as (f&_&H). injection H as <-. apply info_wf_plain; [done|apply b2z_range].
  - injection H as <-. by apply info_wf_plain.
Qed.

Lemma scan_device_info_typed fuel l off i : scan_device_info fuel l off = Val (Some i) -> info_wf i.
Proof.
  revert off. induction fuel as [|fuel IH]; intros off; cbn [scan_device_info]; [done|].
  destruct (off + 4 <=? len l); [|done]. intros H.
  do 3 (apply comp_bind_inv in H as (?&_&H)). destruct (_ || _); [done|]. destruct (_ && _); [|by eapply IH].
  apply comp_bind_inv in H as (i'&Hi&H). injection H as <-. by eapply hard_drive_node_typed.
Qed.

Lemma load_option_name name name' payload l :
  load_option_file_path_list name payload = Val (Ok l) -> load_option_file_path_list name' payload = Val (Ok l).
Proof.
  unfold load_option_file_path_list. case_match; [done|].
  destruct (read_le 2 payload 4) as [n| |]; mcbn; try done.
  destruct (skip_description _ _ _) as [[k|]| |]; mcbn; try done. by case_match.
Qed.

(** ** Properties *)

(** C39: The boot option that is read is well typed, whatever the firmware
    variable holds: the partition number is a [u32] (it names the directory of
    the slot), the format a byte, the GUID 16 bytes of a GPT partition, the MBR
    signature a [u32] of an MBR partition, never both; the reader ends; and it
    panics only when the device path is cut before the partition number of one
    of its Hard Drive nodes. *)
Theorem boot_device_info_typed (name : string) (payload : list byte) :
  match device_info_of_option name payload with
  | Val (Ok (Some info)) => info_wf info
  | Val _ => True
  | Panicked => exists l, load_option_file_path_list name payload = Val (Ok l) /\ ~ complete_nodes l
  | NoFuel => False
  end.
Proof.
  destruct (load_option_total name payload) as [r Hr].
  assert (forall c : comp (io (option BootDeviceInfo)), device_info_of_option name payload = c ->
    (forall v, c <> Val v) -> exists l, r = Ok l /\ ~ complete_nodes l) as Hcut.
  { intros c Hc Hv. destruct r as [l|e]; [exists l; split; [done|]; intros Hl|].
    - destruct (device_info_complete name payload) as [v Hd]; [|by apply (Hv v); congruence].
      intros l' Hl'. by assert (l' = l) as -> by congruence.
    - exfalso. unfold device_info_of_option in Hc. rewrite Hr in Hc. by apply (Hv (Err e)). }
  destruct (device_info_of_option name payload) as [v| |] eqn:E.
  - destruct v as [[i|]|]; [|done..]. unfold device_info_of_option in E. rewrite Hr in E.
    destruct r as [l|e]; [|done]. apply comp_bind_inv in E as (o&Ho&E). injection E as ->.
    by eapply scan_device_info_typed.
  - destruct (Hcut _ eq_refl) as (l&->&Hl); [done|]. by exists l.
  - unfold device_info_of_option in E. rewrite Hr in E. destruct r as [l|e]; [|done]. revert E. mcbn.
    apply bind_fuel; [apply scan_device_info_fuel; unfold len; lia|done].
Qed.

(** ** Checking concrete paths *)

Definition own_node_ok (l : list byte) (k : Z) : bool :=
  match index l k, index l (k + 1) with
  | Val a, Val b => negb ((b2z a =? 4) && (b2z b =? 1)) || (k + 8 <=? len l)
  | _, _ => true
  end.

Fixpoint nodes_completeb (fuel : nat) (l : list byte) (k : Z) : bool :=
  match fuel with
  | O => false
  | S fuel => own_node_ok l k &&
      match read_le 2 l (k + 2) with
      | Val n => (n <? 4) || nodes_completeb fuel l (k + n)
      | _ => true
      end
  end.

Lemma nodes_completeb_spec fuel l : nodes_completeb fuel l 0 = true -> complete_nodes l.
Proof.
  intros H.
  assert (forall k, node_at l k -> exists fuel, nodes_completeb fuel l k = true) as Hn.
  { induction 1 as [|k n _ [[|f] Hf] Hr Hge]; [by exists fuel|done|]. exists f. cbn in Hf.
    apply andb_prop in Hf as [_ Hf]. rewrite Hr in Hf. bool_prop. destruct Hf; [lia|done]. }
  intros k Hk Ha Hb. destruct (Hn k Hk) as [[|f] Hf]; [done|]. cbn in Hf. apply andb_prop in Hf as [Hf _].
  unfold own_node_ok in Hf. rewrite Ha, Hb in Hf. by apply Z.leb_le.
Qed.

