(* ===== verification/Verify.v ===== *)
(** Signatures over fs-verity digests ([src/verify.rs]): the Ed25519 check of
    [{image}.sig] and the check against the RSA keys of the UEFI database. *)

From S2P Require Import Prelude Prog Str PathLib Sys World Verity Efi.

Section Verify.
Context `{X : Externals}.

Definition verify_signature (digest signature_bytes : list byte) (pub_key_b64 : string) : io bool :=
  match b64_decode pub_key_b64 with
  | Err e => Err (invalid_data ("bad base64 pub_key: " +:+ e))
  | Ok pub_key_bytes =>
      if negb (len pub_key_bytes =? 32) then
        Err (invalid_data ("ed25519 public key must be 32 bytes, got " +:+ fmt_dec (len pub_key_bytes)))
      else
        match ed25519_from_bytes pub_key_bytes with
        | Err e => Err (invalid_data ("bad ed25519 key: " +:+ e))
        | Ok verifying_key =>
            if negb (len signature_bytes =? 64) then
              Err (invalid_data ("ed25519 signature must be 64 bytes, got "
                                 +:+ fmt_dec (len signature_bytes)))
            else Ok (ed25519_verify_strict verifying_key digest signature_bytes)
        end
  end.

Definition measure_or_enable_verity (img : string) : sys (io (Z * list byte)) :=
  let! r := measure_verity img in
  match r with
  | Ok v => mret (Ok v)
  | Err e =>
      let! opened := trigger (FileOpen img false) in
      match opened with
      | Ok file =>
          let! enabled := enable_verity_fd file in
          match enabled with
          | Err enable_err =>
              mret (Err (IoError (kind e) ("Measure failed: " +:+ io_display e
                                           +:+ ", Enable failed: " +:+ io_display enable_err)))
          | Ok _ => measure_verity img
          end
      | Err _ => mret (Err e)
      end
  end.

Definition signature_path (img suffix : string) : string :=
  with_extension img
    (match extension img with
     | Some e => from_utf8_lossy (as_bytes e) +:+ "." +:+ suffix
     | None => suffix
     end).

Definition signature_read_error (what sig_path : string) (e : io_error) : io_error :=
  IoError (kind e) ("failed to read " +:+ what +:+ " " +:+ debug_str sig_path +:+ ": " +:+ io_display e).

Definition verify_image (img pub_key_b64 : string) : sys (io bool) :=
  let? ' (_, digest) := measure_or_enable_verity img in
  let sig_path := signature_path img "sig" in
  let? signature_bytes := with_err (signature_read_error "signature file" sig_path) (trigger (FsRead sig_path)) in
  mret (verify_signature digest signature_bytes pub_key_b64).

(** The loop over the certificates. *)
Fixpoint try_certs (img : string) (signed_digest : list byte) (certs : list EfiCert)
    : sys (io bool) :=
  match certs with
  | [] => mret (Ok false)
  | cert :: certs =>
      if is_empty (rsa_public_key_b64 cert) then try_certs img signed_digest certs
      else
        let sig_path := signature_path img (key_id cert +:+ ".db.sig") in
        let! r := trigger (FsRead sig_path) in
        match r with
        | Err e =>
            if bool_decide (kind e = NotFound) then try_certs img signed_digest certs
            else mret (Err (signature_read_error "db signature file" sig_path e))
        | Ok signature_bytes =>
            match b64_decode (rsa_public_key_b64 cert) with
            | Err e => mret (Err (invalid_data ("db key: " +:+ e)))
            | Ok key_der =>
                match rsa_from_pkcs1_der key_der with
                | None => try_certs img signed_digest certs
                | Some rsa_pub =>
                    if rsa_verify rsa_pub signed_digest signature_bytes then mret (Ok true)
                    else try_certs img signed_digest certs
                end
            end
        end
  end.

Definition verify_image_db (img efi_base_path : string) : sys (io bool) :=
  let? ' (_, digest) := measure_or_enable_verity img in
  let? certs := read_db efi_base_path in
  try_certs img (sha256 digest) certs.

Definition verify_digest_with_sig_file (digest : list byte) (sig_path pub_key_b64 : string)
    : sys (io bool) :=
  let? signature_bytes := trigger (FsRead sig_path) in
  mret (verify_signature digest signature_bytes pub_key_b64).

(** ** What a verified image is, in terms of the calls that were made *)

Definition measure_arg : FsVerityDigest :=
  {| digest_algorithm := 0; digest_size := 64; digest := zeros 64 |}.

(** The kernel was asked for the digest of [img] and answered [dg]. *)
Definition measured (h : hist sysE) (img : string) (dg : list byte) : Prop :=
  exists h1 fd d h2,
    h = h1 ++ [Ev (FileOpen img false) (Ok fd); Ev (IoctlMeasureVerity fd measure_arg) (Ok d)] ++ h2 /\
    slice (array 64 (digest d)) 0 (digest_size d) = Val dg.

(** An Ed25519 signature of the digest by the key was read from [{img}.sig]. *)
Definition signed_by_key (h : hist sysE) (img pub_key_b64 : string) : Prop :=
  exists dg sig key_bytes key,
    measured h img dg /\ Ev (FsRead (signature_path img "sig")) (Ok sig) ∈ h /\
    b64_decode pub_key_b64 = Ok key_bytes /\ length key_bytes = 32%nat /\
    ed25519_from_bytes key_bytes = Ok key /\ length sig = 64%nat /\
    ed25519_verify_strict key dg sig = true.

(** The database that was read. *)
Definition db_read (h : hist sysE) (efi_base_path : string) (certs : list EfiCert) : Prop :=
  exists data payload,
    Ev (FsRead (efi_base_path +:+ "/db-" +:+ EFI_IMAGE_SECURITY_DB_GUID)) (Ok data) ∈ h /\
    strip_attributes data = Ok payload /\ parse_esl payload = Val (Ok certs).

(** The signature file of [cert] was read, and it signs [dg]. *)
Definition signed_by_cert (h : hist sysE) (img : string) (dg : list byte) (cert : EfiCert) : Prop :=
  exists sig key_der key,
    Ev (FsRead (signature_path img (key_id cert +:+ ".db.sig"))) (Ok sig) ∈ h /\
    rsa_public_key_b64 cert <> "" /\ b64_decode (rsa_public_key_b64 cert) = Ok key_der /\
    rsa_from_pkcs1_der key_der = Some key /\ rsa_verify key (sha256 dg) sig = true.

Definition signed_by_db (h : hist sysE) (img efi_base_path : string) : Prop :=
  exists dg certs cert,
    measured h img dg /\ db_read h efi_base_path certs /\ cert ∈ certs /\ signed_by_cert h img dg cert.

(** [cert] does not vouch for [dg]: it has no key, no signature file, no RSA
    key, or the signature does not verify. *)
Definition refused_by_cert (h : hist sysE) (img : string) (dg : list byte) (cert : EfiCert) : Prop :=
  rsa_public_key_b64 cert = "" \/
  exists r, Ev (FsRead (signature_path img (key_id cert +:+ ".db.sig"))) r ∈ h /\
    match r with
    | Err e => kind e = NotFound
    | Ok sig => exists key_der, b64_decode (rsa_public_key_b64 cert) = Ok key_der /\
        match rsa_from_pkcs1_der key_der with
        | None => True
        | Some key => rsa_verify key (sha256 dg) sig = false
        end
    end.

End Verify.

(** ** Lemmas *)

Section facts.
Context `{X : Externals}.
Implicit Types h : hist sysE.

Lemma measured_mono h h' img dg : h `prefix_of` h' -> measured h img dg -> measured h' img dg.
Proof.
  intros [k ->] (h1&fd&d&h2&->&Hd). exists h1, fd, d, (h2 ++ k). split; [|done].
  rewrite <- !(assoc_L app). done.
Qed.

Lemma db_read_mono h h' base certs : h `prefix_of` h' -> db_read h base certs -> db_read h' base certs.
Proof. intros Hp (data&payload&Hin&?). exists data, payload. split; [by eapply elem_of_prefix|done]. Qed.

Lemma signed_by_cert_mono h h' img dg cert :
  h `prefix_of` h' -> signed_by_cert h img dg cert -> signed_by_cert h' img dg cert.
Proof.
  intros Hp (sig&kd&key&Hin&?). exists sig, kd, key. split; [by eapply elem_of_prefix|done].
Qed.

Lemma signed_by_db_mono h h' img base :
  h `prefix_of` h' -> signed_by_db h img base -> signed_by_db h' img base.
Proof.
  intros Hp (dg&certs&cert&?&?&?&?). exists dg, certs, cert.
  split_and!; eauto using measured_mono, db_read_mono, signed_by_cert_mono.
Qed.

Lemma signed_by_key_mono h h' img key :
  h `prefix_of` h' -> signed_by_key h img key -> signed_by_key h' img key.
Proof.
  intros Hp (dg&sig&kb&k&?&Hin&?). exists dg, sig, kb, k.
  split; [by eapply measured_mono|]. split; [by eapply elem_of_prefix|done].
Qed.

Lemma refused_by_cert_mono h h' img dg cert :
  h `prefix_of` h' -> refused_by_cert h img dg cert -> refused_by_cert h' img dg cert.
Proof.
  intros Hp [?|(r&Hin&?)]; [by left|right]. exists r. split; [by eapply elem_of_prefix|done].
Qed.

Lemma verify_signature_true dg sig pub :
  verify_signature dg sig pub = Ok true ->
  exists key_bytes key, b64_decode pub = Ok key_bytes /\ length key_bytes = 32%nat /\
    ed25519_from_bytes key_bytes = Ok key /\ length sig = 64%nat /\
    ed25519_verify_strict key dg sig = true.
Proof.
  unfold verify_signature, len. repeat (case_match; try done). bool_prop.
  intros [= ?]. eexists _, _. split_and!; try done; lia.
Qed.

Lemma wp_measure_verity img h :
  wp free_protocol (measure_verity img) h (fun h' o => h `prefix_of` h' /\
    match o with Done (Ok v) => measured h' img v.2 | Done (Err _) => True | Stopped s => s = Panic end).
Proof.
  apply wp_prefix. apply wp_try, wp_trigger; [done|]. intros [fd|e] _; [|done].
  apply wp_try, wp_trigger; [done|]. intros [d|e] _; [|done].
  apply wp_bind, wp_lift. destruct (slice _ _ _) as [dg| |] eqn:E; [|done|].
  - exists h, fd, d, []. rewrite <- (assoc_L app), (app_nil_r _). done.
  - unfold slice in E. case_match; done.
Qed.

Lemma wp_measure_or_enable img h :
  wp free_protocol (measure_or_enable_verity img) h (fun h' o => h `prefix_of` h' /\
    match o with Done (Ok v) => measured h' img v.2 | Done (Err _) => True | Stopped s => s = Panic end).
Proof.
  unfold measure_or_enable_verity. apply wp_bind. eapply wp_mono; [apply wp_measure_verity|].
  intros h1 [[v|e]|s] [Hp Hm]; [done| |done].
  apply wp_bind, wp_trigger; [done|]. intros [fd|e'] _.
  - apply wp_bind, wp_trigger; [done|]. intros [[]|e'] _.
    + eapply wp_mono; [apply wp_measure_verity|]. intros h' o [Hp' Ho]. split; [|done].
      etrans; [exact Hp|]. etrans; [|exact Hp']. rewrite <- (assoc_L app). apply prefix_app_r. done.
    + split; [|done]. rewrite <- (assoc_L app). apply prefix_app_r. done.
  - split; [|done]. apply prefix_app_r. done.
Qed.

Lemma wp_read_db base h :
  wp free_protocol (read_db base) h (fun h' o => h `prefix_of` h' /\
    match o with Done (Ok certs) => db_read h' base certs | Done (Err _) => True | Stopped _ => False end).
Proof.
  apply wp_prefix. apply wp_try, wp_trigger; [done|]. intros [data|e] _; [|done].
  destruct (strip_attributes data) as [payload|e] eqn:E; [|done].
  apply wp_lift. unfold parse_esl.
  destruct (parse_esl_go_total (S (length payload)) payload [] 0) as [r Hr];
    [lia|unfold len; lia|lia|].
  rewrite Hr. destruct r as [certs|]; [|done].
  exists data, payload. rewrite elem_of_app, list_elem_of_singleton. auto.
Qed.

Lemma wp_try_certs img dg certs h :
  wp free_protocol (try_certs img (sha256 dg) certs) h (fun h' o => h `prefix_of` h' /\
    match o with
    | Done (Ok true) => exists cert, cert ∈ certs /\ signed_by_cert h' img dg cert
    | Done (Ok false) => forall cert, cert ∈ certs -> refused_by_cert h' img dg cert
    | Done (Err _) => True
    | Stopped _ => False
    end).
Proof.
  revert h. induction certs as [|cert certs IH]; intros h; cbn [try_certs].
  { split; [done|]. intros cert H. inversion H. }
  assert (forall h1, h `prefix_of` h1 -> refused_by_cert h1 img dg cert ->
    wp free_protocol (try_certs img (sha256 dg) certs) h1 (fun h' o => h `prefix_of` h' /\
      match o with
      | Done (Ok true) => exists c, c ∈ cert :: certs /\ signed_by_cert h' img dg c
      | Done (Ok false) => forall c, c ∈ cert :: certs -> refused_by_cert h' img dg c
      | Done (Err _) => True
      | Stopped _ => False
      end)) as Hskip.
  { intros h1 Hp Hr. eapply wp_mono; [apply IH|]. intros h' o [Hp' Ho]. split; [by etrans|].
    destruct o as [[[]|]|]; [|intros c Hc|done..].
    - destruct Ho as (c&Hc&?). exists c. split; [by right|done].
    - apply elem_of_cons in Hc as [->|Hc]; [by eapply refused_by_cert_mono|auto]. }
  destruct (is_empty (rsa_public_key_b64 cert)) eqn:He.
  { apply Hskip; [done|]. left. destruct (rsa_public_key_b64 cert); done. }
  apply wp_bind, wp_trigger; [done|]. intros r _.
  set (h1 := h ++ _). assert (h `prefix_of` h1) as Hp by (by eexists).
  assert (Ev (FsRead (signature_path img (key_id cert +:+ ".db.sig"))) r ∈ h1) as Hin.
  { unfold h1. rewrite elem_of_app, list_elem_of_singleton. auto. }
  clearbody h1. destruct r as [sig|e].
  - destruct (b64_decode _) as [kd|] eqn:Eb; [|done].
    destruct (rsa_from_pkcs1_der kd) as [key|] eqn:Ek;
      [destruct (rsa_verify key (sha256 dg) sig) eqn:Ev|].
    + split; [done|]. exists cert. split; [by left|]. exists sig, kd, key. split; [done|].
      split; [|done]. intros H. rewrite H in He. done.
    + apply Hskip; [done|]. right. eexists. split; [done|]. exists kd. rewrite Ek. done.
    + apply Hskip; [done|]. right. eexists. split; [done|]. exists kd. rewrite Ek. done.
  - case_bool_decide; [|done]. apply Hskip; [done|]. right. eexists. done.
Qed.

(** What [verify_image_db] and [verify_image] establish, for their callers. *)
Definition image_db_post (img base : string) (h' : hist sysE) (o : outcome (io bool)) : Prop :=
  match o with
  | Done (Ok true) => signed_by_db h' img base
  | Done (Ok false) => exists dg certs, measured h' img dg /\ db_read h' base certs /\
      forall cert, cert ∈ certs -> refused_by_cert h' img dg cert
  | Done (Err _) => True
  | Stopped s => s = Panic
  end.

Lemma wp_verify_image_db img base h :
  wp free_protocol (verify_image_db img base) h
    (fun h' o => h `prefix_of` h' /\ image_db_post img base h' o).
Proof.
  apply wp_try. eapply wp_mono; [apply wp_measure_or_enable|].
  intros h1 [[[alg dg]|e]|s] [Hp1 Hm]; [|done..]. cbn [snd] in Hm.
  apply wp_try. eapply wp_mono; [apply wp_read_db|].
  intros h2 [[certs|e]|s] [Hp2 Hdb]; [|split; [by etrans|done]|done].
  eapply wp_mono; [apply wp_try_certs|]. intros h3 o [Hp3 Ho].
  split; [do 2 (etrans; [eassumption|]); done|].
  assert (measured h3 img dg) by (eapply measured_mono; [|done]; by etrans).
  assert (db_read h3 base certs) by (by eapply db_read_mono).
  destruct o as [[[]|]|]; [|exists dg, certs; done|done..].
  destruct Ho as (cert&?&?). exists dg, certs, cert. done.
Qed.

Lemma wp_verify_image img key h :
  wp free_protocol (verify_image img key) h (fun h' o => h `prefix_of` h' /\
    match o with
    | Done (Ok true) => signed_by_key h' img key
    | Done _ => True
    | Stopped s => s = Panic
    end).
Proof.
  apply wp_try. eapply wp_mono; [apply wp_measure_or_enable|].
  intros h1 [[[alg dg]|e]|s] [Hp1 Hm]; [|done..]. cbn [snd] in Hm.
  apply wp_try, wp_with_err, wp_trigger; [done|].
  set (sp := signature_path img "sig"). intros r _.
  set (h2 := h1 ++ _). assert (h `prefix_of` h2) by (etrans; [done|by eexists]).
  destruct r as [sig|e]; [|done]. split; [done|].
  destruct (verify_signature dg sig key) as [[]|] eqn:E; [|done..].
  apply verify_signature_true in E as (kb&k&?&?&?&?&?).
  exists dg, sig, kb, k. split; [eapply measured_mono; [|done]; by eexists|].
  split; [|done]. unfold h2. rewrite elem_of_app, list_elem_of_singleton. auto.
Qed.

End facts.

(** ** Properties *)

Section properties.
Context `{X : Externals}.

(** C37: Soundness and completeness of the database check, for every behaviour
    of the kernel: when [verify_image_db] answers [Ok true], the kernel measured
    the image, the UEFI database was read, and the signature file named after
    one of its certificates holds a valid RSA signature of the digest's hash by
    that certificate's key; when it answers [Ok false], every certificate was
    tried and refused (no key, no signature file, or an invalid signature).  It
    never exits and never runs out of fuel. *)
Theorem verify_image_db_exact (img base : string) (t : hist sysE) (o : outcome (io bool)) :
  exec (verify_image_db img base) t o -> image_db_post img base t o.
Proof.
  intros H. apply (wp_exec _ _ _ _ (wp_verify_image_db img base []) H).
Qed.

(** Soundness of the key check: when [verify_image] answers [Ok true], the
    digest the kernel measured for the image is signed, in the 64-byte
    signature read from [{image}.sig], by the 32-byte Ed25519 key given. *)
Theorem verify_image_sound (img key : string) (t : hist sysE) :
  exec (verify_image img key) t (Done (Ok true)) -> signed_by_key t img key.
Proof.
  intros H. apply (wp_exec _ _ _ _ (wp_verify_image img key []) H).
Qed.

(** The signature of an image is looked up beside it, under its full name
    followed by a dot and the suffix: [with_extension] with the old extension
    prepended never drops a part of the name, whatever dots it has. *)
Theorem signature_path_appends (img name suffix : string) (init : list string) :
  path_segs img = init ++ [name] -> name <> ".." -> clean_tail img ->
  Forall is_ascii (chars img) ->
  signature_path img suffix = img +:+ "." +:+ suffix.
Proof.
  intros Hs Hn Hc Ha. pose proof (path_snoc img name init Hs Hc) as Hp.
  assert (file_name img = Some name) as Hf.
  { unfold file_name. rewrite Hs, last_snoc, (proj2 (String.eqb_neq _ _) Hn). done. }
  unfold signature_path, with_extension, extension. rewrite Hf, Hs, rev_app_distr.
  cbn [rev app mbind option_bind]. rewrite rev_involutive.
  rewrite Hp at 2. pose proof (name_stem_extension name) as He.
  destruct (name_extension name) as [e|].
  - rewrite from_utf8_lossy_ascii.
    + rewrite He at 2. rewrite <- !app_assoc_str, <- join_snoc_app, !app_assoc_str. done.
    + rewrite Hp, chars_app in Ha. apply Forall_app in Ha as [_ Ha].
      rewrite He, app_assoc_str, join_snoc_app, chars_app in Ha. by apply Forall_app in Ha as [_ Ha].
  - rewrite <- He. rewrite <- app_assoc_str, <- join_snoc_app. done.
Qed.

End properties.

(** ** Witnesses *)

Definition toy_image : list byte := [x61; x62].
Definition toy_db : list byte := zeros 4 ++ encode_esl [toy_list].
Definition toy_verify_world : world :=
  set_files world0
    (<["/b/i.img" := toy_image]> (<["/b/i.img.sig" := zeros 32 ++ toy_sha256 toy_image]>
    (<["/b/i.img.0304000000000000.db.sig" := [x03; x04] ++ toy_sha256 (toy_sha256 toy_image)]>
    (<["/efi/db-d719b2cb-3d3a-4596-a3bc-dad00e67656f" := toy_db]> ∅)))).

Lemma verify_image_db_exact_witness :
  outcome_of toy_verify_world (verify_image_db "/b/i.img" "/efi") = Done (Ok true) /\
  image_db_post "/b/i.img" "/efi"
    (trace_of toy_verify_world (verify_image_db "/b/i.img" "/efi")) (Done (Ok true)).
Proof.
  assert (outcome_of toy_verify_world (verify_image_db "/b/i.img" "/efi") = Done (Ok true)) as H
    by (vm_compute; reflexivity).
  split; [exact H|]. apply verify_image_db_exact, toy_exec, H.
Defined.

Lemma verify_image_sound_witness :
  signed_by_key (trace_of toy_verify_world (verify_image "/b/i.img" (of_bytes (zeros 32))))
    "/b/i.img" (of_bytes (zeros 32)).
Proof. apply verify_image_sound, toy_exec. vm_compute. reflexivity. Defined.

Lemma signature_path_appends_witness :
  signature_path "/x/img/kernel-6.1.verity" "sig" = "/x/img/kernel-6.1.verity.sig".
Proof.
  apply (signature_path_appends "/x/img/kernel-6.1.verity" "kernel-6.1.verity" "sig" ["x"; "img"]);
    vm_compute; try reflexivity; [intros H; discriminate H|repeat constructor].
Defined.
