(* ===== verification/Tpm.v ===== *)
(** The TPM 2.0 wire protocol over [/dev/tpmrm0] ([src/tpm2.rs]): command
    builders over a buffer and an offset, the retrying transport, and the
    response parsers; and the marshalling of the TPM specification, which the
    builders are proved to produce. *)

From S2P Require Import Prelude Prog Str Sys World Verity.

Definition TPM2_CC_STARTUP : Z := 0x144.
Definition TPM2_CC_START_AUTH_SESSION : Z := 0x176.
Definition TPM2_CC_POLICY_PCR : Z := 0x17F.
Definition TPM2_CC_UNSEAL : Z := 0x15E.
Definition TPM2_CC_CREATE_PRIMARY : Z := 0x131.
Definition TPM2_CC_CREATE : Z := 0x153.
Definition TPM2_CC_LOAD : Z := 0x157.
Definition TPM2_CC_EVICT_CONTROL : Z := 0x120.
Definition TPM2_CC_POLICY_GET_DIGEST : Z := 0x189.
Definition TPM2_CC_FLUSH_CONTEXT : Z := 0x165.
Definition TPM2_CC_PCR_EXTEND : Z := 0x182.
Definition TPM2_CC_DA_LOCK_RESET : Z := 0x139.

Definition TPM_ST_NO_SESSIONS : Z := 0x8001.
Definition TPM_ST_SESSIONS : Z := 0x8002.
Definition TPM_RH_NULL : Z := 0x40000007.
Definition TPM_RH_OWNER : Z := 0x40000001.
Definition TPM_RH_LOCKOUT : Z := 0x4000000A.
Definition TPM_RS_PW : Z := 0x40000009.
Definition TPM_SE_POLICY : Z := 1.
Definition TPM_SE_TRIAL : Z := 3.
Definition TPM_ALG_SHA256 : Z := 0xB.
Definition TPM_ALG_NULL : Z := 0x10.
Definition TPM_ALG_RSA : Z := 1.
Definition TPM_ALG_AES : Z := 6.
Definition TPM_ALG_CFB : Z := 0x43.
Definition TPM_ALG_KEYEDHASH : Z := 8.
Definition SHA256_DIGEST_SIZE : Z := 32.
Definition RSP_BUF_SIZE : Z := 4096.
Definition STORAGE_KEY_ATTRS : Z := 0x30072.
Definition SEALED_OBJ_ATTRS : Z := 0x12.
Definition DEFAULT_PRIMARY_HANDLE : Z := 0x81000000.
Definition DEFAULT_SEALED_HANDLE_DEV : Z := 0x81001002.
Definition DEFAULT_SEALED_HANDLE_SECURE : Z := 0x81001003.
Definition DEFAULT_SEALED_HANDLE : Z := DEFAULT_SEALED_HANDLE_DEV.
Definition TPM_DIR : string := "/z/initos/tpm".
Definition TPM_DEVICE : string := "/dev/tpmrm0".
Definition PW_AUTH_SIZE : Z := 9.
Definition TPM_RC_RETRY : Z := 0x922.
Definition TPM_RC_YIELDED : Z := 0x908.
Definition TPM_RC_LOCKOUT : Z := 0x921.
Definition TPM_MAX_RETRIES : nat := 20.
Definition TPM_RETRY_DELAY_MS : Z := 50.

(** ** Buffers: each writer gives the buffer and the next offset *)

Definition put_u16 (buf : list byte) (off val : Z) : comp (list byte * Z) :=
  let! buf := copy_into buf off (off + 2) (to_be 2 val) in mret (buf, off + 2).
Definition put_u32 (buf : list byte) (off val : Z) : comp (list byte * Z) :=
  let! buf := copy_into buf off (off + 4) (to_be 4 val) in mret (buf, off + 4).
Definition put_u8 (buf : list byte) (off val : Z) : comp (list byte * Z) :=
  let! buf := set_index buf off (z2b val) in mret (buf, off + 1).
Definition put_bytes (buf : list byte) (off : Z) (bs : list byte) : comp (list byte * Z) :=
  let! buf := copy_into buf off (off + len bs) bs in mret (buf, off + len bs).
Definition get_u16 (buf : list byte) (off : Z) : comp Z := read_be 2 buf off.
Definition get_u32 (buf : list byte) (off : Z) : comp Z := read_be 4 buf off.

Definition write_header (buf : list byte) (tag size code : Z) : comp (list byte * Z) :=
  let! ' (buf, off) := put_u16 buf 0 tag in
  let! ' (buf, off) := put_u32 buf off size in
  put_u32 buf off code.

Definition write_pw_auth (buf : list byte) (off : Z) : comp (list byte * Z) :=
  let! ' (buf, o) := put_u32 buf off TPM_RS_PW in
  let! ' (buf, o) := put_u16 buf o 0 in
  let! ' (buf, o) := put_u8 buf o 0 in
  put_u16 buf o 0.

(** The buffer when the last offset is dropped. *)
Definition finish (w : comp (list byte * Z)) : comp (list byte) := let! ' (buf, _) := w in mret buf.

(** ** Responses *)

Definition response_code_reason (rc : Z) : option string :=
  if rc =? 0x99d then
    Some "TPM_RC_POLICY_FAIL: policy session did not satisfy the sealed object's authPolicy"
  else if rc =? 0x922 then Some "TPM_RC_RETRY: TPM asks caller to retry"
  else if rc =? 0x908 then Some "TPM_RC_YIELDED: TPM yielded and asks caller to retry"
  else if rc =? 0x921 then Some "TPM_RC_LOCKOUT: dictionary-attack lockout is active"
  else None.

Definition check_response (rsp : list byte) (cmd_name : string) : comp (result unit string) :=
  let! rc := get_u32 rsp 6 in
  mret (if negb (rc =? 0) then
          Err (cmd_name +:+ ": TPM2 error 0x" +:+ fmt_hex true 8 rc +:+
               match response_code_reason rc with
               | Some reason => " (" +:+ reason +:+ ")"
               | None => ""
               end)
        else Ok tt).

Definition retryable (rc : Z) : bool :=
  (rc =? TPM_RC_RETRY) || (rc =? TPM_RC_YIELDED) || (rc =? TPM_RC_LOCKOUT).

(** ** Commands *)

Definition startup_cmd : comp (list byte) :=
  let cmd_size := 10 + 2 in
  let! ' (cmd, off) := write_header (zeros cmd_size) TPM_ST_NO_SESSIONS cmd_size TPM2_CC_STARTUP in
  finish (put_u16 cmd off 0).

Definition start_auth_session_cmd (session_type : Z) : comp (list byte) :=
  let cmd_size := 10 + 4 + 4 + (2 + SHA256_DIGEST_SIZE) + 2 + 1 + 2 + 2 in
  let! ' (cmd, off) := write_header (zeros cmd_size) TPM_ST_NO_SESSIONS cmd_size
                         TPM2_CC_START_AUTH_SESSION in
  let! ' (cmd, off) := put_u32 cmd off TPM_RH_NULL in
  let! ' (cmd, off) := put_u32 cmd off TPM_RH_NULL in
  let! ' (cmd, off) := put_u16 cmd off SHA256_DIGEST_SIZE in
  let off := off + SHA256_DIGEST_SIZE in
  let! ' (cmd, off) := put_u16 cmd off 0 in
  let! ' (cmd, off) := put_u8 cmd off session_type in
  let! ' (cmd, off) := put_u16 cmd off TPM_ALG_NULL in
  finish (put_u16 cmd off TPM_ALG_SHA256).

Definition policy_pcr_cmd (session : Z) : comp (list byte) :=
  let cmd_size := 10 + 4 + 2 + 4 + 2 + 1 + 3 in
  let! ' (cmd, off) := write_header (zeros cmd_size) TPM_ST_NO_SESSIONS cmd_size TPM2_CC_POLICY_PCR in
  let! ' (cmd, off) := put_u32 cmd off session in
  let! ' (cmd, off) := put_u16 cmd off 0 in
  let! ' (cmd, off) := put_u32 cmd off 1 in
  let! ' (cmd, off) := put_u16 cmd off TPM_ALG_SHA256 in
  let! ' (cmd, off) := put_u8 cmd off 3 in
  finish (put_u8 cmd off 0x80).

(** The commands whose only parameter is a handle. *)
Definition handle_cmd (code handle : Z) : comp (list byte) :=
  let cmd_size := 10 + 4 in
  let! ' (cmd, off) := write_header (zeros cmd_size) TPM_ST_NO_SESSIONS cmd_size code in
  finish (put_u32 cmd off handle).

Definition pcr_extend_cmd (pcr_index : Z) (digest : list byte) : comp (list byte) :=
  let cmd_size := 10 + 4 + 4 + PW_AUTH_SIZE + 4 + 2 + SHA256_DIGEST_SIZE in
  let! ' (cmd, off) := write_header (zeros cmd_size) TPM_ST_SESSIONS cmd_size TPM2_CC_PCR_EXTEND in
  let! ' (cmd, off) := put_u32 cmd off pcr_index in
  let! ' (cmd, off) := put_u32 cmd off PW_AUTH_SIZE in
  let! ' (cmd, off) := write_pw_auth cmd off in
  let! ' (cmd, off) := put_u32 cmd off 1 in
  let! ' (cmd, off) := put_u16 cmd off TPM_ALG_SHA256 in
  copy_into cmd off (off + SHA256_DIGEST_SIZE) digest.

Definition unseal_cmd (item_handle session : Z) : comp (list byte) :=
  let auth_size := 4 + 2 + 1 + 2 in
  let cmd_size := 10 + 4 + 4 + auth_size in
  let! ' (cmd, off) := write_header (zeros cmd_size) TPM_ST_SESSIONS cmd_size TPM2_CC_UNSEAL in
  let! ' (cmd, off) := put_u32 cmd off item_handle in
  let! ' (cmd, off) := put_u32 cmd off auth_size in
  let! ' (cmd, off) := put_u32 cmd off session in
  let! ' (cmd, off) := put_u16 cmd off 0 in
  let! ' (cmd, off) := put_u8 cmd off 0 in
  finish (put_u16 cmd off 0).

Definition create_primary_cmd : comp (list byte) :=
  let tpmt_public_size := 26 in
  let sensitive_size := 4 in
  let cmd_size := 10 + 4 + 4 + PW_AUTH_SIZE + 2 + sensitive_size + 2 + tpmt_public_size + 2 + 4 in
  let! ' (cmd, off) := write_header (zeros cmd_size) TPM_ST_SESSIONS cmd_size TPM2_CC_CREATE_PRIMARY in
  let! ' (cmd, off) := put_u32 cmd off TPM_RH_OWNER in
  let! ' (cmd, off) := put_u32 cmd off PW_AUTH_SIZE in
  let! ' (cmd, off) := write_pw_auth cmd off in
  let! ' (cmd, off) := put_u16 cmd off sensitive_size in
  let! ' (cmd, off) := put_u16 cmd off 0 in
  let! ' (cmd, off) := put_u16 cmd off 0 in
  let! ' (cmd, off) := put_u16 cmd off tpmt_public_size in
  let! ' (cmd, off) := put_u16 cmd off TPM_ALG_RSA in
  let! ' (cmd, off) := put_u16 cmd off TPM_ALG_SHA256 in
  let! ' (cmd, off) := put_u32 cmd off STORAGE_KEY_ATTRS in
  let! ' (cmd, off) := put_u16 cmd off 0 in
  let! ' (cmd, off) := put_u16 cmd off TPM_ALG_AES in
  let! ' (cmd, off) := put_u16 cmd off 128 in
  let! ' (cmd, off) := put_u16 cmd off TPM_ALG_CFB in
  let! ' (cmd, off) := put_u16 cmd off TPM_ALG_NULL in
  let! ' (cmd, off) := put_u16 cmd off 2048 in
  let! ' (cmd, off) := put_u32 cmd off 0 in
  let! ' (cmd, off) := put_u16 cmd off 0 in
  let! ' (cmd, off) := put_u16 cmd off 0 in
  finish (put_u32 cmd off 0).

Definition evict_control_cmd (object_handle persistent_handle : Z) : comp (list byte) :=
  let cmd_size := 10 + 4 + 4 + 4 + PW_AUTH_SIZE + 4 in
  let! ' (cmd, off) := write_header (zeros cmd_size) TPM_ST_SESSIONS cmd_size TPM2_CC_EVICT_CONTROL in
  let! ' (cmd, off) := put_u32 cmd off TPM_RH_OWNER in
  let! ' (cmd, off) := put_u32 cmd off object_handle in
  let! ' (cmd, off) := put_u32 cmd off PW_AUTH_SIZE in
  let! ' (cmd, off) := write_pw_auth cmd off in
  finish (put_u32 cmd off persistent_handle).

Definition da_lock_reset_cmd : comp (list byte) :=
  let cmd_size := 10 + 4 + 4 + PW_AUTH_SIZE in
  let! ' (cmd, off) := write_header (zeros cmd_size) TPM_ST_SESSIONS cmd_size TPM2_CC_DA_LOCK_RESET in
  let! ' (cmd, off) := put_u32 cmd off TPM_RH_LOCKOUT in
  let! ' (cmd, off) := put_u32 cmd off PW_AUTH_SIZE in
  finish (write_pw_auth cmd off).

(** The body of [create] for given sizes. *)
Definition create_fill (sensitive_inner tpmt_public_size cmd_size parent : Z)
    (data policy_digest : list byte) : comp (list byte) :=
  let! ' (cmd, off) := write_header (zeros cmd_size) TPM_ST_SESSIONS cmd_size TPM2_CC_CREATE in
  let! ' (cmd, off) := put_u32 cmd off parent in
  let! ' (cmd, off) := put_u32 cmd off PW_AUTH_SIZE in
  let! ' (cmd, off) := write_pw_auth cmd off in
  let! ' (cmd, off) := put_u16 cmd off sensitive_inner in
  let! ' (cmd, off) := put_u16 cmd off 0 in
  let! ' (cmd, off) := put_u16 cmd off (len data) in
  let! ' (cmd, off) := put_bytes cmd off data in
  let! ' (cmd, off) := put_u16 cmd off tpmt_public_size in
  let! ' (cmd, off) := put_u16 cmd off TPM_ALG_KEYEDHASH in
  let! ' (cmd, off) := put_u16 cmd off TPM_ALG_SHA256 in
  let! ' (cmd, off) := put_u32 cmd off SEALED_OBJ_ATTRS in
  let! ' (cmd, off) := put_u16 cmd off (len policy_digest) in
  let! ' (cmd, off) := put_bytes cmd off policy_digest in
  let! ' (cmd, off) := put_u16 cmd off TPM_ALG_NULL in
  let! ' (cmd, off) := put_u16 cmd off 0 in
  let! ' (cmd, off) := put_u16 cmd off 0 in
  finish (put_u32 cmd off 0).

(** The [u16] sizes wrap around, the [u32] size is computed from them. *)
Definition create_cmd (parent : Z) (data policy_digest : list byte) : comp (list byte) :=
  let sensitive_inner := u16_wrap (2 + 2 + u16_wrap (len data)) in
  let tpmt_public_size := u16_wrap (2 + 2 + 4 + u16_wrap (2 + u16_wrap (len policy_digest)) + 2 + 2) in
  let cmd_size := 10 + 4 + 4 + PW_AUTH_SIZE + (2 + sensitive_inner) + (2 + tpmt_public_size) + 2 + 4 in
  create_fill sensitive_inner tpmt_public_size cmd_size parent data policy_digest.

Definition load_cmd (parent : Z) (priv_area pub_area : list byte) : comp (list byte) :=
  let cmd_size := u32_wrap (10 + 4 + 4 + PW_AUTH_SIZE + u32_wrap (len priv_area)
                            + u32_wrap (len pub_area)) in
  let! ' (cmd, off) := write_header (zeros cmd_size) TPM_ST_SESSIONS cmd_size TPM2_CC_LOAD in
  let! ' (cmd, off) := put_u32 cmd off parent in
  let! ' (cmd, off) := put_u32 cmd off PW_AUTH_SIZE in
  let! ' (cmd, off) := write_pw_auth cmd off in
  let! ' (cmd, off) := put_bytes cmd off priv_area in
  finish (put_bytes cmd off pub_area).

(** The parameters of the responses.  [rsp[12..12 + sz]] and the like panic
    past the end. *)
Definition response_handle (rsp : list byte) : comp Z := get_u32 rsp 10.

Definition tpm2b_at (rsp : list byte) (off : Z) : comp (list byte) :=
  let! sz := get_u16 rsp off in slice rsp (off + 2) (off + 2 + sz).

(** The sized buffer at [off] with its size field, and what follows it. *)
Definition raw_tpm2b_at (rsp : list byte) (off : Z) : comp (list byte * Z) :=
  let! sz := get_u16 rsp off in
  let! blob := slice rsp off (off + 2 + sz) in mret (blob, off + (2 + sz)).

Definition created_blobs (rsp : list byte) : comp (list byte * list byte) :=
  let! ' (priv_blob, roff) := raw_tpm2b_at rsp 14 in
  let! ' (pub_blob, _) := raw_tpm2b_at rsp roff in
  mret (priv_blob, pub_blob).

Section Tpm.
Context `{X : Externals}.

Definition open_tpm : sys (result Z string) :=
  with_err (fun e => "failed to open " +:+ TPM_DEVICE +:+ ": " +:+ io_display e)
    (trigger (FileOpen TPM_DEVICE true)).

Definition da_lock_reset_raw (dev : Z) : sys unit :=
  let! cmd := lift da_lock_reset_cmd in
  do! trigger (FileWriteAll dev cmd) in
  do! read_some dev RSP_BUF_SIZE in
  mret tt.

(** [retries] attempts are left after this one. *)
Fixpoint tpm_transact_go (retries : nat) (dev : Z) (cmd : list byte)
    : sys (result (list byte) string) :=
  let? _ := boxed (trigger (FileWriteAll dev cmd)) in
  let? rsp := boxed (read_some dev RSP_BUF_SIZE) in
  let n := len rsp in
  if n <? 10 then mret (Err ("TPM response too short: " +:+ fmt_dec n +:+ " bytes"))
  else
    let! rc := lift (get_u32 rsp 6) in
    if retryable rc then
      match retries with
      | S retries =>
          do! (if rc =? TPM_RC_LOCKOUT then da_lock_reset_raw dev else mret tt) in
          do! trigger (ThreadSleep TPM_RETRY_DELAY_MS) in
          tpm_transact_go retries dev cmd
      | O => mret (Ok rsp)
      end
    else mret (Ok rsp).

Definition tpm_transact (dev : Z) (cmd : list byte) : sys (result (list byte) string) :=
  tpm_transact_go TPM_MAX_RETRIES dev cmd.

(** Build, send, check. *)
Definition transact_checked (dev : Z) (cmd_name : string) (cmd : comp (list byte))
    : sys (result (list byte) string) :=
  let! cmd := lift cmd in
  let? rsp := tpm_transact dev cmd in
  let? _ := lift (check_response rsp cmd_name) in
  mret (Ok rsp).

Definition ignore_response (p : sys (result (list byte) string)) : sys (result unit string) :=
  let? _ := p in mret (Ok tt).

Definition parse_response {A} (parse : list byte -> comp A)
    (p : sys (result (list byte) string)) : sys (result A string) :=
  let? rsp := p in
  let! a := lift (parse rsp) in
  mret (Ok a).

Definition startup (dev : Z) : sys (result unit string) :=
  ignore_response (transact_checked dev "Startup" startup_cmd).

Definition start_auth_session (dev session_type : Z) : sys (result Z string) :=
  parse_response response_handle
    (transact_checked dev "StartAuthSession" (start_auth_session_cmd session_type)).

Definition start_policy_session (dev : Z) : sys (result Z string) :=
  start_auth_session dev TPM_SE_POLICY.
Definition start_trial_session (dev : Z) : sys (result Z string) :=
  start_auth_session dev TPM_SE_TRIAL.

Definition policy_pcr (dev session : Z) : sys (result unit string) :=
  ignore_response (transact_checked dev "PolicyPCR" (policy_pcr_cmd session)).

Definition policy_get_digest (dev session : Z) : sys (result (list byte) string) :=
  parse_response (fun rsp => tpm2b_at rsp 10)
    (transact_checked dev "PolicyGetDigest" (handle_cmd TPM2_CC_POLICY_GET_DIGEST session)).

Definition pcr_extend (dev pcr_index : Z) : sys (result unit string) :=
  let? urand := with_err (fun e => "open /dev/urandom: " +:+ io_display e)
                  (trigger (FileOpen "/dev/urandom" false)) in
  let? digest := boxed (read_exact urand SHA256_DIGEST_SIZE) in
  ignore_response (transact_checked dev "PCR_Extend" (pcr_extend_cmd pcr_index digest)).

Definition flush_context (dev handle : Z) : sys (result unit string) :=
  ignore_response (transact_checked dev "FlushContext" (handle_cmd TPM2_CC_FLUSH_CONTEXT handle)).

Definition unseal (dev item_handle session : Z) : sys (result (list byte) string) :=
  parse_response (fun rsp => tpm2b_at rsp 14)
    (transact_checked dev "Unseal" (unseal_cmd item_handle session)).

Definition create_primary (dev : Z) : sys (result Z string) :=
  parse_response response_handle (transact_checked dev "CreatePrimary" create_primary_cmd).

Definition evict_control (dev object_handle persistent_handle : Z) : sys (result unit string) :=
  ignore_response (transact_checked dev "EvictControl"
                     (evict_control_cmd object_handle persistent_handle)).

Definition dictionary_attack_lock_reset (dev : Z) : sys (result unit string) :=
  ignore_response (transact_checked dev "DictionaryAttackLockReset" da_lock_reset_cmd).

Definition try_evict_persistent (dev persistent_handle : Z) : sys unit :=
  let! r := evict_control dev persistent_handle persistent_handle in
  match r with
  | Err _ => do! dictionary_attack_lock_reset dev in mret tt
  | Ok _ => mret tt
  end.

Definition create (dev parent : Z) (data policy_digest : list byte)
    : sys (result (list byte * list byte) string) :=
  parse_response created_blobs (transact_checked dev "Create" (create_cmd parent data policy_digest)).

Definition load (dev parent : Z) (priv_area pub_area : list byte) : sys (result Z string) :=
  parse_response response_handle (transact_checked dev "Load" (load_cmd parent priv_area pub_area)).

End Tpm.

(** ** The marshalling of the TPM specification *)

(** A [TPM2B] structure: a 16-bit size and the bytes. *)
Definition tpm2b (bs : list byte) : list byte := to_be 2 (len bs) ++ bs.

(** A command: tag, total size, command code, handles and parameters. *)
Definition command (tag code : Z) (body : list byte) : list byte :=
  to_be 2 tag ++ to_be 4 (10 + len body) ++ to_be 4 code ++ body.

(** A session of the authorization area: handle, nonce, attributes, HMAC. *)
Definition session_auth (handle : Z) : list byte :=
  to_be 4 handle ++ tpm2b [] ++ [x00] ++ tpm2b [].
Definition auth_area (s : list byte) : list byte := to_be 4 (len s) ++ s.

Definition storage_key_template : list byte :=
  to_be 2 TPM_ALG_RSA ++ to_be 2 TPM_ALG_SHA256 ++ to_be 4 STORAGE_KEY_ATTRS ++ tpm2b [] ++
  (to_be 2 TPM_ALG_AES ++ to_be 2 128 ++ to_be 2 TPM_ALG_CFB) ++ to_be 2 TPM_ALG_NULL ++
  to_be 2 2048 ++ to_be 4 0 ++ tpm2b [].

Definition sealed_object_template (policy_digest : list byte) : list byte :=
  to_be 2 TPM_ALG_KEYEDHASH ++ to_be 2 TPM_ALG_SHA256 ++ to_be 4 SEALED_OBJ_ATTRS ++
  tpm2b policy_digest ++ to_be 2 TPM_ALG_NULL ++ tpm2b [].

Definition create_body (parent : Z) (data policy_digest : list byte) : list byte :=
  to_be 4 parent ++ auth_area (session_auth TPM_RS_PW) ++ tpm2b (tpm2b [] ++ tpm2b data) ++
  tpm2b (sealed_object_template policy_digest) ++ tpm2b [] ++ to_be 4 0.

(** A successful response: tag, size, response code 0, and the rest. *)
Definition response (tag : Z) (body : list byte) : list byte :=
  to_be 2 tag ++ to_be 4 (10 + len body) ++ to_be 4 0 ++ body.

(** ** Lemmas *)

Lemma len_tpm2b bs : len (tpm2b bs) = 2 + len bs.
Proof. unfold tpm2b. len_tac. Qed.
#[export] Hint Rewrite len_tpm2b : len.

Lemma len_session_auth h : len (session_auth h) = 9.
Proof. unfold session_auth. len_tac. Qed.
#[export] Hint Rewrite len_session_auth : len.

(** The invariant of the builders: what was written, then zeros. *)
Lemma emit_bytes d n off b bs :
  off = len d -> b = off + len bs -> len bs <= n ->
  copy_into (d ++ zeros n) off b bs = Val ((d ++ bs) ++ zeros (n - len bs)).
Proof.
  intros -> -> Hn. pose proof (len_nonneg bs).
  replace n with (len bs + (n - len bs)) at 1 by lia. rewrite zeros_app by lia.
  rewrite copy_into_app by (rewrite ?len_zeros; lia). rewrite (assoc_L app). done.
Qed.

Lemma emit_u16 d n off v : off = len d -> 2 <= n ->
  put_u16 (d ++ zeros n) off v = Val ((d ++ to_be 2 v) ++ zeros (n - 2), off + 2).
Proof. intros. unfold put_u16. rewrite emit_bytes by len_tac. done. Qed.

Lemma emit_u32 d n off v : off = len d -> 4 <= n ->
  put_u32 (d ++ zeros n) off v = Val ((d ++ to_be 4 v) ++ zeros (n - 4), off + 4).
Proof. intros. unfold put_u32. rewrite emit_bytes by len_tac. done. Qed.

Lemma emit_u8 d n off v : off = len d -> 1 <= n ->
  put_u8 (d ++ zeros n) off v = Val ((d ++ [z2b v]) ++ zeros (n - 1), off + 1).
Proof. intros. unfold put_u8, set_index. rewrite emit_bytes by len_tac. done. Qed.

Lemma emit_data d n off bs : off = len d -> len bs <= n ->
  put_bytes (d ++ zeros n) off bs = Val ((d ++ bs) ++ zeros (n - len bs), off + len bs).
Proof. intros. unfold put_bytes. rewrite emit_bytes by len_tac. done. Qed.

Lemma put_bytes_panics buf off bs : len buf < off + len bs -> put_bytes buf off bs = Panicked.
Proof. intros. unfold put_bytes. rewrite copy_into_panics by auto. done. Qed.

Lemma emit_header n tag size code : 10 <= n ->
  write_header (zeros n) tag size code =
    Val ((to_be 2 tag ++ to_be 4 size ++ to_be 4 code) ++ zeros (n - 2 - 4 - 4), 10).
Proof.
  intros. unfold write_header. change (zeros n) with ([] ++ zeros n).
  rewrite emit_u16 by len_tac. mcbn. rewrite emit_u32 by len_tac. mcbn.
  rewrite emit_u32 by len_tac. rewrite (assoc_L app). done.
Qed.

Lemma emit_pw_auth d n off : off = len d -> 9 <= n ->
  write_pw_auth (d ++ zeros n) off =
    Val ((d ++ session_auth TPM_RS_PW) ++ zeros (n - 4 - 2 - 1 - 2), off + 4 + 2 + 1 + 2).
Proof.
  intros. unfold write_pw_auth.
  rewrite emit_u32 by len_tac. mcbn. rewrite emit_u16 by len_tac. mcbn.
  rewrite emit_u8 by len_tac. mcbn. rewrite emit_u16 by len_tac. mcbn.
  do 3 f_equal. unfold session_auth, tpm2b. app_eq.
Qed.

Lemma emitted d n off : n = 0 -> finish (Val (d ++ zeros n, off)) = Val d.
Proof. intros ->. cbn. rewrite app_nil_r. done. Qed.

(** What was written is the command, when the size field is right. *)
Lemma command_eq tag code size body d :
  d = (to_be 2 tag ++ to_be 4 size ++ to_be 4 code) ++ body -> size = 10 + len body ->
  Val d = Val (command tag code body).
Proof. intros -> ->. unfold command. rewrite <- !(assoc_L app). done. Qed.

Ltac emit :=
  cbv zeta; rewrite emit_header by (unfold PW_AUTH_SIZE, SHA256_DIGEST_SIZE; len_tac); mcbn;
  repeat first
    [ rewrite emit_u32 by (unfold PW_AUTH_SIZE, SHA256_DIGEST_SIZE in *; len_tac); mcbn
    | rewrite emit_u16 by (unfold PW_AUTH_SIZE, SHA256_DIGEST_SIZE in *; len_tac); mcbn
    | rewrite emit_u8 by (unfold PW_AUTH_SIZE, SHA256_DIGEST_SIZE in *; len_tac); mcbn
    | rewrite emit_pw_auth by (unfold PW_AUTH_SIZE, SHA256_DIGEST_SIZE in *; len_tac); mcbn
    | rewrite emit_data by (unfold PW_AUTH_SIZE, SHA256_DIGEST_SIZE in *; len_tac); mcbn ];
  try rewrite emitted by (unfold PW_AUTH_SIZE, SHA256_DIGEST_SIZE in *; len_tac).

Lemma startup_cmd_eq : startup_cmd = Val (command TPM_ST_NO_SESSIONS TPM2_CC_STARTUP (to_be 2 0)).
Proof. unfold startup_cmd. emit. eapply command_eq; [app_eq|len_tac]. Qed.

Lemma handle_cmd_eq code handle :
  handle_cmd code handle = Val (command TPM_ST_NO_SESSIONS code (to_be 4 handle)).
Proof. unfold handle_cmd. emit. eapply command_eq; [app_eq|len_tac]. Qed.

Lemma start_auth_session_cmd_eq ty :
  start_auth_session_cmd ty = Val (command TPM_ST_NO_SESSIONS TPM2_CC_START_AUTH_SESSION
    (to_be 4 TPM_RH_NULL ++ to_be 4 TPM_RH_NULL ++ tpm2b (zeros 32) ++ tpm2b [] ++ [z2b ty] ++
     to_be 2 TPM_ALG_NULL ++ to_be 2 TPM_ALG_SHA256)).
Proof.
  unfold start_auth_session_cmd. cbv zeta.
  rewrite emit_header by (unfold SHA256_DIGEST_SIZE; lia). mcbn.
  do 2 (rewrite emit_u32 by (unfold SHA256_DIGEST_SIZE; len_tac); mcbn).
  rewrite emit_u16 by (unfold SHA256_DIGEST_SIZE; len_tac). mcbn. unfold SHA256_DIGEST_SIZE.
  match goal with |- context [zeros ?n] =>
    lazymatch n with _ - 2 => replace n with (32 + (n - 32)) by lia end end.
  rewrite zeros_app by lia. rewrite (assoc_L app _ (zeros 32)).
  pose proof (len_zeros 32 ltac:(lia)).
  rewrite emit_u16 by len_tac. mcbn. rewrite emit_u8 by len_tac. mcbn.
  do 2 (rewrite emit_u16 by len_tac; mcbn). rewrite emitted by lia.
  eapply command_eq; [unfold tpm2b; rewrite len_zeros by lia; app_eq|len_tac].
Qed.

Lemma policy_pcr_cmd_eq session :
  policy_pcr_cmd session = Val (command TPM_ST_NO_SESSIONS TPM2_CC_POLICY_PCR
    (to_be 4 session ++ tpm2b [] ++ to_be 4 1 ++ to_be 2 TPM_ALG_SHA256 ++
     [x03] ++ [x80; x00; x00])).
Proof.
  unfold policy_pcr_cmd. emit. cbn [finish mbind comp_bind mret comp_ret].
  eapply command_eq; [unfold tpm2b; rewrite <- !(assoc_L app); reflexivity|len_tac].
Qed.

Lemma pcr_extend_cmd_eq pcr digest : len digest = 32 ->
  pcr_extend_cmd pcr digest = Val (command TPM_ST_SESSIONS TPM2_CC_PCR_EXTEND
    (to_be 4 pcr ++ auth_area (session_auth TPM_RS_PW) ++ to_be 4 1 ++ to_be 2 TPM_ALG_SHA256 ++ digest)).
Proof.
  intros Hd. unfold pcr_extend_cmd. emit.
  rewrite emit_bytes by (unfold SHA256_DIGEST_SIZE, PW_AUTH_SIZE; len_tac).
  replace (zeros _) with (@nil byte); [rewrite app_nil_r|].
  2:{ unfold zeros. rewrite Hd. done. }
  eapply command_eq; [unfold auth_area; rewrite len_session_auth; app_eq|].
  unfold auth_area, SHA256_DIGEST_SIZE, PW_AUTH_SIZE. len_tac.
Qed.

Lemma unseal_cmd_eq item session :
  unseal_cmd item session = Val (command TPM_ST_SESSIONS TPM2_CC_UNSEAL
    (to_be 4 item ++ auth_area (session_auth session))).
Proof.
  unfold unseal_cmd. emit. eapply command_eq; unfold auth_area;
    [rewrite len_session_auth; unfold session_auth, tpm2b; app_eq|len_tac].
Qed.

Lemma create_primary_cmd_eq :
  create_primary_cmd = Val (command TPM_ST_SESSIONS TPM2_CC_CREATE_PRIMARY
    (to_be 4 TPM_RH_OWNER ++ auth_area (session_auth TPM_RS_PW) ++ tpm2b (tpm2b [] ++ tpm2b []) ++
     tpm2b storage_key_template ++ tpm2b [] ++ to_be 4 0)).
Proof. vm_compute. reflexivity. Qed.

Lemma evict_control_cmd_eq obj persistent :
  evict_control_cmd obj persistent = Val (command TPM_ST_SESSIONS TPM2_CC_EVICT_CONTROL
    (to_be 4 TPM_RH_OWNER ++ to_be 4 obj ++ auth_area (session_auth TPM_RS_PW) ++ to_be 4 persistent)).
Proof.
  unfold evict_control_cmd. emit.
  eapply command_eq; unfold auth_area; [rewrite len_session_auth; app_eq|unfold PW_AUTH_SIZE; len_tac].
Qed.

Lemma da_lock_reset_cmd_eq :
  da_lock_reset_cmd = Val (command TPM_ST_SESSIONS TPM2_CC_DA_LOCK_RESET
    (to_be 4 TPM_RH_LOCKOUT ++ auth_area (session_auth TPM_RS_PW))).
Proof. vm_compute. reflexivity. Qed.

Lemma len_template policy : len (sealed_object_template policy) = 14 + len policy.
Proof. unfold sealed_object_template. len_tac. Qed.

Lemma create_fill_eq parent data policy si tp size :
  si = 4 + len data -> tp = 14 + len policy -> size = 37 + si + tp ->
  create_fill si tp size parent data policy =
    Val (command TPM_ST_SESSIONS TPM2_CC_CREATE (create_body parent data policy)).
Proof.
  intros Hsi Htp Hsz. pose proof (len_nonneg data). pose proof (len_nonneg policy).
  unfold create_fill. emit. eapply command_eq.
  - unfold create_body, auth_area. rewrite len_session_auth.
    unfold tpm2b at 1 4. rewrite len_template, <- Htp. unfold sealed_object_template.
    unfold tpm2b. autorewrite with len.
    replace (Z.of_nat 2 + 0 + (Z.of_nat 2 + len data)) with si by lia. app_eq.
  - unfold create_body, auth_area. autorewrite with len. rewrite len_template. lia.
Qed.

Lemma create_cmd_eq parent data policy :
  4 + len data < U16 -> 14 + len policy < U16 ->
  create_cmd parent data policy =
    Val (command TPM_ST_SESSIONS TPM2_CC_CREATE (create_body parent data policy)).
Proof.
  intros Hd Hp. pose proof (len_nonneg data). pose proof (len_nonneg policy).
  assert (u16_wrap (2 + 2 + u16_wrap (len data)) = 4 + len data) as Hsi.
  { unfold u16_wrap. rewrite (Z.mod_small (len data)), Z.mod_small by lia. lia. }
  assert (u16_wrap (2 + 2 + 4 + u16_wrap (2 + u16_wrap (len policy)) + 2 + 2) = 14 + len policy) as Htp.
  { unfold u16_wrap. rewrite (Z.mod_small (len policy)), (Z.mod_small (2 + len policy)), Z.mod_small by lia.
    lia. }
  unfold create_cmd. apply create_fill_eq; [done..|unfold PW_AUTH_SIZE; lia].
Qed.

Lemma load_cmd_eq parent priv pub :
  27 + len priv + len pub < U32 ->
  load_cmd parent priv pub = Val (command TPM_ST_SESSIONS TPM2_CC_LOAD
    (to_be 4 parent ++ auth_area (session_auth TPM_RS_PW) ++ priv ++ pub)).
Proof.
  intros Hl. pose proof (len_nonneg priv). pose proof (len_nonneg pub).
  unfold load_cmd, u32_wrap, PW_AUTH_SIZE.
  rewrite (Z.mod_small (len priv)), (Z.mod_small (len pub)), !Z.mod_small by lia.
  fold PW_AUTH_SIZE. emit.
  eapply command_eq; unfold auth_area; [rewrite len_session_auth; app_eq|unfold PW_AUTH_SIZE; len_tac].
Qed.

(** A secret whose size does not fit the size field: the buffer is too small. *)
Lemma create_fill_panics parent data policy si tp size :
  size = 37 + si + tp -> 0 <= si -> 0 <= tp -> 33 + len data > size ->
  create_fill si tp size parent data policy = Panicked.
Proof.
  intros Hsz Hs Ht Hd. unfold create_fill. emit.
  rewrite put_bytes_panics; [done|].
  autorewrite with len. rewrite len_zeros by lia. lia.
Qed.

Lemma create_cmd_panics parent data policy :
  U16 <= 4 + len data -> len policy <= 4084 -> create_cmd parent data policy = Panicked.
Proof.
  intros Hd Hp. pose proof (len_nonneg policy). unfold create_cmd.
  assert (0 <= u16_wrap (2 + 2 + u16_wrap (len data)) < len data - 4200) as Hsi.
  { unfold u16_wrap, U16 in *. Z.to_euclidean_division_equations. lia. }
  assert (u16_wrap (2 + 2 + 4 + u16_wrap (2 + u16_wrap (len policy)) + 2 + 2) = 14 + len policy) as Htp.
  { unfold u16_wrap.
    rewrite (Z.mod_small (len policy)), (Z.mod_small (2 + len policy)), Z.mod_small by (unfold U16; lia).
    lia. }
  apply create_fill_panics; unfold PW_AUTH_SIZE; lia.
Qed.

(** ** Responses *)

Lemma len_response tag body : len (response tag body) = 10 + len body.
Proof. unfold response. len_tac. Qed.

Lemma response_rc tag body : get_u32 (response tag body) 6 = Val 0.
Proof.
  unfold get_u32. rewrite (read_be_at 4 _ (to_be 2 tag ++ to_be 4 (10 + len body)) (to_be 4 0) body 6);
    [done|unfold response; app_eq|len_tac|done].
Qed.

Lemma check_response_ok tag body name : check_response (response tag body) name = Val (Ok tt).
Proof. unfold check_response. rewrite response_rc. done. Qed.

Lemma get_u16_at data pre v post off :
  data = pre ++ to_be 2 v ++ post -> off = len pre -> 0 <= v < U16 -> get_u16 data off = Val v.
Proof.
  intros Hd Ho Hv. unfold get_u16. rewrite (read_be_at 2 data pre (to_be 2 v) post off); [|done..].
  rewrite be_of_to_be. change (256 ^ Z.of_nat 2) with U16. rewrite Z.mod_small by done. done.
Qed.

Lemma get_u32_at data pre v post off :
  data = pre ++ to_be 4 v ++ post -> off = len pre -> 0 <= v < U32 -> get_u32 data off = Val v.
Proof.
  intros Hd Ho Hv. unfold get_u32. rewrite (read_be_at 4 data pre (to_be 4 v) post off); [|done..].
  rewrite be_of_to_be. change (256 ^ Z.of_nat 4) with U32. rewrite Z.mod_small by done. done.
Qed.

Lemma tpm2b_at_encode data pre bs post off :
  data = pre ++ tpm2b bs ++ post -> off = len pre -> len bs < U16 -> tpm2b_at data off = Val bs.
Proof.
  intros Hd Ho Hb. pose proof (len_nonneg bs). unfold tpm2b_at.
  rewrite (get_u16_at data pre (len bs) (bs ++ post)); [|rewrite Hd; unfold tpm2b; app_eq|lia..].
  mcbn. apply (slice_at data (pre ++ to_be 2 (len bs)) bs post);
    [rewrite Hd; unfold tpm2b; app_eq|len_tac..].
Qed.

Lemma raw_tpm2b_at_encode data pre bs post off :
  data = pre ++ tpm2b bs ++ post -> off = len pre -> len bs < U16 ->
  raw_tpm2b_at data off = Val (tpm2b bs, off + len (tpm2b bs)).
Proof.
  intros Hd Ho Hb. pose proof (len_nonneg bs). unfold raw_tpm2b_at.
  rewrite (get_u16_at data pre (len bs) (bs ++ post)); [|rewrite Hd; unfold tpm2b; app_eq|lia..].
  mcbn. rewrite (slice_at data pre (tpm2b bs) post); [|done|lia|len_tac].
  mcbn. rewrite len_tpm2b. done.
Qed.

Lemma created_blobs_encode tag psize priv pub rest :
  len priv < U16 -> len pub < U16 ->
  created_blobs (response tag (to_be 4 psize ++ tpm2b priv ++ tpm2b pub ++ rest)) =
    Val (tpm2b priv, tpm2b pub).
Proof.
  intros Hv Hb. unfold created_blobs, response. set (sz := 10 + len _). clearbody sz.
  set (hdr := to_be 2 tag ++ to_be 4 sz ++ to_be 4 0 ++ to_be 4 psize).
  assert (len hdr = 14) as Hh by done.
  rewrite (raw_tpm2b_at_encode _ hdr priv (tpm2b pub ++ rest)); [|unfold hdr; app_eq|lia..]. mcbn.
  rewrite (raw_tpm2b_at_encode _ (hdr ++ tpm2b priv) pub rest); [done|unfold hdr; app_eq|len_tac|done].
Qed.

Lemma created_blobs_len rsp priv pub : created_blobs rsp = Val (priv, pub) ->
  len priv <= len rsp /\ len pub <= len rsp.
Proof.
  unfold created_blobs, raw_tpm2b_at. intros H.
  apply comp_bind_inv in H as ([p1 o1]&H1&H). apply comp_bind_inv in H1 as (s1&_&H1).
  apply comp_bind_inv in H1 as (b1&H1&E1). injection E1 as <- <-.
  apply comp_bind_inv in H as ([p2 o2]&H2&E). injection E as <- <-.
  apply comp_bind_inv in H2 as (s2&_&H2). apply comp_bind_inv in H2 as (b2&H2&E2).
  injection E2 as <- _. apply slice_inv in H1 as (?&?&->), H2 as (?&?&->).
  rewrite !len_sub by lia. lia.
Qed.

(** ** The transport *)

Definition is_sleep (v : event sysE) : bool :=
  match v with @Ev _ _ e _ => match e with ThreadSleep _ => true | _ => false end end.
Definition is_write (v : event sysE) : bool :=
  match v with @Ev _ _ e _ => match e with FileWriteAll _ _ => true | _ => false end end.
Definition count (f : event sysE -> bool) (h : hist sysE) : nat := length (List.filter f h).

Lemma count_app f h k : count f (h ++ k) = (count f h + count f k)%nat.
Proof. unfold count. rewrite List.filter_app, length_app. done. Qed.

Section transport.
Context `{X : Externals}.

(** Sleeps and writes since [h], for [retries] retries left. *)
Definition transact_post (retries : nat) (h h' : hist sysE)
    (o : outcome (result (list byte) string)) : Prop :=
  (count is_sleep h' <= count is_sleep h + retries)%nat /\
  (count is_write h' <= count is_write h + 2 * retries + 1)%nat /\
  match o with
  | Done (Ok rsp) => 10 <= len rsp <= RSP_BUF_SIZE /\
      exists rc, get_u32 rsp 6 = Val rc /\
        (retryable rc = true -> count is_sleep h' = (count is_sleep h + retries)%nat)
  | Done (Err _) => True
  | Stopped _ => False
  end.

Lemma wp_da_lock_reset_raw dev h :
  wp free_protocol (da_lock_reset_raw dev) h (fun h' o => exists u, o = Done u /\
    count is_sleep h' = count is_sleep h /\ count is_write h' = S (count is_write h)).
Proof.
  unfold da_lock_reset_raw. rewrite da_lock_reset_cmd_eq. apply wp_bind.
  cbn [lift wp]. apply wp_bind, wp_trigger; [done|]. intros r _. apply wp_bind.
  apply wp_try, wp_trigger; [done|].
  intros [bs|e] _; apply wp_ret; exists tt; rewrite !count_app; cbn; split_and!; (done || lia).
Qed.

Lemma wp_transact_go retries dev cmd h :
  wp free_protocol (tpm_transact_go retries dev cmd) h (fun h' o => transact_post retries h h' o).
Proof.
  revert h. induction retries as [|n IH]; intros h; cbn [tpm_transact_go].
  all: apply wp_try, wp_boxed, wp_trigger; [done|]; intros [[]|e] _;
    [|split_and!; rewrite ?count_app; cbn; (lia || done)].
  all: apply wp_try, wp_boxed, wp_try, wp_trigger; [done|]; intros [bs|e] _;
    [|split_and!; rewrite ?count_app; cbn; (lia || done)].
  all: apply wp_ret; cbv zeta.
  all: set (rsp := take (Z.to_nat RSP_BUF_SIZE) bs).
  all: assert (len rsp <= RSP_BUF_SIZE) as Hmax
    by (unfold rsp, len, RSP_BUF_SIZE; rewrite length_take; lia).
  all: cbn [map_err].
  all: set (h1 := (h ++ _) ++ _);
    assert (count is_sleep h1 = count is_sleep h /\ count is_write h1 = S (count is_write h))
      as [Hs Hw] by (unfold h1; rewrite !count_app; cbn; lia);
    clearbody h1.
  all: destruct (Z.ltb_spec (len rsp) 10) as [|Hmin]; [split_and!; cbn; (lia || done)|].
  all: apply wp_bind, wp_lift; unfold get_u32 at 1, read_be; rewrite slice_val by lia; mcbn.
  all: set (rc := be_of _); assert (get_u32 rsp 6 = Val rc) as Hrc
    by (unfold get_u32, read_be; rewrite slice_val by lia; done); clearbody rc.
  all: destruct (retryable rc) eqn:Hr;
    [|apply wp_ret; split_and!; [lia..|]; exists rc; split; [done|];
      rewrite Hr; done].
  - apply wp_ret. split_and!; [lia..|]. exists rc. split; [done|]. lia.
  - assert (forall h2, count is_sleep h2 = count is_sleep h ->
      (count is_write h2 <= S (S (count is_write h)))%nat ->
      wp free_protocol (do! trigger (ThreadSleep TPM_RETRY_DELAY_MS) in tpm_transact_go n dev cmd) h2
        (fun h' o => transact_post (S n) h h' o)) as Hk.
    { intros h2 Hs2 Hw2. apply wp_bind, wp_trigger; [done|]. intros [] _.
      eapply wp_mono; [apply IH|]. intros h' o (H1&H2&H3).
      rewrite !count_app in H1, H2. cbn in H1, H2. split_and!; [lia..|].
      destruct o as [[r|]|]; [|done..]. destruct H3 as (Hl&rc'&Hg&Hc). split; [done|].
      exists rc'. split; [done|]. intros Ht. apply Hc in Ht. rewrite !count_app in Ht. cbn in Ht. lia. }
    apply wp_bind. destruct (rc =? TPM_RC_LOCKOUT).
    + eapply wp_mono; [apply wp_da_lock_reset_raw|].
      intros h' o (u&->&Hs'&Hw'). apply Hk; lia.
    + apply wp_ret, Hk; lia.
Qed.

(** Every write succeeds and every read answers [rsp]. *)
Definition answer_is (rsp : list byte) (v : event sysE) : Prop :=
  match v with
  | @Ev _ A e x =>
      match e in sysE A return A -> Prop with
      | FileWriteAll _ _ => fun r => r = Ok tt
      | FileRead _ _ => fun r => r = Ok rsp
      | _ => fun _ => True
      end x
  end.
Definition answered_by (t : hist sysE) (rsp : list byte) : Prop := Forall (answer_is rsp) t.

Lemma exec_exchange {B} dev cap cmd rsp (f : list byte -> sys (result B string)) t o :
  len rsp <= cap -> answered_by t rsp ->
  exec (let? _ := boxed (trigger (FileWriteAll dev cmd)) in
        let? r := boxed (read_some dev cap) in f r) t o ->
  exists t', t = [Ev (FileWriteAll dev cmd) (Ok tt); Ev (FileRead dev cap) (Ok rsp)] ++ t' /\ exec (f rsp) t' o.
Proof.
  intros Hl Ha (r&t1&->&H). apply Forall_cons in Ha as [Ha1 Ha]. cbn in Ha1. subst r.
  cbn in H. destruct H as (r&t2&->&H). apply Forall_cons in Ha as [Ha1 _]. cbn in Ha1. subst r.
  cbn in H. rewrite take_ge in H by (unfold len in Hl; lia). by exists t2.
Qed.

Lemma exec_transact_once n dev cmd rsp t o :
  10 <= len rsp <= RSP_BUF_SIZE -> get_u32 rsp 6 = Val 0 -> answered_by t rsp ->
  exec (tpm_transact_go n dev cmd) t o ->
  t = [Ev (FileWriteAll dev cmd) (Ok tt); Ev (FileRead dev RSP_BUF_SIZE) (Ok rsp)] /\ o = Done (Ok rsp).
Proof.
  intros [Hm Hl] Hrc Ha H.
  assert (forall t' o, exec (if len rsp <? 10 then mret (Err ("TPM response too short: " +:+ fmt_dec (len rsp) +:+ " bytes"))
    else let! rc := lift (get_u32 rsp 6) in
      if retryable rc then match n with
        | S retries => do! (if rc =? TPM_RC_LOCKOUT then da_lock_reset_raw dev else mret tt) in
                       do! trigger (ThreadSleep TPM_RETRY_DELAY_MS) in tpm_transact_go retries dev cmd
        | O => mret (Ok rsp) end
      else mret (Ok rsp)) t' o -> t' = [] /\ o = Done (Ok rsp)) as Hk.
  { intros t' o'. rewrite (proj2 (Z.ltb_ge _ _)), Hrc by lia. done. }
  destruct n; cbn [tpm_transact_go] in H; apply (exec_exchange _ _ _ rsp) in H as (t'&->&H); try done;
    apply Hk in H as [-> ->]; done.
Qed.

Lemma transact_checked_once dev name cmd tag body t o :
  len (response tag body) <= RSP_BUF_SIZE ->
  exec (transact_checked dev name (Val cmd)) t o -> answered_by t (response tag body) ->
  t = [Ev (FileWriteAll dev cmd) (Ok tt); Ev (FileRead dev RSP_BUF_SIZE) (Ok (response tag body))] /\
  o = Done (Ok (response tag body)).
Proof.
  intros Hl H Ha. assert (10 <= len (response tag body)) as Hm
    by (rewrite len_response; pose proof (len_nonneg body); lia).
  apply exec_try in H as [(t1&t2&r&->&H1&H)|[(e&H1&_)|(s&H1&_)]]; try apply Forall_app in Ha as [Ha _].
  all: apply (exec_transact_once _ _ _ _ _ _ (conj Hm Hl) (response_rc tag body) Ha) in H1 as [-> Hr]; try discriminate Hr.
  apply outcome_ok_inj in Hr as ->. rewrite check_response_ok in H. by destruct H as [-> ->].
Qed.

End transport.

(** ** Properties *)

Section properties.
Context `{X : Externals}.

(** C31: The imperative builders refine the marshalling of the TPM
    specification: each of the twelve commands that initos sends fills its
    buffer exactly, without panic, with the command's tag, its true total size,
    its code and its parameters in big-endian order. The three commands that
    carry bytes of their caller are limited as their sizes are: the digest of
    [pcr_extend] has 32 bytes, [create] takes a secret and a policy digest whose
    structures have a 16-bit size, and [load] two blobs that fit a 32-bit one. *)
Theorem tpm_commands_marshalled (session_type session handle item obj persistent pcr parent : Z)
    (digest data policy_digest priv_area pub_area : list byte) :
  len digest = SHA256_DIGEST_SIZE ->
  4 + len data < U16 -> 14 + len policy_digest < U16 ->
  27 + len priv_area + len pub_area < U32 ->
  startup_cmd = Val (command TPM_ST_NO_SESSIONS TPM2_CC_STARTUP (to_be 2 0)) /\
  start_auth_session_cmd session_type =
    Val (command TPM_ST_NO_SESSIONS TPM2_CC_START_AUTH_SESSION
      (to_be 4 TPM_RH_NULL ++ to_be 4 TPM_RH_NULL ++ tpm2b (zeros 32) ++ tpm2b [] ++
       [z2b session_type] ++ to_be 2 TPM_ALG_NULL ++ to_be 2 TPM_ALG_SHA256)) /\
  policy_pcr_cmd session =
    Val (command TPM_ST_NO_SESSIONS TPM2_CC_POLICY_PCR
      (to_be 4 session ++ tpm2b [] ++ to_be 4 1 ++ to_be 2 TPM_ALG_SHA256 ++ [x03] ++ [x80; x00; x00])) /\
  handle_cmd TPM2_CC_FLUSH_CONTEXT handle =
    Val (command TPM_ST_NO_SESSIONS TPM2_CC_FLUSH_CONTEXT (to_be 4 handle)) /\
  handle_cmd TPM2_CC_POLICY_GET_DIGEST session =
    Val (command TPM_ST_NO_SESSIONS TPM2_CC_POLICY_GET_DIGEST (to_be 4 session)) /\
  pcr_extend_cmd pcr digest =
    Val (command TPM_ST_SESSIONS TPM2_CC_PCR_EXTEND
      (to_be 4 pcr ++ auth_area (session_auth TPM_RS_PW) ++ to_be 4 1 ++ to_be 2 TPM_ALG_SHA256 ++ digest)) /\
  unseal_cmd item session =
    Val (command TPM_ST_SESSIONS TPM2_CC_UNSEAL (to_be 4 item ++ auth_area (session_auth session))) /\
  create_primary_cmd =
    Val (command TPM_ST_SESSIONS TPM2_CC_CREATE_PRIMARY
      (to_be 4 TPM_RH_OWNER ++ auth_area (session_auth TPM_RS_PW) ++ tpm2b (tpm2b [] ++ tpm2b []) ++
       tpm2b storage_key_template ++ tpm2b [] ++ to_be 4 0)) /\
  evict_control_cmd obj persistent =
    Val (command TPM_ST_SESSIONS TPM2_CC_EVICT_CONTROL
      (to_be 4 TPM_RH_OWNER ++ to_be 4 obj ++ auth_area (session_auth TPM_RS_PW) ++ to_be 4 persistent)) /\
  da_lock_reset_cmd =
    Val (command TPM_ST_SESSIONS TPM2_CC_DA_LOCK_RESET
      (to_be 4 TPM_RH_LOCKOUT ++ auth_area (session_auth TPM_RS_PW))) /\
  create_cmd parent data policy_digest =
    Val (command TPM_ST_SESSIONS TPM2_CC_CREATE
      (to_be 4 parent ++ auth_area (session_auth TPM_RS_PW) ++ tpm2b (tpm2b [] ++ tpm2b data) ++
       tpm2b (sealed_object_template policy_digest) ++ tpm2b [] ++ to_be 4 0)) /\
  load_cmd parent priv_area pub_area =
    Val (command TPM_ST_SESSIONS TPM2_CC_LOAD
      (to_be 4 parent ++ auth_area (session_auth TPM_RS_PW) ++ priv_area ++ pub_area)).
Proof.
  intros Hd Hs Hp Hl. rewrite startup_cmd_eq, start_auth_session_cmd_eq, policy_pcr_cmd_eq, !handle_cmd_eq,
    pcr_extend_cmd_eq, unseal_cmd_eq, create_primary_cmd_eq, evict_control_cmd_eq, da_lock_reset_cmd_eq,
    create_cmd_eq, load_cmd_eq by assumption. done.
Qed.

(** C32: The bounds of [create]: for any policy digest of at most 4084 bytes, a
    secret of fewer than 65532 bytes is marshalled exactly; a longer one wraps
    the 16-bit size, the buffer is allocated too small and the copy panics --
    no truncated command is ever sent. *)
Theorem create_marshals_or_panics (parent : Z) (data policy_digest : list byte) :
  len policy_digest <= 4084 ->
  create_cmd parent data policy_digest =
    if len data <? 65532
    then Val (command TPM_ST_SESSIONS TPM2_CC_CREATE (create_body parent data policy_digest))
    else Panicked.
Proof.
  intros Hp. destruct (Z.ltb_spec (len data) 65532).
  - apply create_cmd_eq; unfold U16; lia.
  - apply create_cmd_panics; unfold U16; lia.
Qed.

(** C33: The transport always terminates and never panics: it sleeps at most 20
    times and writes at most 41 commands (21 attempts, 20 lockout resets); an
    answer has between 10 and 4096 bytes, and it is an answer that asks for a
    retry only after all 20 retries. *)
Theorem tpm_transact_bounded (dev : Z) (cmd : list byte) (t : hist sysE)
    (o : outcome (result (list byte) string)) :
  exec (tpm_transact dev cmd) t o ->
  (count is_sleep t <= 20)%nat /\ (count is_write t <= 41)%nat /\
  exists r, o = Done r /\
    match r with
    | Ok rsp => 10 <= len rsp <= RSP_BUF_SIZE /\ exists rc, get_u32 rsp 6 = Val rc /\
        (retryable rc = true -> count is_sleep t = 20%nat)
    | Err _ => True
    end.
Proof.
  intros H. pose proof (wp_exec _ _ _ _ (wp_transact_go TPM_MAX_RETRIES dev cmd []) H) as (H1&H2&H3).
  change (count _ []) with 0%nat in *. unfold TPM_MAX_RETRIES in *. split; [lia|]. split; [lia|].
  destruct o as [r|]; [|done]. exists r. split; [done|]. destruct r; [|done].
  destruct H3 as (?&rc&?&Hc). split; [done|]. exists rc. split; [done|]. intros Hr. apply Hc in Hr. lia.
Qed.

(** Round trip of a sealed secret: when the TPM accepts the command and
    answers a well-formed success response, [unseal] sends one marshalled
    Unseal command and returns exactly the secret of the response, whatever
    follows it. *)
Theorem unseal_returns_secret (dev item session psize : Z) (secret rest : list byte)
    (t : hist sysE) (o : outcome (result (list byte) string)) (rsp : list byte) :
  rsp = response TPM_ST_SESSIONS (to_be 4 psize ++ tpm2b secret ++ rest) ->
  len rsp <= RSP_BUF_SIZE -> exec (unseal dev item session) t o -> answered_by t rsp ->
  t = [Ev (FileWriteAll dev (command TPM_ST_SESSIONS TPM2_CC_UNSEAL
             (to_be 4 item ++ auth_area (session_auth session)))) (Ok tt);
       Ev (FileRead dev RSP_BUF_SIZE) (Ok rsp)] /\
  o = Done (Ok secret).
Proof.
  intros -> Hl H Ha. unfold unseal, parse_response, try_bind in H. rewrite unseal_cmd_eq in H.
  assert (len secret < U16) as Hs.
  { rewrite len_response in Hl. unfold RSP_BUF_SIZE in Hl. unfold U16.
    pose proof (len_nonneg rest). len_tac. }
  assert (tpm2b_at (response TPM_ST_SESSIONS (to_be 4 psize ++ tpm2b secret ++ rest)) 14 = Val secret) as Hp.
  { unfold response. set (sz := 10 + len _). clearbody sz.
    apply (tpm2b_at_encode _ (to_be 2 TPM_ST_SESSIONS ++ to_be 4 sz ++ to_be 4 0 ++ to_be 4 psize)
      secret rest); [app_eq|len_tac|done]. }
  remember (to_be 4 psize ++ tpm2b secret ++ rest) as body eqn:Hbody. clear Hbody.
  apply exec_bind in H as [(t1&t2&r&->&H1&H2)|(s&H1&->)].
  - assert (answered_by t1 (response TPM_ST_SESSIONS body)) as Ha1.
    { by apply Forall_app in Ha as [? _]. }
    apply (transact_checked_once dev "Unseal" _ _ _ t1 _ Hl H1) in Ha1 as [-> [= ->]].
    cbv beta iota in H2. rewrite Hp in H2. cbn in H2. destruct H2 as [-> ->]. done.
  - apply (transact_checked_once dev "Unseal" _ _ _ t _ Hl H1) in Ha as [_ [=]].
Qed.

(** C34: A success response of the minimal ten bytes, which the transport and
    [check_response] accept, makes every command that reads a handle, a digest,
    a secret or the blobs of an object out of it panic. *)
Theorem short_success_response_panics (dev session item : Z) (t : hist sysE) (tag : Z) :
  answered_by t (response tag []) ->
  (forall o, exec (start_policy_session dev) t o -> o = Stopped Panic) /\
  (forall o, exec (policy_get_digest dev session) t o -> o = Stopped Panic) /\
  (forall o, exec (unseal dev item session) t o -> o = Stopped Panic) /\
  (forall o, exec (create_primary dev) t o -> o = Stopped Panic) /\
  (forall parent data policy_digest o, len policy_digest <= 4084 ->
     exec (create dev parent data policy_digest) t o -> o = Stopped Panic) /\
  (forall parent priv_area pub_area o, 27 + len priv_area + len pub_area < U32 ->
     exec (load dev parent priv_area pub_area) t o -> o = Stopped Panic).
Proof.
  intros Ha.
  assert (forall A name cmd (parse : list byte -> comp A) o,
    parse (response tag []) = Panicked ->
    exec (parse_response parse (transact_checked dev name (Val cmd))) t o -> o = Stopped Panic) as Hgen.
  { intros A name cmd parse o Hp H. unfold parse_response, try_bind in H.
    assert (len (response tag []) <= RSP_BUF_SIZE) as Hl by done.
    apply exec_bind in H as [(t1&t2&r&->&H1&H2)|(s&H1&->)].
    - assert (answered_by t1 (response tag [])) as Ha1.
      { by apply Forall_app in Ha as [? _]. }
      apply (transact_checked_once dev name _ _ _ t1 _ Hl H1) in Ha1 as [_ [= ->]].
      cbv beta iota in H2. rewrite Hp in H2. cbn in H2. destruct H2 as [_ ->]. done.
    - apply (transact_checked_once dev name _ _ _ t _ Hl H1) in Ha as [_ [=]]. }
  unfold start_policy_session, start_auth_session, policy_get_digest, unseal, create_primary.
  rewrite start_auth_session_cmd_eq, handle_cmd_eq, unseal_cmd_eq, create_primary_cmd_eq.
  split_and!; [intros o; apply Hgen; reflexivity..| |].
  - intros parent data policy o Hp. unfold create. destruct (Z.lt_ge_cases (4 + len data) U16) as [Hd|Hd].
    + rewrite create_cmd_eq by (unfold U16 in *; lia). apply Hgen. reflexivity.
    + rewrite create_cmd_panics by done. by intros [_ ->].
  - intros parent priv pub o Hl. unfold load. rewrite load_cmd_eq by done. apply Hgen. reflexivity.
Qed.

End properties.

(** ** Witnesses *)

Lemma tpm_commands_marshalled_witness :
  len (zeros 32) = SHA256_DIGEST_SIZE /\
  load_cmd 0x80000001 [x00; x01; xaa] [x00; x02; xbb; xcc] =
    Val (command TPM_ST_SESSIONS TPM2_CC_LOAD
      (to_be 4 0x80000001 ++ auth_area (session_auth TPM_RS_PW) ++
       [x00; x01; xaa] ++ [x00; x02; xbb; xcc])).
Proof.
  split; [reflexivity|].
  apply (tpm_commands_marshalled 1 2 3 4 5 6 7 0x80000001 (zeros 32) [x73; x65] (zeros 32)
    [x00; x01; xaa] [x00; x02; xbb; xcc]); reflexivity.
Defined.

Lemma create_marshals_or_panics_witness :
  create_cmd 0x80000001 [x73; x65] (zeros 32) =
  Val (command TPM_ST_SESSIONS TPM2_CC_CREATE (create_body 0x80000001 [x73; x65] (zeros 32))).
Proof. apply (create_marshals_or_panics 0x80000001 [x73; x65] (zeros 32)). vm_compute. discriminate. Defined.

(** A TPM open on descriptor 7 that gives the responses in turn. *)
Definition tpm_world (rsps : list (list byte)) : world :=
  set_dev (set_fds world0 8 {[7 := (TPM_DEVICE, 0)]}) {[TPM_DEVICE := rsps]}.
Definition toy_unsealed : list byte :=
  response TPM_ST_SESSIONS (to_be 4 4 ++ tpm2b [x73; x65] ++ [x00; x00]).
Definition retry_response : list byte := to_be 2 TPM_ST_NO_SESSIONS ++ to_be 4 10 ++ to_be 4 TPM_RC_LOCKOUT.

Lemma tpm_transact_bounded_witness :
  outcome_of (tpm_world (replicate 60 retry_response)) (tpm_transact 7 [x01]) = Done (Ok retry_response) /\
  (count is_write (trace_of (tpm_world (replicate 60 retry_response)) (tpm_transact 7 [x01])) <= 41)%nat.
Proof.
  assert (outcome_of (tpm_world (replicate 60 retry_response)) (tpm_transact 7 [x01])
          = Done (Ok retry_response)) as H by (vm_compute; reflexivity).
  split; [exact H|]. eapply tpm_transact_bounded, toy_exec, H.
Defined.

Lemma unseal_returns_secret_witness :
  outcome_of (tpm_world [toy_unsealed]) (unseal 7 DEFAULT_SEALED_HANDLE 3) = Done (Ok [x73; x65]).
Proof.
  eapply (unseal_returns_secret 7 DEFAULT_SEALED_HANDLE 3 4 [x73; x65] [x00; x00]
    (trace_of (tpm_world [toy_unsealed]) (unseal 7 DEFAULT_SEALED_HANDLE 3)) _ toy_unsealed).
  - reflexivity.
  - vm_compute. discriminate.
  - apply toy_exec. reflexivity.
  - vm_compute. repeat constructor.
Defined.

Lemma short_success_response_panics_witness :
  outcome_of (tpm_world [response TPM_ST_SESSIONS []]) (unseal 7 DEFAULT_SEALED_HANDLE 3) = Stopped Panic.
Proof.
  apply (short_success_response_panics 7 3 DEFAULT_SEALED_HANDLE
    (trace_of (tpm_world [response TPM_ST_SESSIONS []]) (unseal 7 DEFAULT_SEALED_HANDLE 3)) TPM_ST_SESSIONS).
  - vm_compute. repeat constructor.
  - apply toy_exec. reflexivity.
Defined.
