(* ===== verification/TpmModel.v ===== *)
(** The other end of [/dev/tpmrm0]: an abstract TPM 2.0 with its PCR 7, policy
    sessions and sealed objects, as the TPM specification describes what the
    commands of [src/tpm2.rs] do, and the conversations that programs have with
    it.  Nothing here is code of initos: it is what [TpmPolicy.v] states the
    guarantees of sealing against. *)

From S2P Require Import Prelude Prog Str Sys World Tpm.

(** ** Requests, and how the TPM reads them *)

(** A sealed object: the policy that opens it, its attributes, its data. *)
Record object : Type := Object {
  obj_policy : list byte;
  obj_attrs : Z;
  obj_data : list byte;
}.
#[export] Instance object_eq_dec : EqDecision object.
Proof. solve_decision. Defined.

(** The commands that matter to sealing; [PolicyPCR] and [PCRExtend] are those
    of the SHA-256 bank and of PCR 7. *)
Inductive request : Type :=
| StartAuthSession (session_type : Z)
| PolicyPCR (session : Z)
| PolicyGetDigest (session : Z)
| PCRExtend (digest : list byte)
| Unseal (handle session : Z)
| Create (o : object)
| Load (priv pub : list byte)
| EvictControl (object handle : Z)
| FlushContext (handle : Z)
| DALockReset
| OtherRequest.

(** The selection of PCR 7 in the SHA-256 bank. *)
Definition pcr7_selection : list byte :=
  to_be 4 1 ++ to_be 2 TPM_ALG_SHA256 ++ [x03] ++ [x80; x00; x00].

(** Readers take what they read off the front. *)
Definition reader (A : Type) : Type := list byte -> option (A * list byte).

Definition rd_bytes (n : Z) : reader (list byte) := fun l =>
  if n <=? len l then Some (take (Z.to_nat n) l, drop (Z.to_nat n) l) else None.
Definition rd_be (n : nat) : reader Z := fun l =>
  '(b, l) ← rd_bytes (Z.of_nat n) l; Some (be_of b, l).
Definition rd_2b : reader (list byte) := fun l => '(n, l) ← rd_be 2 l; rd_bytes n l.
(** The same, with its size field. *)
Definition rd_raw_2b : reader (list byte) := fun l =>
  '(n, _) ← rd_be 2 l; rd_bytes (2 + n) l.
(** The authorization area: the handle of its session. *)
Definition rd_auth : reader Z := fun l =>
  '(n, l) ← rd_be 4 l; '(a, l) ← rd_bytes n l; '(h, _) ← rd_be 4 a; Some (h, l).

Definition rd_object : reader object := fun l =>
  '(s, l) ← rd_2b l; '(_, s) ← rd_2b s; '(data, _) ← rd_2b s;
  '(p, l) ← rd_2b l; '(_, p) ← rd_be 2 p; '(_, p) ← rd_be 2 p; '(attrs, p) ← rd_be 4 p;
  '(policy, _) ← rd_2b p;
  Some (Object policy attrs data, l).

(** The handles and parameters of a command. *)
Definition decode_body (code : Z) (l : list byte) : option request :=
  if code =? TPM2_CC_START_AUTH_SESSION then
    '(_, l) ← rd_be 4 l; '(_, l) ← rd_be 4 l; '(_, l) ← rd_2b l; '(_, l) ← rd_2b l;
    '(ty, _) ← rd_be 1 l; Some (StartAuthSession ty)
  else if code =? TPM2_CC_POLICY_PCR then
    '(session, l) ← rd_be 4 l; '(digest, l) ← rd_2b l;
    if bool_decide (digest = []) && bool_decide (l = pcr7_selection) then Some (PolicyPCR session) else None
  else if code =? TPM2_CC_POLICY_GET_DIGEST then
    '(session, _) ← rd_be 4 l; Some (PolicyGetDigest session)
  else if code =? TPM2_CC_PCR_EXTEND then
    '(pcr, l) ← rd_be 4 l; '(_, l) ← rd_auth l; '(count, l) ← rd_be 4 l; '(alg, digest) ← rd_be 2 l;
    if (pcr =? 7) && (count =? 1) && (alg =? TPM_ALG_SHA256) && (len digest =? SHA256_DIGEST_SIZE)
    then Some (PCRExtend digest) else None
  else if code =? TPM2_CC_UNSEAL then
    '(handle, l) ← rd_be 4 l; '(session, _) ← rd_auth l; Some (Unseal handle session)
  else if code =? TPM2_CC_CREATE then
    '(_, l) ← rd_be 4 l; '(_, l) ← rd_auth l; '(o, _) ← rd_object l; Some (Create o)
  else if code =? TPM2_CC_LOAD then
    '(_, l) ← rd_be 4 l; '(_, l) ← rd_auth l; '(priv, l) ← rd_raw_2b l; '(pub, _) ← rd_raw_2b l;
    Some (Load priv pub)
  else if code =? TPM2_CC_EVICT_CONTROL then
    '(_, l) ← rd_be 4 l; '(obj, l) ← rd_be 4 l; '(_, l) ← rd_auth l; '(handle, _) ← rd_be 4 l;
    Some (EvictControl obj handle)
  else if code =? TPM2_CC_FLUSH_CONTEXT then '(handle, _) ← rd_be 4 l; Some (FlushContext handle)
  else if code =? TPM2_CC_DA_LOCK_RESET then Some DALockReset
  else None.

Definition decode (cmd : list byte) : request :=
  default OtherRequest
    ('(_, l) ← rd_be 2 cmd; '(_, l) ← rd_be 4 l; '(code, l) ← rd_be 4 l; decode_body code l).

(** ** State *)

(** A session: whether it is a trial, the digest of its policy, and the value
    of the PCR update counter at its last PolicyPCR. *)
Record session : Type := Session {
  ses_trial : bool;
  ses_digest : list byte;
  ses_updates : option Z;
}.

(** PCR 7, the counter of PCR updates, the sessions and objects by handle, and
    what the blobs that were created stand for, the latest first. *)
Record tpm : Type := Tpm {
  pcr7 : list byte;
  updates : Z;
  sessions : gmap Z session;
  blobs : list ((list byte * list byte) * object);
  loaded : gmap Z object;
  persistent : gmap Z object;
}.

Definition set_sessions (s : tpm) (m : gmap Z session) : tpm :=
  Tpm (pcr7 s) (updates s) m (blobs s) (loaded s) (persistent s).
Definition set_loaded (s : tpm) (m : gmap Z object) : tpm :=
  Tpm (pcr7 s) (updates s) (sessions s) (blobs s) m (persistent s).
Definition set_persistent (s : tpm) (m : gmap Z object) : tpm :=
  Tpm (pcr7 s) (updates s) (sessions s) (blobs s) (loaded s) m.

Definition object_at (s : tpm) (handle : Z) : option object :=
  match persistent s !! handle with Some o => Some o | None => loaded s !! handle end.

Fixpoint blob_object (bs : list ((list byte * list byte) * object)) (b : list byte * list byte) : option object :=
  match bs with
  | [] => None
  | (b', o) :: bs => if decide (b' = b) then Some o else blob_object bs b
  end.

(** The attribute [userWithAuth]: the object opens with its (empty) password. *)
Definition user_with_auth (o : object) : bool := Z.testbit (obj_attrs o) 6.

Definition succeeded (rsp : list byte) : bool := bool_decide (get_u32 rsp 6 = Val 0).

Section chip.
(** The hash of the TPM: SHA-256 of its PCR bank and of its sessions. *)
Variable tpm_hash : list byte -> list byte.

Definition extend (pcr digest : list byte) : list byte := tpm_hash (pcr ++ digest).
Definition extend_all : list byte -> list (list byte) -> list byte := foldl extend.

(** TPM2_PolicyPCR: the digest of the policy after the PCR was compared, the
    hash of [policy_input]. *)
Definition policy_input (digest pcr : list byte) : list byte :=
  digest ++ to_be 4 TPM2_CC_POLICY_PCR ++ pcr7_selection ++ tpm_hash pcr.
Definition policy_next (digest pcr : list byte) : list byte := tpm_hash (policy_input digest pcr).
Definition pcr_policy (pcr : list byte) : list byte := policy_next (zeros 32) pcr.

(** The authorization to use the object [o] with the session [a]. *)
Definition authorised (s : tpm) (a : Z) (o : object) : bool :=
  user_with_auth o ||
  match sessions s !! a with
  | Some se =>
      negb (ses_trial se) && bool_decide (ses_digest se = obj_policy o) &&
      match ses_updates se with Some u => u =? updates s | None => true end
  | None => false
  end.

(** The state after the successful answer [rsp] to the request [q]; [None] when
    this is not how the TPM answers it. *)
Definition tpm_next (s : tpm) (q : request) (rsp : list byte) : option tpm :=
  match q with
  | StartAuthSession ty =>
      match response_handle rsp with
      | Val h => Some (set_sessions s (<[h := Session (ty =? TPM_SE_TRIAL) (zeros 32) None]> (sessions s)))
      | _ => None
      end
  | PolicyPCR h =>
      se ← sessions s !! h;
      Some (set_sessions s (<[h := Session (ses_trial se) (policy_next (ses_digest se) (pcr7 s))
                                     (Some (updates s))]> (sessions s)))
  | PolicyGetDigest h =>
      se ← sessions s !! h;
      if bool_decide (tpm2b_at rsp 10 = Val (ses_digest se)) then Some s else None
  | PCRExtend d =>
      Some (Tpm (extend (pcr7 s) d) (updates s + 1) (sessions s) (blobs s) (loaded s) (persistent s))
  | Unseal h a =>
      o ← object_at s h;
      if authorised s a o && bool_decide (tpm2b_at rsp 14 = Val (obj_data o))
      then Some (set_sessions s (delete a (sessions s))) else None
  | Create o =>
      match created_blobs rsp with
      | Val b => Some (Tpm (pcr7 s) (updates s) (sessions s) ((b, o) :: blobs s) (loaded s) (persistent s))
      | _ => None
      end
  | Load priv pub =>
      match response_handle rsp with
      | Val h => o ← blob_object (blobs s) (priv, pub); Some (set_loaded s (<[h := o]> (loaded s)))
      | _ => None
      end
  | EvictControl obj h =>
      match loaded s !! obj with
      | Some o => Some (set_persistent s (<[h := o]> (persistent s)))
      | None => if obj =? h then Some (set_persistent s (delete h (persistent s))) else None
      end
  | FlushContext h =>
      Some (set_loaded (set_sessions s (delete h (sessions s))) (delete h (loaded s)))
  | DALockReset => Some s
  | OtherRequest => None
  end.

(** What any other command, of any software, can do to PCR 7 before the next
    reset of the platform: extend it. *)
Definition later (s s' : tpm) : Prop :=
  exists ds, pcr7 s' = extend_all (pcr7 s) ds /\ updates s + len ds <= updates s'.

Definition tpm_step (s : tpm) (q : request) (rsp : list byte) (s' : tpm) : Prop :=
  if succeeded rsp then
    match q with OtherRequest => later s s' | _ => tpm_next s q rsp = Some s' end
  else s' = s.

(** ** Conversations *)

(** The TPM and the command that was written and whose answer was not read.
    [FileWriteAll] and [FileRead] are the calls of the TPM client only. *)
Record bus : Type := Bus { chip : tpm; sent : option (list byte) }.

(** The answer was lost: it is not known whether the command was executed. *)
Definition lost (s : tpm) (cmd : list byte) (s' : tpm) : Prop :=
  s' = s \/ exists rsp, tpm_step s (decode cmd) rsp s'.

Definition bus_step (b : bus) (v : event sysE) (b' : bus) : Prop :=
  match v with
  | @Ev _ A e x => match e in sysE A return A -> Prop with
      | FileWriteAll _ cmd => fun r => match r with
          | Ok _ => b' = Bus (chip b) (Some cmd)
          | Err _ => sent b' = None /\ lost (chip b) cmd (chip b')
          end
      | FileRead _ cap => fun r => match sent b with
          | None => b' = b
          | Some cmd => sent b' = None /\ match r with
              | Ok rsp => tpm_step (chip b) (decode cmd) (take (Z.to_nat cap) rsp) (chip b')
              | Err _ => lost (chip b) cmd (chip b')
              end
          end
      | _ => fun _ => b' = b
      end x
  end.

(** An execution of the abstract TPM: what is lost was not executed, and no
    other request is answered. *)
Definition tpm_after (s : tpm) (q : request) (rsp : list byte) : option tpm :=
  if succeeded rsp then tpm_next s q rsp else Some s.

Definition bus_next (b : bus) (v : event sysE) : option bus :=
  match v with
  | @Ev _ A e x => match e in sysE A return A -> option bus with
      | FileWriteAll _ cmd => fun r => Some (Bus (chip b) (match r with Ok _ => Some cmd | Err _ => None end))
      | FileRead _ cap => fun r => match sent b, r with
          | None, _ => Some b
          | Some cmd, Ok rsp =>
              s ← tpm_after (chip b) (decode cmd) (take (Z.to_nat cap) rsp); Some (Bus s None)
          | Some _, Err _ => Some (Bus (chip b) None)
          end
      | _ => fun _ => Some b
      end x
  end.

Fixpoint bus_after (b : bus) (t : hist sysE) : option bus :=
  match t with [] => Some b | v :: t => b ← bus_next b v; bus_after b t end.

Inductive bus_run : bus -> hist sysE -> bus -> Prop :=
| run_nil b : bus_run b [] b
| run_cons b v b1 t b2 : bus_step b v b1 -> bus_run b1 t b2 -> bus_run b (v :: t) b2.

(** The program [p] ends with [o] and takes the TPM from [b] to [b']. *)
Definition talks {A} (b : bus) (p : sys A) (o : outcome A) (b' : bus) : Prop :=
  exists t, exec p t o /\ bus_run b t b'.

End chip.

(** ** The decoder inverts the marshalling *)

Lemma rd_bytes_app n b l : n = len b -> rd_bytes n (b ++ l) = Some (b, l).
Proof.
  intros ->. pose proof (len_nonneg l). unfold rd_bytes. rewrite len_app, (proj2 (Z.leb_le _ _)) by lia.
  unfold len. rewrite Nat2Z.id, take_app_length, drop_app_length. done.
Qed.

Lemma rd_be_app n v l : 0 <= v < 256 ^ Z.of_nat n -> rd_be n (to_be n v ++ l) = Some (v, l).
Proof.
  intros Hv. unfold rd_be. rewrite rd_bytes_app by (by rewrite len_to_be). cbn.
  rewrite be_of_to_be, Z.mod_small by done. done.
Qed.

Lemma rd_size_app b l : len b < U16 -> rd_be 2 (tpm2b b ++ l) = Some (len b, b ++ l).
Proof.
  intros Hb. pose proof (len_nonneg b). unfold tpm2b. rewrite <- (assoc_L app).
  apply rd_be_app. change (256 ^ Z.of_nat 2) with U16. lia.
Qed.

Lemma rd_2b_app b l : len b < U16 -> rd_2b (tpm2b b ++ l) = Some (b, l).
Proof. intros Hb. unfold rd_2b. rewrite rd_size_app by done. cbn. by apply rd_bytes_app. Qed.

Lemma rd_auth_app h l : 0 <= h < U32 -> rd_auth (auth_area (session_auth h) ++ l) = Some (h, l).
Proof.
  intros Hh. unfold rd_auth, auth_area. rewrite <- (assoc_L app), len_session_auth.
  rewrite rd_be_app by done. cbn [mbind option_bind]. rewrite rd_bytes_app by (by rewrite len_session_auth).
  cbn [mbind option_bind]. unfold session_auth. by rewrite rd_be_app.
Qed.

(** A blob of a response is read back as it is. *)
Definition sized (b : list byte) : Prop := exists bs, b = tpm2b bs /\ len bs < U16.

Lemma rd_raw_2b_app b l : sized b -> rd_raw_2b (b ++ l) = Some (b, l).
Proof.
  intros (bs&->&Hb). unfold rd_raw_2b. rewrite rd_size_app by done. cbn [mbind option_bind].
  apply rd_bytes_app. by rewrite len_tpm2b.
Qed.

Lemma decode_command tag code body :
  0 <= tag < U16 -> 10 + len body < U32 -> 0 <= code < U32 ->
  decode (command tag code body) = default OtherRequest (decode_body code body).
Proof.
  intros Ht Hl Hc. pose proof (len_nonneg body). unfold decode, command.
  rewrite rd_be_app by done. cbn [mbind option_bind].
  rewrite rd_be_app by (change (256 ^ Z.of_nat 4) with U32; lia). cbn [mbind option_bind].
  by rewrite rd_be_app.
Qed.

Lemma len_auth_area h : len (auth_area (session_auth h)) = 13.
Proof. unfold auth_area. len_tac. Qed.
#[export] Hint Rewrite len_auth_area len_template : len.

Lemma val_inj {A} (a b : A) : Val a = Val b -> b = a.
Proof. by intros [= ->]. Qed.

Ltac in_range := first [done | unfold U16, U32, SHA256_DIGEST_SIZE in *; len_tac].
(** Read a marshalled body, a field at a time. *)
Ltac decode_tac :=
  rewrite decode_command by in_range; cbv [decode_body TPM2_CC_START_AUTH_SESSION TPM2_CC_POLICY_PCR TPM2_CC_POLICY_GET_DIGEST TPM2_CC_PCR_EXTEND
    TPM2_CC_UNSEAL TPM2_CC_CREATE TPM2_CC_LOAD TPM2_CC_EVICT_CONTROL TPM2_CC_FLUSH_CONTEXT TPM2_CC_DA_LOCK_RESET
    Z.eqb Pos.eqb];
  repeat first
    [ rewrite rd_be_app by in_range; cbn [mbind option_bind]
    | rewrite rd_2b_app by in_range; cbn [mbind option_bind]
    | rewrite rd_auth_app by in_range; cbn [mbind option_bind]
    | rewrite rd_raw_2b_app by done; cbn [mbind option_bind] ].

Lemma decode_start_auth_session ty cmd :
  0 <= ty < 256 -> start_auth_session_cmd ty = Val cmd -> decode cmd = StartAuthSession ty.
Proof.
  intros Ht. rewrite start_auth_session_cmd_eq. intros ->%val_inj.
  change [z2b ty] with (to_be 1 ty). decode_tac. done.
Qed.

Lemma decode_policy_pcr session cmd :
  0 <= session < U32 -> policy_pcr_cmd session = Val cmd -> decode cmd = PolicyPCR session.
Proof.
  intros Hs. rewrite policy_pcr_cmd_eq. intros ->%val_inj. decode_tac. by rewrite !bool_decide_eq_true_2.
Qed.

Lemma decode_policy_get_digest session cmd :
  0 <= session < U32 -> handle_cmd TPM2_CC_POLICY_GET_DIGEST session = Val cmd ->
  decode cmd = PolicyGetDigest session.
Proof.
  intros Hs. rewrite handle_cmd_eq. intros ->%val_inj. rewrite <- (app_nil_r (to_be 4 session)). decode_tac. done.
Qed.

Lemma decode_flush_context handle cmd :
  0 <= handle < U32 -> handle_cmd TPM2_CC_FLUSH_CONTEXT handle = Val cmd -> decode cmd = FlushContext handle.
Proof.
  intros Hs. rewrite handle_cmd_eq. intros ->%val_inj. rewrite <- (app_nil_r (to_be 4 handle)). decode_tac. done.
Qed.

Lemma decode_pcr_extend digest cmd :
  len digest = SHA256_DIGEST_SIZE -> pcr_extend_cmd 7 digest = Val cmd -> decode cmd = PCRExtend digest.
Proof.
  intros Hd. rewrite pcr_extend_cmd_eq by done. intros ->%val_inj. decode_tac. by rewrite Hd.
Qed.

Lemma decode_unseal handle session cmd :
  0 <= handle < U32 -> 0 <= session < U32 -> unseal_cmd handle session = Val cmd ->
  decode cmd = Unseal handle session.
Proof.
  intros Hh Hs. rewrite unseal_cmd_eq. intros ->%val_inj. rewrite <- (app_nil_r (auth_area _)). decode_tac. done.
Qed.

Lemma decode_evict_control object handle cmd :
  0 <= object < U32 -> 0 <= handle < U32 -> evict_control_cmd object handle = Val cmd ->
  decode cmd = EvictControl object handle.
Proof.
  intros Ho Hh. rewrite evict_control_cmd_eq. intros ->%val_inj. rewrite <- (app_nil_r (to_be 4 handle)).
  decode_tac. done.
Qed.

Lemma decode_da_lock_reset cmd : da_lock_reset_cmd = Val cmd -> decode cmd = DALockReset.
Proof. rewrite da_lock_reset_cmd_eq. intros ->%val_inj. decode_tac. done. Qed.

Lemma decode_load parent priv pub cmd :
  0 <= parent < U32 -> sized priv -> sized pub -> load_cmd parent priv pub = Val cmd ->
  decode cmd = Load priv pub.
Proof.
  intros Hp Hv Hb. destruct Hv as (v&->&Hv), Hb as (b&->&Hb).
  rewrite load_cmd_eq by in_range. intros ->%val_inj. rewrite <- (app_nil_r (tpm2b b)).
  assert (sized (tpm2b v)) by by exists v. assert (sized (tpm2b b)) by by exists b. decode_tac. by rewrite app_nil_r.
Qed.

Lemma decode_create parent data policy cmd :
  0 <= parent < U32 -> 4 + len data < U16 -> 14 + len policy < U16 ->
  create_cmd parent data policy = Val cmd -> decode cmd = Create (Object policy SEALED_OBJ_ATTRS data).
Proof.
  intros Hp Hd Hl. pose proof (len_nonneg data). pose proof (len_nonneg policy).
  rewrite create_cmd_eq by done. intros ->%val_inj. unfold create_body. decode_tac.
  unfold rd_object. rewrite <- (app_nil_r (tpm2b data)). unfold sealed_object_template.
  repeat first [rewrite rd_2b_app by in_range; cbn [mbind option_bind]
               |rewrite rd_be_app by in_range; cbn [mbind option_bind]].
  done.
Qed.

(** ** Rules of conversations *)

Section conversations.
Context `{X : Externals}.
Variable tpm_hash : list byte -> list byte.
Abbreviation tpm_step := (tpm_step tpm_hash).
Abbreviation talks := (talks tpm_hash).
Abbreviation lost := (lost tpm_hash).

Lemma bus_run_app b t1 t2 b2 :
  bus_run tpm_hash b (t1 ++ t2) b2 -> exists b1, bus_run tpm_hash b t1 b1 /\ bus_run tpm_hash b1 t2 b2.
Proof.
  revert b. induction t1 as [|v t1 IH]; intros b H; [exists b; split; [constructor|done]|].
  inversion H as [|? ? b1 ? ? Hv Ht]; subst. apply IH in Ht as (b3&H3&H4). exists b3. split; [|done].
  by econstructor.
Qed.

Lemma tpm_after_step s q rsp s' : tpm_after tpm_hash s q rsp = Some s' -> tpm_step s q rsp s'.
Proof.
  unfold tpm_after, TpmModel.tpm_step. destruct (succeeded rsp); [|by intros [= ->]]. by destruct q.
Qed.

Lemma bus_next_step b v b' : bus_next tpm_hash b v = Some b' -> bus_step tpm_hash b v b'.
Proof.
  destruct v as [A e x]. destruct e; cbn; try (by intros [= ->]).
  - destruct (sent b) as [cmd|]; [|by intros [= ->]]. destruct x as [rsp|e]; [|by intros [= <-]; split; [|left]].
    intros H. apply bind_Some in H as (s&H&[= <-]). split; [done|]. by apply tpm_after_step.
  - destruct x; intros [= <-]; [done|]. split; [done|by left].
Qed.

Lemma bus_after_run b t b' : bus_after tpm_hash b t = Some b' -> bus_run tpm_hash b t b'.
Proof.
  revert b. induction t as [|v t IH]; intros b H; cbn in H; [injection H as ->; constructor|].
  apply bind_Some in H as (b1&H1&H). econstructor; [by apply bus_next_step|by apply IH].
Qed.

Lemma talks_bind {A B} (p : sys A) (f : A -> sys B) b o b2 :
  talks b (p ≫= f) o b2 ->
  (exists a b1, talks b p (Done a) b1 /\ talks b1 (f a) o b2) \/
  (exists s, talks b p (Stopped s) b2 /\ o = Stopped s).
Proof.
  intros (t&H&Hr). apply exec_bind in H as [(t1&t2&a&->&H1&H2)|(s&H&->)].
  - apply bus_run_app in Hr as (b1&Hr1&Hr2). left. exists a, b1. split; eexists; eauto.
  - right. exists s. split; [by eexists|done].
Qed.

Lemma talks_bind_done {A B} (p : sys A) (f : A -> sys B) b x b2 :
  talks b (p ≫= f) (Done x) b2 -> exists a b1, talks b p (Done a) b1 /\ talks b1 (f a) (Done x) b2.
Proof. intros H. apply talks_bind in H as [H|(s&_&[=])]; done. Qed.

Lemma talks_try {A B Er} (p : sys (result A Er)) (f : A -> sys (result B Er)) b o b2 :
  talks b (try_bind p f) o b2 ->
  (exists a b1, talks b p (Done (Ok a)) b1 /\ talks b1 (f a) o b2) \/
  (exists e, talks b p (Done (Err e)) b2 /\ o = Done (Err e)) \/
  (exists s, talks b p (Stopped s) b2 /\ o = Stopped s).
Proof.
  intros (t&H&Hr). apply exec_try in H as [(t1&t2&a&->&H1&H2)|[(e&H&->)|(s&H&->)]].
  - apply bus_run_app in Hr as (b1&Hr1&Hr2). left. exists a, b1. split; eexists; eauto.
  - right. left. exists e. split; [by eexists|done].
  - right. right. exists s. split; [by eexists|done].
Qed.

Lemma talks_try_ok {A B Er} (p : sys (result A Er)) (f : A -> sys (result B Er)) b x b2 :
  talks b (try_bind p f) (Done (Ok x)) b2 ->
  exists a b1, talks b p (Done (Ok a)) b1 /\ talks b1 (f a) (Done (Ok x)) b2.
Proof. intros H. apply talks_try in H as [H|[(e&_&[=])|(s&_&[=])]]; done. Qed.

Lemma talks_ret {A} (a : A) b o b' : talks b (mret a) o b' -> o = Done a /\ b' = b.
Proof. intros (t&[-> ->]&Hr). by inversion Hr. Qed.

Lemma talks_lift {A} (c : comp A) a b b' : talks b (lift c) (Done a) b' -> c = Val a /\ b' = b.
Proof. intros (t&H&Hr). destruct c; destruct H as [-> [=]]; subst. by inversion Hr. Qed.

Lemma talks_trigger {A} (e : sysE A) b o b' :
  talks b (trigger e) o b' -> exists x, o = Done x /\ bus_step tpm_hash b (Ev e x) b'.
Proof.
  intros (t&(x&t'&->&[-> ->])&Hr). exists x. split; [done|].
  inversion Hr as [|? ? b1 ? ? Hv Ht]; subst. by inversion Ht; subst.
Qed.

Lemma talks_with_err {A Er Er'} (g : Er -> Er') (p : sys (result A Er)) b o b' :
  talks b (with_err g p) o b' ->
  exists o0, talks b p o0 b' /\ match o0 with Done r => o = Done (map_err g r) | Stopped s => o = Stopped s end.
Proof.
  intros H. apply talks_bind in H as [(r&b1&H1&H2)|(s&H&->)]; [|by exists (Stopped s)].
  apply talks_ret in H2 as [-> ->]. exists (Done r). by split.
Qed.

(** Programs that say nothing to the TPM. *)
Definition silent (A : Type) (e : sysE A) : Prop :=
  match e with FileWriteAll _ _ | FileRead _ _ => False | _ => True end.

Lemma talks_silent {A} (p : sys A) b o b' : quiet silent p -> talks b p o b' -> b' = b.
Proof.
  intros Hq (t&H&Hr). apply (quiet_exec _ _ _ _ Hq) in H. clear Hq p o.
  induction Hr as [|b [E e x] b1 t b2 Hv Hr IH]; [done|]. apply Forall_cons in H as [He H].
  rewrite (IH H). clear -Hv He. by destruct e.
Qed.


Lemma talks_boxed {A} (p : sys (io A)) b o b' :
  talks b (boxed p) o b' ->
  exists o0, talks b p o0 b' /\ match o0 with Done r => o = Done (map_err io_display r) | Stopped s => o = Stopped s end.
Proof.
  intros H. apply talks_bind in H as [(r&b1&H1&H2)|(s&H&->)]; [|by exists (Stopped s)].
  apply talks_ret in H2 as [-> ->]. exists (Done r). by split.
Qed.

(** ** The transport *)

Lemma talks_write dev cmd b o b' :
  talks b (boxed (trigger (FileWriteAll dev cmd))) o b' ->
  (o = Done (Ok tt) /\ b' = Bus (chip b) (Some cmd)) \/ (exists e, o = Done (Err e) /\ lost (chip b) cmd (chip b')).
Proof.
  intros H. apply talks_boxed in H as (o0&H&Ho). apply talks_trigger in H as (r&->&Hv).
  destruct r as [[]|e]; cbn in Hv; [by left|]. right. destruct Hv as [_ Hl]. by exists (io_display e).
Qed.

Lemma talks_read_some dev b o b' :
  talks b (read_some dev RSP_BUF_SIZE) o b' ->
  exists r, o = Done r /\ match sent b with
    | None => b' = b
    | Some cmd => match r with
        | Ok rsp => tpm_step (chip b) (decode cmd) rsp (chip b')
        | Err _ => lost (chip b) cmd (chip b')
        end
    end.
Proof.
  intros H. apply talks_try in H as [(r&b1&H1&H2)|[(e&H1&->)|(s&H1&->)]].
  - apply talks_trigger in H1 as (x&[= <-]&Hv). apply talks_ret in H2 as [-> ->]. eexists. split; [done|].
    cbn in Hv. destruct (sent b); [by destruct Hv|done].
  - apply talks_trigger in H1 as (x&[= <-]&Hv). eexists. split; [done|].
    cbn in Hv. destruct (sent b); [by destruct Hv|done].
  - by apply talks_trigger in H1 as (x&[=]&_).
Qed.

Lemma talks_read dev cmd b o b' :
  sent b = Some cmd -> talks b (boxed (read_some dev RSP_BUF_SIZE)) o b' ->
  (exists rsp, o = Done (Ok rsp) /\ tpm_step (chip b) (decode cmd) rsp (chip b')) \/
  (exists e, o = Done (Err e) /\ lost (chip b) cmd (chip b')).
Proof.
  intros Hs H. apply talks_boxed in H as (o0&H&Ho). apply talks_read_some in H as (r&->&Hr). rewrite Hs in Hr.
  destruct r as [rsp|e]; [left|right]; by eexists.
Qed.

(** Resetting the lockout changes nothing. *)
Lemma step_reset s rsp s' : tpm_step s DALockReset rsp s' -> s' = s.
Proof. unfold TpmModel.tpm_step. destruct (succeeded rsp); [by intros [= <-]|done]. Qed.

Lemma lost_reset s cmd s' : da_lock_reset_cmd = Val cmd -> lost s cmd s' -> s' = s.
Proof. intros Hc [->|(rsp&H)]; [done|]. rewrite (decode_da_lock_reset _ Hc) in H. by apply step_reset in H. Qed.

Lemma talks_reset dev b o b' : talks b (da_lock_reset_raw dev) o b' -> chip b' = chip b.
Proof.
  destruct da_lock_reset_cmd as [cmd| |] eqn:Hc; [|by rewrite da_lock_reset_cmd_eq in Hc..].
  unfold da_lock_reset_raw. rewrite Hc. intros H.
  apply talks_bind in H as [(c&b0&H0&H)|(s&(t&H0&_)&_)]; [|by destruct H0].
  apply talks_lift in H0 as [[= <-] ->].
  apply talks_bind in H as [(u&b1&H1&H)|(s&H&_)]; [|by apply talks_trigger in H as (x&[=]&_)].
  apply talks_trigger in H1 as (r&_&Hv).
  assert (chip b1 = chip b /\ (sent b1 = Some cmd \/ sent b1 = None)) as [<- Hs].
  { destruct r; cbn in Hv; [subst b1; auto|]. destruct Hv as [Hs Hl]. split; [by eapply lost_reset|auto]. }
  apply talks_bind in H as [(u'&b2&H2&H)|(s&H&_)]; [|by apply talks_read_some in H as (r2&[=]&_)].
  apply talks_ret in H as [_ ->]. apply talks_read_some in H2 as (r2&_&Hr).
  destruct Hs as [Hs|Hs]; rewrite Hs in Hr; [|by subst].
  destruct r2; [|by eapply lost_reset]. rewrite (decode_da_lock_reset _ Hc) in Hr. by apply step_reset in Hr.
Qed.

(** An answer that is not a success leaves the TPM as it is; a transaction is
    one step of it, whatever was retried. *)
Lemma step_failure s q rsp s' : succeeded rsp = false -> tpm_step s q rsp s' -> s' = s.
Proof. unfold TpmModel.tpm_step. by intros ->. Qed.

Lemma short_failure rsp : len rsp < 10 -> succeeded rsp = false.
Proof.
  intros H. unfold succeeded, get_u32, read_be. rewrite slice_panics by lia. by apply bool_decide_eq_false_2.
Qed.

Lemma retryable_failure rsp rc : get_u32 rsp 6 = Val rc -> retryable rc = true -> succeeded rsp = false.
Proof.
  unfold succeeded. intros -> H. apply bool_decide_eq_false_2. intros [= ->]. done.
Qed.

Lemma talks_transact_go n dev cmd b o b' :
  talks b (tpm_transact_go n dev cmd) o b' ->
  match o with
  | Done (Ok rsp) => tpm_step (chip b) (decode cmd) rsp (chip b')
  | Done (Err _) => lost (chip b) cmd (chip b')
  | Stopped _ => True
  end.
Proof.
  revert b. induction n as [|n IH]; intros b; cbn [tpm_transact_go]; intros H.
  all: apply talks_try in H as [(u&b1&H1&H)|[(e&H1&->)|(s&H1&->)]]; [|by apply talks_write in H1 as [[[=] _]|(e'&_&Hl)]|done].
  all: apply talks_write in H1 as [[_ ->]|(e'&[=]&_)].
  all: apply talks_try in H as [(rsp&b2&H2&H)|[(e&H2&->)|(s&H2&->)]];
    [|by apply (talks_read _ cmd) in H2 as [(r&[=]&_)|(e'&_&Hl)]|done].
  all: apply (talks_read _ cmd) in H2 as [(r&[= <-]&Hst)|(e'&[=]&_)]; [|done].
  all: cbv zeta in H; cbn [chip] in Hst; destruct (Z.ltb_spec (len rsp) 10) as [Hlen|Hlen];
    [apply talks_ret in H as [-> ->]; left; by eapply step_failure, Hst; apply short_failure|].
  all: apply talks_bind in H as [(rc&b3&H3&H)|(s&H&->)]; [|done]; apply talks_lift in H3 as [Hrc ->].
  all: destruct (retryable rc) eqn:Hretry; [|by apply talks_ret in H as [-> ->]].
  { by apply talks_ret in H as [-> ->]. }
  apply step_failure in Hst; [|by eapply retryable_failure].
  apply talks_bind in H as [(u4&b4&H4&H)|(s&H&->)]; [|done].
  assert (chip b4 = chip b2) as E4 by (destruct (rc =? TPM_RC_LOCKOUT); [by eapply talks_reset|by apply talks_ret in H4 as [_ ->]]).
  apply talks_bind in H as [(u5&b5&H5&H)|(s&H&->)]; [|done].
  assert (b5 = b4) as -> by (by eapply talks_silent, H5).
  apply IH in H. by rewrite E4, Hst in H.
Qed.

(** ** The operations *)

Lemma talks_checked dev nm c cmd b o b' :
  c = Val cmd -> talks b (transact_checked dev nm c) o b' ->
  match o with
  | Done (Ok rsp) => succeeded rsp = true /\ tpm_step (chip b) (decode cmd) rsp (chip b')
  | Done (Err _) => lost (chip b) cmd (chip b')
  | Stopped _ => True
  end.
Proof.
  intros -> H. apply talks_bind in H as [(c&b0&H0&H)|(s&_&->)]; [|done]. apply talks_lift in H0 as [[= <-] ->].
  apply talks_try in H as [(rsp&b1&H1&H)|[(e&H1&->)|(s&_&->)]]; [|by apply talks_transact_go in H1|done].
  apply talks_transact_go in H1.
  apply talks_try in H as [(u&b2&H2&H)|[(e&H2&->)|(s&_&->)]]; [..|done].
  - apply talks_lift in H2 as [Hc ->]. apply talks_ret in H as [-> ->]. split; [|done].
    unfold check_response in Hc. destruct (get_u32 rsp 6) as [rc| |] eqn:E; [|done..].
    unfold succeeded. rewrite E. apply bool_decide_eq_true_2. f_equal.
    cbn in Hc. destruct (Z.eqb_spec rc 0); [done|discriminate Hc].
  - apply talks_lift in H2 as [_ ->]. right. by exists rsp.
Qed.

Lemma talks_parse {A} (parse : list byte -> comp A) dev nm c cmd q b a b' :
  c = Val cmd -> decode cmd = q -> q <> OtherRequest ->
  talks b (parse_response parse (transact_checked dev nm c)) (Done (Ok a)) b' ->
  exists rsp, parse rsp = Val a /\ tpm_next tpm_hash (chip b) q rsp = Some (chip b').
Proof.
  intros Hc <- Hq H. apply talks_try_ok in H as (rsp&b1&H1&H). apply (talks_checked _ _ _ _ _ _ _ Hc) in H1 as [Hs Hst].
  apply talks_bind_done in H as (x&b2&H2&H). apply talks_lift in H2 as [Hp ->]. apply talks_ret in H as [[= ->] ->].
  exists rsp. split; [done|]. unfold TpmModel.tpm_step in Hst. rewrite Hs in Hst. by destruct (decode cmd).
Qed.

Lemma talks_ignore dev nm c cmd q b b' :
  c = Val cmd -> decode cmd = q -> q <> OtherRequest ->
  talks b (ignore_response (transact_checked dev nm c)) (Done (Ok tt)) b' ->
  exists rsp, tpm_next tpm_hash (chip b) q rsp = Some (chip b').
Proof.
  intros Hc <- Hq H. apply talks_try_ok in H as (rsp&b1&H1&H). apply (talks_checked _ _ _ _ _ _ _ Hc) in H1 as [Hs Hst].
  apply talks_ret in H as [_ ->]. exists rsp. unfold TpmModel.tpm_step in Hst. rewrite Hs in Hst. by destruct (decode cmd).
Qed.

Lemma talks_ignore_any dev nm c cmd b r b' :
  c = Val cmd -> talks b (ignore_response (transact_checked dev nm c)) (Done r) b' ->
  lost (chip b) cmd (chip b').
Proof.
  intros Hc H. apply talks_try in H as [(rsp&b1&H1&H)|[(e&H1&_)|(s&_&[=])]];
    apply (talks_checked _ _ _ _ _ _ _ Hc) in H1; [|done].
  apply talks_ret in H as [_ ->]. right. exists rsp. by destruct H1.
Qed.

Lemma get_u32_range l off v : get_u32 l off = Val v -> 0 <= v < U32.
Proof.
  unfold get_u32, read_be. intros H. apply comp_bind_inv in H as (bs&Hs&[= <-]).
  pose proof (be_of_range bs) as Hb. apply slice_inv in Hs as (?&?&->).
  assert (len (sub l off (off + Z.of_nat 4)) = 4) as Hl by (rewrite len_sub; lia).
  unfold len in Hl. by rewrite Hl in Hb.
Qed.

Lemma talks_start dev ty b h b' :
  0 <= ty < 256 -> talks b (start_auth_session dev ty) (Done (Ok h)) b' ->
  0 <= h < U32 /\
  chip b' = set_sessions (chip b) (<[h := Session (ty =? TPM_SE_TRIAL) (zeros 32) None]> (sessions (chip b))).
Proof.
  intros Ht H. pose proof (start_auth_session_cmd_eq ty) as Hc.
  eapply talks_parse in H as (rsp&Hp&Hn); [|exact Hc|by eapply decode_start_auth_session|done].
  split; [by eapply get_u32_range|]. cbn in Hn. rewrite Hp in Hn. by injection Hn as <-.
Qed.

Lemma talks_policy_pcr dev h se b b' :
  0 <= h < U32 -> sessions (chip b) !! h = Some se -> talks b (policy_pcr dev h) (Done (Ok tt)) b' ->
  chip b' = set_sessions (chip b) (<[h := Session (ses_trial se)
    (policy_next tpm_hash (ses_digest se) (pcr7 (chip b))) (Some (updates (chip b)))]> (sessions (chip b))).
Proof.
  intros Hh Hse H. eapply talks_ignore in H as (rsp&Hn); [|apply policy_pcr_cmd_eq|
    eapply decode_policy_pcr, policy_pcr_cmd_eq; done|done].
  cbn in Hn. rewrite Hse in Hn. by injection Hn as <-.
Qed.

Lemma talks_get_digest dev h se b d b' :
  0 <= h < U32 -> sessions (chip b) !! h = Some se -> talks b (policy_get_digest dev h) (Done (Ok d)) b' ->
  d = ses_digest se /\ chip b' = chip b.
Proof.
  intros Hh Hse H. eapply talks_parse in H as (rsp&Hp&Hn); [|apply handle_cmd_eq|
    eapply decode_policy_get_digest, handle_cmd_eq; done|done].
  cbn in Hn. rewrite Hse in Hn. cbn in Hn. rewrite Hp in Hn. case_bool_decide as E; [|done].
  injection Hn as ->. by injection E.
Qed.

Lemma talks_unseal dev h a b data b' :
  0 <= h < U32 -> 0 <= a < U32 -> talks b (unseal dev h a) (Done (Ok data)) b' ->
  exists o, object_at (chip b) h = Some o /\ authorised (chip b) a o = true /\ data = obj_data o /\
    chip b' = set_sessions (chip b) (delete a (sessions (chip b))).
Proof.
  intros Hh Ha H. eapply talks_parse in H as (rsp&Hp&Hn); [|apply unseal_cmd_eq|
    eapply decode_unseal, unseal_cmd_eq; done|done].
  cbn in Hn. destruct (object_at (chip b) h) as [o|]; [|done]. exists o. cbn in Hn. rewrite Hp in Hn.
  destruct (authorised _ _ _); [|done]. cbn in Hn. case_bool_decide as E; [|done].
  injection Hn as <-. by injection E as ->.
Qed.

Lemma talks_extend dev digest b b' :
  len digest = SHA256_DIGEST_SIZE ->
  talks b (ignore_response (transact_checked dev "PCR_Extend" (pcr_extend_cmd 7 digest))) (Done (Ok tt)) b' ->
  pcr7 (chip b') = extend tpm_hash (pcr7 (chip b)) digest /\ persistent (chip b') = persistent (chip b).
Proof.
  intros Hd H. eapply talks_ignore in H as (rsp&Hn); [|by apply pcr_extend_cmd_eq|
    by eapply decode_pcr_extend, pcr_extend_cmd_eq|done].
  cbn in Hn. by injection Hn as <-.
Qed.

Lemma talks_flush dev h b b' :
  0 <= h < U32 -> talks b (flush_context dev h) (Done (Ok tt)) b' ->
  chip b' = set_loaded (set_sessions (chip b) (delete h (sessions (chip b)))) (delete h (loaded (chip b))).
Proof.
  intros Hh H. eapply talks_ignore in H as (rsp&Hn); [|apply handle_cmd_eq|
    by eapply decode_flush_context, handle_cmd_eq|done].
  cbn in Hn. by injection Hn as <-.
Qed.

(** A blob of a response starts with its size. *)
Lemma to_be_be_of bs : to_be (length bs) (be_of bs) = bs.
Proof. unfold to_be, be_of. rewrite <- (length_rev bs), to_le_le_of. apply rev_involutive. Qed.

Lemma sub_split {A} (l : list A) a b c : 0 <= a <= b -> b <= c -> sub l a c = sub l a b ++ sub l b c.
Proof.
  intros Hab Hbc. unfold sub. rewrite <- (take_drop (Z.to_nat (b - a)) (take _ (drop (Z.to_nat a) l))) at 1.
  rewrite take_take, skipn_firstn_comm, drop_drop.
  f_equal; [f_equal; lia|]. f_equal; [lia|]. f_equal. lia.
Qed.

Lemma raw_blob_sized rsp off blob off' : raw_tpm2b_at rsp off = Val (blob, off') -> sized blob.
Proof.
  intros H. apply comp_bind_inv in H as (sz&Hz&H). apply comp_bind_inv in H as (b&Hb&[= <- _]).
  unfold get_u16, read_be in Hz. apply comp_bind_inv in Hz as (bs&Hs&[= <-]).
  apply slice_inv in Hs as (Ho&Hl&->). apply slice_inv in Hb as (_&Hl'&->).
  set (n := be_of _) in *. pose proof (be_of_range (sub rsp off (off + Z.of_nat 2))) as Hn. fold n in Hn.
  assert (len (sub rsp off (off + Z.of_nat 2)) = 2) as Hh by (rewrite len_sub; lia).
  assert (length (sub rsp off (off + Z.of_nat 2)) = 2%nat) as Hh' by (unfold len in Hh; lia). rewrite Hh' in Hn.
  change (256 ^ Z.of_nat 2) with U16 in Hn.
  assert (len (sub rsp (off + 2) (off + 2 + n)) = n) as Hd by (rewrite len_sub; lia).
  exists (sub rsp (off + 2) (off + 2 + n)). split; [|lia].
  rewrite (sub_split rsp off (off + 2)) by lia. unfold tpm2b. rewrite Hd. f_equal.
  rewrite <- (to_be_be_of (sub rsp off (off + 2))). change (off + 2) with (off + Z.of_nat 2) at 1 2.
  by rewrite Hh'.
Qed.

Lemma created_blobs_sized rsp priv pub : created_blobs rsp = Val (priv, pub) -> sized priv /\ sized pub.
Proof.
  intros H. apply comp_bind_inv in H as ([p o]&H1&H). apply comp_bind_inv in H as ([q o']&H2&[= <- <-]).
  split; by eapply raw_blob_sized.
Qed.

Lemma talks_create dev parent data policy b priv pub b' :
  0 <= parent < U32 -> len policy <= 4084 ->
  talks b (create dev parent data policy) (Done (Ok (priv, pub))) b' ->
  sized priv /\ sized pub /\
  chip b' = Tpm (pcr7 (chip b)) (updates (chip b)) (sessions (chip b))
    (((priv, pub), Object policy SEALED_OBJ_ATTRS data) :: blobs (chip b)) (loaded (chip b)) (persistent (chip b)).
Proof.
  intros Hp Hl H. destruct (Z.lt_ge_cases (4 + len data) U16) as [Hd|Hd].
  - assert (create_cmd parent data policy = Val (command TPM_ST_SESSIONS TPM2_CC_CREATE (create_body parent data policy)))
      as Hc by (apply create_cmd_eq; unfold U16 in *; lia).
    eapply talks_parse in H as (rsp&Hb&Hn); [|exact Hc|
      eapply decode_create, Hc; unfold U16 in *; lia|done].
    pose proof (created_blobs_sized _ _ _ Hb) as [H1 H2].
    split; [done|]. split; [done|]. cbn in Hn. rewrite Hb in Hn. by injection Hn as <-.
  - exfalso. apply talks_try_ok in H as (rsp&b1&H&_). unfold transact_checked in H.
    rewrite create_cmd_panics in H by lia. apply talks_bind_done in H as (c&b0&H&_).
    by apply talks_lift in H as [[=] _].
Qed.

Lemma talks_load dev parent priv pub o b h b' :
  0 <= parent < U32 -> sized priv -> sized pub -> blob_object (blobs (chip b)) (priv, pub) = Some o ->
  talks b (load dev parent priv pub) (Done (Ok h)) b' ->
  0 <= h < U32 /\ chip b' = set_loaded (chip b) (<[h := o]> (loaded (chip b))).
Proof.
  intros Hp Hv Hb Ho H.
  assert (load_cmd parent priv pub = Val (command TPM_ST_SESSIONS TPM2_CC_LOAD
    (to_be 4 parent ++ auth_area (session_auth TPM_RS_PW) ++ priv ++ pub))) as Hc.
  { destruct Hv as (v&->&?), Hb as (u&->&?). apply load_cmd_eq. in_range. }
  eapply talks_parse in H as (rsp&Hr&Hn); [|exact Hc|by eapply decode_load, Hc|done].
  split; [by eapply get_u32_range|]. cbn in Hn. rewrite Hr, Ho in Hn. by injection Hn as <-.
Qed.

Lemma talks_evict dev obj h o b b' :
  0 <= obj < U32 -> 0 <= h < U32 -> loaded (chip b) !! obj = Some o ->
  talks b (evict_control dev obj h) (Done (Ok tt)) b' ->
  chip b' = set_persistent (chip b) (<[h := o]> (persistent (chip b))).
Proof.
  intros Ho Hh Hl H. eapply talks_ignore in H as (rsp&Hn); [|apply evict_control_cmd_eq|
    eapply decode_evict_control, evict_control_cmd_eq; done|done].
  cbn in Hn. rewrite Hl in Hn. by injection Hn as <-.
Qed.

(** Making room for the object changes the persistent objects only. *)
Definition all_but_persistent (s s' : tpm) : Prop := s' = set_persistent s (persistent s').

Lemma talks_try_evict dev h b o b' :
  0 <= h < U32 -> talks b (try_evict_persistent dev h) o b' -> (exists r, o = Done r) ->
  all_but_persistent (chip b) (chip b').
Proof.
  intros Hh H [[] ->]. apply talks_bind_done in H as (r&b1&H1&H).
  apply (talks_ignore_any _ _ _ _ _ _ _ (evict_control_cmd_eq h h)) in H1.
  assert (all_but_persistent (chip b) (chip b1)) as Hb.
  { destruct H1 as [->|(rsp&Hst)]; [by destruct (chip b)|].
    rewrite (decode_evict_control h h _ Hh Hh (evict_control_cmd_eq h h)) in Hst. unfold TpmModel.tpm_step in Hst.
    destruct (succeeded rsp); [|rewrite Hst; by destruct (chip b)].
    cbn in Hst. destruct (loaded (chip b) !! h); [by injection Hst as <-|].
    destruct (h =? h); [by injection Hst as <-|done]. }
  destruct r as [u|e]; [by apply talks_ret in H as [_ ->]|].
  apply talks_bind_done in H as (r2&b2&H2&H). apply talks_ret in H as [_ ->].
  apply (talks_ignore_any _ _ _ _ _ _ _ da_lock_reset_cmd_eq) in H2.
  apply (lost_reset _ _ _ da_lock_reset_cmd_eq) in H2. by rewrite H2.
Qed.

End conversations.
