(* ===== verification/Fscrypt.v ===== *)
(** The fscrypt ioctls ([src/fscrypt.rs]): the key structure and the policy
    structure written byte by byte, and their kernel layout. *)

From S2P Require Import Prelude Prog Str Sys World Verity.

Definition FS_IOC_ADD_ENCRYPTION_KEY : Z := 0xC0506617.
Definition FS_IOC_SET_ENCRYPTION_POLICY : Z := 0x800C6613.
Definition FS_IOC_GET_ENCRYPTION_POLICY : Z := 0xC00C6615.
Definition FSCRYPT_KEY_SPEC_TYPE_IDENTIFIER : Z := 2.
Definition FSCRYPT_KEY_IDENTIFIER_SIZE : Z := 16.
Definition FSCRYPT_MODE_AES_256_XTS : Z := 1.
Definition FSCRYPT_MODE_AES_256_CTS : Z := 4.
Definition FSCRYPT_POLICY_V2 : Z := 2.
Definition FSCRYPT_POLICY_FLAGS_PAD_16 : Z := 2.

(** The buffers are filled in place. *)
Definition add_key_buf (raw_key : list byte) : comp (list byte) :=
  let base_size := 80 in
  let total := base_size + len raw_key in
  let buf := zeros total in
  let! buf := copy_into buf 0 4 (to_le 4 FSCRYPT_KEY_SPEC_TYPE_IDENTIFIER) in
  let! buf := copy_into buf 40 44 (to_le 4 (u32_wrap (len raw_key))) in
  copy_into buf base_size total raw_key.

Definition policy_buf (key_identifier : list byte) : comp (list byte) :=
  let policy := zeros 24 in
  let! policy := set_index policy 0 (z2b FSCRYPT_POLICY_V2) in
  let! policy := set_index policy 1 (z2b FSCRYPT_MODE_AES_256_XTS) in
  let! policy := set_index policy 2 (z2b FSCRYPT_MODE_AES_256_CTS) in
  let! policy := set_index policy 3 (z2b FSCRYPT_POLICY_FLAGS_PAD_16) in
  let id_len := Z.min (len key_identifier) FSCRYPT_KEY_IDENTIFIER_SIZE in
  let! id := slice key_identifier 0 id_len in
  copy_into policy 8 (8 + id_len) id.

Section Fscrypt.
Context `{X : Externals}.

Definition open_dir (path : string) : sys (result Z string) :=
  with_err (fun e => "open " +:+ path +:+ ": " +:+ io_display e) (trigger (FileOpen path false)).

(** The kernel writes the identifier into the buffer it was given. *)
Definition add_key (path : string) (raw_key : list byte) : sys (result (list byte) string) :=
  let! buf := lift (add_key_buf raw_key) in
  let? file := open_dir path in
  let? out := with_err (fun e => "FS_IOC_ADD_ENCRYPTION_KEY on " +:+ path +:+ ": " +:+ io_display e)
                (trigger (IoctlBuf file FS_IOC_ADD_ENCRYPTION_KEY buf)) in
  let! id := lift (slice (array (len buf) out) 8 (8 + FSCRYPT_KEY_IDENTIFIER_SIZE)) in
  mret (Ok id).

Definition set_policy_error (dir : string) (err : io_error) : string :=
  if bool_decide (raw_os_error err = Some 22) then
    "FS_IOC_SET_ENCRYPTION_POLICY on " +:+ dir +:+
    ": Invalid argument (check if kernel > 5.4 and filesystem supports fscrypt v2)"
  else "FS_IOC_SET_ENCRYPTION_POLICY on " +:+ dir +:+ ": " +:+ io_display err.

Definition set_policy (dir : string) (key_identifier : list byte) : sys (result unit string) :=
  let! policy := lift (policy_buf key_identifier) in
  let? file := open_dir dir in
  let! existing := trigger (IoctlBuf file FS_IOC_GET_ENCRYPTION_POLICY (zeros 24)) in
  match existing with
  | Ok _ => mret (Err ("directory " +:+ dir +:+ " is already encrypted"))
  | Err _ =>
      let? _ := with_err (set_policy_error dir)
                  (trigger (IoctlBuf file FS_IOC_SET_ENCRYPTION_POLICY policy)) in
      mret (Ok tt)
  end.

End Fscrypt.

Definition hex : list byte -> string := digest_to_hex.

(** ** The kernel structures *)

(** [struct fscrypt_add_key_arg]: key specifier, raw size, key id, reserved
    words, and the key. *)
Definition fscrypt_add_key_arg (raw_key : list byte) : list byte :=
  to_le 4 FSCRYPT_KEY_SPEC_TYPE_IDENTIFIER ++ zeros 36 ++ to_le 4 (len raw_key) ++ zeros 36 ++ raw_key.

(** [struct fscrypt_policy_v2]: version, modes, flags, reserved, identifier. *)
Definition fscrypt_policy_v2 (identifier : list byte) : list byte :=
  [z2b FSCRYPT_POLICY_V2; z2b FSCRYPT_MODE_AES_256_XTS; z2b FSCRYPT_MODE_AES_256_CTS;
   z2b FSCRYPT_POLICY_FLAGS_PAD_16] ++ zeros 4 ++ array 16 identifier.

(** ** Lemmas *)

Lemma add_key_buf_eq raw_key :
  len raw_key < U32 -> add_key_buf raw_key = Val (fscrypt_add_key_arg raw_key).
Proof.
  intros Hl. pose proof (len_nonneg raw_key). unfold add_key_buf. cbv zeta.
  unfold u32_wrap. rewrite Z.mod_small by lia.
  set (n := len raw_key). set (ty := to_le 4 FSCRYPT_KEY_SPEC_TYPE_IDENTIFIER).
  assert (zeros (80 + n) = zeros 4 ++ zeros 36 ++ zeros 4 ++ zeros 36 ++ zeros n) as Hz.
  { rewrite <- !zeros_app by lia. f_equal. lia. }
  rewrite (copy_at _ [] (zeros 4) (zeros 36 ++ zeros 4 ++ zeros 36 ++ zeros n) ty 0 4) by (rewrite ?Hz; done).
  mcbn. cbn [app].
  rewrite (copy_at _ (ty ++ zeros 36) (zeros 4) (zeros 36 ++ zeros n) (to_le 4 n) 40 44)
    by (done || app_eq). mcbn.
  rewrite (copy_at _ (ty ++ zeros 36 ++ to_le 4 n ++ zeros 36) (zeros n) [] raw_key 80 (80 + n));
    [|rewrite app_nil_r; app_eq|done|by rewrite len_zeros by lia|done].
  unfold fscrypt_add_key_arg. rewrite app_nil_r, <- !(assoc_L app). done.
Qed.

Lemma policy_buf_eq id : policy_buf id = Val (fscrypt_policy_v2 id).
Proof.
  pose proof (len_nonneg id). unfold policy_buf.
  do 4 (match goal with |- context [set_index ?l ?i ?v] =>
    let r := eval vm_compute in (set_index l i v) in
    replace (set_index l i v) with r by reflexivity end; mcbn).
  rewrite slice_val by (unfold FSCRYPT_KEY_IDENTIFIER_SIZE; lia). mcbn.
  unfold sub. rewrite Z.sub_0_r, drop_0. unfold FSCRYPT_KEY_IDENTIFIER_SIZE.
  set (k := Z.min _ _). rewrite copy_into_val; [|lia|unfold len; cbn; lia|].
  2:{ unfold len, k. rewrite length_take. unfold len. lia. }
  f_equal. unfold fscrypt_policy_v2, array. cbn [app].
  change (take (Z.to_nat 8) _) with [x02; x01; x04; x02; x00; x00; x00; x00]. cbn [app zeros].
  do 4 (f_equal; [reflexivity..|]). change (zeros 4) with [x00; x00; x00; x00]. cbn [app]. do 4 f_equal.
  change (Z.to_nat 16) with 16%nat. rewrite take_app.
  assert (k = Z.min (len id) 16) as Hk by done.
  replace (take (Z.to_nat k) id) with (take 16 id).
  2:{ destruct (Z.le_gt_cases (len id) 16).
      - rewrite !take_ge by (unfold len in *; lia). done.
      - f_equal. lia. }
  f_equal. replace (16 - length id)%nat with (16 - Z.to_nat k)%nat by (unfold len in *; lia).
  assert (Z.to_nat k <= 16)%nat as Hk16 by lia. revert Hk16. replace (Z.to_nat (8 + k)) with (8 + Z.to_nat k)%nat by lia.
  generalize (Z.to_nat k). intros m Hm.
  do 17 (destruct m as [|m]; [reflexivity|]). lia.
Qed.

(** The calls that [add_key] may make. *)
Definition add_key_call (path : string) (raw_key : list byte) : forall A, sysE A -> Prop :=
  fun _ e => match e with
             | FileOpen p write => p = path /\ write = false
             | IoctlBuf _ req buf => req = FS_IOC_ADD_ENCRYPTION_KEY /\ buf = fscrypt_add_key_arg raw_key
             | _ => False
             end.

(** [set_policy] sets the policy structure, right after the kernel failed to
    report an existing policy for the same file, and makes no other change. *)
Definition set_policy_call (dir : string) (id : list byte) : protocol sysE :=
  Protocol (E:=sysE) (fun (h : hist sysE) _ e =>
    match e with
    | FileOpen p write => p = dir /\ write = false
    | IoctlBuf fd req buf =>
        req = FS_IOC_GET_ENCRYPTION_POLICY \/
        req = FS_IOC_SET_ENCRYPTION_POLICY /\ buf = fscrypt_policy_v2 id /\
        exists (h0 : hist sysE) (err : io_error),
          h = h0 ++ [Ev (IoctlBuf fd FS_IOC_GET_ENCRYPTION_POLICY (zeros 24)) (Err err)]
    | _ => False
    end) (fun _ _ _ _ => True).

Section properties.
Context `{X : Externals}.

(** Adding a key passes the kernel exactly [struct fscrypt_add_key_arg] for
    the key, in an ioctl on the path opened read-only, and makes no other call;
    when it succeeds it returns the 16 bytes of the identifier field. *)
Theorem add_key_layout (path : string) (raw_key : list byte) (t : hist sysE)
    (o : outcome (result (list byte) string)) :
  len raw_key < U32 -> exec (add_key path raw_key) t o ->
  Forall (event_ok (add_key_call path raw_key)) t /\
  exists r, o = Done r /\ match r with Ok id => len id = FSCRYPT_KEY_IDENTIFIER_SIZE | Err _ => True end.
Proof.
  intros Hl H. split.
  - eapply quiet_exec, H. unfold add_key. rewrite add_key_buf_eq by done.
    cbn. split; [done|]. intros [fd|e]; [|done].
    cbn -[slice]. split; [done|]. intros [out|e]; [|done].
    cbn -[slice]. apply quiet_bind; [apply quiet_lift|done].
  - refine (wp_exec _ _ _ _ (_ : wp free_protocol _ _ (fun _ o => exists r, o = Done r /\ _)) H).
    unfold add_key. rewrite add_key_buf_eq by done. cbn [lift].
    apply wp_try, wp_with_err, wp_trigger; [done|]. intros [fd|e] _; [|by eexists].
    apply wp_try, wp_with_err, wp_trigger; [done|]. intros [out|e] _; [|by eexists].
    cbn [map_err]. apply wp_bind, wp_lift.
    set (buf := fscrypt_add_key_arg raw_key).
    assert (80 <= len buf) as Hb.
    { unfold buf, fscrypt_add_key_arg. pose proof (len_nonneg raw_key).
      autorewrite with len. rewrite !len_zeros by lia. lia. }
    assert (len (array (len buf) out) = len buf) as Ha.
    { unfold array, len. rewrite length_take, length_app. unfold zeros. rewrite length_replicate.
      unfold len. lia. }
    unfold FSCRYPT_KEY_IDENTIFIER_SIZE. rewrite slice_val by lia.
    eexists. split; [reflexivity|]. cbv beta iota. rewrite len_sub by lia. done.
Qed.

(** A directory that is already encrypted never has its policy set: in
    every execution of [set_policy], the only change is one ioctl with the
    [struct fscrypt_policy_v2] of the identifier (truncated or zero-padded to 16
    bytes), issued directly after the kernel failed to report an existing policy
    on the same open directory. *)
Theorem set_policy_guarded (dir : string) (id : list byte) (t : hist sysE)
    (o : outcome (result unit string)) :
  exec (set_policy dir id) t o ->
  guarded (set_policy_call dir id) [] t /\ exists r, o = Done r.
Proof.
  intros H. pose proof (wp_sound_all (set_policy_call dir id) (set_policy dir id) t o
    (fun _ o => exists r, o = Done r)) as Hw.
  apply Hw; [|done|done]. unfold set_policy. rewrite policy_buf_eq. cbn [lift].
  apply wp_try, wp_with_err, wp_trigger; [done|]. intros [fd|e] _; [|by eexists].
  cbn [map_err]. apply wp_bind, wp_trigger; [by left|]. intros [out|e] _; [by eexists|].
  apply wp_try, wp_with_err, wp_trigger; [right; eauto 10|].
  intros [out|e'] _; by eexists.
Qed.

End properties.

Lemma add_key_layout_witness :
  outcome_of (set_dirs world0 ["/x"]) (add_key "/x" (zeros 64)) = Done (Ok (zeros 16)) /\
  Forall (event_ok (add_key_call "/x" (zeros 64)))
    (trace_of (set_dirs world0 ["/x"]) (add_key "/x" (zeros 64))).
Proof.
  assert (outcome_of (set_dirs world0 ["/x"]) (add_key "/x" (zeros 64)) = Done (Ok (zeros 16))) as H
    by (vm_compute; reflexivity).
  split; [exact H|]. eapply (add_key_layout "/x" (zeros 64)); [vm_compute; reflexivity|].
  apply toy_exec, H.
Defined.

Lemma set_policy_guarded_witness :
  guarded (set_policy_call "/x" (zeros 16)) []
    (trace_of (set_dirs world0 ["/x"]) (set_policy "/x" (zeros 16))).
Proof. eapply (set_policy_guarded "/x" (zeros 16)), toy_exec. reflexivity. Defined.
