(* ===== verification/Cmd.v ===== *)
(** Secrets from the terminal, and encryption and decryption with age
    ([src/cmd.rs]). *)

From S2P Require Import Prelude Prog Str Sys World.

(** The [age] crate: recipients, identities, encryption to standard output and
    the three stages of decryption. *)
Class Age : Type := {
  age_recipient : Type;
  age_identity : Type;
  scrypt_recipient : string -> age_recipient;
  x25519_recipient : string -> option age_recipient;
  scrypt_identity : string -> age_identity;
  x25519_identity : string -> option age_identity;
  age_encrypt_stdout : list age_recipient -> list byte -> sys (result unit string);
  age_stream : Type;
  age_decryptor : list byte -> result age_stream string;
  age_decrypt : age_stream -> list age_identity -> result (list byte * result unit string) string;
}.

(** [curve25519-dalek] and [chacha20poly1305]: points and scalars as their
    32-byte encodings. *)
Class Recovery : Type := {
  edwards_decompress : list byte -> option (list byte);
  scalar_from_bytes : list byte -> list byte;
  x25519_basepoint_mul : list byte -> list byte;
  montgomery_mul : list byte -> list byte -> list byte;
  chacha_encrypt : list byte -> list byte -> list byte -> result (list byte) string;
}.

Definition ECHO : Z := 8.

(** [raw[i % raw.len()]] for [i] up to 64; the empty key is refused before. *)
Fixpoint repeat_key (n : nat) (i : Z) (raw : list byte) : comp (list byte) :=
  match n with
  | O => mret []
  | S n =>
      let! b := index raw (i mod len raw) in
      let! l := repeat_key n (i + 1) raw in
      mret (b :: l)
  end.

Section Cmd.
Context `{X : Externals} `{AG : Age} `{RC : Recovery}.

(** [io::stdin().read_line(&mut input)] *)
Definition stdin_read_line : sys (io string) :=
  let? data := trigger StdinReadLine in
  match from_utf8 data with
  | Some s => mret (Ok s)
  | None => mret (Err (IoError InvalidData "stream did not contain valid UTF-8"))
  end.

Definition read_secret : sys (result string string) :=
  let! t := trigger TcGetAttr in
  match t with
  | None =>
      let? input := boxed stdin_read_line in
      mret (Ok (trim input))
  | Some original_lflag =>
      let? _ := boxed (trigger (TcSetAttr (Z.ldiff original_lflag ECHO))) in
      let! res := stdin_read_line in
      do! trigger (TcSetAttr original_lflag) in
      mret (match res with Ok input => Ok (trim input) | Err e => Err (io_display e) end)
  end.

Definition get_fscrypt_key : sys (result (list byte) string) :=
  let! v := env_var "FSCRYPT_KEY" in
  let? raw := (match v with Some key_str => mret (Ok key_str) | None => read_secret end) in
  if is_empty raw then mret (Err "fscrypt key is empty")
  else
    let! key := lift (repeat_key 64 0 (as_bytes raw)) in
    mret (Ok key).

(** ** Encryption *)

Definition cmd_encrypt : sys (result unit string) :=
  let! argv := trigger ProcArgs in
  let args := drop 2 argv in
  let? plaintext := boxed (trigger StdinReadToEnd) in
  let! pass := env_var "KEY" in
  let recipients :=
    (match pass with
     | Some pass => if is_empty pass then [] else [scrypt_recipient pass]
     | None => []
     end) ++ omap x25519_recipient args in
  match recipients with
  | [] => mret (Err "need KEY env var or at least one x25519 recipient argument")
  | _ => age_encrypt_stdout recipients plaintext
  end.

(** ** Decryption *)

Record DecryptArgs : Type := {
  identities_files : list string;
  output_file : option string;
  input_file : option string;
}.

Fixpoint parse_decrypt_args (a : DecryptArgs) (args : list string) : result DecryptArgs string :=
  match args with
  | [] => Ok a
  | arg :: rest =>
      if (arg =? "-i")%string then
        match rest with
        | v :: rest => parse_decrypt_args {| identities_files := identities_files a ++ [v];
                         output_file := output_file a; input_file := input_file a |} rest
        | [] => Err "missing argument for -i"
        end
      else if (arg =? "-o")%string then
        match rest with
        | v :: rest => parse_decrypt_args {| identities_files := identities_files a;
                         output_file := Some v; input_file := input_file a |} rest
        | [] => Err "missing argument for -o"
        end
      else if starts_with "-" arg then Err ("unknown option: " +:+ arg)
      else match input_file a with
           | Some _ => Err "multiple input files specified"
           | None => parse_decrypt_args {| identities_files := identities_files a;
                       output_file := output_file a; input_file := Some arg |} rest
           end
  end.

(** The first line of a file that is an identity. *)
Fixpoint identity_of_lines (ls : list string) : option age_identity :=
  match ls with
  | [] => None
  | line :: ls =>
      let line := trim line in
      if is_empty line || starts_with "#" line then identity_of_lines ls
      else match x25519_identity line with
           | Some i => Some i
           | None => identity_of_lines ls
           end
  end.

Fixpoint identities_of_args (files : list string) : sys (result (list age_identity) string) :=
  match files with
  | [] => mret (Ok [])
  | id_path :: files =>
      let! r := read_to_string id_path in
      let? id := mret (match r with
                       | Ok content =>
                           ok_or (identity_of_lines (lines content))
                             ("no valid identities found in file '" +:+ id_path +:+ "'")
                       | Err _ =>
                           ok_or (x25519_identity id_path)
                             ("failed to read identity file or parse identity from '" +:+ id_path +:+ "'")
                       end) in
      let? ids := identities_of_args files in
      mret (Ok (id :: ids))
  end.

(** A source of identities that is only asked when there is none yet. *)
Definition or_identities (ids : list age_identity)
    (source : sys (result (list age_identity) string)) : sys (result (list age_identity) string) :=
  match ids with [] => source | _ => mret (Ok ids) end.

Definition key_identities : sys (result (list age_identity) string) :=
  let! pass := env_var "KEY" in
  mret (Ok (match pass with
            | Some pass => if is_empty pass then [] else [scrypt_identity pass]
            | None => []
            end)).

Definition id_identities : sys (result (list age_identity) string) :=
  let! key_string := env_var "ID" in
  mret (Ok (match key_string with
            | Some s => if is_empty s then [] else option_list (x25519_identity s)
            | None => []
            end)).

Definition key_file_identities : sys (result (list age_identity) string) :=
  let! key_file := env_var "KEY_FILE" in
  match key_file with
  | Some key_file =>
      let? content := boxed (read_to_string key_file) in
      mret (Ok (option_list (identity_of_lines (lines content))))
  | None => mret (Ok [])
  end.

(** The bytes before and after the first newline. *)
Fixpoint split_newline (l : list byte) : option (list byte * list byte) :=
  match l with
  | [] => None
  | b :: l => if b2z b =? 10 then Some ([], l)
              else match split_newline l with
                   | Some (first, rest) => Some (b :: first, rest)
                   | None => None
                   end
  end.

(** The identity may be the first line of the input. *)
Definition inline_identity (ids : list age_identity) (cipher : list byte)
    : list age_identity * list byte :=
  match ids, split_newline cipher with
  | [], Some (first_line, rest) =>
      match x25519_identity (trim (match from_utf8 first_line with Some s => s | None => "" end)) with
      | Some i => ([i], rest)
      | None => ([], cipher)
      end
  | _, _ => (ids, cipher)
  end.

Definition prompt_identities (input : option string) : sys (result (list age_identity) string) :=
  match input with
  | Some _ =>
      let? pass := read_secret in
      if is_empty pass then mret (Err "passphrase is empty")
      else mret (Ok [scrypt_identity pass])
  | None => mret (Ok [])
  end.

Definition decrypt_with (ids : list age_identity) (cipher : list byte) : result (list byte) string :=
  match age_decryptor cipher with
  | Err e => Err ("decryptor: " +:+ e)
  | Ok d =>
      match age_decrypt d ids with
      | Err e => Err ("decrypt: " +:+ e)
      | Ok (data, Ok _) => Ok data
      | Ok (_, Err e) => Err ("read: " +:+ e)
      end
  end.

Definition read_input (input : option string) : sys (result (list byte) string) :=
  match input with
  | Some path =>
      with_err (fun e => "failed to read input file '" +:+ path +:+ "': " +:+ io_display e)
        (trigger (FsRead path))
  | None => boxed (trigger StdinReadToEnd)
  end.

Definition write_output (output : option string) (data : list byte) : sys (result unit string) :=
  match output with
  | Some path =>
      with_err (fun e => "failed to write output file '" +:+ path +:+ "': " +:+ io_display e)
        (trigger (FsWrite path data))
  | None =>
      with_err (fun e => "write: " +:+ io_display e +:+ ", bytes=" +:+ fmt_dec (len data))
        (trigger (StdoutWriteAll data))
  end.

Definition no_decrypt_args : DecryptArgs :=
  {| identities_files := []; output_file := None; input_file := None |}.

(** [cmd_decrypt] after [env::args().skip(2)]. *)
Definition decrypt_args (args : list string) : sys (result unit string) :=
  let? a := mret (parse_decrypt_args no_decrypt_args args) in
  let? ids := identities_of_args (identities_files a) in
  let? ids := or_identities ids key_identities in
  let? ids := or_identities ids id_identities in
  let? ids := or_identities ids key_file_identities in
  let? cipher := read_input (input_file a) in
  let ' (ids, cipher) := inline_identity ids cipher in
  let? ids := or_identities ids (prompt_identities (input_file a)) in
  match ids with
  | [] => mret (Err "need KEY (for scrypt passphrase), ID (for private key), or KEY_FILE to decrypt")
  | _ =>
      let? data := mret (decrypt_with ids cipher) in
      write_output (output_file a) data
  end.

Definition cmd_decrypt : sys (result unit string) :=
  let! argv := trigger ProcArgs in
  decrypt_args (drop 2 argv).

(** ** Recovery *)

(** [rng.fill_bytes] of [OsRng] panics when the system generator fails. *)
Definition fill_bytes (n : Z) : sys (list byte) :=
  let! r := trigger (OsRandom n) in
  match r with Some bs => mret bs | None => Halt Panic end.

Definition encrypt_for_recovery (secret : list byte) (pub_key_b64 : string)
    : sys (result (list byte) string) :=
  match b64_decode pub_key_b64 with
  | Err e => mret (Err ("bad base64 pub_key: " +:+ e))
  | Ok pub_key_bytes =>
      if negb (len pub_key_bytes =? 32) then mret (Err "ed25519 public key must be 32 bytes")
      else
        match edwards_decompress pub_key_bytes with
        | None => mret (Err "Invalid Ed25519 public key point")
        | Some target_montgomery =>
            let! ephemeral_secret_bytes := fill_bytes 32 in
            let ephemeral_secret := scalar_from_bytes ephemeral_secret_bytes in
            let ephemeral_pub_bytes := x25519_basepoint_mul ephemeral_secret in
            let shared_secret := montgomery_mul ephemeral_secret target_montgomery in
            let symmetric_key := sha256 shared_secret in
            let! nonce_bytes := fill_bytes 12 in
            match chacha_encrypt symmetric_key nonce_bytes secret with
            | Err e => mret (Err ("Encryption failed: " +:+ e))
            | Ok ciphertext => mret (Ok (ephemeral_pub_bytes ++ nonce_bytes ++ ciphertext))
            end
        end
  end.

Definition cmd_recovery_encrypt (secret pub_key_b64 : string) : sys (result unit string) :=
  let? encrypted := encrypt_for_recovery (as_bytes secret) pub_key_b64 in
  boxed (trigger (StdoutWriteAll encrypted)).

End Cmd.

(** ** Lemmas *)

Lemma repeat_key_val n i raw :
  0 <= i -> raw <> [] -> exists key, repeat_key n i raw = Val key /\ length key = n /\
    forall j, (j < n)%nat -> key !! j = raw !! Z.to_nat ((i + Z.of_nat j) mod len raw).
Proof.
  intros Hi Hr. assert (0 < len raw) as Hl by (destruct raw; [done|unfold len; cbn; lia]).
  revert i Hi. induction n as [|n IH]; intros i Hi; cbn [repeat_key].
  { exists []. split; [done|]. split; [done|]. intros j Hj. lia. }
  destruct (index_some raw (i mod len raw)) as (b&Hb&->); [apply Z.mod_pos_bound; lia|]. mcbn.
  destruct (IH (i + 1)) as (key&->&Hk&Hj); [lia|]. mcbn.
  exists (b :: key). split; [done|]. split; [cbn; lia|].
  intros [|j] Hlt; cbn.
  - rewrite Z.add_0_r. done.
  - rewrite Hj by lia. do 2 f_equal. f_equal. lia.
Qed.

(** Calls that consult the environment or the terminal. *)
Definition no_env (A : Type) (e : sysE A) : Prop :=
  match e with EnvVar _ | TcGetAttr | TcSetAttr _ | StdinReadLine => False | _ => True end.

Section facts.
Context `{X : Externals} `{AG : Age}.

Lemma quiet_read_to_string (ok : forall A, sysE A -> Prop) path :
  ok _ (FsRead path) -> quiet ok (read_to_string path).
Proof. intros H. cbn. split; [done|]. intros [d|e]; [|done]. cbn. case_match; done. Qed.

Lemma quiet_identities_of_args files : quiet no_env (identities_of_args files).
Proof.
  induction files as [|f files IH]; [done|]. cbn [identities_of_args].
  apply quiet_bind; [by apply quiet_read_to_string|]. intros r.
  apply quiet_try; [done|]. intros id. apply quiet_try; done.
Qed.

Lemma identities_of_args_nonempty files t ids :
  files <> [] -> exec (identities_of_args files) t (Done (Ok ids)) -> ids <> [].
Proof.
  destruct files as [|f files]; [done|]. intros _ H. cbn [identities_of_args] in H.
  apply exec_bind in H as [(t1&t2&r&->&_&H)|(s&_&[=])].
  apply exec_bind in H as [(t3&t4&r'&->&_&H)|(s&_&[=])].
  destruct r' as [id|e]; [|destruct H as [_ [=]]].
  apply exec_bind in H as [(t5&t6&r'&->&_&H)|(s&_&[=])].
  destruct r' as [ids'|e]; destruct H as [_ [= ->]]; done.
Qed.

Lemma quiet_write_output out data : quiet no_env (write_output out data).
Proof. destruct out; apply quiet_with_err; done. Qed.

Lemma quiet_read_input inp : quiet no_env (read_input inp).
Proof. destruct inp; [apply quiet_with_err|apply quiet_boxed]; done. Qed.

Lemma inline_identity_nonempty (ids : list age_identity) cipher :
  ids <> [] -> inline_identity ids cipher = (ids, cipher).
Proof. destruct ids; done. Qed.

(** With identities, the rest of [cmd_decrypt] asks for nothing more. *)
Lemma quiet_decrypt_rest (a : DecryptArgs) (ids : list age_identity) :
  ids <> [] ->
  quiet no_env (let? ids := or_identities ids key_identities in
    let? ids := or_identities ids id_identities in
    let? ids := or_identities ids key_file_identities in
    let? cipher := read_input (input_file a) in
    let ' (ids, cipher) := inline_identity ids cipher in
    let? ids := or_identities ids (prompt_identities (input_file a)) in
    match ids with
    | [] => mret (Err "need KEY (for scrypt passphrase), ID (for private key), or KEY_FILE to decrypt")
    | _ =>
        let? data := mret (decrypt_with ids cipher) in
        write_output (output_file a) data
    end).
Proof.
  destruct ids as [|i ids]; [done|]. intros _.
  cbn [or_identities try_bind mbind prog_mbind prog_bind mret prog_ret].
  apply quiet_bind; [apply quiet_read_input|]. intros [cipher|e]; [|done].
  cbn [inline_identity or_identities mbind prog_mbind prog_bind mret prog_ret].
  cbn. destruct (decrypt_with (i :: ids) cipher); [apply quiet_write_output|done].
Qed.

End facts.

(** ** Properties *)

Section properties.
Context `{X : Externals} `{AG : Age}.

(** C35: Prompting for a secret never leaves the terminal without echo: in every
    execution of [read_secret] on a terminal whose flags are [lflag], either the
    echo could not be turned off and nothing was read, or the last call restores
    [lflag], whether or not the line could be read.  It always returns. *)
Theorem read_secret_restores_echo (t : hist sysE) (o : outcome (result string string)) :
  exec read_secret t o ->
  (exists r, o = Done r) /\
  exists x rest, t = Ev TcGetAttr x :: rest /\
    match x with
    | None => exists a, rest = [Ev StdinReadLine a]
    | Some lflag => exists r, match r with
        | Err _ => rest = [Ev (TcSetAttr (Z.ldiff lflag ECHO)) r]
        | Ok _ => exists a r', rest = [Ev (TcSetAttr (Z.ldiff lflag ECHO)) r; Ev StdinReadLine a;
                                       Ev (TcSetAttr lflag) r']
        end
    end.
Proof.
  intros (x&rest&->&H). destruct x as [l|].
  - cbn in H. destruct H as ([[]|e]&t1&->&H).
    + cbn in H. destruct H as (a&t2&->&H).
      destruct a as [data|e]; [destruct (from_utf8 data)|]; cbn in H;
        destruct H as (r'&t3&->&[-> ->]); (split; [by eexists|]);
        eexists (Some l), _; (split; [reflexivity|]); exists (Ok tt); eauto.
    + cbn in H. destruct H as [-> ->]. split; [by eexists|].
      eexists (Some l), _; (split; [reflexivity|]); exists (Err e). done.
  - cbn in H. destruct H as (a&t2&->&H).
    split; [|eexists None, _; (split; [reflexivity|]); exists a].
    + destruct a as [data|e]; [destruct (from_utf8 data)|]; cbn in H; destruct H as [-> ->]; by eexists.
    + destruct a as [data|e]; [destruct (from_utf8 data)|]; cbn in H; destruct H as [-> ->]; done.
Qed.

(** The padded fscrypt key: for every non-empty key material the loop ends
    without panic in a 64-byte key whose byte [j] is byte [j mod n] of the
    material, so material of 64 bytes is used as it is. *)
Theorem repeat_key_periodic (raw : list byte) :
  raw <> [] ->
  exists key, repeat_key 64 0 raw = Val key /\ length key = 64%nat /\
    (forall j, (j < 64)%nat -> key !! j = raw !! (j mod length raw)%nat) /\
    (length raw = 64%nat -> key = raw).
Proof.
  intros Hr. destruct (repeat_key_val 64 0 raw) as (key&Hk&Hl&Hj); [lia|done|].
  assert (0 < length raw)%nat as Hpos by (destruct raw; [done|cbn; lia]).
  assert (forall j, (j < 64)%nat -> key !! j = raw !! (j mod length raw)%nat) as Hper.
  { intros j Hlt. rewrite Hj by done. f_equal. unfold len.
    rewrite Z.add_0_l, <- Nat2Z.inj_mod, Nat2Z.id. done. }
  exists key. split_and!; [done..|]. intros H64. apply list_eq. intros j.
  destruct (Nat.lt_ge_cases j 64) as [Hlt|Hge].
  - rewrite Hper by done. rewrite H64, Nat.mod_small by done. done.
  - rewrite !lookup_ge_None_2 by lia. done.
Qed.

(** An identity given with [-i] is the only one used: when the arguments
    name at least one identity file, [cmd_decrypt] consults neither [KEY], [ID]
    nor [KEY_FILE], and never prompts, whatever the kernel answers. *)
Theorem decrypt_identity_precedence (args : list string) (a : DecryptArgs) (t : hist sysE)
    (o : outcome (result unit string)) :
  parse_decrypt_args no_decrypt_args args = Ok a -> identities_files a <> [] ->
  exec (decrypt_args args) t o -> Forall (event_ok no_env) t.
Proof.
  intros Ha Hf H. unfold decrypt_args in H. rewrite Ha in H.
  unfold try_bind at 1 in H. cbn [mbind prog_mbind prog_bind mret prog_ret] in H.
  apply exec_bind in H as [(t3&t4&r&->&H1&H)|(s&H&_)];
    [|eapply quiet_exec, H; apply quiet_identities_of_args].
  apply Forall_app. split; [eapply quiet_exec, H1; apply quiet_identities_of_args|].
  destruct r as [ids|e]; [|destruct H as [-> _]; constructor].
  eapply quiet_exec, H. apply quiet_decrypt_rest. eapply identities_of_args_nonempty; eauto.
Qed.

End properties.

(** ** Witnesses *)

(** Keys are strings, and a stream is a key and a text separated by a newline. *)
#[export] Instance toy_age : Age := {|
  age_recipient := string; age_identity := string;
  scrypt_recipient s := s; x25519_recipient := Some;
  scrypt_identity s := s; x25519_identity s := if starts_with "AGE" s then Some s else None;
  age_encrypt_stdout rs d := boxed (trigger (StdoutWriteAll (concat (map as_bytes rs) ++ d)));
  age_stream := list byte;
  age_decryptor := Ok;
  age_decrypt d ids := Ok (d, Ok tt);
|}.

Lemma read_secret_restores_echo_witness :
  outcome_of (set_stdin world0 [as_bytes "pw"]) read_secret = Done (Ok "pw") /\
  exists r, outcome_of (set_stdin world0 [as_bytes "pw"]) read_secret = Done r.
Proof.
  assert (outcome_of (set_stdin world0 [as_bytes "pw"]) read_secret = Done (Ok "pw")) as H
    by (vm_compute; reflexivity).
  split; [exact H|]. eapply read_secret_restores_echo, toy_exec. reflexivity.
Defined.

Lemma repeat_key_periodic_witness :
  exists key, repeat_key 64 0 [x61; x62; x63] = Val key /\ length key = 64%nat.
Proof.
  destruct (repeat_key_periodic [x61; x62; x63]) as (key&Hk&Hl&_); [discriminate|].
  exists key. split; [exact Hk|exact Hl].
Defined.

Definition toy_decrypt_world : world :=
  set_files world0 {["/c" := [x01; x02]]}.

Lemma decrypt_identity_precedence_witness :
  outcome_of toy_decrypt_world (decrypt_args ["/c"; "-i"; "AGE-1"; "-o"; "/p"]) = Done (Ok tt) /\
  Forall (event_ok no_env)
    (trace_of toy_decrypt_world (decrypt_args ["/c"; "-i"; "AGE-1"; "-o"; "/p"])).
Proof.
  assert (outcome_of toy_decrypt_world (decrypt_args ["/c"; "-i"; "AGE-1"; "-o"; "/p"]) = Done (Ok tt))
    as H by (vm_compute; reflexivity).
  split; [exact H|].
  eapply (decrypt_identity_precedence ["/c"; "-i"; "AGE-1"; "-o"; "/p"]
    {| identities_files := ["AGE-1"]; output_file := Some "/p"; input_file := Some "/c" |});
    [reflexivity|discriminate|apply toy_exec, H].
Defined.
