(* ===== verification/RecoverySpec.v ===== *)
(** Recovery encryption ([src/cmd.rs], [encrypt_for_recovery]): the owner of the
    recovery key gets the secret back from the payload. *)

From S2P Require Import Prelude Prog Str Sys World Cmd.

(** The laws of the crates: the two sides of the key exchange agree, points are
    32 bytes, and the cipher can be undone with its key and nonce. *)
Class RecoveryLaws (R : Recovery) : Type := {
  chacha_decrypt : list byte -> list byte -> list byte -> option (list byte);
  chacha_decrypt_encrypt : forall key nonce secret ciphertext,
    chacha_encrypt key nonce secret = Ok ciphertext -> chacha_decrypt key nonce ciphertext = Some secret;
  exchange_agrees : forall a b,
    montgomery_mul a (x25519_basepoint_mul b) = montgomery_mul b (x25519_basepoint_mul a);
  basepoint_length : forall a, len (x25519_basepoint_mul a) = 32;
}.

Section recovery.
Context `{X : Externals} `{RC : Recovery} `{RL : !RecoveryLaws RC}.

(** The recovery of the secret, by the layout of the payload: ephemeral public
    key, nonce, ciphertext. *)
Definition recover (owner_scalar payload : list byte) : option (list byte) :=
  chacha_decrypt (sha256 (montgomery_mul owner_scalar (take 32 payload))) (take 12 (drop 32 payload))
    (drop 44 payload).

(** The system's generator fills the buffer. *)
Definition random_filled (t : hist sysE) : Prop :=
  forall n bs, Ev (OsRandom n) (Some bs) ∈ t -> len bs = n.

Lemma encrypt_exec secret pub t payload :
  exec (encrypt_for_recovery secret pub) t (Done (Ok payload)) ->
  exists key point seed nonce ciphertext,
    b64_decode pub = Ok key /\ len key = 32 /\ edwards_decompress key = Some point /\
    t = [Ev (OsRandom 32) (Some seed); Ev (OsRandom 12) (Some nonce)] /\
    chacha_encrypt (sha256 (montgomery_mul (scalar_from_bytes seed) point)) nonce secret = Ok ciphertext /\
    payload = x25519_basepoint_mul (scalar_from_bytes seed) ++ nonce ++ ciphertext.
Proof.
  unfold encrypt_for_recovery. destruct (b64_decode pub) as [key|e]; [|by intros [_ [=]]].
  destruct (Z.eqb_spec (len key) 32); [|by intros [_ [=]]]. cbn [negb].
  destruct (edwards_decompress key) as [point|] eqn:Ep; [|by intros [_ [=]]].
  intros ([seed|]&t1&->&H); [|by destruct H as [_ [=]]]. cbn [prog_mbind prog_bind fill_bytes] in H.
  destruct H as ([nonce|]&t2&->&H); [|by destruct H as [_ [=]]]. cbn in H. destruct (chacha_encrypt _ nonce secret) as [ct|err] eqn:Ec;
    [|by destruct H as [_ [=]]]. destruct H as [-> [= ->]].
  by exists key, point, seed, nonce, ct.
Qed.

(** C36: Round trip of the recovery payload: when the public key that is given
    decodes to the point of the owner's scalar, whatever randomness the system
    gives, the payload of [encrypt_for_recovery] is decrypted by the owner to
    the secret; and it costs exactly two draws of randomness, 32 bytes for the
    ephemeral key and 12 for the nonce. *)
Theorem recovery_roundtrip (owner_scalar secret key : list byte) (pub_key_b64 : string)
    (t : hist sysE) (payload : list byte) :
  b64_decode pub_key_b64 = Ok key -> edwards_decompress key = Some (x25519_basepoint_mul owner_scalar) ->
  random_filled t -> exec (encrypt_for_recovery secret pub_key_b64) t (Done (Ok payload)) ->
  recover owner_scalar payload = Some secret /\
  exists seed nonce, t = [Ev (OsRandom 32) (Some seed); Ev (OsRandom 12) (Some nonce)].
Proof.
  intros Hb Hk Hr H. apply encrypt_exec in H as (key'&point&seed&nonce&ct&Hb'&_&Hp&->&Hc&->).
  split; [|by exists seed, nonce]. assert (key' = key) as -> by congruence.
  rewrite Hk in Hp. injection Hp as <-. set (eph := x25519_basepoint_mul (scalar_from_bytes seed)).
  assert (length eph = 32%nat) as He by (assert (len eph = 32) by apply basepoint_length; unfold len in *; lia).
  assert (length nonce = 12%nat) as Hn.
  { assert (len nonce = 12) by (apply Hr; right; left). unfold len in *. lia. }
  unfold recover. rewrite take_app_le, take_ge, drop_app_ge, He, drop_0 by lia.
  rewrite take_app_le, take_ge by lia. rewrite (assoc_L app), drop_app_ge by (rewrite length_app; lia).
  rewrite length_app, He, Hn, drop_0. unfold eph. rewrite exchange_agrees. by apply chacha_decrypt_encrypt.
Qed.

End recovery.

(** ** Witness *)

Definition byte_sum (a b : list byte) : list byte := zip_with (fun x y => z2b (b2z x + b2z y)) a b.

#[export] Instance toy_recovery : Recovery := {|
  edwards_decompress key := Some key;
  scalar_from_bytes bs := bs;
  x25519_basepoint_mul a := take 32 (a ++ zeros 32);
  montgomery_mul a b := byte_sum (take 32 (a ++ zeros 32)) b;
  chacha_encrypt key nonce secret := Ok (secret ++ take 16 (sha256 (key ++ nonce)));
|}.

Definition toy_decrypt (key nonce c : list byte) : option (list byte) :=
  Some (take (length c - length (take 16 (sha256 (key ++ nonce)))) c).

#[export] Instance toy_recovery_laws : RecoveryLaws toy_recovery.
Proof.
  refine (Build_RecoveryLaws _ toy_decrypt _ _ _).
  - intros key nonce secret c [= <-]. unfold toy_decrypt. f_equal.
    change (toy_sha256 (key ++ nonce)) with (sha256 (key ++ nonce)). generalize (take 16 (sha256 (key ++ nonce))).
    intros tag. rewrite length_app. replace (length secret + length tag - length tag)%nat with (length secret) by lia.
    apply take_app_length.
  - intros a b. cbn. unfold byte_sum. generalize (take 32 (a ++ zeros 32)) (take 32 (b ++ zeros 32)). clear.
    intros l. induction l as [|x l IH]; intros [|y k]; [done..|]. cbn. rewrite IH. f_equal. f_equal. lia.
  - intros a. unfold len. cbn [x25519_basepoint_mul toy_recovery].
    rewrite length_take, length_app. unfold zeros. rewrite length_replicate. lia.
Defined.

Definition short_draw (v : event sysE) : bool :=
  match v with
  | @Ev _ A e x => match e in sysE A return A -> bool with
                   | OsRandom n => fun r => match r with Some bs => negb (len bs =? n) | None => false end
                   | _ => fun _ => false
                   end x
  end.
Lemma random_filled_check t : forallb (fun v => negb (short_draw v)) t = true -> random_filled t.
Proof.
  intros H n bs Hin. rewrite forallb_forall in H. apply list_elem_of_In, H in Hin. cbn in Hin.
  rewrite negb_involutive in Hin. by apply Z.eqb_eq.
Qed.

Definition recovery_key : list byte := z2b 9 :: zeros 31.
Definition recovery_run : hist sysE * outcome (result (list byte) string) * world :=
  run world_os (encrypt_for_recovery (as_bytes "disk key") (of_bytes recovery_key)) world0.

Lemma recovery_roundtrip_witness :
  exists payload, recovery_run.1.2 = Done (Ok payload) /\ len payload = 68 /\
    recover recovery_key payload = Some (as_bytes "disk key").
Proof.
  destruct recovery_run.1.2 as [[payload|e]|s] eqn:Ho; [|vm_compute in Ho; discriminate Ho..].
  exists payload. split; [done|]. split; [vm_compute in Ho; by injection Ho as <-|].
  apply (recovery_roundtrip recovery_key (as_bytes "disk key") recovery_key (of_bytes recovery_key) recovery_run.1.1).
  - vm_compute. reflexivity.
  - vm_compute. reflexivity.
  - apply random_filled_check. vm_compute. reflexivity.
  - rewrite <- Ho. exact (run_is_exec world_os (encrypt_for_recovery (as_bytes "disk key") (of_bytes recovery_key)) world0).
Defined.
