(* ===== verification/Mount.v ===== *)
(** Mounting, block devices, loop devices and [switch_root] ([src/mount.rs]). *)

From stdpp Require Import sorting.
From S2P Require Import Prelude Prog Str PathLib Sys World Verity Efi.
#[local] Open Scope Z_scope.

Definition LOOP_CTL_GET_FREE : Z := 0x4C82.
Definition LOOP_SET_FD : Z := 0x4C00.

(** [OsStr::to_str] and [OsStr::to_string_lossy] *)
Definition to_str (s : string) : option string := from_utf8 (as_bytes s).
Definition lossy (s : string) : string := from_utf8_lossy (as_bytes s).
Definition unwrap_or_default (o : option string) : string :=
  match o with Some s => s | None => "" end.
Definition file_name_str (p : string) : option string := file_name p ≫= to_str.
Definition file_name_lossy (p : string) : string := unwrap_or_default (lossy <$> file_name p).

Definition not_found (msg : string) : io_error := IoError NotFound msg.
Definition invalid_input (msg : string) : io_error := IoError InvalidInput msg.

(** ** Pure parts *)

(** [&s[..s.len() - 1]] *)
Definition drop_last (s : string) : string := of_chars (removelast (chars s)).

Definition partition_parent_disk (partition_name : string) : option string :=
  let stripped := trim_end_matches is_ascii_digit partition_name in
  let stripped :=
    if last_is (Ascii.eqb "p") stripped && last_is is_ascii_digit (drop_last stripped)
    then drop_last stripped else stripped in
  if is_empty stripped then None else Some stripped.

(** The volume name of an ext2/3/4 superblock of 136 bytes. *)
Fixpoint until_zero (l : list byte) : list byte :=
  match l with [] => [] | b :: l => if b2z b =? 0 then [] else b :: until_zero l end.

Definition ext4_label (superblock : list byte) : comp (option string) :=
  let! m0 := index superblock 56 in
  let! m1 := index superblock 57 in
  if negb (b2z m0 =? 0x53) || negb (b2z m1 =? 0xef) then mret None
  else
    let! raw_label := slice superblock 120 136 in
    let label := trim (from_utf8_lossy (until_zero raw_label)) in
    mret (if is_empty label then None else Some label).

(** The sort key of a partition: all the digits of its name, as a number. *)
Definition partition_sort_key (path : string) : Z :=
  match parse_u32 (of_chars (List.filter is_ascii_digit (chars (file_name_lossy path)))) with
  | Ok n => n
  | Err _ => 0
  end.

(** [slice::sort_by] is stable. *)
Fixpoint insert_by (key : string -> Z) (a : string) (l : list string) : list string :=
  match l with
  | [] => [a]
  | b :: l => if key b <? key a then b :: insert_by key a l else a :: b :: l
  end.
Fixpoint sort_by (key : string -> Z) (l : list string) : list string :=
  match l with [] => [] | a :: l => insert_by key a (sort_by key l) end.

(** The value of the first line [KEY=value]. *)
Fixpoint find_line (prefix : string) (ls : list string) : option string :=
  match ls with
  | [] => None
  | l :: ls => match strip_prefix prefix l with Some v => Some v | None => find_line prefix ls end
  end.

(** Is there a line [PARTNAME=label]? *)
Definition has_partname (label uevent : string) : bool :=
  existsb (fun line => match strip_prefix "PARTNAME=" line with
                       | Some val => (val =? label)%string
                       | None => false
                       end) (lines uevent).

Definition guid_plain (g : list byte) : string :=
  guid_hex g [3; 2; 1; 0; 5; 4; 7; 6; 8; 9; 10; 11; 12; 13; 14; 15]%nat.

Definition normalize_uuid (value : string) : string := to_lowercase (replace "-" "" value).

Section Mount.
Context `{X : Externals}.

(** ** Mounting *)

Definition mount_pseudo_fs (fstype target : string) : sys (io unit) :=
  let? _ := trigger (FsCreateDirAll target) in
  let? source := mret (cstring fstype) in
  let? target_c := mret (cstring target) in
  let? fstype_c := mret (cstring fstype) in
  let flags := if (fstype =? "devtmpfs")%string then Z.lor MS_NOSUID MS_NOEXEC
               else Z.lor (Z.lor MS_NOSUID MS_NODEV) MS_NOEXEC in
  trigger (LibcMount source target_c (Some fstype_c) flags None).

Definition mount_filesystem (device target fs_type : string) (readonly : bool) : sys (io unit) :=
  let? _ := trigger (FsCreateDirAll target) in
  let? source := mret (cstring device) in
  let? target_c := mret (cstring target) in
  let? fstype := mret (map_err (fun _ => invalid_input "data provided contains a nul byte")
                         (cstring fs_type)) in
  trigger (LibcMount source target_c (Some fstype) (if readonly then MS_RDONLY else 0) None).

Definition mount_filesystem_with_options (device target fs_type : string) (readonly : bool)
    (options : string) : sys (io unit) :=
  let? _ := trigger (FsCreateDirAll target) in
  let? source := mret (cstring device) in
  let? target_c := mret (cstring target) in
  let? fstype := mret (cstring fs_type) in
  let? data := mret (cstring options) in
  trigger (LibcMount source target_c (Some fstype) (if readonly then MS_RDONLY else 0) (Some data)).

Definition bind_mount (source target : string) : sys (io unit) :=
  let? _ := trigger (FsCreateDirAll target) in
  let? source_c := mret (cstring source) in
  let? target_c := mret (cstring target) in
  trigger (LibcMount source_c target_c None MS_BIND None).

Definition mount_ext4 (device target : string) : sys (io unit) :=
  mount_filesystem device target "ext4" true.

Definition mount_loop (image_path target : string) : sys (io unit) :=
  let? _ := trigger (FsCreateDirAll target) in
  let? ctrl_fd := trigger (LibcOpen "/dev/loop-control" O_RDWR) in
  let! free_idx := trigger (LibcIoctl ctrl_fd LOOP_CTL_GET_FREE 0) in
  do! trigger (LibcClose ctrl_fd) in
  let? free_idx := mret free_idx in
  let loop_dev := "/dev/loop" +:+ fmt_dec free_idx in
  let? loop_dev_c := mret (cstring loop_dev) in
  let? loop_fd := trigger (LibcOpen loop_dev_c O_RDWR) in
  let? img_c := mret (cstring image_path) in
  let! img_fd := trigger (LibcOpen img_c O_RDONLY) in
  match img_fd with
  | Err err =>
      do! trigger (LibcClose loop_fd) in
      mret (Err err)
  | Ok img_fd =>
      let! ret := trigger (LibcIoctl loop_fd LOOP_SET_FD img_fd) in
      do! trigger (LibcClose img_fd) in
      match ret with
      | Err err =>
          do! trigger (LibcClose loop_fd) in
          mret (Err err)
      | Ok _ =>
          do! trigger (LibcClose loop_fd) in
          mount_filesystem loop_dev target "erofs" true
      end
  end.

(** ** switch_root *)

Fixpoint collect_cstrings (l : list string) : io (list string) :=
  match l with
  | [] => Ok []
  | s :: l => match cstring s with
              | Err e => Err e
              | Ok c => match collect_cstrings l with Err e => Err e | Ok cs => Ok (c :: cs) end
              end
  end.

Definition env_entry (kv : string * string) : string := kv.1 +:+ "=" +:+ kv.2.

Definition current_environment : sys (io (list string)) :=
  let! vars := trigger VarsOs in
  mret (collect_cstrings (map env_entry vars)).

Definition switch_root_with_args (new_root init_path : string) (args : list string) : sys (io unit) :=
  let? new_root_c := mret (cstring new_root) in
  let? init_c := mret (cstring init_path) in
  let? arg_cstrings := mret (collect_cstrings args) in
  let? env_cstrings := current_environment in
  let? _ := trigger (LibcChdir new_root_c) in
  let? _ := trigger (LibcMount "." "/" None MS_MOVE None) in
  let? _ := trigger (LibcChroot ".") in
  let? _ := trigger (LibcChdir "/") in
  let! failed := trigger (LibcExecve init_c (init_c :: arg_cstrings) env_cstrings) in
  match failed with
  | None => Halt Replaced
  | Some err => mret (Err err)
  end.

Definition switch_root (new_root init_path : string) : sys (io unit) :=
  switch_root_with_args new_root init_path [].

(** ** Block devices *)

Definition read_ext4_label (device : string) : sys (io (option string)) :=
  let? file := trigger (FileOpen device false) in
  let? _ := trigger (FileSeek file 1024) in
  let? superblock := read_exact file 136 in
  let! label := lift (ext4_label superblock) in
  mret (Ok label).

Definition is_ext4 (device : string) : sys (io bool) :=
  let? file := trigger (FileOpen device false) in
  let? _ := trigger (FileSeek file (1024 + 56)) in
  let? magic := read_exact file 2 in
  mret (Ok (bytes_eqb magic [x53; xef])).

Definition label_matches (device label : string) : sys bool :=
  let! r := read_ext4_label device in
  mret (match r with Ok (Some fs_label) => (fs_label =? label)%string | _ => false end).

Definition uevent_matches (uevent_path label : string) : sys bool :=
  let! r := read_to_string uevent_path in
  mret (match r with Ok uevent => has_partname label uevent | Err _ => false end).

Definition device_by_filesystem_label (label : string) : sys (option string) :=
  let label_path := path_join "/dev/disk/by-label" label in
  let! exists_ := trigger (PathExists label_path) in
  if (exists_ : bool) then
    let! r := trigger (FsCanonicalize label_path) in
    mret (match r with Ok path => Some path | Err _ => Some label_path end)
  else mret None.

Fixpoint scan_sysfs_entries (label : string) (entries : list string) : sys (option string) :=
  match entries with
  | [] => mret None
  | name :: entries =>
      let dev_path := "/dev/" +:+ lossy name in
      let! by_label := label_matches dev_path label in
      if (by_label : bool) then mret (Some dev_path)
      else
        let! by_name := uevent_matches (path_join (path_join "/sys/class/block" name) "uevent") label in
        if (by_name : bool) then mret (Some dev_path) else scan_sysfs_entries label entries
  end.

Definition scan_sysfs_for_label (label : string) : sys (option string) :=
  let! exists_ := trigger (PathExists "/sys/class/block") in
  if (exists_ : bool) then
    let! r := trigger (FsReadDir "/sys/class/block") in
    match r with
    | Ok entries => scan_sysfs_entries label (ok_entries entries)
    | Err _ => mret None
    end
  else mret None.

(** [retries] attempts are left after this one. *)
Fixpoint find_label_attempts (retries : nat) (label : string) : sys (option string) :=
  let! r := device_by_filesystem_label label in
  match r with
  | Some dev => mret (Some dev)
  | None =>
      let! r := scan_sysfs_for_label label in
      match r with
      | Some dev => mret (Some dev)
      | None =>
          match retries with
          | S retries =>
              do! trigger (ThreadSleep 1000) in
              find_label_attempts retries label
          | O => mret None
          end
      end
  end.

Definition find_partition_by_label (label : string) : sys (io string) :=
  if starts_with "/dev/" label then mret (Ok label)
  else
    let! r := find_label_attempts (if starts_with "USB" label then 9 else 0)%nat label in
    mret (ok_or r (not_found ("block device with label '" +:+ label +:+ "' not found"))).

Definition read_uevent_value (path key : string) : sys (io (option string)) :=
  let? uevent := read_to_string path in
  mret (Ok (find_line (key +:+ "=") (lines uevent))).

(** Is [disk_sys]/[dev_name] a partition? *)
Definition is_partition_dir (path : string) : sys bool :=
  let! e := trigger (PathExists path) in
  if (e : bool) then trigger (PathExists (path_join path "partition")) else mret false.

Fixpoint search_disks (dev_name : string) (entries : list (io string)) : sys (io (option string)) :=
  match entries with
  | [] => mret (Ok None)
  | Err e :: _ => mret (Err e)
  | Ok name :: entries =>
      let! found := is_partition_dir (path_join (path_join "/sys/block" name) dev_name) in
      if (found : bool) then mret (Ok (Some ("/dev/" +:+ lossy name)))
      else search_disks dev_name entries
  end.

(** The disk that the sysfs link of a partition resolves into. *)
Definition canonical_disk (part_sys : string) : sys (option string) :=
  let! r := trigger (FsCanonicalize part_sys) in
  mret (match r with
        | Ok canonical => (fun n => "/dev/" +:+ n) <$> ((parent canonical ≫= file_name) ≫= to_str)
        | Err _ => None
        end).

Definition resolve_parent_disk (partition_path : string) : sys (io (option string)) :=
  match file_name_str partition_path with
  | None => mret (Err (invalid_input "cannot extract device name"))
  | Some dev_name =>
      let! exists_ := trigger (PathExists "/sys/block") in
      if negb exists_ then mret (Ok None)
      else
        let part_sys := path_join "/sys/block" dev_name in
        let! is_part := is_partition_dir part_sys in
        let! canonical := (if (is_part : bool) then canonical_disk part_sys else mret None) in
        match canonical with
        | Some disk => mret (Ok (Some disk))
        | None =>
            let? entries := trigger (FsReadDir "/sys/block") in
            let? found := search_disks dev_name entries in
            match found with
            | Some disk => mret (Ok (Some disk))
            | None =>
                match partition_parent_disk dev_name with
                | Some disk_name =>
                    let disk_dev := "/dev/" +:+ disk_name in
                    let! e := trigger (PathExists disk_dev) in
                    mret (Ok (if (e : bool) then Some disk_dev else None))
                | None => mret (Ok None)
                end
            end
        end
  end.

Fixpoint partition_entries (disk_sys : string) (entries : list string) : sys (list string) :=
  match entries with
  | [] => mret []
  | name :: entries =>
      let! is_part := trigger (PathExists (path_join (path_join disk_sys name) "partition")) in
      let! l := partition_entries disk_sys entries in
      mret (if (is_part : bool) then ("/dev/" +:+ lossy name) :: l else l)
  end.

Definition list_disk_partitions (disk_path : string) : sys (io (list string)) :=
  match file_name_str disk_path with
  | None => mret (Err (invalid_input "cannot extract disk name"))
  | Some disk_name =>
      let disk_sys := "/sys/block/" +:+ disk_name in
      let! r := trigger (FsReadDir disk_sys) in
      let! partitions := (match r with
                          | Ok entries => partition_entries disk_sys (ok_entries entries)
                          | Err _ => mret []
                          end) in
      mret (Ok (sort_by partition_sort_key partitions))
  end.

Definition by_label_link_matches (label part : string) : sys bool :=
  let label_path := path_join "/dev/disk/by-label" label in
  let! e := trigger (PathExists label_path) in
  if (e : bool) then
    let! r := trigger (FsCanonicalize label_path) in
    mret (match r with Ok canonical => path_ends_with canonical part | Err _ => false end)
  else mret false.

Fixpoint scan_partitions_by_label (disk_path label : string) (parts : list string)
    : sys (option string) :=
  match parts with
  | [] => mret None
  | part :: parts =>
      let! by_label := label_matches part label in
      if (by_label : bool) then mret (Some part)
      else
        let uevent_file := "/sys/block/" +:+ file_name_lossy disk_path +:+ "/" +:+
                           unwrap_or_default (file_name_str part) +:+ "/uevent" in
        let! by_name := uevent_matches uevent_file label in
        if (by_name : bool) then mret (Some part)
        else
          let! by_link := by_label_link_matches label part in
          if (by_link : bool) then mret (Some part)
          else scan_partitions_by_label disk_path label parts
  end.

Definition find_partition_on_disk_by_label (disk_path label : string) : sys (io (option string)) :=
  let? partitions := list_disk_partitions disk_path in
  let! r := scan_partitions_by_label disk_path label partitions in
  mret (Ok r).

(** [fs::read_to_string(p).ok()] parsed as a number. *)
Definition read_number (path : string) : sys (option Z) :=
  let! r := read_to_string path in
  mret (result_ok r ≫= fun s => result_ok (parse_u32 (trim s))).

Fixpoint scan_partitions_by_number (disk_path : string) (partition_number : Z) (parts : list string)
    : sys (option string) :=
  match parts with
  | [] => mret None
  | part :: parts =>
      let part_num_path := path_join (path_join (path_join "/sys/block"
        (unwrap_or_default (file_name_str disk_path))) (unwrap_or_default (file_name_str part)))
        "partition" in
      let! num := read_number part_num_path in
      if bool_decide (num = Some partition_number) then mret (Some part)
      else scan_partitions_by_number disk_path partition_number parts
  end.

Definition find_partition_by_number (disk_path : string) (partition_number : Z)
    : sys (io (option string)) :=
  let? partitions := list_disk_partitions disk_path in
  let! r := scan_partitions_by_number disk_path partition_number partitions in
  mret (Ok r).

(** The loop of [find_boot_disk]: a match by GUID, or the disks and partitions
    that have the right number. *)
Fixpoint boot_disk_entries (partition_guid : option string) (partition_number : option Z)
    (matches : list (string * string)) (entries : list (io string))
    : sys (io (option (string * string))) :=
  match entries with
  | [] => mret (Ok (match matches with [m] => Some m | _ => None end))
  | Err e :: _ => mret (Err e)
  | Ok name :: entries =>
      let dev_path := "/dev/" +:+ lossy name in
      let entry_path := path_join "/sys/class/block" name in
      let part_num_path := path_join entry_path "partition" in
      let! is_part := trigger (PathExists part_num_path) in
      if negb is_part then boot_disk_entries partition_guid partition_number matches entries
      else
        let! actual_number := read_number part_num_path in
        if bool_decide (is_Some partition_number) && negb (bool_decide (actual_number = partition_number))
        then boot_disk_entries partition_guid partition_number matches entries
        else
          let? disk := resolve_parent_disk dev_path in
          match disk with
          | None => boot_disk_entries partition_guid partition_number matches entries
          | Some disk_path =>
              match partition_guid with
              | Some expected_guid =>
                  let? value := read_uevent_value (path_join entry_path "uevent") "PARTUUID" in
                  if bool_decide (normalize_uuid <$> value = Some expected_guid)
                  then mret (Ok (Some (disk_path, dev_path)))
                  else boot_disk_entries partition_guid partition_number matches entries
              | None =>
                  boot_disk_entries partition_guid partition_number
                    (if bool_decide (is_Some partition_number) then matches ++ [(disk_path, dev_path)]
                     else matches) entries
              end
          end
  end.

Definition find_boot_disk (partition_guid : option (list byte)) (partition_number : option Z)
    : sys (io (option (string * string))) :=
  let! exists_ := trigger (PathExists "/sys/class/block") in
  if negb exists_ then mret (Ok None)
  else
    let? entries := trigger (FsReadDir "/sys/class/block") in
    boot_disk_entries (guid_plain <$> partition_guid) partition_number [] entries.

End Mount.

(** ** File descriptors *)

Definition opened_fd (v : event sysE) : option Z :=
  match v with
  | @Ev _ A e x => match e in sysE A return A -> option Z with
                   | LibcOpen _ _ => result_ok
                   | _ => fun _ => None
                   end x
  end.
Definition closed_fd (v : event sysE) : option Z :=
  match v with
  | @Ev _ A e x => match e with LibcClose fd => Some fd | _ => None end
  end.
Definition is_mount (v : event sysE) : bool :=
  match v with @Ev _ A e x => match e with LibcMount _ _ _ _ _ => true | _ => false end end.

(** Follow an execution of a straight-line program call by call. *)
Ltac exec_steps H :=
  repeat (cbn [exec trigger try_bind mbind prog_mbind prog_bind mret prog_ret map_err] in H;
    lazymatch type of H with
    | exists _, _ => let x := fresh "x" in let t := fresh "t" in destruct H as (x&t&->&H);
        try match type of x with unit => destruct x end
    | _ /\ _ => destruct H as [-> ->]
    | exec (prog_bind _ _) _ _ => fail
    | exec (match ?x with _ => _ end) _ _ => destruct x eqn:?
    end).

Section facts.
Context `{X : Externals}.

Lemma loop_dev_cstring n : cstring ("/dev/loop" +:+ fmt_dec n) = Ok ("/dev/loop" +:+ fmt_dec n).
Proof. apply cstring_ok. rewrite nul_position_app, nul_position_fmt_dec by done. done. Qed.

(** The calls of a complete loop mount. *)
Definition loop_mount_calls (image target : string) (ctrl free loop img : Z) (set : Z) : hist sysE :=
  [Ev (FsCreateDirAll target) (Ok tt);
   Ev (LibcOpen "/dev/loop-control" O_RDWR) (Ok ctrl);
   Ev (LibcIoctl ctrl LOOP_CTL_GET_FREE 0) (Ok free);
   Ev (LibcClose ctrl) tt;
   Ev (LibcOpen ("/dev/loop" +:+ fmt_dec free) O_RDWR) (Ok loop);
   Ev (LibcOpen image O_RDONLY) (Ok img);
   Ev (LibcIoctl loop LOOP_SET_FD img) (Ok set);
   Ev (LibcClose img) tt;
   Ev (LibcClose loop) tt;
   Ev (FsCreateDirAll target) (Ok tt);
   Ev (LibcMount ("/dev/loop" +:+ fmt_dec free) target (Some "erofs") MS_RDONLY None) (Ok tt)].

Lemma mount_filesystem_exec device target fs_type ro t o :
  exec (mount_filesystem device target fs_type ro) t o ->
  omap opened_fd t = [] /\ omap closed_fd t = [] /\
  exists r, o = Done r /\ (r = Ok tt ->
    t = [Ev (FsCreateDirAll target) (Ok tt);
         Ev (LibcMount device target (Some fs_type) (if ro then MS_RDONLY else 0) None) (Ok tt)]).
Proof.
  intros H. unfold mount_filesystem in H. exec_steps H.
  all: split_and!; [reflexivity..|]; eexists; (split; [reflexivity|]); intros Hr; try discriminate Hr.
  all: repeat match goal with
  | H : cstring _ = Ok _ |- _ => apply cstring_inv in H as ->
  | H : map_err _ (cstring ?s) = Ok _ |- _ =>
      destruct (cstring s) eqn:?; [injection H as <-|discriminate H]
  | u : () |- _ => destruct u
  end; congruence.
Qed.

Lemma mount_loop_exec image target t o :
  exec (mount_loop image target) t o ->
  match nul_position image with
  | None => omap closed_fd t ≡ₚ omap opened_fd t
  | Some _ => (exists e, o = Done (Err e)) /\
      match omap opened_fd t with
      | [ctrl; loop] => omap closed_fd t = [ctrl]
      | l => omap closed_fd t = l
      end
  end /\
  exists r, o = Done r /\
    match r with
    | Ok _ => exists ctrl free loop img set, t = loop_mount_calls image target ctrl free loop img set
    | Err _ => True
    end.
Proof.
  intros H. unfold mount_loop in H. exec_steps H.
  all: repeat match goal with
  | H : cstring ("/dev/loop" +:+ fmt_dec _) = _ |- _ => rewrite loop_dev_cstring in H; simplify_eq
  | H : cstring _ = _ |- _ => unfold cstring in H
  end.
  all: destruct (nul_position image); simplify_eq.
  all: try (cbn; split; [first [done|eauto]|by eexists]).
  all: repeat match goal with u : () |- _ => destruct u end.
  - apply mount_filesystem_exec in H as (Ho&Hc&r&->&Hr).
    assert (forall f : event sysE -> option Z, forall v l, omap f (v :: l) =
      match f v with Some z => z :: omap f l | None => omap f l end) as Hcons by done.
    split.
    + rewrite !Hcons, Ho, Hc. cbn. apply perm_skip, perm_swap.
    + exists r. split; [done|]. destruct r as [[]|]; [|done].
      rewrite (Hr eq_refl). unfold loop_mount_calls. eauto 10.
  - apply perm_skip, perm_swap.
Qed.

(** ** [switch_root] *)

(** The calls of a complete [switch_root]. *)
Definition switch_root_calls (new_root init_path : string) (args : list string)
    (vars : list (string * string)) : hist sysE :=
  [Ev VarsOs vars;
   Ev (LibcChdir new_root) (Ok tt);
   Ev (LibcMount "." "/" None MS_MOVE None) (Ok tt);
   Ev (LibcChroot ".") (Ok tt);
   Ev (LibcChdir "/") (Ok tt);
   Ev (LibcExecve init_path (init_path :: args) (map env_entry vars)) None].

Lemma collect_cstrings_inv l cs : collect_cstrings l = Ok cs -> cs = l.
Proof.
  revert cs. induction l as [|s l IH]; intros cs; cbn; [intros [= <-]; done|].
  destruct (cstring s) eqn:E; [|done]. apply cstring_inv in E as ->.
  destruct (collect_cstrings l); [|done]. intros [= <-]. f_equal. auto.
Qed.

Lemma switch_root_exec new_root init_path args t o :
  exec (switch_root_with_args new_root init_path args) t o ->
  (exists e, o = Done (Err e)) \/
  (o = Stopped Replaced /\ exists vars, t = switch_root_calls new_root init_path args vars).
Proof.
  intros H. unfold switch_root_with_args, current_environment in H. exec_steps H.
  all: try (left; by eexists). right. split; [done|].
  repeat match goal with
  | H : cstring _ = Ok _ |- _ => apply cstring_inv in H as ->
  | H : collect_cstrings _ = Ok _ |- _ => apply collect_cstrings_inv in H as ->
  | u : () |- _ => destruct u
  end. simplify_eq. eexists. reflexivity.
Qed.

End facts.

(** ** Names and sizes *)

(** The kernel's name of partition [n] of a disk. *)
Definition kernel_partition_name (disk : string) (n : Z) : string :=
  if last_is is_ascii_digit disk then disk +:+ "p" +:+ fmt_dec n else disk +:+ fmt_dec n.

(** A disk name that ends in a digit followed by [p] is taken for a partition
    prefix. *)
Definition ends_like_prefix (disk : string) : bool :=
  last_is (Ascii.eqb "p") disk && last_is is_ascii_digit (drop_last disk).

Lemma last_is_snoc f s c : last_is f (s +:+ str1 c) = f c.
Proof.
  unfold last_is. rewrite chars_app. change (chars (str1 c)) with [c]. rewrite last_snoc. done.
Qed.

Lemma drop_last_snoc s c : drop_last (s +:+ str1 c) = s.
Proof.
  unfold drop_last. rewrite chars_app. change (chars (str1 c)) with [c].
  rewrite removelast_last. apply of_chars_chars.
Qed.

Lemma parent_disk_of_name disk n :
  disk <> "" -> ends_like_prefix disk = false ->
  partition_parent_disk (kernel_partition_name disk n) = Some disk.
Proof.
  intros Hn Hp. unfold partition_parent_disk, kernel_partition_name.
  destruct (last_is is_ascii_digit disk) eqn:Hd.
  - rewrite app_assoc_str, trim_end_matches_app by
      (try apply fmt_dec_digits; change "p" with (str1 "p"); rewrite last_is_snoc; done).
    change "p" with (str1 "p"). rewrite last_is_snoc, drop_last_snoc, Hd.
    change (Ascii.eqb "p" "p") with true. cbn [andb]. destruct disk; done.
  - rewrite trim_end_matches_app by (done || apply fmt_dec_digits).
    unfold ends_like_prefix in Hp. rewrite Hp. destruct disk; done.
Qed.

(** ** Sorting *)

Lemma insert_by_perm key a l : insert_by key a l ≡ₚ a :: l.
Proof.
  induction l as [|b l IH]; [done|]. cbn. destruct (key b <? key a); [|done].
  rewrite IH. apply perm_swap.
Qed.

Lemma sort_by_perm key l : sort_by key l ≡ₚ l.
Proof. induction l as [|a l IH]; [done|]. cbn. rewrite insert_by_perm, IH. done. Qed.

Definition key_le (key : string -> Z) (a b : string) : Prop := key a <= key b.

Lemma insert_by_sorted key a l :
  StronglySorted (key_le key) l -> StronglySorted (key_le key) (insert_by key a l).
Proof.
  induction 1 as [|b l Hs IH Hf]; cbn; [repeat constructor|].
  destruct (Z.ltb_spec (key b) (key a)).
  - constructor; [done|]. rewrite insert_by_perm. constructor; [unfold key_le; lia|done].
  - constructor; [by constructor|]. constructor; [done|].
    eapply Forall_impl; [exact Hf|]. unfold key_le. intros x ?. lia.
Qed.

Lemma sort_by_sorted key l : StronglySorted (key_le key) (sort_by key l).
Proof. induction l; cbn; [constructor|]. by apply insert_by_sorted. Qed.

(** Elements with the same key stay in order. *)
Lemma insert_by_filter key k a l :
  List.filter (fun x => key x =? k) (insert_by key a l) =
  List.filter (fun x => key x =? k) (a :: l).
Proof.
  induction l as [|b l IH]; [done|]. cbn [insert_by].
  destruct (Z.ltb_spec (key b) (key a)); [|done].
  cbn [List.filter] in *. rewrite IH.
  destruct (Z.eqb_spec (key a) k), (Z.eqb_spec (key b) k); (done || lia).
Qed.

Lemma sort_by_stable key k l :
  List.filter (fun x => key x =? k) (sort_by key l) = List.filter (fun x => key x =? k) l.
Proof.
  induction l as [|a l IH]; [done|]. cbn [sort_by]. rewrite insert_by_filter. cbn. rewrite IH. done.
Qed.

(** The device of partition [n] of a disk whose name has no digit. *)
Definition partition_dev (disk : string) (n : Z) : string := "/dev/" +:+ disk +:+ fmt_dec n.
Definition plain_name (disk : string) : Prop :=
  Forall (fun c => is_ascii c /\ c <> slash /\ is_ascii_digit c = false) (chars disk).

Lemma filter_all {A} (f : A -> bool) l : Forall (fun a => f a = true) l -> List.filter f l = l.
Proof. induction 1 as [|a l Ha _ IH]; [done|]. cbn. rewrite Ha, IH. done. Qed.

Lemma filter_none {A} (f : A -> bool) l : Forall (fun a => f a = false) l -> List.filter f l = [].
Proof. induction 1 as [|a l Ha _ IH]; [done|]. cbn. rewrite Ha, IH. done. Qed.

Lemma partition_sort_key_dev disk n :
  plain_name disk -> 0 <= n < U32 -> partition_sort_key (partition_dev disk n) = n.
Proof.
  intros Hd Hn. pose proof (fmt_dec_digits n) as Hds. pose proof (fmt_dec_nonempty n) as Hne.
  assert (exists c, c ∈ chars (disk +:+ fmt_dec n) /\ is_ascii_digit c = true) as (c&Hin&Hc).
  { destruct (chars (fmt_dec n)) as [|c l] eqn:E; [done|]. exists c. inversion Hds. subst.
    split; [|done]. rewrite chars_app, E. apply elem_of_app. right. left. }
  assert (forall s, s = "" \/ s = "." \/ s = ".." -> disk +:+ fmt_dec n <> s) as Hspecial.
  { intros s Hs Heq. rewrite Heq in Hin.
    destruct Hs as [->|[->| ->]]; cbn in Hin; rewrite ?elem_of_cons, elem_of_nil in Hin;
      repeat (destruct Hin as [->|Hin]; [discriminate Hc|]); done. }
  unfold partition_sort_key, file_name_lossy, partition_dev.
  rewrite file_name_dev.
  - cbn [fmap option_fmap option_map unwrap_or_default]. unfold lossy. rewrite from_utf8_lossy_ascii.
    + rewrite chars_app, List.filter_app, filter_none, filter_all by
        (done || (eapply Forall_impl; [exact Hd|intros a (?&?&?); done])).
      cbn [app]. rewrite of_chars_chars, parse_u32_fmt_dec by done. done.
    + rewrite chars_app. apply Forall_app. split.
      * eapply Forall_impl; [exact Hd|intros a (?&?&?); done].
      * eapply Forall_impl; [exact Hds|]. unfold is_ascii, is_ascii_digit. intros a Ha. bool_prop. lia.
  - unfold no_slash. rewrite chars_app. apply Forall_app. split.
    + eapply Forall_impl; [exact Hd|intros a (?&?&?); done].
    + eapply Forall_impl; [exact Hds|]. intros a Ha ->. discriminate Ha.
  - unfold skipped. rewrite !(proj2 (String.eqb_neq _ _)) by auto. done.
  - auto.
Qed.

(** ** Superblocks *)

Lemma until_zero_app l m : Forall (fun b => b2z b <> 0) l -> until_zero (l ++ x00 :: m) = l.
Proof.
  induction 1 as [|b l Hb _ IH]; [done|]. cbn. rewrite (proj2 (Z.eqb_neq _ _)) by done. by rewrite IH.
Qed.

Lemma until_zero_all l : Forall (fun b => b2z b <> 0) l -> until_zero l = l.
Proof. induction 1 as [|b l Hb _ IH]; [done|]. cbn. rewrite (proj2 (Z.eqb_neq _ _)) by done. by rewrite IH. Qed.

(** A superblock with a volume name of at most 16 bytes, padded with zeros. *)
Definition encode_ext4 (before between : list byte) (label : string) : list byte :=
  before ++ [x53; xef] ++ between ++ as_bytes label ++ zeros (16 - len (as_bytes label)).

Lemma ext4_label_encode before between label :
  len before = 56 -> len between = 62 -> len (as_bytes label) <= 16 -> label <> "" ->
  Forall no_ws (chars label) ->
  ext4_label (encode_ext4 before between label) = Val (Some label).
Proof.
  intros Hb Hw Hl Hne Hc. pose proof (len_nonneg (as_bytes label)).
  unfold ext4_label, encode_ext4.
  set (z := zeros _). assert (len z = 16 - len (as_bytes label)) as Hz by (apply len_zeros; lia).
  rewrite (index_at _ before ([xef] ++ between ++ as_bytes label ++ z) x53 56) by (app_eq || lia). mcbn.
  rewrite (index_at _ (before ++ [x53]) (between ++ as_bytes label ++ z) xef 57) by (app_eq || len_tac). mcbn.
  change (b2z x53 =? 83) with true. change (b2z xef =? 239) with true. cbn [negb orb].
  rewrite (slice_at _ (before ++ [x53; xef] ++ between) (as_bytes label ++ z) [] 120 136);
    [|rewrite app_nil_r; app_eq|len_tac..]. mcbn.
  assert (Forall (fun b => b2z b <> 0) (as_bytes label)) as Hnz.
  { rewrite as_bytes_chars. apply Forall_map. eapply Forall_impl; [exact Hc|].
    intros c Hcc. cbn. rewrite b2z_byte_of_ascii. unfold no_ws in Hcc. lia. }
  assert (until_zero (as_bytes label ++ z) = as_bytes label) as ->.
  { destruct (decide (len (as_bytes label) = 16)) as [E|E].
    - unfold z. rewrite E. change (zeros (16 - 16)) with (@nil byte). rewrite app_nil_r.
      by apply until_zero_all.
    - unfold z. replace (16 - len (as_bytes label)) with (1 + (15 - len (as_bytes label))) by lia.
      rewrite zeros_app by lia. by apply until_zero_app. }
  rewrite from_utf8_lossy_ascii.
  2:{ eapply Forall_impl; [exact Hc|]. unfold no_ws, is_ascii. intros c Hcc. cbn in *. lia. }
  rewrite trim_no_ws by done. destruct label; done.
Qed.

(** ** GUIDs *)

Lemma guid_hex_digest g order : guid_hex g order = digest_to_hex (map (fun i => nth i g x00) order).
Proof. unfold guid_hex, digest_to_hex. rewrite map_map. done. Qed.

Lemma replace_dash_skip s t :
  Forall lower_hex (chars s) -> replace "-" "" (s +:+ t) = s +:+ replace "-" "" t.
Proof.
  unfold replace. induction s as [|c s IH]; intros H; [done|]. inversion H as [|?? Hc Hs]. subst.
  rewrite !app_cons_str. cbn [replace_go]. unfold starts_with. cbn [strip_prefix].
  destruct (Ascii.eqb_spec "-"%char c) as [<-|].
  - unfold lower_hex in Hc. change (code "-") with 45 in Hc. lia.
  - rewrite IH by done. done.
Qed.

Lemma replace_dash_dash t : replace "-" "" ("-" +:+ t) = replace "-" "" t.
Proof. done. Qed.

Lemma to_lowercase_lower s : Forall lower_hex (chars s) -> to_lowercase s = s.
Proof.
  intros H. unfold to_lowercase. rewrite <- (of_chars_chars s) at 2. f_equal.
  induction H as [|c l Hc _ IH]; [done|]. cbn. rewrite IH. f_equal.
  unfold lower_char, lower_hex in *.
  destruct (Z.leb_spec 65 (code c)), (Z.leb_spec (code c) 90); (done || lia).
Qed.

(** The kernel's text of a partition GUID is what [find_boot_disk] looks for. *)
Lemma normalize_format_guid g : normalize_uuid (format_guid_uuid g) = guid_plain g.
Proof.
  unfold normalize_uuid, format_guid_uuid. rewrite !guid_hex_digest.
  do 4 (rewrite replace_dash_skip by apply digest_to_hex_lower; rewrite replace_dash_dash).
  rewrite <- (app_nil_r_str (digest_to_hex (map _ [10; 11; 12; 13; 14; 15]%nat))).
  rewrite replace_dash_skip by apply digest_to_hex_lower. change (replace "-" "" "") with "".
  rewrite app_nil_r_str, <- !digest_to_hex_app, to_lowercase_lower by apply digest_to_hex_lower.
  unfold guid_plain. rewrite guid_hex_digest. done.
Qed.

Lemma guid_plain_inj g g' :
  length g = 16%nat -> length g' = 16%nat -> guid_plain g = guid_plain g' -> g = g'.
Proof.
  intros Hg Hg' H. unfold guid_plain in H. rewrite !guid_hex_digest in H. apply digest_to_hex_inj in H.
  do 17 (destruct g as [|? g]; try discriminate Hg). do 17 (destruct g' as [|? g']; try discriminate Hg').
  cbn in H. congruence.
Qed.

(** ** What a boot disk match is, in terms of what was read *)

(** The text of a file that was read. *)
Definition read_text (h : hist sysE) (path s : string) : Prop :=
  exists data, Ev (FsRead path) (Ok data) ∈ h /\ from_utf8 data = Some s.

Definition sysfs_block (name : string) : string := path_join "/sys/class/block" name.

Definition has_number (h : hist sysE) (name : string) (n : Z) : Prop :=
  exists s, read_text h (path_join (sysfs_block name) "partition") s /\ parse_u32 (trim s) = Ok n.

Definition has_guid (h : hist sysE) (name guid : string) : Prop :=
  exists s v, read_text h (path_join (sysfs_block name) "uevent") s /\
    find_line "PARTUUID=" (lines s) = Some v /\ normalize_uuid v = guid.

(** [dev] is a device whose sysfs entry has the number and the GUID asked for. *)
Definition boot_match (h : hist sysE) (guid : option string) (number : option Z)
    (m : string * string) : Prop :=
  exists name, m.2 = "/dev/" +:+ lossy name /\
    match number with Some n => has_number h name n | None => True end /\
    match guid with Some g => has_guid h name g | None => is_Some number end.

Lemma read_text_mono h h' p s : h `prefix_of` h' -> read_text h p s -> read_text h' p s.
Proof. intros Hp (d&?&?). exists d. split; [by eapply elem_of_prefix|done]. Qed.

Lemma boot_match_mono h h' g n m : h `prefix_of` h' -> boot_match h g n m -> boot_match h' g n m.
Proof.
  intros Hp (name&Hd&Hn&Hg). exists name. split; [done|]. split.
  - destruct n as [n|]; [|done]. destruct Hn as (s&?&?). exists s. split; [by eapply read_text_mono|done].
  - destruct g as [g|]; [|done]. destruct Hg as (s&v&?&?&?). exists s, v. split; [by eapply read_text_mono|done].
Qed.

Section boot_disk.
Context `{X : Externals}.

Lemma wp_read_to_string path h :
  wp free_protocol (read_to_string path) h (fun h' o => h `prefix_of` h' /\
    match o with Done (Ok s) => read_text h' path s | Done (Err _) => True | Stopped _ => False end).
Proof.
  apply wp_prefix. apply wp_try, wp_trigger; [done|]. intros [d|e] _; [|done].
  destruct (from_utf8 d) as [s|] eqn:E; [|done]. exists d. split; [|done].
  apply elem_of_app. right. left.
Qed.

Lemma wp_read_number path h :
  wp free_protocol (read_number path) h (fun h' o => h `prefix_of` h' /\
    match o with
    | Done (Some n) => exists s, read_text h' path s /\ parse_u32 (trim s) = Ok n
    | Done None => True
    | Stopped _ => False end).
Proof.
  apply wp_bind. eapply wp_mono; [apply wp_read_to_string|]. intros h' [[s|e]|st] [Hp Hr]; [|done..].
  split; [done|]. cbn. destruct (parse_u32 (trim s)) eqn:E; [|done]. cbn. exists s. done.
Qed.

Definition boot_disk_post (guid : option string) (number : option Z) (h h' : hist sysE)
    (o : outcome (io (option (string * string)))) : Prop :=
  h `prefix_of` h' /\
  match o with Done (Ok (Some m)) => boot_match h' guid number m | _ => True end.

Lemma boot_disk_post_trans guid number h1 h2 h' o :
  h1 `prefix_of` h2 -> boot_disk_post guid number h2 h' o -> boot_disk_post guid number h1 h' o.
Proof. intros Hp [Hp' Ho]. split; [by etrans|done]. Qed.

Lemma wp_boot_disk_entries guid number matches entries h :
  Forall (boot_match h guid number) matches ->
  wp free_protocol (boot_disk_entries guid number matches entries) h (boot_disk_post guid number h).
Proof.
  revert matches h. induction entries as [|[name|e] entries IH]; intros matches h Hm; [|cbn [boot_disk_entries]|done].
  { split; [done|]. destruct matches as [|m [|m' l]]; [done| |done]. by inversion Hm. }
  assert (forall h1 matches', h `prefix_of` h1 -> Forall (boot_match h1 guid number) matches' ->
    wp free_protocol (boot_disk_entries guid number matches' entries) h1 (boot_disk_post guid number h))
    as Hrec.
  { intros h1 ms Hp Hms. eapply wp_mono; [by apply IH|]. intros h' o. by apply boot_disk_post_trans. }
  assert (forall h1, h `prefix_of` h1 -> Forall (boot_match h1 guid number) matches) as Hmono.
  { intros h1 Hp. eapply Forall_impl; [exact Hm|]. intros m. by apply boot_match_mono. }
  apply wp_bind, wp_trigger; [done|]. intros is_part _. set (h1 := h ++ _).
  assert (h `prefix_of` h1) as Hp1 by by eexists. clearbody h1.
  destruct is_part; [|cbn [negb]; auto]. cbn [negb].
  apply wp_bind. eapply wp_mono; [apply wp_read_number|]. intros h2 [num|s] [Hp2 Hnum]; [|done].
  assert (h `prefix_of` h2) as Hp2' by by etrans.
  destruct (bool_decide (is_Some number) && negb (bool_decide (num = number))) eqn:Hskip; [auto|].
  assert (match number with Some n => has_number h2 name n | None => True end) as Hn.
  { destruct number as [n|]; [|done]. rewrite bool_decide_eq_true_2 in Hskip by done.
    case_bool_decide as Hnn; [|done]. subst num. exact Hnum. }
  clear Hskip. apply wp_try. eapply wp_mono; [apply wp_any|]. intros h3 [[[disk|]|e]|s] Hp3; cbn [boot_disk_post].
  all: assert (h `prefix_of` h3) as Hp3' by by etrans.
  2: auto. 2,3: done.
  destruct guid as [g|].
  - apply wp_try. unfold read_uevent_value. apply wp_try.
    eapply wp_mono; [apply wp_read_to_string|]. intros h4 [[s|e]|st] [Hp4 Hr];
      [|split; [by etrans|done]|done].
    assert (h `prefix_of` h4) as Hp4' by by etrans. apply wp_ret.
    case_bool_decide as Hv; [|auto]. apply wp_ret. split; [done|].
    exists name. split; [done|]. split.
    + destruct number as [n|]; [|done]. destruct Hn as (s'&?&?). exists s'.
      split; [eapply read_text_mono; [|done]; by etrans|done].
    + destruct (find_line _ _) as [v|] eqn:Ef; [|done]. injection Hv as Hv.
      exists s, v. done.
  - apply Hrec; [done|]. case_bool_decide as Hs; [|auto]. apply Forall_app. split; [auto|].
    constructor; [|done]. exists name. split; [done|]. split; [|done].
    destruct number as [n|]; [|done]. destruct Hn as (s'&?&?). exists s'.
    split; [by apply (read_text_mono h2)|done].
Qed.

End boot_disk.

(** ** Properties *)

Section properties.
Context `{X : Externals}.

(** C29: On an image path without a zero byte, the loop mount closes what it
    opens: in every execution of [mount_loop] on such a path, successful or not,
    the descriptors closed are exactly those opened; it always returns, and
    only succeeds after the complete sequence of calls -- allocate a free
    device, attach the image, mount it read-only as erofs. *)
Theorem mount_loop_closes (image target : string) (t : hist sysE) (o : outcome (io unit)) :
  nul_position image = None -> exec (mount_loop image target) t o ->
  omap closed_fd t ≡ₚ omap opened_fd t /\
  exists r, o = Done r /\
    match r with
    | Ok _ => exists ctrl free loop img set, t = loop_mount_calls image target ctrl free loop img set
    | Err _ => True
    end.
Proof. intros Hn H. apply mount_loop_exec in H. rewrite Hn in H. exact H. Qed.

(** C30: A zero byte in the image path leaks the loop device: whenever
    [mount_loop] gets as far as opening it, it returns an error and closes only
    the control device. *)
Theorem mount_loop_nul_leaks (image target : string) (i ctrl loop : Z) (t : hist sysE)
    (o : outcome (io unit)) :
  nul_position image = Some i -> exec (mount_loop image target) t o ->
  omap opened_fd t = [ctrl; loop] ->
  omap closed_fd t = [ctrl] /\ exists e, o = Done (Err e).
Proof.
  intros Hn H Ho. apply mount_loop_exec in H as [H _]. rewrite Hn, Ho in H. tauto.
Qed.

(** [switch_root] never returns successfully: either it returns an error,
    or the process is replaced, and then the calls made are exactly: change to
    the new root, move it over [/], chroot into it, change to its root, and
    execute init with its path as first argument and the current environment. *)
Theorem switch_root_order (new_root init_path : string) (args : list string) (t : hist sysE)
    (o : outcome (io unit)) :
  exec (switch_root_with_args new_root init_path args) t o ->
  (exists e, o = Done (Err e)) \/
  (o = Stopped Replaced /\ exists vars, t = switch_root_calls new_root init_path args vars).
Proof. apply switch_root_exec. Qed.

(** The parent of a partition name is its disk: for every disk name (not
    itself ending like a partition prefix) and every partition number, the name
    the kernel gives the partition -- with a [p] after a disk name that ends in
    a digit -- is taken back to the disk. *)
Theorem partition_parent_disk_of_name (disk : string) (n : Z) :
  disk <> "" -> ends_like_prefix disk = false ->
  partition_parent_disk (kernel_partition_name disk n) = Some disk.
Proof. apply parent_disk_of_name. Qed.

(** Partitions are listed in numeric order: on a disk named without digits,
    whatever the order in which sysfs lists the partitions, the sorted list is a
    permutation of the devices by increasing partition number -- 2 before 10. *)
Theorem partitions_in_numeric_order (disk : string) (ns : list Z) :
  plain_name disk -> Forall (fun n => 0 <= n < U32) ns ->
  exists ms, ms ≡ₚ ns /\ StronglySorted Z.le ms /\
    sort_by partition_sort_key (map (partition_dev disk) ns) = map (partition_dev disk) ms.
Proof.
  intros Hd Hns.
  destruct (Permutation_map_inv (partition_dev disk) ns (l1 := sort_by partition_sort_key
    (map (partition_dev disk) ns))) as (ms&Heq&Hp); [apply sort_by_perm|].
  exists ms. split; [by rewrite Hp|]. split; [|done].
  assert (Forall (fun n => 0 <= n < U32) ms) as Hms by by rewrite <- Hp.
  pose proof (sort_by_sorted partition_sort_key (map (partition_dev disk) ns)) as Hs.
  rewrite Heq in Hs. clear Heq Hp Hns ns.
  induction Hms as [|m ms Hm Hms IH]; [constructor|]. inversion Hs as [|?? Hs' Hf]. subst.
  constructor; [auto|]. apply Forall_forall. intros n Hn.
  apply (proj1 (Forall_forall _ _) Hms) in Hn as Hb.
  apply (list_elem_of_fmap_2 (partition_dev disk)) in Hn.
  apply (proj1 (Forall_forall _ _) Hf) in Hn as Hf'. clear Hf. rename Hf' into Hf. unfold key_le in Hf.
  cbn in Hf. rewrite !partition_sort_key_dev in Hf by done. done.
Qed.

(** Round trip of the ext4 volume name: from a superblock with the ext4
    magic and a name of 1 to 16 visible ASCII characters, the name is read
    back. *)
Theorem ext4_label_roundtrip (before between : list byte) (label : string) :
  len before = 56 -> len between = 62 -> len (as_bytes label) <= 16 -> label <> "" ->
  Forall no_ws (chars label) ->
  ext4_label (encode_ext4 before between label) = Val (Some label).
Proof. apply ext4_label_encode. Qed.

(** Partition GUIDs are compared up to their representation: the mixed-endian
    text of a GUID, as the kernel reports it, normalises to what
    [find_boot_disk] computes from the EFI bytes, and two different GUIDs never
    do. *)
Theorem guid_comparison_exact (g g' : list byte) :
  length g = 16%nat -> length g' = 16%nat ->
  normalize_uuid (format_guid_uuid g') = guid_plain g <-> g' = g.
Proof.
  intros Hg Hg'. rewrite normalize_format_guid. split; [|intros ->; done].
  intros H. by apply guid_plain_inj.
Qed.

(** Soundness of the boot disk search, for every kernel: the partition
    [find_boot_disk] answers is a device of sysfs whose partition number, when
    one is asked for, was read and is equal, and whose PARTUUID, when a GUID is
    asked for, was read and is that GUID; without a GUID a number was asked
    for. *)
Theorem find_boot_disk_sound (guid : option (list byte)) (number : option Z) (t : hist sysE)
    (m : string * string) :
  exec (find_boot_disk guid number) t (Done (Ok (Some m))) ->
  boot_match t (guid_plain <$> guid) number m.
Proof.
  intros H. refine (proj2 (wp_exec _ _ _ _ (_ : wp free_protocol _ _ (boot_disk_post _ number [])) H)).
  apply wp_bind, wp_trigger; [done|]. intros [] _; [|split; [by eexists|done]].
  cbn [negb]. apply wp_try, wp_trigger; [done|]. intros [entries|e] _; [|split; [by eexists|done]].
  eapply wp_mono; [by apply wp_boot_disk_entries|]. intros h' o. apply boot_disk_post_trans. by eexists.
Qed.

End properties.

(** ** Witnesses *)

Definition toy_loop_world : world :=
  set_files (set_dirs world0 ["/dev/loop-control"; "/dev/loop0"]) {["/i.img" := [x01]]}.

Lemma mount_loop_closes_witness :
  outcome_of toy_loop_world (mount_loop "/i.img" "/mnt") = Done (Ok tt) /\
  omap closed_fd (trace_of toy_loop_world (mount_loop "/i.img" "/mnt")) ≡ₚ
  omap opened_fd (trace_of toy_loop_world (mount_loop "/i.img" "/mnt")).
Proof.
  split; [vm_compute; reflexivity|].
  eapply (mount_loop_closes "/i.img" "/mnt"); [reflexivity|]. apply toy_exec. reflexivity.
Defined.

Definition nul_path : string := String "/" (str1 (chr 0)).

Lemma mount_loop_nul_leaks_witness :
  omap closed_fd (trace_of toy_loop_world (mount_loop nul_path "/mnt")) = [3] /\
  exists e, outcome_of toy_loop_world (mount_loop nul_path "/mnt") = Done (Err e).
Proof.
  apply (mount_loop_nul_leaks nul_path "/mnt" 1 3 4).
  - reflexivity.
  - apply toy_exec. reflexivity.
  - vm_compute. reflexivity.
Defined.

Lemma switch_root_order_witness :
  outcome_of world0 (switch_root_with_args "/sysroot" "/init" ["a"]) = Stopped Replaced /\
  ((exists e, outcome_of world0 (switch_root_with_args "/sysroot" "/init" ["a"]) = Done (Err e)) \/
   (Stopped (A := io unit) Replaced = Stopped Replaced /\ exists vars,
     trace_of world0 (switch_root_with_args "/sysroot" "/init" ["a"])
     = switch_root_calls "/sysroot" "/init" ["a"] vars)).
Proof.
  split; [vm_compute; reflexivity|]. apply (switch_root_order "/sysroot" "/init" ["a"]), toy_exec.
  reflexivity.
Defined.

Lemma partition_parent_disk_of_name_witness :
  partition_parent_disk "nvme0n1p101" = Some "nvme0n1".
Proof. apply (partition_parent_disk_of_name "nvme0n1" 101); [discriminate|reflexivity]. Defined.

Lemma partitions_in_numeric_order_witness :
  exists ms, ms ≡ₚ [10; 2; 1] /\ StronglySorted Z.le ms /\
    sort_by partition_sort_key ["/dev/sda10"; "/dev/sda2"; "/dev/sda1"] = map (partition_dev "sda") ms.
Proof.
  apply (partitions_in_numeric_order "sda" [10; 2; 1]).
  - repeat constructor; try reflexivity; intros H; discriminate H.
  - repeat constructor; try reflexivity; intros H; discriminate H.
Defined.

Lemma ext4_label_roundtrip_witness :
  ext4_label (encode_ext4 (zeros 56) (zeros 62) "STATE") = Val (Some "STATE").
Proof.
  apply ext4_label_roundtrip; try (vm_compute; reflexivity).
  - vm_compute. discriminate.
  - discriminate.
  - repeat constructor; vm_compute; (reflexivity || discriminate).
Defined.

Lemma guid_comparison_exact_witness :
  normalize_uuid "22bb11aa-33cc-44dd-ee55-ff6677889900" = guid_plain toy_guid <-> toy_guid = toy_guid.
Proof. apply (guid_comparison_exact toy_guid toy_guid); reflexivity. Defined.

Definition toy_block_world : world :=
  {| wfiles := <["/sys/class/block/sda2/partition" := as_bytes "2"]>
                 {["/sys/class/block/sda2/uevent" := as_bytes "PARTUUID=22bb11aa-33cc-44dd-ee55-ff6677889900"]};
     wdirs := ["/sys/class/block"; "/sys/block"; "/sys/block/sda/sda2"; "/sys/block/sda/sda2/partition"];
     wlinks := ∅;
     wentries := <["/sys/class/block" := ["sda"; "sda2"]]> {["/sys/block" := ["sda"]]};
     wenv := ∅; wclock := 0; wnext := 3; wopen := ∅; wdev := ∅; wstdin := []; wpid := 1; wargs := [] |}.

Lemma find_boot_disk_sound_witness :
  boot_match (trace_of toy_block_world (find_boot_disk (Some toy_guid) (Some 2)))
    (guid_plain <$> Some toy_guid) (Some 2) ("/dev/sda", "/dev/sda2").
Proof. apply find_boot_disk_sound, toy_exec. vm_compute. reflexivity. Defined.
