(* ===== verification/Boot.v ===== *)
(** The boot sequence of PID 1 ([src/boot.rs]): verified-mode decision, data
    partition, encrypted state, root file system, host images, init. *)

From S2P Require Import Prelude Prog Str PathLib Sys World Verity Efi Verify Tpm Fscrypt Cmd Mount.

Definition DEV_TPM_PREFIX : list byte := as_bytes "devc:".
Definition SECURE_TPM_PREFIX : list byte := as_bytes "secc:".
Definition EFIVARS : string := "/sys/firmware/efi/efivars".

Fixpoint bytes_strip_prefix (p s : list byte) : option (list byte) :=
  match p, s with
  | [], _ => Some s
  | a :: p, b :: s => if bool_decide (a = b) then bytes_strip_prefix p s else None
  | _, [] => None
  end.

Definition strip_tpm_prefix (secret prefix : list byte) (mode : string) : result (list byte) string :=
  ok_or (bytes_strip_prefix prefix secret) ("TPM " +:+ mode +:+ " secret has wrong prefix").

(** [path.to_str().ok_or_else(..)] *)
Definition utf8_path (p : string) : result string string :=
  ok_or (to_str p) ("path is not valid UTF-8: " +:+ lossy p).

Definition partitioned_image_path (path : string) (part_id : Z) : option string :=
  match parent path, file_name path with
  | Some parent, Some file_name => Some (path_join (path_join parent (fmt_dec part_id)) file_name)
  | _, _ => None
  end.

Record SelectedInit : Type := {
  init_path : string;
  init_args : list string;
}.

Section Boot.
Context `{X : Externals} `{AG : Age}.

(** ** The TPM secret *)

Definition unseal_key_from_handle (handle : Z) (prefix : list byte) (mode : string)
    : sys (result (list byte) string) :=
  let? dev := open_tpm in
  let? session := start_policy_session dev in
  let? _ := policy_pcr dev session in
  let? _ := policy_get_digest dev session in
  let? secret := unseal dev handle session in
  mret (strip_tpm_prefix secret prefix mode).

Definition unseal_key (secure_boot : bool) : sys (result (list byte) string) :=
  if secure_boot
  then unseal_key_from_handle DEFAULT_SEALED_HANDLE_SECURE SECURE_TPM_PREFIX "secure"
  else unseal_key_from_handle DEFAULT_SEALED_HANDLE_DEV DEV_TPM_PREFIX "dev".

(** ** The verified-mode decision and the verification of images *)

Definition detect_verified_boot : sys bool :=
  let! base_path := env_or "INITOS_EFI_PATH" EFIVARS in
  let! r := read_secure_boot base_path in
  mret (match r with Ok value => negb (value =? 0) | Err _ => false end).

Definition detect_verified_boot_strict : sys (result bool string) :=
  let! base_path := env_or "INITOS_EFI_PATH" EFIVARS in
  let? value := with_err (fun e => "failed to read EFI SecureBoot from " +:+ base_path +:+ ": " +:+
      io_display e +:+ " (refusing to boot without a verified-mode decision; enable Secure Boot or fix efivarfs)")
    (read_secure_boot base_path) in
  mret (Ok (negb (value =? 0))).

Definition verify_image_if_key (img pub_key : string) : sys (result unit string) :=
  if is_empty pub_key then mret (Ok tt)
  else
    let? valid := boxed (verify_image img pub_key) in
    mret (if (valid : bool) then Ok tt else Err "image signature verification FAILED").

Definition verify_image_trusted (img pub_key : string) (verified_boot : bool)
    : sys (result unit string) :=
  if negb (is_empty pub_key) then verify_image_if_key img pub_key
  else if verified_boot then
    let! efi_base_path := env_or "INITOS_EFI_PATH" EFIVARS in
    let? valid := boxed (verify_image_db img efi_base_path) in
    mret (if (valid : bool) then Ok tt else Err "image db signature verification FAILED")
  else mret (Ok tt).

Definition kernel_release : sys (result string string) :=
  let! r := read_to_string "/proc/sys/kernel/osrelease" in
  match r with
  | Ok release => mret (Ok (trim release))
  | Err _ =>
      let? release := boxed (trigger LibcUname) in
      let bytes := until_zero release in
      mret (ok_or (from_utf8 bytes) (utf8_error_msg bytes))
  end.

(** ** Images by boot partition *)

Fixpoint any_signature (sig_prefix : string) (names : list string) : bool :=
  match names with
  | [] => false
  | name :: names =>
      (starts_with sig_prefix (lossy name) && ends_with ".sig" (lossy name)) || any_signature sig_prefix names
  end.

Definition signature_exists (part_path : string) : sys bool :=
  let! e := trigger (PathExists (signature_path part_path "sig")) in
  if (e : bool) then mret true
  else
    match parent part_path with
    | None => mret false
    | Some parent =>
        let! r := trigger (FsReadDir parent) in
        match r with
        | Ok entries =>
            match file_name part_path with
            | None => Halt Panic
            | Some name => mret (any_signature (lossy name +:+ ".") (ok_entries entries))
            end
        | Err _ => mret false
        end
    end.

Definition check_partitioned_image (orig_path : string) (part_id : Z) (verified_boot : bool)
    : sys (result (option string) string) :=
  match partitioned_image_path orig_path part_id with
  | None => mret (Ok None)
  | Some part_path =>
      let! sig_exists := signature_exists part_path in
      let! e := trigger (PathExists part_path) in
      mret (if (e : bool) then
              if (sig_exists : bool) then Ok (Some part_path)
              else if verified_boot then
                Err ("partitioned image " +:+ lossy part_path +:+
                     " exists but has no signature (Secure Boot requires signatures)")
              else Ok None
            else Ok None)
  end.

Fixpoint first_partitioned (part_id : Z) (verified_boot : bool) (candidates : list string)
    : sys (result (option string) string) :=
  match candidates with
  | [] => mret (Ok None)
  | cand :: candidates =>
      let? r := check_partitioned_image cand part_id verified_boot in
      match r with
      | Some part_path => mret (Ok (Some part_path))
      | None => first_partitioned part_id verified_boot candidates
      end
  end.

Fixpoint first_existing (paths : list string) : sys (option string) :=
  match paths with
  | [] => mret None
  | path :: paths =>
      let! e := trigger (PathExists path) in
      if (e : bool) then mret (Some path) else first_existing paths
  end.

Definition find_host_image (state_mount image_name : string) (boot_partition_id : option Z)
    (verified_boot : bool) : sys (result (option string) string) :=
  let? found := (match boot_partition_id with
                 | Some part_id =>
                     first_partitioned part_id verified_boot
                       [path_join (path_join state_mount "initos") image_name;
                        path_join (path_join state_mount "img") image_name;
                        path_join "/img" image_name;
                        path_join "/data/img" image_name]
                 | None => mret (Ok None)
                 end) in
  match found with
  | Some path => mret (Ok (Some path))
  | None =>
      let! r := first_existing [path_join (path_join state_mount "img") image_name;
                                path_join "/img" image_name;
                                path_join "/data/img" image_name] in
      mret (Ok r)
  end.

(** ** Mounts below the root *)

Definition recursive_bind_mount (source target : string) : sys (io unit) :=
  let? _ := trigger (FsCreateDirAll target) in
  let? source_c := mret (cstring source) in
  let? target_c := mret (cstring target) in
  trigger (LibcMount source_c target_c None (Z.lor MS_BIND MS_REC) None).

Definition mount_host_image (state_mount root_mount image_name target_rel : string)
    (verified_boot : bool) (boot_partition_id : option Z) : sys (result unit string) :=
  let? found := find_host_image state_mount image_name boot_partition_id verified_boot in
  match found with
  | None => mret (Ok tt)
  | Some image_path =>
      let? image_path_str := mret (utf8_path image_path) in
      let? _ := verify_image_trusted image_path_str "" verified_boot in
      let? target_str := mret (utf8_path (path_join root_mount target_rel)) in
      boxed (mount_loop image_path_str target_str)
  end.

Definition mount_optional_pseudo_in_root (root_mount fs_type target_rel : string)
    : sys (result unit string) :=
  let? target_str := mret (utf8_path (path_join root_mount target_rel)) in
  do! mount_pseudo_fs fs_type target_str in
  mret (Ok tt).

Definition mount_pseudo_in_root (root_mount fs_type target_rel : string) : sys (result unit string) :=
  let? target_str := mret (utf8_path (path_join root_mount target_rel)) in
  boxed (mount_pseudo_fs fs_type target_str).

Definition mount_fs_in_root (root_mount source target_rel fs_type : string) : sys (result unit string) :=
  let? target_str := mret (utf8_path (path_join root_mount target_rel)) in
  boxed (mount_filesystem source target_str fs_type false).

Definition mount_system_filesystems (root_mount : string) : sys (result unit string) :=
  let? _ := mount_pseudo_in_root root_mount "proc" "proc" in
  let? _ := mount_pseudo_in_root root_mount "sysfs" "sys" in
  let? _ := mount_optional_pseudo_in_root root_mount "efivarfs" "sys/firmware/efi/efivars" in
  let? _ := mount_pseudo_in_root root_mount "devtmpfs" "dev" in
  let? _ := mount_fs_in_root root_mount "devpts" "dev/pts" "devpts" in
  let? _ := mount_fs_in_root root_mount "tmpfs" "dev/shm" "tmpfs" in
  let? _ := mount_fs_in_root root_mount "tmpfs" "run" "tmpfs" in
  let? _ := mount_fs_in_root root_mount "none" "sys/fs/cgroup" "cgroup2" in
  mount_fs_in_root root_mount "tmpfs" "tmp" "tmpfs".

Fixpoint resolve_components (root_mount resolved : string) (cs : list component) : sys (io string) :=
  match cs with
  | [] => mret (Ok resolved)
  | Normal part :: cs =>
      let candidate := path_join resolved part in
      let! r := trigger (FsReadLink candidate) in
      match r with
      | Ok link =>
          if is_absolute link then
            match strip_root link with
            | Some rel_link => resolve_components root_mount (path_join root_mount rel_link) cs
            | None => mret (Err (invalid_data "bad symlink: prefix not found"))
            end
          else resolve_components root_mount (path_join resolved link) cs
      | Err e =>
          if bool_decide (kind e = InvalidInput) || bool_decide (kind e = NotFound)
          then resolve_components root_mount candidate cs
          else mret (Err e)
      end
  | _ :: cs => resolve_components root_mount resolved cs
  end.

Definition resolve_root_path (root_mount rel_path : string) : sys (io string) :=
  resolve_components root_mount root_mount (components rel_path).

Definition bind_if_root_dir_exists (root_mount source_rel target_rel : string)
    : sys (result unit string) :=
  let source := path_join root_mount source_rel in
  let? target := boxed (resolve_root_path root_mount target_rel) in
  let! is_dir := trigger (PathIsDir target) in
  if negb is_dir then mret (Ok tt)
  else
    let? source_str := mret (utf8_path source) in
    let? target_str := mret (utf8_path target) in
    boxed (recursive_bind_mount source_str target_str).

Definition bind_host_image_mounts (root_mount : string) : sys (result unit string) :=
  let? _ := bind_if_root_dir_exists root_mount "mnt/firmware" "lib/firmware" in
  bind_if_root_dir_exists root_mount "mnt/modules" "lib/modules".

(** [!source.is_dir() || !target.is_dir()], in this order. *)
Definition both_dirs (source target : string) : sys bool :=
  let! s := trigger (PathIsDir source) in
  if (s : bool) then trigger (PathIsDir target) else mret false.

Definition bind_if_both_dirs_exist (source target : string) : sys (result unit string) :=
  let! both := both_dirs source target in
  if negb both then mret (Ok tt)
  else
    let? source_str := mret (utf8_path source) in
    let? target_str := mret (utf8_path target) in
    boxed (recursive_bind_mount source_str target_str).

Definition bind_encrypted_state_paths (state_mount root_mount : string) : sys (result unit string) :=
  let? _ := bind_if_both_dirs_exist (path_join state_mount "c/home") (path_join root_mount "home") in
  let? _ := bind_if_both_dirs_exist (path_join state_mount "c/home/root") (path_join root_mount "root") in
  bind_if_both_dirs_exist (path_join state_mount "c/nix") (path_join root_mount "nix").

(** ** Firmware and modules *)

Definition mount_slot_composefs_firmware (state_mount root_mount : string) (slot : Z)
    (verified_boot : bool) : sys (result unit string) :=
  let slot_dir := path_join (path_join state_mount "img") (fmt_dec slot) in
  let image := path_join slot_dir "firmware-light.composefs" in
  let shared_objects := path_join state_mount "img/composefs/objects" in
  let legacy_objects := path_join slot_dir "firmware-objects/objects" in
  let! shared := trigger (PathIsDir shared_objects) in
  let objects := if (shared : bool) then shared_objects else legacy_objects in
  let! is_file := trigger (PathIsFile image) in
  let! present := (if (is_file : bool) then trigger (PathIsDir objects) else mret false) in
  if negb present then
    mret (Err ("slot " +:+ fmt_dec slot +:+ " light image or object directory is missing"))
  else
    let? image_str := mret (utf8_path image) in
    let? _ := verify_image_trusted image_str "" verified_boot in
    let? metadata_str := mret (utf8_path (path_join root_mount "mnt/.firmware-composefs")) in
    let? target_str := mret (utf8_path (path_join root_mount "mnt/firmware")) in
    let? objects_str := mret (utf8_path objects) in
    let? _ := boxed (mount_loop image_str metadata_str) in
    boxed (mount_filesystem_with_options "composefs" target_str "overlay" true
      ("metacopy=on,redirect_dir=on,lowerdir=" +:+ metadata_str +:+ "::" +:+ objects_str
       +:+ ",verity=require")).

Definition mount_host_images (state_mount root_mount : string) (verified_boot : bool)
    (boot_partition_id : option Z) : sys (result unit string) :=
  let? root_mnt_str := mret (utf8_path (path_join root_mount "mnt")) in
  let? _ := boxed (mount_filesystem "tmpfs" root_mnt_str "tmpfs" false) in
  match boot_partition_id with
  | None => mret (Err "boot partition ID is unavailable")
  | Some slot =>
      let! composefs := mount_slot_composefs_firmware state_mount root_mount slot verified_boot in
      let? _ := (match composefs with
                 | Ok _ => mret (Ok tt)
                 | Err composefs_error =>
                     if verified_boot then mret (Err composefs_error)
                     else
                       let development_tree := path_join (path_join (path_join state_mount "img")
                         (fmt_dec slot)) "firmware-objects/current" in
                       let! is_dir := trigger (PathIsDir development_tree) in
                       if negb is_dir then mret (Err composefs_error)
                       else
                         let? source_str := mret (utf8_path development_tree) in
                         let? target_str := mret (utf8_path (path_join root_mount "mnt/firmware")) in
                         boxed (bind_mount source_str target_str)
                 end) in
      let? kernel := kernel_release in
      let? _ := mount_host_image state_mount root_mount ("modules-" +:+ kernel +:+ ".erofs")
                  ("mnt/modules/" +:+ kernel) verified_boot boot_partition_id in
      bind_host_image_mounts root_mount
  end.

(** ** The root file system *)

Definition encrypted_root_path (state_mount root_name : string) (boot_partition_id : option Z)
    : sys (option string) :=
  let! by_slot := (match boot_partition_id with
                   | Some part_id =>
                       first_existing
                         [path_join (path_join (path_join state_mount "c/roots") (fmt_dec part_id)) root_name;
                          path_join (path_join (path_join state_mount "roots") (fmt_dec part_id)) root_name]
                   | None => mret None
                   end) in
  match by_slot with
  | Some p => mret (Some p)
  | None => first_existing [path_join (path_join state_mount "c/roots") root_name]
  end.

Definition root_image_path (state_mount img : string) (verified_boot : bool)
    (boot_partition_id : option Z) : sys (result string string) :=
  let default_img_path := path_join state_mount (trim_start_matches (Ascii.eqb "/") img) in
  match boot_partition_id with
  | None => mret (Ok default_img_path)
  | Some part_id =>
      match file_name default_img_path with
      | None => mret (Err "root image has no file name")
      | Some name =>
          let slot_link_base := path_join (path_join state_mount "initos") name in
          let? found := first_partitioned part_id verified_boot [slot_link_base; default_img_path] in
          mret (Ok (match found with Some part_path => part_path | None => default_img_path end))
      end
  end.

Definition mount_rootfs (state_mount root_mount img : string) (verified_boot : bool)
    (boot_partition_id : option Z) : sys (result unit string) :=
  let! root_name := env_or "INITOS_ROOT" "ROOTA" in
  let! encrypted_root := encrypted_root_path state_mount root_name boot_partition_id in
  match encrypted_root with
  | Some root_path =>
      let? encrypted_root_str := mret (utf8_path root_path) in
      boxed (recursive_bind_mount encrypted_root_str root_mount)
  | None =>
      let? img_path := root_image_path state_mount img verified_boot boot_partition_id in
      let? img_path_str := mret (utf8_path img_path) in
      let? _ := verify_image_trusted img_path_str "" verified_boot in
      boxed (mount_loop img_path_str root_mount)
  end.

(** ** The encrypted state *)

Definition c_is_unlocked (c_dir : string) : sys bool := trigger (PathIsDir (path_join c_dir "home")).

Definition add_fscrypt_key (dir : string) (raw_key : list byte) : sys (result unit string) :=
  match raw_key with
  | [] => mret (Err "fscrypt key is empty")
  | _ =>
      let! key := lift (repeat_key 64 0 raw_key) in
      let? dir := mret (utf8_path dir) in
      let? _ := add_key dir key in
      mret (Ok tt)
  end.

Definition decrypt_age_with_key (cipher key_material : list byte) : result (list byte) string :=
  let key_string := trim (from_utf8_lossy key_material) in
  let identities := if is_empty key_string then []
                    else scrypt_identity key_string :: option_list (x25519_identity key_string) in
  match identities with
  | [] => Err "age decrypt key is empty"
  | _ =>
      match age_decryptor cipher with
      | Err e => Err ("decryptor: " +:+ e)
      | Ok d =>
          match age_decrypt d identities with
          | Err e => Err ("decrypt: " +:+ e)
          | Ok (data, Ok _) => Ok data
          | Ok (_, Err e) => Err e
          end
      end
  end.

Definition decrypt_age_with_key_file (path : string) (key_material : list byte)
    : sys (result (list byte) string) :=
  let? cipher := boxed (trigger (FsRead path)) in
  mret (decrypt_age_with_key cipher key_material).

Definition unlock_c_with_tpm (c_dir : string) (verified_boot : bool) : sys (result unit string) :=
  let? fscrypt_key := unseal_key verified_boot in
  let? _ := add_fscrypt_key c_dir fscrypt_key in
  let! unlocked := c_is_unlocked c_dir in
  if negb unlocked then mret (Err (lossy c_dir +:+ " did not unlock with TPM"))
  else
    let! dev := open_tpm in
    match dev with
    | Ok dev =>
        do! pcr_extend dev 7 in
        mret (Ok tt)
    | Err _ => mret (Ok tt)
    end.

(** One attempt with a password that is not empty. *)
Definition try_password (c_dir c_age pass : string) : sys (result unit string) :=
  let! e := trigger (PathExists c_age) in
  let? key := (if (e : bool) then decrypt_age_with_key_file c_age (as_bytes pass)
               else mret (Ok (as_bytes pass))) in
  let? _ := add_fscrypt_key c_dir key in
  let! unlocked := c_is_unlocked c_dir in
  mret (if (unlocked : bool) then Ok tt else Err (lossy c_dir +:+ " did not unlock")).

(** [attempts] of the three attempts are left. *)
Fixpoint password_attempts (attempts : nat) (c_dir c_age : string) : sys (result unit string) :=
  match attempts with
  | O => mret (Err ("failed to unlock " +:+ lossy c_dir))
  | S attempts =>
      do! trigger (PathExists c_age) in
      let? pass := read_secret in
      if is_empty pass then password_attempts attempts c_dir c_age
      else
        let! r := try_password c_dir c_age pass in
        match r with
        | Ok _ => mret (Ok tt)
        | Err e => match attempts with
                   | S _ => password_attempts attempts c_dir c_age
                   | O => mret (Err e)
                   end
        end
  end.

Definition unlock_c_with_password (c_dir c_age : string) : sys (result unit string) :=
  password_attempts 3 c_dir c_age.

Definition unlock_state_c (state_mount : string) (verified_boot : bool) : sys (result unit string) :=
  let c_dir := path_join state_mount "c" in
  let! exists_ := trigger (PathExists c_dir) in
  if negb exists_ then mret (Ok tt)
  else
    let! unlocked := c_is_unlocked c_dir in
    if (unlocked : bool) then
      mret (if verified_boot then Err (lossy c_dir +:+ " is already unlocked before initrd unlock")
            else Ok tt)
    else
      let c_age := path_join state_mount "initos/c.age" in
      let! tpm := trigger (PathExists "/dev/tpmrm0") in
      let! by_tpm := (if (tpm : bool) then unlock_c_with_tpm c_dir verified_boot
                      else mret (Err "")) in
      match by_tpm with
      | Ok _ => mret (Ok tt)
      | Err _ => unlock_c_with_password c_dir c_age
      end.

(** ** Init *)

Fixpoint first_file (root_mount : string) (candidates : list string) : sys (option string) :=
  match candidates with
  | [] => mret None
  | candidate :: candidates =>
      let! f := trigger (PathIsFile (path_join root_mount (trim_start_matches (Ascii.eqb "/") candidate))) in
      if (f : bool) then mret (Some candidate) else first_file root_mount candidates
  end.

Definition select_init (state_mount root_mount : string) : sys (result SelectedInit string) :=
  let! init := env_var "INITOS_INIT" in
  match init with
  | Some init => mret (Ok {| init_path := init; init_args := [] |})
  | None =>
      let! encrypted := trigger (PathIsFile (path_join state_mount "c/initos/init")) in
      if (encrypted : bool) then mret (Ok {| init_path := "/z/c/initos/init"; init_args := [] |})
      else
        let! r := first_file root_mount ["/nix/var/nix/profiles/system/bin/init"; "/sbin/init"] in
        match r with
        | Some candidate => mret (Ok {| init_path := candidate; init_args := [] |})
        | None =>
            let systemd := "/lib/systemd/systemd" in
            let? p := boxed (resolve_root_path root_mount (trim_start_matches (Ascii.eqb "/") systemd)) in
            let! f := trigger (PathIsFile p) in
            if (f : bool) then mret (Ok {| init_path := systemd; init_args := ["--system"] |})
            else
              let! r := first_file root_mount ["/opt/initos/bin/initos-init"] in
              match r with
              | Some candidate => mret (Ok {| init_path := candidate; init_args := [] |})
              | None => mret (Err "no init found: checked /z/c/initos/init, /opt/initos/bin/initos-init, /sbin/init, /lib/systemd/systemd")
              end
        end
  end.

(** ** The data partition *)

Definition MS : Z := 1000000.

(** The scan of the boot disk: [None] when the deadline passes. *)
Fixpoint search_boot_disk (fuel : nat) (disk label : string) (deadline : Z) : sys (option string) :=
  match fuel with
  | O => Halt OutOfFuel
  | S fuel =>
      let! now := trigger InstantNow in
      if deadline <=? now then mret None
      else
        let! r := find_partition_on_disk_by_label disk label in
        match r with
        | Ok (Some dev) => mret (Some dev)
        | _ =>
            do! trigger (ThreadSleep 500) in
            search_boot_disk fuel disk label deadline
        end
  end.

(** Partition 1 of the boot disk, if it is ext4; otherwise the last error. *)
Definition fallback_partition (boot_disk : option string) (last_error : io_error) : sys (io string) :=
  match boot_disk with
  | None => mret (Err last_error)
  | Some disk =>
      let! r := find_partition_by_number disk 1 in
      match r with
      | Ok (Some part1) =>
          let? ext4 := is_ext4 part1 in
          mret (if (ext4 : bool) then Ok part1 else Err last_error)
      | _ => mret (Err last_error)
      end
  end.

Fixpoint search_label (fuel : nat) (label : string) (boot_disk : option string) (deadline : Z)
    : sys (io string) :=
  match fuel with
  | O => Halt OutOfFuel
  | S fuel =>
      let! r := find_partition_by_label label in
      match r with
      | Ok dev => mret (Ok dev)
      | Err e =>
          let! now := trigger InstantNow in
          if now <? deadline then
            do! trigger (ThreadSleep 1000) in
            let! now := trigger InstantNow in
            if deadline <=? now then fallback_partition boot_disk e
            else search_label fuel label boot_disk deadline
          else fallback_partition boot_disk e
      end
  end.

Definition find_data_device (label : string) (boot_disk : option string) : sys (io string) :=
  let! start := trigger InstantNow in
  let deadline := start + 20000 * MS in
  let! on_disk := (match boot_disk with
                   | Some disk => search_boot_disk 41 disk label deadline
                   | None => mret None
                   end) in
  match on_disk with
  | Some dev => mret (Ok dev)
  | None => search_label 21 label boot_disk deadline
  end.

(** ** The boot sequence *)

Fixpoint mount_initial (mounts : list (string * string)) : sys unit :=
  match mounts with
  | [] => mret tt
  | (fs, mp) :: mounts =>
      do! mount_pseudo_fs fs mp in
      mount_initial mounts
  end.

Definition boot_partition_of (info : option BootDeviceInfo) : sys (option string * option string) :=
  match info with
  | Some info =>
      let! r := find_boot_disk (partition_guid info) (Some (partition_number info)) in
      mret (match r with Ok (Some (disk, part)) => (Some disk, Some part) | _ => (None, None) end)
  | None => mret (None, None)
  end.

Definition set_var_opt (name : string) (v : option string) : sys unit :=
  match v with Some v => trigger (SetVar name (lossy v)) | None => mret tt end.

(** From the verified-mode decision to [switch_root]. *)
Definition boot_verified (img data : string) (verified_boot : bool) : sys (result unit string) :=
  let! efi_base_path := env_or "INITOS_EFI_PATH" EFIVARS in
  let! info := extract_boot_device_info efi_base_path in
  let boot_device_info := match info with Ok i => i | Err _ => None end in
  let boot_partition_id := partition_number <$> boot_device_info in
  let! ' (boot_disk, boot_partition) := boot_partition_of boot_device_info in
  do! set_var_opt "INITOS_BOOT_DISK" boot_disk in
  do! set_var_opt "INITOS_BOOT_PARTITION" boot_partition in
  let? dev := boxed (find_data_device data boot_disk) in
  let state_mount := "/z" in
  match to_str dev with
  | None => Halt Panic
  | Some dev =>
      let? _ := boxed (mount_filesystem dev state_mount "ext4" false) in
      let? _ := unlock_state_c state_mount verified_boot in
      let root_mount := "/sysroot" in
      let? _ := mount_rootfs state_mount root_mount img verified_boot boot_partition_id in
      let? _ := boxed (bind_mount state_mount (root_mount +:+ "/z")) in
      let? _ := mount_host_images state_mount root_mount verified_boot boot_partition_id in
      let? _ := bind_encrypted_state_paths state_mount root_mount in
      let? _ := mount_system_filesystems root_mount in
      let? init := select_init state_mount root_mount in
      boxed (switch_root_with_args root_mount (init_path init) (init_args init))
  end.

(** The closure of [cmd_boot]: the value of the cell [verified_boot_mode] and
    the result. *)
Definition boot_run : sys (option bool * result unit string) :=
  let! img := env_or "INITOS_IMG" "/img/initos.erofs" in
  let! data := env_or "INITOS_DATA" "STATE" in
  do! kernel_release in
  do! trigger ProcessId in
  do! mount_initial [("proc", "/proc"); ("sysfs", "/sys"); ("efivarfs", EFIVARS); ("devtmpfs", "/dev")] in
  let! decision := detect_verified_boot_strict in
  match decision with
  | Err e => mret (None, Err e)
  | Ok verified_boot =>
      let! r := boot_verified img data verified_boot in
      mret (Some verified_boot, r)
  end.

Definition DEV_INIT : string := "/opt/initos/bin/initos-initrd".

Definition cmd_boot : sys (result unit string) :=
  let! ' (verified_boot_mode, r) := boot_run in
  match r with
  | Ok _ => mret (Ok tt)
  | Err e =>
      if bool_decide (verified_boot_mode = Some false) then
        let boot_error := replace (str1 (chr 0)) (String (chr 92) "0") e in
        do! trigger (SetVar "INITOS_BOOT_ERROR" boot_error) in
        let! failed := trigger (LibcExecv DEV_INIT [DEV_INIT]) in
        match failed with
        | None => Halt Replaced
        | Some _ => Halt (Exit 1)
        end
      else
        do! trigger (ThreadSleep 10000) in
        Halt (Exit 1)
  end.

End Boot.
