(* ===== verification/BootDisk.v ===== *)
(** The search for the boot disk on real hardware ([src/mount.rs],
    [find_boot_disk]): on a machine with given disks and partitions, as sysfs
    shows them in any order, the search answers the partition that was asked
    for, and nothing when there is none or when a bare number is ambiguous. *)

From S2P Require Import Prelude Prog Str PathLib Sys World Verity Efi Verify Tpm Fscrypt Cmd Mount Boot.

(** ** Hardware, and what sysfs shows of it *)

Record partition : Type := Partition {
  part_disk : string;
  part_number : Z;
  part_guid : list byte;
}.
#[export] Instance partition_eq_dec : EqDecision partition.
Proof. solve_decision. Defined.

Definition part_name (p : partition) : string := kernel_partition_name (part_disk p) (part_number p).
(** The device nodes of its disk and of itself. *)
Definition nodes_of (p : partition) : string * string :=
  ("/dev/" +:+ part_disk p, "/dev/" +:+ part_name p).

(** The names of devices are text, and components of a path. *)
Definition device_name (n : string) : Prop := is_name n /\ n <> ".." /\ to_str n = Some n /\ lossy n = n.

(** The whole disks and other devices, and the partitions: names and GUIDs are
    unique, and each partition is on one of the disks. *)
Record hardware : Type := Hardware { whole : list string; parts : list partition }.
Record hardware_ok (m : hardware) : Prop := {
  ok_names : NoDup (whole m ++ map part_name (parts m));
  ok_guids : NoDup (map part_guid (parts m));
  ok_devices : Forall device_name (whole m ++ map part_name (parts m));
  ok_disks : Forall (fun p => part_disk p ∈ whole m) (parts m);
  ok_parts : Forall (fun p => 0 <= part_number p < U32 /\ length (part_guid p) = 16%nat) (parts m);
}.

Definition class_file (n file : string) : string := path_join (path_join "/sys/class/block" n) file.

(** sysfs answers: partitions have a [partition] file with their number and a
    [uevent] file with their GUID, and are directories of their disk. *)
Definition shows (m : hardware) (A : Type) (e : sysE A) : A -> Prop :=
  match e in sysE A return A -> Prop with
  | PathExists path => fun r =>
      (path = "/sys/class/block" \/ path = "/sys/block" -> r = true) /\
      (forall n, n ∈ whole m -> path = class_file n "partition" -> r = false) /\
      (forall p, p ∈ parts m ->
         (path = class_file (part_name p) "partition" -> r = true) /\
         (path = path_join "/sys/block" (part_name p) -> r = false) /\
         forall d, d ∈ whole m ->
           (path = path_join (path_join "/sys/block" d) (part_name p) -> r = bool_decide (d = part_disk p)) /\
           (path = path_join (path_join (path_join "/sys/block" d) (part_name p)) "partition" ->
              r = bool_decide (d = part_disk p)))
  | FsReadDir path => fun r =>
      (path = "/sys/class/block" -> exists names, names ≡ₚ whole m ++ map part_name (parts m) /\ r = Ok (map Ok names)) /\
      (path = "/sys/block" -> exists names, names ≡ₚ whole m /\ r = Ok (map Ok names))
  | FsRead path => fun r => forall p, p ∈ parts m ->
      (path = class_file (part_name p) "partition" ->
         exists data s, r = Ok data /\ from_utf8 data = Some s /\ trim s = fmt_dec (part_number p)) /\
      (path = class_file (part_name p) "uevent" ->
         exists data s, r = Ok data /\ from_utf8 data = Some s /\
           find_line "PARTUUID=" (lines s) = Some (format_guid_uuid (part_guid p)))
  | _ => fun _ => True
  end.

Definition sysfs (m : hardware) : protocol sysE :=
  Protocol (E := sysE) (fun _ _ _ => True) (fun _ A e x => shows m A e x).

(** ** The loop, as a search in the list of names *)

Section search.
Context (m : hardware).
Context (guid : option (list byte)) (number : option Z).

Definition has_name (n : string) (p : partition) : bool := (part_name p =? n)%string.
Definition number_ok (p : partition) : bool :=
  match number with Some n => part_number p =? n | None => true end.
(** The partitions with the number that is asked for, in the order of the names. *)
Definition hits (names : list string) : list partition :=
  omap (fun n => p ← List.find (has_name n) (parts m); if number_ok p then Some p else None) names.

Definition chosen (before : list partition) (names : list string) : option (string * string) :=
  match guid with
  | Some g => nodes_of <$> List.find (fun p => bytes_eqb (part_guid p) g) (hits names)
  | None => match number, before ++ hits names with
            | Some _, [p] => Some (nodes_of p)
            | _, _ => None
            end
  end.
End search.

Section loop.
Context `{X : Externals}.
Context (m : hardware) (Hm : hardware_ok m).
Abbreviation S := (sysfs m).

Lemma wp_read_number_shown p h :
  p ∈ parts m ->
  wp S (read_number (class_file (part_name p) "partition")) h (fun _ o => o = Done (Some (part_number p))).
Proof.
  intros Hp. apply wp_bind, wp_try, wp_trigger; [done|]. intros r Hr.
  destruct (proj1 (Hr p Hp) eq_refl) as (data&s&->&Hu&Ht). rewrite Hu. apply wp_ret. cbn. rewrite Ht.
  pose proof (proj1 (Forall_forall _ _) (ok_parts _ Hm) p Hp) as [Hn _]. by rewrite parse_u32_fmt_dec.
Qed.

Lemma wp_read_guid_shown p h :
  p ∈ parts m ->
  wp S (read_uevent_value (class_file (part_name p) "uevent") "PARTUUID") h
    (fun _ o => o = Done (Ok (Some (format_guid_uuid (part_guid p))))).
Proof.
  intros Hp. apply wp_try, wp_try, wp_trigger; [done|]. intros r Hr.
  destruct (proj2 (Hr p Hp) eq_refl) as (data&s&->&Hu&Ht). rewrite Hu. apply wp_ret, wp_ret.
  change ("PARTUUID" +:+ "=") with "PARTUUID=". by rewrite Ht.
Qed.

Lemma wp_search_disks p names h :
  p ∈ parts m -> (forall n, n ∈ names -> n ∈ whole m) -> part_disk p ∈ names ->
  wp S (search_disks (part_name p) (map Ok names)) h (fun _ o => o = Done (Ok (Some ("/dev/" +:+ part_disk p)))).
Proof.
  intros Hp. revert h. induction names as [|d names IH]; intros h Hw Hin; [by apply elem_of_nil in Hin|].
  cbn [map search_disks]. assert (d ∈ whole m) as Hd by (apply Hw; left).
  assert (lossy d = d) as Hl by (by apply (proj1 (Forall_forall _ _) (ok_devices _ Hm) d), elem_of_app; left).
  apply wp_bind, wp_bind, wp_trigger; [done|]. intros e (_&_&He). destruct (He p Hp) as (_&_&Hdisk).
  rewrite (proj1 (Hdisk d Hd) eq_refl). case_bool_decide as E.
  - apply wp_trigger; [done|]. intros e2 (_&_&He2). destruct (He2 p Hp) as (_&_&Hdisk2).
    rewrite (proj2 (Hdisk2 d Hd) eq_refl), bool_decide_eq_true_2 by done. apply wp_ret. by rewrite Hl, E.
  - apply wp_ret. apply elem_of_cons in Hin as [Hin|Hin]; [congruence|]. apply IH; [|done].
    intros n Hn. apply Hw. by right.
Qed.

Lemma wp_resolve_shown p h :
  p ∈ parts m ->
  wp S (resolve_parent_disk ("/dev/" +:+ part_name p)) h (fun _ o => o = Done (Ok (Some ("/dev/" +:+ part_disk p)))).
Proof.
  intros Hp. pose proof (proj1 (Forall_forall _ _) (ok_devices _ Hm) (part_name p)) as (Hn&Hd&Hs&_).
  { apply elem_of_app. right. by apply list_elem_of_fmap_2. }
  assert (file_name_str ("/dev/" +:+ part_name p) = Some (part_name p)) as Hf.
  { unfold file_name_str. change ("/dev/" +:+ part_name p) with ("/dev" +:+ "/" +:+ part_name p).
    rewrite <- path_join_rel by (done || by apply is_name_rel). by rewrite file_name_join. }
  unfold resolve_parent_disk. rewrite Hf. apply wp_bind, wp_trigger; [done|]. intros e [He _]. rewrite He by auto.
  cbn [negb]. apply wp_bind, wp_bind, wp_trigger; [done|]. intros e1 (_&_&He1).
  destruct (He1 p Hp) as (_&Hno&_). rewrite (Hno eq_refl). apply wp_ret, wp_bind, wp_ret.
  apply wp_try, wp_trigger; [done|]. intros r [_ Hr]. destruct (Hr eq_refl) as (names&Hperm&->).
  apply wp_try. eapply wp_mono; [apply wp_search_disks; [done|intros n; by rewrite Hperm|]|].
  - rewrite Hperm. by apply (proj1 (Forall_forall _ _) (ok_disks _ Hm)).
  - by intros h1 o ->.
Qed.

Implicit Types (guid : option (list byte)) (number : option Z).

Definition known (n : string) : Prop := n ∈ whole m ++ map part_name (parts m).

(** A name is that of a disk or of a partition. *)
Lemma known_find n :
  known n ->
  (List.find (has_name n) (parts m) = None /\ n ∈ whole m) \/
  (exists p, List.find (has_name n) (parts m) = Some p /\ p ∈ parts m /\ n = part_name p).
Proof.
  intros Hn. destruct (List.find (has_name n) (parts m)) as [p|] eqn:E.
  - right. exists p. apply find_some in E as [Hin E]. apply String.eqb_eq in E. split; [done|].
    split; [by apply list_elem_of_In|done].
  - left. split; [done|]. apply elem_of_app in Hn as [?|Hn]; [done|].
    apply list_elem_of_fmap in Hn as (p&->&Hp). apply list_elem_of_In in Hp. apply (find_none _ _ E) in Hp.
    unfold has_name in Hp. by rewrite String.eqb_refl in Hp.
Qed.

Definition hit number (n : string) : option partition :=
  p ← List.find (has_name n) (parts m); if number_ok number p then Some p else None.

Lemma chosen_cons guid number before n names :
  chosen m guid number before (n :: names) =
  match hit number n with
  | None => chosen m guid number before names
  | Some p =>
      match guid with
      | Some g => if bytes_eqb (part_guid p) g then Some (nodes_of p) else chosen m guid number before names
      | None => chosen m guid number (before ++ [p]) names
      end
  end.
Proof.
  unfold chosen, hits. cbn [omap list_omap]. fold (hit number n). destruct (hit number n) as [p|]; [|done].
  destruct guid as [g|]; [|by rewrite <- (assoc_L app)]. cbn [List.find]. by destruct (bytes_eqb _ _).
Qed.

Lemma guid_matches p g :
  p ∈ parts m -> length g = 16%nat ->
  bool_decide (normalize_uuid <$> Some (format_guid_uuid (part_guid p)) = Some (guid_plain g)) =
  bytes_eqb (part_guid p) g.
Proof.
  intros Hp Hg. pose proof (proj1 (Forall_forall _ _) (ok_parts _ Hm) p Hp) as [_ Hl].
  change (normalize_uuid <$> Some (format_guid_uuid (part_guid p))) with (Some (normalize_uuid (format_guid_uuid (part_guid p)))).
  rewrite normalize_format_guid. apply bool_decide_ext. split; [|by intros ->]. intros E%Some_inj.
  by apply guid_plain_inj in E.
Qed.

Lemma wp_entries guid number before names h :
  (forall g, guid = Some g -> length g = 16%nat) ->
  Forall known names -> before = [] \/ (guid = None /\ is_Some number) ->
  wp S (boot_disk_entries (guid_plain <$> guid) number (map nodes_of before) (map Ok names)) h
    (fun _ o => o = Done (Ok (chosen m guid number before names))).
Proof.
  intros Hg Hn. revert before h. induction Hn as [|n names Hk Hn IH]; intros before h Hb; cbn [map boot_disk_entries].
  { unfold chosen. cbn [hits omap list_omap]. rewrite app_nil_r. destruct Hb as [->|[-> [k ->]]].
    - by destruct guid, number.
    - by destruct before as [|p [|q before]]. }
  rewrite chosen_cons. cbv zeta. fold (class_file n "partition").
  apply wp_bind, wp_trigger; [done|]. intros e (_&Hw&He). unfold hit.
  destruct (known_find n Hk) as [[Hf Hin]|(p&Hf&Hp&->)]; rewrite Hf; cbn [mbind option_bind].
  { rewrite (Hw n Hin eq_refl). by apply IH. }
  rewrite (proj1 (He p Hp) eq_refl). cbn [negb]. clear e Hw He.
  apply wp_bind. eapply wp_mono; [by apply wp_read_number_shown|]. intros h1 o ->.
  assert (bool_decide (is_Some number) && negb (bool_decide (Some (part_number p) = number)) =
    negb (number_ok number p)) as ->.
  { unfold number_ok. destruct number as [k|]; [|done]. cbn. f_equal. destruct (Z.eqb_spec (part_number p) k).
    - apply bool_decide_eq_true_2. congruence.
    - apply bool_decide_eq_false_2. congruence. }
  destruct (number_ok number p); cbn [negb]; [|by apply IH].
  pose proof (proj1 (Forall_forall _ _) (ok_devices _ Hm) (part_name p)) as (_&_&_&Hl).
  { apply elem_of_app. right. by apply list_elem_of_fmap_2. }
  apply wp_try. rewrite Hl. eapply wp_mono; [by apply wp_resolve_shown|]. intros h2 o ->.
  destruct guid as [g|]; cbn [fmap option_fmap option_map].
  - destruct Hb as [->|[[=] _]]. apply wp_try. fold (class_file (part_name p) "uevent").
    eapply wp_mono; [by apply wp_read_guid_shown|]. intros h3 o ->. rewrite <- (guid_matches p g Hp (Hg g eq_refl)).
    destruct (bool_decide _); [done|]. apply (IH []). by left.
  - destruct number as [k|].
    + rewrite bool_decide_eq_true_2 by done. change (map nodes_of before ++ [_]) with (map nodes_of before ++ map nodes_of [p]).
      rewrite <- map_app.
      apply IH. right. by eexists.
    + destruct Hb as [->|[_ [k [=]]]]. rewrite bool_decide_eq_false_2 by (by intros [k [=]]).
      eapply wp_mono; [apply (IH []); by left|]. by intros h3 o ->.
Qed.

Lemma wp_find_boot_disk guid number h :
  (forall g, guid = Some g -> length g = 16%nat) ->
  wp S (find_boot_disk guid number) h (fun _ o => exists names, names ≡ₚ whole m ++ map part_name (parts m) /\
    o = Done (Ok (chosen m guid number [] names))).
Proof.
  intros Hg. apply wp_bind, wp_trigger; [done|]. intros e [He _]. rewrite He by auto. cbn [negb].
  apply wp_try, wp_trigger; [done|]. intros r [Hr _]. destruct (Hr eq_refl) as (names&Hp&->).
  eapply wp_mono; [apply (wp_entries guid number []); [done| |by left]|].
  - apply Forall_forall. intros n. by rewrite Hp.
  - intros h1 o ->. by exists names.
Qed.

(** ** What is chosen does not depend on the order *)

Lemma NoDup_map_eq {A B} (f : A -> B) l x y : NoDup (map f l) -> x ∈ l -> y ∈ l -> f x = f y -> x = y.
Proof.
  intros Hd [i Hi]%list_elem_of_lookup_1 [j Hj]%list_elem_of_lookup_1 E.
  assert (i = j) as ->; [|congruence].
  eapply NoDup_lookup; [exact Hd|by apply list_lookup_fmap_Some; eauto|apply list_lookup_fmap_Some; eauto].
Qed.

Lemma hit_some number n p : hit number n = Some p <-> n = part_name p /\ p ∈ parts m /\ number_ok number p = true.
Proof.
  unfold hit. rewrite bind_Some. split.
  - intros (q&Hf&Hq). apply find_some in Hf as [Hin E]. destruct (number_ok number q) eqn:Ho; [|done].
    injection Hq as ->. apply String.eqb_eq in E. by rewrite list_elem_of_In.
  - intros (->&Hp&Ho). exists p. rewrite Ho. split; [|done].
    destruct (known_find (part_name p)) as [[Hf Hw]|(q&Hf&Hq&E)].
    + apply elem_of_app. right. by apply list_elem_of_fmap_2.
    + pose proof (ok_names _ Hm) as (_&Hd&_)%NoDup_app. destruct (Hd _ Hw). by apply list_elem_of_fmap_2.
    + rewrite Hf. f_equal. pose proof (ok_names _ Hm) as (_&_&Hd)%NoDup_app. by eapply NoDup_map_eq.
Qed.

Lemma elem_of_hits number names p :
  names ≡ₚ whole m ++ map part_name (parts m) ->
  p ∈ hits m number names <-> p ∈ parts m /\ number_ok number p = true.
Proof.
  intros Hp. unfold hits. rewrite list_elem_of_omap. split.
  - intros (n&_&H). change (hit number n = Some p) in H. by apply hit_some in H as (_&?&?).
  - intros [Hin Ho]. exists (part_name p). split.
    + rewrite Hp. apply elem_of_app. right. by apply list_elem_of_fmap_2.
    + by apply hit_some.
Qed.

Lemma NoDup_hits number names : NoDup names -> NoDup (hits m number names).
Proof.
  induction 1 as [|n names Hn _ IH]; [constructor|]. unfold hits. cbn [omap list_omap]. fold (hit number n).
  destruct (hit number n) as [p|] eqn:E; [|done]. constructor; [|done]. apply hit_some in E as [-> _].
  intros (n'&Hn'&E')%list_elem_of_omap. change (hit number n' = Some p) in E'. by apply hit_some in E' as [-> _].
Qed.

(** The partition that is asked for: the one with the GUID, and the number if
    it is given too; without a GUID, the only one with the number. *)
Definition wanted guid number (p : partition) : Prop :=
  p ∈ parts m /\ number_ok number p = true /\
  match guid with
  | Some g => part_guid p = g
  | None => is_Some number /\ forall q, q ∈ parts m -> number_ok number q = true -> q = p
  end.

Lemma chosen_wanted guid number names d :
  names ≡ₚ whole m ++ map part_name (parts m) ->
  chosen m guid number [] names = Some d <-> exists p, wanted guid number p /\ d = nodes_of p.
Proof.
  intros Hp. pose proof (fun p => elem_of_hits number names p Hp) as Hin.
  assert (NoDup (hits m number names)) as Hnd by (apply NoDup_hits; rewrite Hp; apply (ok_names _ Hm)).
  unfold chosen, wanted. cbn [app]. destruct guid as [g|].
  - destruct (List.find _ (hits m number names)) as [p|] eqn:E.
    + apply find_some in E as [Hp1 E]. apply list_elem_of_In, Hin in Hp1 as [Hp1 Ho]. apply bool_decide_eq_true in E.
      split; [intros [= <-]; by exists p|]. intros (q&(Hq&_&Hg)&->).
      assert (p = q) as ->; [|done]. apply (NoDup_map_eq part_guid (parts m)); [apply (ok_guids _ Hm)|done..|congruence].
    + split; [done|]. intros (p&(Hp1&Ho&Hg)&_). exfalso. assert (p ∈ hits m number names) as H by by apply Hin.
      apply list_elem_of_In in H. apply (find_none _ _ E) in H. by apply bool_decide_eq_false in H.
  - destruct number as [k|]; [|split; [done|]; by intros (p&(_&_&[n [=]]&_)&_)].
    destruct (hits m (Some k) names) as [|p [|q l]] eqn:E.
    + split; [done|]. intros (p&(Hp1&Ho&_)&_). exfalso. assert (p ∈ []) as H by by apply Hin. by apply elem_of_nil in H.
    + assert (p ∈ [p]) as [Hp1 Ho]%Hin by left. split.
      * intros [= <-]. exists p. split_and!; try done. intros q Hq Hoq.
        assert (q ∈ [p]) as H by by apply Hin. by apply list_elem_of_singleton in H.
      * intros (q&(_&_&_&Hu)&->). by rewrite (Hu p).
    + split; [done|]. intros (r&(_&_&_&Hu)&_). exfalso.
      assert (p ∈ p :: q :: l) as [? ?]%Hin by left. assert (q ∈ p :: q :: l) as [? ?]%Hin by (right; left).
      apply NoDup_cons in Hnd as [Hnd _]. apply Hnd. rewrite (Hu p), (Hu q) by done. left.
Qed.

End loop.

(** ** Property *)

(** C28: The search for the boot disk is exact: on every machine with given disks
    and partitions, whose names and GUIDs are unique, and whatever the order in
    which sysfs lists them, [find_boot_disk] returns without error, and it
    answers a partition if and only if it is the one that is asked for: the one
    with the GUID, and with the number if that is given too; without a GUID, the
    only partition of the machine with the number, since an ambiguous number is
    refused.  The answer names its device and the device of its disk. *)
Theorem find_boot_disk_exact `{X : Externals} (m : hardware) (guid : option (list byte)) (number : option Z)
    (t : hist sysE) (o : outcome (io (option (string * string)))) :
  hardware_ok m -> (forall g, guid = Some g -> length g = 16%nat) ->
  exec (find_boot_disk guid number) t o -> answered (sysfs m) [] t ->
  exists r, o = Done (Ok r) /\ forall d, r = Some d <-> exists p, wanted m guid number p /\ d = nodes_of p.
Proof.
  intros Hm Hg H Ha.
  destruct (wp_sound _ _ [] t o _ (wp_find_boot_disk m Hm guid number [] Hg) H Ha) as (_&names&Hp&->).
  eexists. split; [done|]. intros d. by apply chosen_wanted.
Qed.

(** ** From the firmware to the device *)

(** The variables of efivarfs that tell which option was started. *)
Definition started_by (base : string) (n : Z) (opt : list byte) (A : Type) (e : sysE A) : A -> Prop :=
  match e in sysE A return A -> Prop with
  | FsRead path => fun r =>
      (path = base +:+ "/BootCurrent-" +:+ EFI_GLOBAL_GUID -> exists attrs, length attrs = 4%nat /\ r = Ok (attrs ++ to_le 2 n)) /\
      (path = base +:+ "/" +:+ ("Boot" +:+ fmt_hex true 4 n) +:+ "-" +:+ EFI_GLOBAL_GUID ->
         exists attrs, length attrs = 4%nat /\ r = Ok (attrs ++ opt))
  | _ => fun _ => True
  end.

(** A machine that was started by the boot option [n]. *)
Definition started (m : hardware) (base : string) (n : Z) (opt : list byte) : protocol sysE :=
  Protocol (E := sysE) (fun _ _ _ => True) (fun _ A e x => shows m A e x /\ started_by base n opt A e x).

Section started.
Context `{X : Externals}.
Context (m : hardware) (base : string) (n : Z) (opt : list byte) (Hn : 0 <= n < U16).
Abbreviation S := (started m base n opt).

Lemma strip_attributes_app attrs l : length attrs = 4%nat -> strip_attributes (attrs ++ l) = Ok l.
Proof.
  intros Ha. unfold strip_attributes. rewrite (proj2 (Z.ltb_ge _ _)) by (unfold len; rewrite length_app; lia).
  by rewrite drop_app_length'.
Qed.

(** The variables are read and the option is parsed. *)
Lemma wp_boot_option_live {A} (parse : string -> list byte -> comp (io (option A))) r h :
  parse ("Boot" +:+ fmt_hex true 4 n) opt = Val r ->
  wp S (with_boot_option base parse) h (fun _ o => o = Done r).
Proof.
  intros Hp. unfold with_boot_option, read_boot_current, read_efi_var.
  apply wp_bind, wp_try, wp_try, wp_trigger; [done|]. intros x [_ [Hx _]].
  destruct (Hx eq_refl) as (attrs&Ha&->). rewrite strip_attributes_app by done. apply wp_ret.
  assert (len (to_le 2 n) = 2) as Hl by (unfold len; by rewrite length_to_le).
  rewrite (proj2 (Z.ltb_ge _ _)) by lia. apply wp_bind, wp_lift.
  rewrite (read_le_at 2 (to_le 2 n) [] (to_le 2 n) []) by (rewrite ?app_nil_r; done || apply length_to_le).
  rewrite le_of_to_le_small by exact Hn. apply wp_ret, wp_bind, wp_try, wp_trigger; [done|]. intros y [_ [_ Hy]].
  destruct (Hy eq_refl) as (attrs'&Ha'&->). rewrite strip_attributes_app by done. apply wp_ret, wp_lift.
  by rewrite Hp.
Qed.

Lemma wp_started {A} (p : sys A) h Q : wp (sysfs m) p h Q -> wp S p h Q.
Proof. apply wp_assume; [done|]. by intros h' B e x [H _]. Qed.

Lemma wp_boot_partition p h :
  hardware_ok m -> p ∈ parts m ->
  device_info_of_option ("Boot" +:+ fmt_hex true 4 n) opt =
    Val (Ok (Some {| partition_number := part_number p; partition_guid := Some (part_guid p);
                     mbr_signature := None; partition_format := 2 |})) ->
  wp S (let! info := extract_boot_device_info base in
        boot_partition_of (match info with Ok i => i | Err _ => None end)) h
    (fun _ o => o = Done (Some ("/dev/" +:+ part_disk p), Some ("/dev/" +:+ part_name p))).
Proof.
  intros Hm Hp Ho. apply wp_bind. eapply wp_mono; [by apply wp_boot_option_live|]. intros h1 o ->.
  pose proof (proj1 (Forall_forall _ _) (ok_parts _ Hm) p Hp) as [_ Hl].
  unfold boot_partition_of. apply wp_bind, wp_started.
  eapply wp_mono; [apply (wp_find_boot_disk m Hm); intros g [= <-]; exact Hl|].
  intros h2 o (names&Hperm&->). apply wp_ret. cbn [partition_guid partition_number].
  rewrite (proj2 (chosen_wanted m Hm (Some (part_guid p)) (Some (part_number p)) names (nodes_of p) Hperm)).
  - done.
  - exists p. split; [|done]. split; [done|]. split; [apply Z.eqb_refl|done].
Qed.

End started.

(** C27: The boot finds the partition that the firmware started: on a machine
    whose names and GUIDs are unique, whatever the order of sysfs, if BootCurrent
    selects a boot option -- with any attributes and description, and any device
    path whose first Hard Drive node is the GPT node of a partition of the
    machine --, then the steps of the boot sequence from the EFI variables to the
    devices, [extract_boot_device_info] and [boot_partition_of], give the device
    of this partition and that of its disk, where the data partition is looked
    for first. *)
Theorem boots_from_its_disk `{X : Externals} (m : hardware) (p : partition) (base : string) (n : Z)
    (attrs ss rest path_rest opt_data path : list byte) (desc : list Z) (ns : list (byte * byte * list byte))
    (t : hist sysE) (o : outcome (option string * option string)) :
  hardware_ok m -> p ∈ parts m -> 0 <= n < U16 ->
  length attrs = 4%nat -> Forall (fun u => 0 < u < U16) desc -> Forall node_wf ns -> length ss = 16%nat ->
  path = encode_nodes ns ++ encode_gpt_node (part_number p) ss (part_guid p) rest ++ path_rest -> len path < U16 ->
  exec (let! info := extract_boot_device_info base in
        boot_partition_of (match info with Ok i => i | Err _ => None end)) t o ->
  answered (started m base n (encode_load_option attrs desc path opt_data)) [] t ->
  o = Done (Some ("/dev/" +:+ part_disk p), Some ("/dev/" +:+ part_name p)).
Proof.
  intros Hm Hp Hn Ha Hd Hns Hss Hpath Hl H Hans.
  pose proof (proj1 (Forall_forall _ _) (ok_parts _ Hm) p Hp) as [Hnum Hg].
  destruct (boot_option_gpt_roundtrip ("Boot" +:+ fmt_hex true 4 n) attrs ss (part_guid p) rest path_rest opt_data
    desc ns (part_number p) path) as [Ho _]; [done..|].
  by destruct (wp_sound _ _ [] t o _ (wp_boot_partition m base n _ Hn p [] Hm Hp Ho) H Hans) as [_ ?].
Qed.

(** ** Witness: two disks with the same numbers *)

Definition guid_of (n : Z) : list byte := replicate 15 x11 ++ [z2b n].
Definition toy_hardware : hardware := {|
  whole := ["loop0"; "nvme0n1"; "sda"];
  parts := [Partition "nvme0n1" 1 (guid_of 1); Partition "nvme0n1" 2 (guid_of 2);
            Partition "sda" 2 (guid_of 3); Partition "sda" 3 (guid_of 4)] |}.

(** A world that shows the machine. *)
Definition names_shown (m : hardware) : list string := whole m ++ map part_name (parts m).
Definition part_dir (p : partition) : string := path_join (path_join "/sys/block" (part_disk p)) (part_name p).
Definition uevent_text (p : partition) : string :=
  "DEVTYPE=partition" +:+ str1 nl +:+ "PARTN=" +:+ fmt_dec (part_number p) +:+ str1 nl +:+
  "PARTUUID=" +:+ format_guid_uuid (part_guid p) +:+ str1 nl.
Definition sysfs_world (m : hardware) : world :=
  {| wfiles := list_to_map (concat (map (fun p =>
       [(class_file (part_name p) "partition", as_bytes (fmt_dec (part_number p) +:+ str1 nl));
        (class_file (part_name p) "uevent", as_bytes (uevent_text p));
        (path_join (part_dir p) "partition", as_bytes (fmt_dec (part_number p) +:+ str1 nl))]) (parts m)));
     wdirs := ["/sys/class/block"; "/sys/block"] ++ map part_dir (parts m);
     wlinks := ∅;
     wentries := <["/sys/class/block" := names_shown m]> {["/sys/block" := whole m]};
     wenv := ∅; wclock := 0; wnext := 3; wopen := ∅; wdev := ∅; wstdin := []; wpid := 1; wargs := [] |}.

(** Is the answer one of sysfs? *)
Definition implies (a b : bool) : bool := negb a || b.
Definition lists_names (names : list string) (r : io (list (io string))) : bool :=
  match r with Ok l => forallb is_ok l && bool_decide (omap result_ok l = names) | Err _ => false end.
Definition text_with (f : string -> bool) (r : io (list byte)) : bool :=
  match r with Ok data => match from_utf8 data with Some s => f s | None => false end | Err _ => false end.

Definition shows_ok (m : hardware) (v : event sysE) : bool :=
  match v with
  | @Ev _ A e x => match e in sysE A return A -> bool with
      | PathExists path => fun r =>
          implies ((path =? "/sys/class/block")%string || (path =? "/sys/block")%string) r &&
          forallb (fun n => implies (path =? class_file n "partition")%string (negb r)) (whole m) &&
          forallb (fun p =>
            implies (path =? class_file (part_name p) "partition")%string r &&
            implies (path =? path_join "/sys/block" (part_name p))%string (negb r) &&
            forallb (fun d =>
              implies (path =? path_join (path_join "/sys/block" d) (part_name p))%string
                (Bool.eqb r (bool_decide (d = part_disk p))) &&
              implies (path =? path_join (path_join (path_join "/sys/block" d) (part_name p)) "partition")%string
                (Bool.eqb r (bool_decide (d = part_disk p)))) (whole m)) (parts m)
      | FsReadDir path => fun r =>
          implies (path =? "/sys/class/block")%string (lists_names (names_shown m) r) &&
          implies (path =? "/sys/block")%string (lists_names (whole m) r)
      | FsRead path => fun r => forallb (fun p =>
          implies (path =? class_file (part_name p) "partition")%string
            (text_with (fun s => (trim s =? fmt_dec (part_number p))%string) r) &&
          implies (path =? class_file (part_name p) "uevent")%string
            (text_with (fun s => bool_decide (find_line "PARTUUID=" (lines s) = Some (format_guid_uuid (part_guid p)))) r))
          (parts m)
      | _ => fun _ => true
      end x
  end.

Lemma implies_elim a b r : implies (a =? b)%string r = true -> a = b -> r = true.
Proof. intros H ->. unfold implies in H. by rewrite String.eqb_refl in H. Qed.

Lemma forallb_elem {A} (f : A -> bool) l x : forallb f l = true -> x ∈ l -> f x = true.
Proof. rewrite forallb_forall. intros H Hx. by apply H, list_elem_of_In. Qed.

Lemma lists_names_spec names r : lists_names names r = true -> r = Ok (map Ok names).
Proof.
  destruct r as [l|]; [|done]. intros H. apply andb_prop in H as [Hf <-%bool_decide_eq_true]. f_equal.
  induction l as [|[n|e] l IH]; cbn in *; [done| |done]. by rewrite <- IH.
Qed.

Lemma text_with_spec f r : text_with f r = true -> exists data s, r = Ok data /\ from_utf8 data = Some s /\ f s = true.
Proof. destruct r as [data|]; [|done]. cbn. destruct (from_utf8 data) as [s|] eqn:E; [|done]. eauto. Qed.

Ltac elim_implies :=
  cbv beta in *; repeat match goal with
  | H : _ && _ = true |- _ => apply andb_prop in H; destruct H
  end.

Lemma shows_ok_spec m A (e : sysE A) x : shows_ok m (Ev e x) = true -> shows m A e x.
Proof.
  destruct e; cbn [shows_ok shows]; try done.
  - intros H p Hp. apply (forallb_elem _ _ p) in H; [|done]. elim_implies. split; intros E.
    all: eapply implies_elim in E; [|eassumption]; apply text_with_spec in E as (data&s&?&?&E); exists data, s.
    + by apply String.eqb_eq in E.
    + by apply bool_decide_eq_true in E.
  - intros H. elim_implies. split; [|split].
    + intros [-> | ->]; by destruct x.
    + intros n Hn E. apply (forallb_elem _ _ n) in H1; [|done]. elim_implies. eapply implies_elim in E; [|eassumption].
      by apply negb_true_iff.
    + intros p Hp. apply (forallb_elem _ _ p) in H0; [|done]. elim_implies.
      split; [intros E; by eapply implies_elim in E|]. split.
      { intros E. eapply implies_elim in E; [|eassumption]. by apply negb_true_iff. }
      intros d Hd. eapply (forallb_elem _ _ d) in Hd; [|done]. elim_implies.
      split; intros E; (eapply implies_elim in E; [|eassumption]); by apply Bool.eqb_prop.
  - intros H. elim_implies. split; intros E; (eapply implies_elim in E; [|eassumption]); apply lists_names_spec in E as ->;
      by eexists.
Qed.

Lemma shows_answered m h t : forallb (shows_ok m) t = true -> answered (sysfs m) h t.
Proof.
  intros H t1 [A e x] t2 ->. rewrite forallb_app in H. apply andb_prop in H as [_ H].
  apply andb_prop in H as [H _]. by apply shows_ok_spec.
Qed.

Lemma toy_hardware_ok : hardware_ok toy_hardware.
Proof.
  split; [by apply (bool_decide_unpack _)|by apply (bool_decide_unpack _)| |by apply (bool_decide_unpack _)|].
  - repeat constructor; try (vm_compute; discriminate).
  - repeat constructor; vm_compute; discriminate.
Qed.

(** The number 2 alone is ambiguous, the number 3 is not, and a GUID decides. *)
Lemma find_boot_disk_exact_witness :
  map (fun q => outcome_of (sysfs_world toy_hardware) (find_boot_disk q.1 q.2))
    [(None, Some 2); (None, Some 3); (Some (guid_of 3), None)] =
    [Done (Ok None); Done (Ok (Some ("/dev/sda", "/dev/sda3"))); Done (Ok (Some ("/dev/sda", "/dev/sda2")))] /\
  exists r, outcome_of (sysfs_world toy_hardware) (find_boot_disk (Some (guid_of 2)) (Some 2)) = Done (Ok r) /\
    forall d, r = Some d <-> exists p, wanted toy_hardware (Some (guid_of 2)) (Some 2) p /\ d = nodes_of p.
Proof.
  split; [vm_compute; reflexivity|].
  apply (find_boot_disk_exact toy_hardware (Some (guid_of 2)) (Some 2)
    (trace_of (sysfs_world toy_hardware) (find_boot_disk (Some (guid_of 2)) (Some 2)))).
  - exact toy_hardware_ok.
  - intros g [= <-]. reflexivity.
  - unfold trace_of, outcome_of. apply run_is_exec.
  - apply shows_answered. vm_compute. reflexivity.
Defined.

(** The second partition of [nvme0n1] was started, by the option 3. *)
Definition toy_option : list byte :=
  encode_load_option (zeros 4) [66; 111; 111; 116]
    (encode_nodes [(x02, x01, zeros 8)] ++ encode_gpt_node 2 (zeros 16) (guid_of 2) [] ++ []) [x07].
Definition option_name (n : Z) : string := "Boot" +:+ fmt_hex true 4 n.
Definition started_world (m : hardware) (n : Z) (opt : list byte) : world :=
  set_files (sysfs_world m)
    (<["/e/BootCurrent-" +:+ EFI_GLOBAL_GUID := zeros 4 ++ to_le 2 n]>
    (<["/e/" +:+ option_name n +:+ "-" +:+ EFI_GLOBAL_GUID := zeros 4 ++ opt]> (wfiles (sysfs_world m)))).

Definition data_is (l : list byte) (r : io (list byte)) : bool :=
  match r with Ok d => bytes_eqb (drop 4 d) l && (4 <=? len d) | Err _ => false end.
Definition started_ok (base : string) (n : Z) (opt : list byte) (v : event sysE) : bool :=
  match v with
  | @Ev _ A e x => match e in sysE A return A -> bool with
      | FsRead path => fun r =>
          implies (path =? base +:+ "/BootCurrent-" +:+ EFI_GLOBAL_GUID)%string (data_is (to_le 2 n) r) &&
          implies (path =? base +:+ "/" +:+ option_name n +:+ "-" +:+ EFI_GLOBAL_GUID)%string (data_is opt r)
      | _ => fun _ => true
      end x
  end.

Lemma data_is_spec l r : data_is l r = true -> exists attrs, length attrs = 4%nat /\ r = Ok (attrs ++ l).
Proof.
  destruct r as [d|]; [|done]. intros H. apply andb_prop in H as [<-%bool_decide_eq_true Hl%Z.leb_le].
  exists (take 4 d). rewrite take_drop. split; [|done]. unfold len in Hl. rewrite length_take. lia.
Qed.

Lemma started_answered m base n opt h t :
  forallb (shows_ok m) t = true -> forallb (started_ok base n opt) t = true ->
  answered (started m base n opt) h t.
Proof.
  intros Hs He t1 v t2 E. pose proof (shows_answered m h t Hs t1 v t2 E) as Hv.
  rewrite E, forallb_app in He. apply andb_prop in He as [_ He]. apply andb_prop in He as [He _].
  destruct v as [A e x]. split; [exact Hv|]. destruct e; try done. cbn [started_ok] in He. elim_implies.
  split; intros Ep; (eapply implies_elim in Ep; [|eassumption]); by apply data_is_spec.
Qed.

Lemma boots_from_its_disk_witness :
  outcome_of (started_world toy_hardware 3 toy_option)
    (let! info := extract_boot_device_info "/e" in
     boot_partition_of (match info with Ok i => i | Err _ => None end)) =
  Done (Some "/dev/nvme0n1", Some "/dev/nvme0n1p2").
Proof.
  apply (boots_from_its_disk toy_hardware (Partition "nvme0n1" 2 (guid_of 2)) "/e" 3 (zeros 4) (zeros 16) [] []
    [x07] (encode_nodes [(x02, x01, zeros 8)] ++ encode_gpt_node 2 (zeros 16) (guid_of 2) [] ++ [])
    [66; 111; 111; 116] [(x02, x01, zeros 8)]
    (trace_of (started_world toy_hardware 3 toy_option)
      (let! info := extract_boot_device_info "/e" in
       boot_partition_of (match info with Ok i => i | Err _ => None end)))).
  - exact toy_hardware_ok.
  - right. left.
  - vm_compute. split; [discriminate|reflexivity].
  - reflexivity.
  - repeat constructor; vm_compute; reflexivity.
  - repeat constructor; vm_compute; try reflexivity; intros H; discriminate H.
  - reflexivity.
  - reflexivity.
  - vm_compute. reflexivity.
  - unfold trace_of, outcome_of. apply run_is_exec.
  - apply started_answered; vm_compute; reflexivity.
Defined.
