(* ===== verification/RootPath.v ===== *)
(** Paths below the mounted root ([src/boot.rs], [resolve_root_path]): what is
    computed from the symbolic links of the root stays below it, as long as no
    link goes up. *)

From S2P Require Import Prelude Prog Str PathLib Sys World Mount Boot.

(** ** The names of a path *)

(** What the kernel looks up one after the other. *)
Definition names (p : string) : list string := List.filter (fun s => negb (skipped s)) (split_slash p).

Definition stays (p : string) : Prop := ".." ∉ names p.

#[export] Instance stays_dec p : Decision (stays p).
Proof. unfold stays. apply _. Defined.

(** [p] is [root] and names below it. *)
Definition below (root p : string) : Prop := exists k, names p = names root ++ k /\ ".." ∉ k.

Lemma names_app a b : names (a +:+ "/" +:+ b) = names a ++ names b.
Proof. unfold names. by rewrite split_slash_app, List.filter_app. Qed.

Lemma names_empty : names "" = [].
Proof. done. Qed.

Lemma names_join p q : is_absolute q = false -> names (path_join p q) = names p ++ names q.
Proof.
  intros Hq. unfold path_join. rewrite Hq. destruct (is_empty p) eqn:Ee; cbn [orb].
  { destruct p; [|done]. done. }
  destruct (ends_with "/" p) eqn:Es; [|apply names_app].
  apply ends_with_inv in Es as [t ->]. rewrite <- app_assoc_str, !names_app.
  change ("/" +:+ q) with ("" +:+ "/" +:+ q).
  pose proof (names_app t "") as Ht. rewrite app_nil_r_str, names_empty, app_nil_r in Ht. by rewrite Ht.
Qed.

Lemma names_segment s : no_slash s -> names s = List.filter (fun s => negb (skipped s)) [s].
Proof. intros Hs. unfold names. by rewrite split_slash_no_slash. Qed.

Lemma names_of_join l : Forall no_slash l -> names (join "/" l) = List.filter (fun s => negb (skipped s)) l.
Proof.
  induction 1 as [|s l Hs Hl IH]; [done|]. destruct l as [|s' l]; [by apply names_segment|].
  rewrite join_cons, names_app, IH, names_segment by done. by rewrite <- List.filter_app.
Qed.

Lemma filter_drop_skipped l :
  List.filter (fun s => negb (skipped s)) (drop_while skipped l) = List.filter (fun s => negb (skipped s)) l.
Proof. induction l as [|s l IH]; [done|]. cbn. by destruct (skipped s) eqn:E; cbn; rewrite ?E. Qed.

Lemma filter_rev_list {A} (f : A -> bool) l : List.filter f (rev l) = rev (List.filter f l).
Proof.
  induction l as [|a l IH]; [done|]. cbn. rewrite List.filter_app, IH. cbn.
  destruct (f a); [done|]. by rewrite app_nil_r.
Qed.

Lemma drop_while_sub {A} (f : A -> bool) l x : x ∈ drop_while f l -> x ∈ l.
Proof. induction l as [|a l IH]; [done|]. cbn. destruct (f a); [|done]. intros H. right. auto. Qed.

(** The target of an absolute link, relative to the root. *)
Lemma names_strip_root link rel :
  strip_root link = Some rel -> names rel = names link /\ is_absolute rel = false.
Proof.
  unfold strip_root. destruct (is_absolute link) eqn:Ea; [|done]. intros [= <-].
  apply starts_with_inv in Ea as [body ->]. unfold path_segs.
  change (path_parts ("/" +:+ body)) with ("/", body). cbn [snd]. set (l := split_slash body).
  set (k := rev (drop_while skipped (rev l))).
  assert (Forall no_slash (drop_while skipped k)) as Hk.
  { apply Forall_forall. intros s Hs. apply drop_while_sub in Hs. unfold k in Hs.
    apply list_elem_of_In, in_rev, list_elem_of_In, drop_while_sub, list_elem_of_In, in_rev, list_elem_of_In in Hs.
    by eapply elem_of_split_slash. }
  split.
  - rewrite names_of_join by done. rewrite filter_drop_skipped. unfold k.
    rewrite filter_rev_list, filter_drop_skipped, filter_rev_list, rev_involutive. done.
  - clearbody k. clear -Hk. induction k as [|s k IH]; [done|]. cbn [drop_while] in *. destruct (skipped s) eqn:E; [by apply IH|].
    inversion Hk as [|?? Hs _]. subst. destruct s as [|c s]; [done|].
    inversion Hs as [|?? Hc Hs']. subst.
    match goal with |- ?x = false => destruct x eqn:Ea; [|done] end. apply starts_with_inv in Ea as [t Ht].
    destruct k; cbn in Ht; injection Ht as -> _; by destruct Hc.
Qed.

(** ** Resolution *)

Section resolve.
Context `{X : Externals}.

(** The links that are read do not go up. *)
Definition links_stay (t : hist sysE) : Prop :=
  forall candidate link, Ev (FsReadLink candidate) (Ok link) ∈ t -> stays link.

(** The links are looked for below the root. *)
Definition reads_below (root : string) (t : hist sysE) : Prop :=
  Forall (fun v => match v with @Ev _ A e _ => match e with FsReadLink p => below root p | _ => False end end) t.

Definition normal_ok (c : component) : Prop :=
  match c with Normal s => no_slash s /\ is_absolute s = false /\ s <> ".." | _ => True end.

Lemma components_ok p : Forall normal_ok (components p).
Proof.
  unfold components. destruct (path_parts p) as [pre body]. apply Forall_app. split.
  { repeat case_match; repeat constructor. }
  apply Forall_map, Forall_forall. intros s Hs. apply list_elem_of_In, filter_In in Hs as [Hs Hk].
  apply list_elem_of_In, elem_of_split_slash in Hs. unfold seg_component.
  destruct (String.eqb_spec s ".."); [done|]. split; [done|]. split; [|done].
  apply is_name_rel. split; [done|]. by apply negb_true_iff.
Qed.

Lemma below_join root p q : is_absolute q = false -> below root p -> stays q -> below root (path_join p q).
Proof.
  intros Hq (k&Hk&Hup) Hs. exists (k ++ names q). rewrite names_join, Hk by done.
  split; [by rewrite <- (assoc_L app)|]. unfold stays in Hs. rewrite elem_of_app. tauto.
Qed.

Lemma below_root root : below root root.
Proof. exists []. rewrite app_nil_r. split; [done|]. apply not_elem_of_nil. Qed.

Lemma stays_part s : no_slash s -> s <> ".." -> stays s.
Proof.
  intros Hs Hd. unfold stays. rewrite names_segment by done. cbn. case_match; [|apply not_elem_of_nil].
  rewrite list_elem_of_singleton. congruence.
Qed.

Lemma resolve_below root cs resolved t o :
  Forall normal_ok cs -> below root resolved -> exec (resolve_components root resolved cs) t o ->
  links_stay t -> reads_below root t /\ forall p, o = Done (Ok p) -> below root p.
Proof.
  intros Hcs. revert resolved t. induction Hcs as [|c cs Hc Hcs IH]; intros resolved t Hb; cbn [resolve_components].
  { intros [-> ->] _. split; [constructor|]. by intros p [= <-]. }
  destruct c as [| | |part]; try (by apply IH). destruct Hc as (Hs&Ha&Hd).
  assert (below root (path_join resolved part)) as Hcand by (apply below_join; [done..|by apply stays_part]).
  intros (r&t'&->&H) Hl.
  assert (links_stay t') as Hl' by (intros c l Hin; apply (Hl c l); by right).
  assert (forall q, below root q -> exec (resolve_components root q cs) t' o ->
    reads_below root (Ev (FsReadLink (path_join resolved part)) r :: t') /\ forall p, o = Done (Ok p) -> below root p)
    as Hnext.
  { intros q Hq Hx. destruct (IH q t' Hq Hx Hl'). split; [by constructor|done]. }
  assert (forall e, exec (mret (Err e)) t' o ->
    reads_below root (Ev (FsReadLink (path_join resolved part)) r :: t') /\ forall p, o = Done (Ok p) -> below root p)
    as Herr by (intros e [-> ->]; split; [by repeat constructor|done]).
  destruct r as [link|e]; cbn in H; [|revert H; case_match; intros Hx; [by eapply Hnext|by eapply Herr]].
  assert (stays link) as Hst by (eapply Hl; left).
  destruct (is_absolute link) eqn:El; [|by eapply Hnext, H; apply below_join].
  destruct (strip_root link) as [rel|] eqn:Er; [|by eapply Herr].
  apply names_strip_root in Er as [Hn Hrel]. eapply Hnext, H.
  apply below_join; [done|apply below_root|]. unfold stays. by rewrite Hn.
Qed.

(** C25: The mount points and the init that are computed from the symbolic links
    of the root are below it: for every content of the root file system,
    [resolve_root_path] only reads links below [root_mount], and the path it
    returns is [root_mount] followed by names below it, provided that no link
    that was read has a [..] in its target. *)
Theorem resolve_root_path_below (root_mount rel_path : string) (t : hist sysE) (o : outcome (io string)) :
  exec (resolve_root_path root_mount rel_path) t o -> links_stay t ->
  reads_below root_mount t /\ forall p, o = Done (Ok p) -> below root_mount p.
Proof. intros H. apply (resolve_below root_mount _ _ _ _ (components_ok rel_path) (below_root _) H). Qed.

(** C26: A relative link that goes up leaves the root: for a link at the top of
    the root whose target is [../name], which inside the root means [/name], the
    path that is returned names a file beside the root. *)
Theorem resolve_root_path_escapes (root_mount part name : string) :
  components part = [Normal part] -> no_slash name ->
  exec (resolve_root_path root_mount part)
    [Ev (FsReadLink (path_join root_mount part)) (Ok ("../" +:+ name))]
    (Done (Ok (path_join root_mount ("../" +:+ name)))) /\
  names (path_join root_mount ("../" +:+ name)) = names root_mount ++ ".." :: names name.
Proof.
  intros Hp Hn. unfold resolve_root_path. rewrite Hp. cbn [resolve_components]. split.
  - exists (Ok ("../" +:+ name)), []. done.
  - rewrite names_join by done. change ("../" +:+ name) with (".." +:+ "/" +:+ name). by rewrite names_app.
Qed.

End resolve.

(** ** Witnesses *)

Definition linked_root : world :=
  {| wfiles := ∅; wdirs := []; wlinks := <["/sysroot/lib" := "/usr//lib/."]>
       (<["/sysroot/usr//lib/firmware" := "fw/all"]> (<["/sysroot/lib64" := "../etc"]> ∅));
     wentries := ∅; wenv := ∅; wclock := 0; wnext := 3; wopen := ∅; wdev := ∅; wstdin := []; wpid := 1;
     wargs := [] |}.

Definition link_target (v : event sysE) : option string :=
  match v with
  | @Ev _ A e x => match e in sysE A return A -> option string with
                   | FsReadLink _ => result_ok
                   | _ => fun _ => None
                   end x
  end.
Lemma links_stay_omap t : Forall stays (omap link_target t) -> links_stay t.
Proof.
  intros H c link Hin. rewrite Forall_forall in H. apply H, list_elem_of_omap.
  by exists (Ev (FsReadLink c) (Ok link)).
Qed.

Lemma resolve_root_path_below_witness :
  outcome_of linked_root (resolve_root_path "/sysroot" "lib/firmware") = Done (Ok "/sysroot/usr//lib/fw/all") /\
  below "/sysroot" "/sysroot/usr//lib/fw/all".
Proof.
  assert (outcome_of linked_root (resolve_root_path "/sysroot" "lib/firmware") =
    Done (Ok "/sysroot/usr//lib/fw/all")) as Ho by (vm_compute; reflexivity).
  split; [exact Ho|]. eapply (resolve_root_path_below "/sysroot" "lib/firmware"
    (trace_of linked_root (resolve_root_path "/sysroot" "lib/firmware"))); [apply toy_exec, Ho| |done].
  apply links_stay_omap, (bool_decide_unpack _). vm_compute. exact I.
Defined.

Lemma resolve_root_path_escapes_witness :
  outcome_of linked_root (resolve_root_path "/sysroot" "lib64") = Done (Ok "/sysroot/../etc") /\
  names "/sysroot/../etc" = ["sysroot"; ".."; "etc"].
Proof.
  split; [vm_compute; reflexivity|].
  apply (resolve_root_path_escapes "/sysroot" "lib64" "etc"); [vm_compute; reflexivity|].
  unfold no_slash. repeat constructor; vm_compute; discriminate.
Defined.
