(* ===== verification/FileModel.v ===== *)
(** The other side of the file calls: an abstract kernel with names, files,
    fs-verity, descriptors and loop devices, as the Linux manuals describe what
    the calls of [src/verity.rs] and [src/mount.rs] do.  Nothing here is code of
    initos: it is what Attached.v states the guarantee of verified images
    against.  The kernel may do more than what is asked of it -- new names
    appear, files without fs-verity change, descriptors are closed -- but a file
    with fs-verity keeps its bytes, and a name keeps its file between two
    changes of the name space. *)

From S2P Require Import Prelude Prog Str Sys World Verity Verify Mount.

(** ** Files *)

(** The parameters of a Merkle tree. *)
Record verity : Type := {
  verity_algorithm : Z;
  verity_block_size : Z;
  verity_salt : list byte;
}.

Record node : Type := Node {
  node_bytes : list byte;
  node_verity : option verity;
}.

(** [backing]: the files that were attached to a loop device. *)
Record files : Type := Files {
  names : gmap string Z;
  nodes : gmap Z node;
  opened : gmap Z Z;
  backing : list Z;
}.

(** Files with fs-verity are read-only for their lifetime. *)
Definition sealed_kept (s s' : files) : Prop :=
  forall i nd, nodes s !! i = Some nd -> node_verity nd <> None -> nodes s' !! i = Some nd.

Definition names_kept (s s' : files) : Prop :=
  forall p i, names s !! p = Some i -> names s' !! p = Some i.

(** Calls that change what a path means. *)
Definition renaming {A} (e : sysE A) : Prop :=
  match e with
  | LibcMount _ _ _ _ _ | LibcChdir _ | LibcChroot _ | LibcExecve _ _ _ | LibcExecv _ _ => True
  | _ => False
  end.

Section kernel.
(** The root hash that a Merkle tree gives to a file. *)
Variable verity_digest : verity -> list byte -> list byte.

(** What the kernel writes in the structure of FS_IOC_MEASURE_VERITY. *)
Definition reports (nd : node) (d : FsVerityDigest) : Prop :=
  exists v, node_verity nd = Some v /\ digest_algorithm d = verity_algorithm v /\
    slice (array 64 (digest d)) 0 (digest_size d) = Val (verity_digest v (node_bytes nd)).

(** [path] was opened as [fd]. *)
Definition opens (s : files) (path : string) (r : io Z) (s' : files) : Prop :=
  backing s' = backing s /\
  match r with
  | Ok fd => exists i, names s !! path = Some i /\ opened s' ⊆ <[fd := i]> (opened s)
  | Err _ => opened s' ⊆ opened s
  end.

(** The effect of a call on descriptors and loop devices. *)
Definition effect (s : files) {A} (e : sysE A) : A -> files -> Prop :=
  match e in sysE A return A -> files -> Prop with
  | FileOpen path _ => fun r s' => opens s path r s'
  | LibcOpen path _ => fun r s' => opens s path r s'
  | IoctlMeasureVerity fd _ => fun r s' =>
      opened s' ⊆ opened s /\ backing s' = backing s /\
      match r with
      | Ok d => exists i nd, opened s !! fd = Some i /\ nodes s !! i = Some nd /\ reports nd d
      | Err _ => True
      end
  | IoctlEnableVerity fd arg => fun r s' =>
      opened s' ⊆ opened s /\ backing s' = backing s /\
      match r with
      | Ok _ => exists i nd salt, opened s !! fd = Some i /\ nodes s !! i = Some nd /\ node_verity nd = None /\
          len salt = salt_size arg /\
          nodes s' !! i = Some (Node (node_bytes nd) (Some {| verity_algorithm := hash_algorithm arg;
            verity_block_size := block_size arg; verity_salt := salt |}))
      | Err _ => True
      end
  | LibcIoctl _ req arg => fun r s' =>
      opened s' ⊆ opened s /\
      if bool_decide (req = LOOP_SET_FD) && is_ok r
      then exists i, opened s !! arg = Some i /\ backing s' = i :: backing s
      else backing s' = backing s
  | _ => fun _ s' => opened s' ⊆ opened s /\ backing s' = backing s
  end.

Definition files_step (s : files) (v : event sysE) (s' : files) : Prop :=
  match v with
  | Ev e x => sealed_kept s s' /\ (renaming e \/ names_kept s s') /\ effect s e x s'
  end.

Inductive files_run : files -> hist sysE -> files -> Prop :=
| files_nil s : files_run s [] s
| files_cons s v s1 t s2 : files_step s v s1 -> files_run s1 t s2 -> files_run s (v :: t) s2.

(** An execution of this kernel: nothing happens but what is asked. *)
Definition set_opened (s : files) (o : gmap Z Z) : files := Files (names s) (nodes s) o (backing s).
Definition set_backing (s : files) (b : list Z) : files := Files (names s) (nodes s) (opened s) b.

Definition next_open (s : files) (path : string) (r : io Z) : option files :=
  match r with
  | Ok fd => i ← names s !! path; Some (set_opened s (<[fd := i]> (opened s)))
  | Err _ => Some s
  end.

Definition reportsb (nd : node) (d : FsVerityDigest) : bool :=
  match node_verity nd with
  | Some v => bool_decide (digest_algorithm d = verity_algorithm v) &&
      bool_decide (slice (array 64 (digest d)) 0 (digest_size d) = Val (verity_digest v (node_bytes nd)))
  | None => false
  end.

Definition files_next (s : files) (v : event sysE) : option files :=
  match v with
  | @Ev _ A e x => match e in sysE A return A -> option files with
      | FileOpen path _ => fun r => next_open s path r
      | LibcOpen path _ => fun r => next_open s path r
      | IoctlMeasureVerity fd _ => fun r => match r with
          | Ok d => i ← opened s !! fd; nd ← nodes s !! i; if reportsb nd d then Some s else None
          | Err _ => Some s
          end
      | IoctlEnableVerity _ _ => fun r => if is_ok r then None else Some s
      | LibcIoctl _ req arg => fun r =>
          if bool_decide (req = LOOP_SET_FD) && is_ok r
          then i ← opened s !! arg; Some (set_backing s (i :: backing s))
          else Some s
      | _ => fun _ => Some s
      end x
  end.

Fixpoint files_after (s : files) (t : hist sysE) : option files :=
  match t with [] => Some s | v :: t => s ← files_next s v; files_after s t end.

Lemma next_open_opens s path r s' :
  next_open s path r = Some s' -> opens s path r s' /\ names s' = names s /\ nodes s' = nodes s.
Proof.
  destruct r as [fd|e]; cbn; [|by intros [= <-]]. intros H. apply bind_Some in H as (i&Hi&[= <-]).
  repeat split; eauto.
Qed.

Lemma files_next_step s v s' : files_next s v = Some s' -> files_step s v s'.
Proof.
  assert (forall B (e : sysE B) x, names s' = names s /\ nodes s' = nodes s -> effect s e x s' ->
    files_step s (Ev e x) s') as Hstep.
  { intros B e x [Hn Hd] He. split; [intros i nd; by rewrite Hd|]. split; [|done].
    right. intros p i. by rewrite Hn. }
  destruct v as [A e x]. intros H.
  destruct e; cbn in H; try (injection H as <-; apply Hstep; by split);
    try (apply next_open_opens in H as (H&?&?); by apply Hstep).
  - destruct x as [d|e]; [|injection H as <-; apply Hstep; cbn; by split_and!].
    apply bind_Some in H as (i&Hi&H). apply bind_Some in H as (nd&Hnd&H).
    destruct (reportsb nd d) eqn:Hr; [|done]. injection H as <-. apply Hstep; [done|]. cbn.
    do 2 (split; [done|]). exists i, nd. do 2 (split; [done|]). unfold reportsb in Hr.
    destruct (node_verity nd) as [v|] eqn:Hv; [|done].
    apply andb_true_iff in Hr as [Ha%bool_decide_eq_true Hd%bool_decide_eq_true]. by exists v.
  - destruct x; [done|]. injection H as <-. apply Hstep; cbn; by split_and!.
  - destruct (bool_decide _ && is_ok x) eqn:E.
    + apply bind_Some in H as (i&Hi&[= <-]). apply Hstep; [done|]. cbn. rewrite E. eauto.
    + injection H as <-. apply Hstep; [done|]. cbn. by rewrite E.
Qed.

Lemma files_after_run s t s' : files_after s t = Some s' -> files_run s t s'.
Proof.
  revert s. induction t as [|v t IH]; intros s H; cbn in H; [injection H as ->; constructor|].
  apply bind_Some in H as (s1&H1&H). econstructor; [by apply files_next_step|by apply IH].
Qed.

(** ** Runs *)

Lemma files_run_cons s v t s' :
  files_run s (v :: t) s' <-> exists s1, files_step s v s1 /\ files_run s1 t s'.
Proof. split; [inversion 1; eauto|]. intros (s1&?&?). by econstructor. Qed.

Lemma files_run_app s t1 t2 s' :
  files_run s (t1 ++ t2) s' <-> exists s1, files_run s t1 s1 /\ files_run s1 t2 s'.
Proof.
  split.
  - revert s. induction t1 as [|v t1 IH]; intros s H; [exists s; split; [constructor|done]|].
    apply files_run_cons in H as (s0&Hv&H). destruct (IH _ H) as (s1&H1&H2).
    exists s1. split; [|done]. apply files_run_cons. eauto.
  - intros (s1&H1&H2). induction H1; [done|]. econstructor; eauto.
Qed.

Lemma files_run_one s v s' : files_run s [v] s' -> files_step s v s'.
Proof. intros H. apply files_run_cons in H as (s1&Hv&Hr). by inversion Hr; subst. Qed.

#[export] Instance sealed_kept_preorder : PreOrder sealed_kept.
Proof. split; [by intros s i|]. intros s1 s2 s3 H1 H2 i nd Hi Hv. apply H2; [by apply H1|done]. Qed.

#[export] Instance names_kept_preorder : PreOrder names_kept.
Proof. split; [by intros s p|]. intros s1 s2 s3 H1 H2 p i Hi. by apply H2, H1. Qed.

Lemma files_run_sealed s t s' : files_run s t s' -> sealed_kept s s'.
Proof. induction 1 as [s|s [A e x] s1 t s2 [Hk _] _ IH]; [done|]. by etrans. Qed.

(** Calls that leave the meaning of paths and the loop devices alone. *)
Definition steady (A : Type) (e : sysE A) : Prop :=
  match e with
  | LibcIoctl _ req _ => req <> LOOP_SET_FD
  | LibcMount _ _ _ _ _ | LibcChdir _ | LibcChroot _ | LibcExecve _ _ _ | LibcExecv _ _ => False
  | _ => True
  end.

(** Calls that attach no file. *)
Definition unattached (A : Type) (e : sysE A) : Prop :=
  match e with LibcIoctl _ req _ => req <> LOOP_SET_FD | _ => True end.

Lemma steady_unattached A (e : sysE A) : steady A e -> unattached A e.
Proof. by destruct e. Qed.

Lemma Forall_steady t : Forall (event_ok steady) t -> Forall (event_ok unattached) t.
Proof. intros H. eapply Forall_impl; [exact H|]. intros [A e x]. apply steady_unattached. Qed.

Lemma files_run_steady s t s' : files_run s t s' -> Forall (event_ok steady) t -> names_kept s s'.
Proof.
  induction 1 as [s|s [A e x] s1 t s2 (_&[Hn|Hn]&_) _ IH]; intros H; [done|..];
    apply Forall_cons in H as [He Ht]; [by destruct e|]. etrans; [exact Hn|by apply IH].
Qed.

Lemma files_step_unattached s v s' : files_step s v s' -> event_ok unattached v -> backing s' = backing s.
Proof.
  destruct v as [A e x]. intros (_&_&He) Hu. destruct e; cbn in He, Hu; unfold opens in He; try tauto.
  case_bool_decide; [done|]. tauto.
Qed.

Lemma files_run_unattached s t s' :
  files_run s t s' -> Forall (event_ok unattached) t -> backing s' = backing s.
Proof.
  induction 1 as [s|s v s1 t s2 Hv _ IH]; intros H; [done|]. apply Forall_cons in H as [He Ht].
  rewrite IH by done. by eapply files_step_unattached.
Qed.

(** A file that was measured when its path was opened ... *)
Lemma files_run_measured s img fd arg d s' :
  files_run s [Ev (FileOpen img false) (Ok fd); Ev (IoctlMeasureVerity fd arg) (Ok d)] s' ->
  exists i nd, names s !! img = Some i /\ nodes s' !! i = Some nd /\ reports nd d.
Proof.
  intros H. apply (files_run_app s [_]) in H as (s1&H1&H2).
  apply files_run_one in H1 as (_&_&_&i&Hi&Ho). apply files_run_one in H2 as (Hk&_&_&_&j&nd&Hj&Hn&Hr).
  pose proof (lookup_weaken _ _ _ _ Hj Ho) as Hij. rewrite lookup_insert_eq in Hij. injection Hij as <-.
  exists i, nd. split; [done|]. split; [|done]. apply Hk; [done|]. by destruct Hr as (v&->&_).
Qed.

(** ... and a file that was attached when its path was opened. *)
Lemma files_run_attached s img flags fd loop r s' :
  files_run s [Ev (LibcOpen img flags) (Ok fd); Ev (LibcIoctl loop LOOP_SET_FD fd) (Ok r)] s' ->
  exists i, names s !! img = Some i /\ backing s' = i :: backing s.
Proof.
  intros H. apply (files_run_app s [_]) in H as (s1&H1&H2).
  apply files_run_one in H1 as (_&_&Hb&i&Hi&Ho). apply files_run_one in H2 as (_&_&_&j&Hj&Hs).
  pose proof (lookup_weaken _ _ _ _ Hj Ho) as Hij. rewrite lookup_insert_eq in Hij. injection Hij as <-.
  exists i. split; [done|]. by rewrite Hs, Hb.
Qed.

(** Between a measurement and an attachment through the same path, steady calls
    keep the file: the bytes attached are the bytes measured. *)
Lemma files_run_same s img fd arg d mid flags fd' loop r s' :
  files_run s ([Ev (FileOpen img false) (Ok fd); Ev (IoctlMeasureVerity fd arg) (Ok d)] ++ mid ++
               [Ev (LibcOpen img flags) (Ok fd'); Ev (LibcIoctl loop LOOP_SET_FD fd') (Ok r)]) s' ->
  Forall (event_ok steady) mid ->
  exists i nd, backing s' = i :: backing s /\ nodes s' !! i = Some nd /\ reports nd d.
Proof.
  intros H Hm. apply files_run_app in H as (s1&H1&H). apply files_run_app in H as (s2&H2&H3).
  assert (names_kept s s2) as Hk.
  { etrans; [eapply files_run_steady; [exact H1|]|by eapply files_run_steady].
    repeat constructor; cbn; tauto. }
  assert (backing s2 = backing s) as Hb.
  { etrans; [|apply (files_run_unattached _ _ _ H1); repeat constructor].
    apply (files_run_unattached _ _ _ H2). by apply Forall_steady. }
  apply files_run_measured in H1 as (i&nd&Hi&Hn&Hr). pose proof H3 as H3'.
  apply files_run_attached in H3 as (j&Hj&Ha). apply Hk in Hi. rewrite Hi in Hj. injection Hj as <-.
  exists i, nd. rewrite Ha, Hb. split; [done|]. split; [|done]. destruct Hr as (v&Hv&_).
  eapply files_run_sealed; [exact H3'| |by rewrite Hv].
  eapply files_run_sealed; [exact H2|done|by rewrite Hv].
Qed.

End kernel.
