(* ===== verification/Calm.v ===== *)
(** The part of the program that neither attaches an image to a loop device nor
    executes an init: every call is harmless for the rules of the
    boot sequence, and a step that does not return has panicked. *)

From S2P Require Import Prelude Prog Str PathLib Sys Verity Efi Verify Tpm Fscrypt Cmd Mount Boot.

(** Everything except executing an init. *)
Definition no_exec (A : Type) (e : sysE A) : Prop :=
  match e with LibcExecve _ _ _ | LibcExecv _ _ => False | _ => True end.

(** Everything except that and opening an image to attach it to a loop device. *)
Definition calm (A : Type) (e : sysE A) : Prop :=
  match e with
  | LibcOpen _ flags => flags <> O_RDONLY
  | LibcIoctl _ _ _ | LibcExecve _ _ _ | LibcExecv _ _ => False
  | _ => True
  end.

(** The functions without recursion, to be seen through. *)
Create HintDb initos.
#[export] Hint Unfold read_to_string read_exact read_some env_var env_or read_efi_var read_secure_boot
  read_boot_current extract_boot_device_info with_boot_option read_db measure_verity measure_verity_fd
  enable_verity_fd measure_or_enable_verity verify_image verify_image_db da_lock_reset_raw tpm_transact
  transact_checked ignore_response parse_response open_tpm pcr_extend unseal_key unseal_key_from_handle
  start_policy_session start_auth_session policy_pcr policy_get_digest unseal add_key open_dir
  stdin_read_line read_secret mount_pseudo_fs mount_filesystem mount_filesystem_with_options bind_mount
  current_environment read_ext4_label is_ext4 label_matches uevent_matches device_by_filesystem_label
  scan_sysfs_for_label find_partition_by_label read_uevent_value is_partition_dir canonical_disk
  resolve_parent_disk list_disk_partitions by_label_link_matches find_partition_on_disk_by_label
  read_number find_partition_by_number find_boot_disk verify_image_if_key verify_image_trusted
  detect_verified_boot_strict kernel_release signature_exists check_partitioned_image find_host_image
  recursive_bind_mount mount_optional_pseudo_in_root mount_pseudo_in_root mount_fs_in_root
  mount_system_filesystems resolve_root_path bind_if_root_dir_exists bind_host_image_mounts both_dirs
  bind_if_both_dirs_exist bind_encrypted_state_paths encrypted_root_path root_image_path c_is_unlocked
  add_fscrypt_key decrypt_age_with_key_file unlock_c_with_tpm try_password unlock_c_with_password
  unlock_state_c select_init fallback_partition find_data_device boot_partition_of set_var_opt
  : initos.

Ltac tame_step :=
  match goal with
  | |- tame _ _ (mbind _ _) => apply tame_bind; [|intros ?]
  | |- tame _ _ (try_bind _ _) => apply tame_try; [|intros ?]
  | |- tame _ _ (with_err _ _) => apply tame_with_err
  | |- tame _ _ (boxed _) => apply tame_boxed
  | |- tame _ _ (lift _) => apply tame_lift
  | |- tame _ _ (trigger _) => split; [first [exact I|discriminate]|intros ?; exact I]
  | |- tame _ _ (mret _) => exact I
  | |- tame _ _ (Ret _) => exact I
  | |- tame _ _ (Halt _) => solve [unfold crash; cbn; auto]
  | |- tame _ _ (match ?x with _ => _ end) => destruct x
  | |- tame _ _ _ => solve [auto with tame nocore]
  | |- tame _ _ _ => progress cbv beta zeta
  | |- tame _ _ _ => progress autounfold with initos
  end.
Ltac tame_tac := repeat tame_step.

Section calm_calls.
Context `{X : Externals} `{AG : Age}.

Lemma calm_try_certs img d certs : tame calm crash (try_certs img d certs).
Proof. induction certs; cbn [try_certs]; tame_tac. Qed.
Lemma calm_tpm_transact_go n dev cmd : tame calm crash (tpm_transact_go n dev cmd).
Proof. induction n; cbn [tpm_transact_go]; tame_tac. Qed.
Lemma calm_scan_sysfs_entries l es : tame calm crash (scan_sysfs_entries l es).
Proof. induction es; cbn [scan_sysfs_entries]; tame_tac. Qed.
Hint Resolve calm_scan_sysfs_entries : tame.
Lemma calm_find_label_attempts n l : tame calm crash (find_label_attempts n l).
Proof. induction n; cbn [find_label_attempts]; tame_tac. Qed.
Lemma calm_search_disks d es : tame calm crash (search_disks d es).
Proof. induction es as [|[]]; cbn [search_disks]; tame_tac. Qed.
Lemma calm_partition_entries d es : tame calm crash (partition_entries d es).
Proof. induction es; cbn [partition_entries]; tame_tac. Qed.
Hint Resolve calm_search_disks calm_partition_entries : tame.
Lemma calm_scan_partitions_by_label d l ps : tame calm crash (scan_partitions_by_label d l ps).
Proof. induction ps; cbn [scan_partitions_by_label]; tame_tac. Qed.
Lemma calm_scan_partitions_by_number d n ps : tame calm crash (scan_partitions_by_number d n ps).
Proof. induction ps; cbn [scan_partitions_by_number]; tame_tac. Qed.
Lemma calm_boot_disk_entries g n ms es : tame calm crash (boot_disk_entries g n ms es).
Proof. revert ms; induction es as [|[]]; intros ms; cbn [boot_disk_entries]; tame_tac. Qed.
Lemma calm_first_partitioned i v cs : tame calm crash (first_partitioned i v cs).
Proof. induction cs; cbn [first_partitioned]; tame_tac. Qed.
Lemma calm_first_existing ps : tame calm crash (first_existing ps).
Proof. induction ps; cbn [first_existing]; tame_tac. Qed.
Lemma calm_resolve_components a b cs : tame calm crash (resolve_components a b cs).
Proof. revert b; induction cs as [|[]]; intros b; cbn [resolve_components]; tame_tac. Qed.
Lemma calm_password_attempts n a b : tame calm crash (password_attempts n a b).
Proof. induction n; cbn [password_attempts]; tame_tac. Qed.
Lemma calm_first_file r cs : tame calm crash (first_file r cs).
Proof. induction cs; cbn [first_file]; tame_tac. Qed.
Hint Resolve calm_find_label_attempts calm_scan_partitions_by_label calm_scan_partitions_by_number : tame.
Lemma calm_search_boot_disk n a b d : tame calm crash (search_boot_disk n a b d).
Proof. induction n; cbn [search_boot_disk]; tame_tac. Qed.
Lemma calm_search_label n a b d : tame calm crash (search_label n a b d).
Proof. induction n; cbn [search_label]; tame_tac. Qed.
Lemma calm_mount_initial l : tame calm crash (mount_initial l).
Proof. induction l as [|[]]; cbn [mount_initial]; tame_tac. Qed.

End calm_calls.

#[export] Hint Resolve calm_try_certs calm_tpm_transact_go calm_scan_sysfs_entries calm_find_label_attempts
  calm_search_disks calm_partition_entries calm_scan_partitions_by_label calm_scan_partitions_by_number
  calm_boot_disk_entries calm_first_partitioned calm_first_existing calm_resolve_components
  calm_password_attempts calm_first_file calm_search_boot_disk calm_search_label calm_mount_initial : tame.

Lemma calm_exec {A} (p : sys A) t o :
  tame calm crash p -> exec p t o -> Forall (event_ok calm) t.
Proof. intros Hp H. by destruct (tame_exec _ _ _ _ _ Hp H). Qed.

(** The pieces that attach images. *)
Section mounting.
Context `{X : Externals} `{AG : Age}.

Lemma calm_no_exec {A} (p : sys A) : tame calm crash p -> tame no_exec crash p.
Proof. intros H. eapply tame_mono; [exact H|]. intros B []; cbn; try done. Qed.

Ltac mounting_tac :=
  repeat match goal with
  | |- tame no_exec _ _ => solve [apply calm_no_exec; tame_tac]
  | |- tame _ _ (match ?x with _ => _ end) => destruct x
  | |- tame _ _ (trigger _) => split; [exact I|intros ?; exact I]
  | |- tame _ _ _ => first [apply tame_bind; [|intros ?] | apply tame_try; [|intros ?] | apply tame_boxed]
  | |- tame _ _ _ => progress cbv beta zeta
  | |- tame _ _ _ => solve [auto with tame nocore]
  end.

Lemma no_exec_mount_loop a b : tame no_exec crash (mount_loop a b).
Proof. unfold mount_loop. mounting_tac. Qed.
Hint Resolve no_exec_mount_loop : tame.
Lemma no_exec_mount_rootfs a b c d e : tame no_exec crash (mount_rootfs a b c d e).
Proof. unfold mount_rootfs. mounting_tac. Qed.
Lemma no_exec_mount_composefs a b c d : tame no_exec crash (mount_slot_composefs_firmware a b c d).
Proof. unfold mount_slot_composefs_firmware. mounting_tac. Qed.
Lemma no_exec_mount_host_image a b c d e f : tame no_exec crash (mount_host_image a b c d e f).
Proof. unfold mount_host_image. mounting_tac. Qed.
Hint Resolve no_exec_mount_composefs no_exec_mount_host_image : tame.
Lemma no_exec_mount_host_images a b c d : tame no_exec crash (mount_host_images a b c d).
Proof. unfold mount_host_images. mounting_tac. Qed.

End mounting.

#[export] Hint Resolve no_exec_mount_rootfs no_exec_mount_host_images : tame.
