(* ===== verification/BootSpec.v ===== *)
(** What the boot sequence guarantees: which calls it may make in verified
    mode, how it ends, the decisions it takes, and the deadline of the search
    for the data partition. *)

From S2P Require Import Prelude Prog Str PathLib Sys World Verity Efi Verify Tpm Fscrypt Cmd Mount Boot Calm.

(** ** The rules of the boot sequence *)

(** The firmware reported Secure Boot as off. *)
Definition secure_boot_off (h : hist sysE) : Prop :=
  exists base data b rest,
    Ev (FsRead (base +:+ "/" +:+ "SecureBoot" +:+ "-" +:+ EFI_GLOBAL_GUID)) (Ok data) ∈ h /\
    strip_attributes data = Ok (b :: rest) /\ b2z b = 0.

Definition signed_image `{X : Externals} (h : hist sysE) (img : string) : Prop :=
  exists base, signed_by_db h img base.

Definition trusted_image `{X : Externals} (h : hist sysE) (img : string) : Prop :=
  secure_boot_off h \/ signed_image h img.

(** An image is opened to be attached to a loop device only when Secure Boot is
    off or its signature was verified before; the development init is executed
    only when Secure Boot is off. *)
Definition boot_rules `{X : Externals} : protocol sysE :=
  Protocol (E := sysE) (fun (h : hist sysE) _ e =>
    match e with
    | LibcOpen path flags => flags = O_RDONLY -> trusted_image h path
    | LibcExecv path _ => path = DEV_INIT /\ secure_boot_off h
    | _ => True
    end) (fun _ _ _ _ => True).

Section rules.
Context `{X : Externals} `{AG : Age}.
Implicit Types h : hist sysE.

Lemma calm_allowed h A (e : sysE A) : calm A e -> guard boot_rules h e.
Proof. destruct e; cbn; try done. Qed.

Lemma secure_boot_off_mono h h' : h `prefix_of` h' -> secure_boot_off h -> secure_boot_off h'.
Proof.
  intros Hp (base&data&b&rest&Hin&?). exists base, data, b, rest.
  split; [by eapply elem_of_prefix|done].
Qed.

Lemma signed_image_mono h h' img : h `prefix_of` h' -> signed_image h img -> signed_image h' img.
Proof. intros Hp [base H]. exists base. by eapply signed_by_db_mono. Qed.

Lemma trusted_image_mono h h' img : h `prefix_of` h' -> trusted_image h img -> trusted_image h' img.
Proof.
  intros Hp [H|H]; [left; by eapply secure_boot_off_mono|right; by eapply signed_image_mono].
Qed.

(** What is known about the mode: unverified only with Secure Boot off. *)
Definition mode_known (vb : bool) h : Prop := vb = false -> secure_boot_off h.

Definition monotone (P : hist sysE -> Prop) : Prop := forall h h', h `prefix_of` h' -> P h -> P h'.

Lemma mode_known_mono vb : monotone (mode_known vb).
Proof. intros h h' Hp H ->. eapply secure_boot_off_mono; [done|]. by apply H. Qed.

(** From any history with [P], [p] follows the rules. *)
Definition safe {A} (P : hist sysE -> Prop) (p : sys A) : Prop :=
  forall h, P h -> wp boot_rules p h (fun h' _ => h `prefix_of` h').

(** Calls that the rules do not restrict. *)
Definition unruled (A : Type) (e : sysE A) : Prop :=
  match e with LibcOpen _ flags => flags <> O_RDONLY | LibcExecv _ _ => False | _ => True end.

Lemma safe_quiet {A} P (p : sys A) : quiet unruled p -> safe P p.
Proof.
  intros Hq h _. apply (wp_quiet _ unruled); [|done]. intros h' B e. destruct e; cbn; done.
Qed.

Lemma safe_calm {A} P (p : sys A) : tame calm crash p -> safe P p.
Proof. intros Hq h _. apply (wp_quiet _ calm); [apply calm_allowed|by eapply tame_quiet]. Qed.

(** What is known of a calm step holds under the rules. *)
Lemma wp_calm {A} (p : sys A) h Q :
  tame calm crash p -> wp free_protocol p h Q -> wp boot_rules p h Q.
Proof. intros Hq. apply (wp_weaken _ calm); [apply calm_allowed|by eapply tame_quiet]. Qed.

Lemma safe_bind {A B} P (p : sys A) (f : A -> sys B) :
  monotone P -> safe P p -> (forall a, safe P (f a)) -> safe P (p ≫= f).
Proof.
  intros HP Hp Hf h Hh. apply wp_bind_prefix; [by apply Hp|].
  intros a h' Hp'. apply Hf. by eapply HP.
Qed.

Lemma safe_try {A B Er} P (p : sys (result A Er)) (f : A -> sys (result B Er)) :
  monotone P -> safe P p -> (forall a, safe P (f a)) -> safe P (try_bind p f).
Proof. intros HP Hp Hf. apply safe_bind; [done..|]. intros [a|e]; [done|by apply safe_calm]. Qed.

Lemma safe_boxed {A} P (p : sys (io A)) : monotone P -> safe P p -> safe P (boxed p).
Proof. intros HP Hp. apply safe_bind; [done..|]. intros r. by apply safe_calm. Qed.

(** Attaching a trusted image. *)
Lemma safe_mount_loop img target : safe (fun h => trusted_image h img) (mount_loop img target).
Proof.
  intros h Hh.
  apply (wp_quiet_from _ (fun A e => match e with
    | LibcOpen p f => f = O_RDONLY -> p = img | LibcExecv _ _ => False | _ => True end)).
  { intros h' A e Hp. destruct e; cbn; try done. intros He Hf. rewrite (He Hf).
    by eapply trusted_image_mono. }
  unfold mount_loop. destruct (cstring img) as [c|e] eqn:E; [apply cstring_inv in E as ->|].
  all: repeat match goal with
  | |- quiet _ (try_bind (mret (Ok _)) _) => apply quiet_try_ok
  | |- quiet _ (try_bind (mret (Err _)) _) => exact I
  | |- quiet _ (mount_filesystem _ _ _ _) => unfold mount_filesystem
  | |- quiet _ (trigger _) =>
      split; [first [exact I|done|let Hd := fresh in intros Hd; discriminate Hd]|intros ?; exact I]
  | _ => quiet_step
  end.
Qed.

(** Verifying an image in verified mode makes it trusted. *)
Lemma wp_verify_image_trusted img vb h :
  wp free_protocol (verify_image_trusted img "" vb) h (fun h' o => h `prefix_of` h' /\
    match o with Done (Ok _) => vb = true -> signed_image h' img | _ => True end).
Proof.
  unfold verify_image_trusted. cbn [negb is_empty]. destruct vb; [|done].
  apply wp_bind. eapply wp_mono; [apply wp_any|]. intros h1 [base|s] Hp1; [|done].
  apply wp_try, wp_boxed. eapply wp_mono; [apply wp_verify_image_db|].
  intros h2 [[[]|e]|s] [Hp2 Hv]; (split; [by etrans|]); try done.
  intros _. by exists base.
Qed.

Lemma safe_verified {A} vb img (rest : sys (result A string)) :
  safe (fun h => mode_known vb h /\ trusted_image h img) rest ->
  safe (mode_known vb) (let? _ := verify_image_trusted img "" vb in rest).
Proof.
  intros Hr h Hh. apply wp_try.
  eapply wp_mono; [apply wp_calm; [tame_tac|apply wp_verify_image_trusted]|].
  intros h1 [[[]|e]|s] [Hp Hv]; [|done..].
  eapply wp_mono; [apply Hr|].
  - split; [by eapply mode_known_mono|]. destruct vb.
    + right. by apply Hv.
    + left. eapply secure_boot_off_mono; [exact Hp|]. by apply Hh.
  - intros h2 o Hp2. cbn in *. by etrans.
Qed.

Lemma mode_trusted_mono vb img : monotone (fun h => mode_known vb h /\ trusted_image h img).
Proof.
  intros h h' Hp [? ?]. split; [by eapply mode_known_mono|by eapply trusted_image_mono].
Qed.

Lemma safe_sub {A} (P Q : hist sysE -> Prop) (p : sys A) :
  (forall h, Q h -> P h) -> safe P p -> safe Q p.
Proof. intros H Hp h Hh. by apply Hp, H. Qed.

Lemma safe_mount_trusted vb img target :
  safe (fun h => mode_known vb h /\ trusted_image h img) (boxed (mount_loop img target)).
Proof.
  apply safe_boxed; [apply mode_trusted_mono|].
  eapply safe_sub; [|apply safe_mount_loop]. by intros h [_ ?].
Qed.

Lemma quiet_switch_root a b c : quiet unruled (switch_root_with_args a b c).
Proof. unfold switch_root_with_args, current_environment. quiet_tac. Qed.

(** The pieces of the boot sequence that mount images. *)
Ltac safe_step :=
  match goal with
  | |- safe _ (try_bind (verify_image_trusted _ "" _) _) => apply safe_verified
  | |- safe _ (boxed (mount_loop _ _)) => apply safe_mount_trusted
  | |- safe _ (boxed (switch_root_with_args _ _ _)) => apply safe_quiet, quiet_boxed, quiet_switch_root
  | |- safe _ _ => solve [apply safe_calm; tame_tac]
  | |- safe _ (mbind _ _) => apply safe_bind; [first [apply mode_known_mono|apply mode_trusted_mono]| |intros ?]
  | |- safe _ (try_bind _ _) => apply safe_try; [first [apply mode_known_mono|apply mode_trusted_mono]| |intros ?]
  | |- safe _ (match ?x with _ => _ end) => destruct x
  | |- safe _ _ => progress cbv beta zeta
  end.

Lemma safe_mount_rootfs a b c vb d : safe (mode_known vb) (mount_rootfs a b c vb d).
Proof. unfold mount_rootfs. repeat safe_step. Qed.

Lemma safe_mount_slot_composefs a b c vb : safe (mode_known vb) (mount_slot_composefs_firmware a b c vb).
Proof. unfold mount_slot_composefs_firmware. repeat safe_step. Qed.

Lemma safe_mount_host_image a b c d vb e : safe (mode_known vb) (mount_host_image a b c d vb e).
Proof. unfold mount_host_image. repeat safe_step. Qed.

Lemma safe_mount_host_images a b vb d : safe (mode_known vb) (mount_host_images a b vb d).
Proof.
  unfold mount_host_images.
  repeat first [apply safe_mount_slot_composefs | apply safe_mount_host_image | safe_step].
Qed.

Lemma safe_boot_verified img data vb : safe (mode_known vb) (boot_verified img data vb).
Proof.
  unfold boot_verified.
  repeat first [apply safe_mount_rootfs | apply safe_mount_host_images | safe_step].
Qed.

(** The decision: verified mode unless the firmware says Secure Boot is off. *)
Lemma wp_detect_strict h :
  wp free_protocol detect_verified_boot_strict h (fun h' o => h `prefix_of` h' /\
    match o with Done (Ok vb) => mode_known vb h' | _ => True end).
Proof.
  apply wp_prefix. apply wp_bind. eapply wp_mono; [apply wp_any|]. intros h1 [base|s] Hp; [|done].
  apply wp_try, wp_with_err. apply wp_try, wp_try, wp_trigger; [done|].
  intros [data|e] _; [|done]. apply wp_ret.
  destruct (strip_attributes data) as [[|b rest]|e] eqn:E; [done| |done].
  cbn. intros Hb. apply negb_false_iff, Z.eqb_eq in Hb.
  exists base, data, b, rest. split; [|done]. apply elem_of_app. right. left.
Qed.

End rules.

(** ** The whole sequence *)

Section whole.
Context `{X : Externals} `{AG : Age}.
Implicit Types h : hist sysE.

Definition is_err {A Er} (r : result A Er) : Prop := match r with Ok _ => False | Err _ => True end.

Lemma returns_try_err {A B Er} (p : sys (result A Er)) (f : A -> sys (result B Er)) :
  (forall a, returns is_err (f a)) -> returns is_err (try_bind p f).
Proof. by apply returns_try. Qed.

(** [switch_root] is the last step, and never returns [Ok]. *)
Lemma returns_switch_root a b c : returns is_err (switch_root_with_args a b c).
Proof.
  unfold switch_root_with_args. do 8 (apply returns_try_err; intros ?).
  apply returns_bind. intros [e|]; done.
Qed.

Lemma returns_boxed {A} (p : sys (io A)) : returns is_err p -> returns is_err (boxed p).
Proof.
  unfold boxed. induction p as [[a|e]|s|Y e k IH]; cbn; [done..|]. intros H x. apply IH, H.
Qed.

Lemma returns_boot_verified img data vb : returns is_err (boot_verified img data vb).
Proof.
  unfold boot_verified. do 2 (apply returns_bind; intros ?).
  apply returns_bind. intros [disk part]. do 2 (apply returns_bind; intros ?).
  apply returns_try_err. intros dev. destruct (to_str dev); [|done].
  repeat (apply returns_try_err; intros ?).
  apply returns_boxed, returns_switch_root.
Qed.

Lemma wp_boot_run h :
  wp boot_rules boot_run h (fun h' o => h `prefix_of` h' /\
    match o with Done (m, r) => is_err r /\ (m = Some false -> secure_boot_off h') | Stopped _ => True end).
Proof.
  apply wp_prefix. unfold boot_run.
  assert (forall A B (p : sys A) (f : A -> sys B) h Q, tame calm crash p ->
    (forall a h', wp boot_rules (f a) h' Q) -> (forall h' s, Q h' (Stopped s)) ->
    wp boot_rules (p ≫= f) h Q) as Hbind.
  { intros A B p f h1 Q Hq Hf Hs. apply wp_bind. apply tame_quiet in Hq.
    eapply wp_mono; [apply (wp_quiet _ calm); [apply calm_allowed|exact Hq]|].
    intros h' [a|s] _; [apply Hf|apply Hs]. }
  do 5 (apply Hbind; [tame_tac|intros ? ?|done]). clear Hbind.
  apply wp_bind. eapply wp_mono;
    [apply wp_calm; [tame_tac|apply wp_detect_strict]|].
  intros h1 [[vb|e]|s] [Hp Hm]; [|done..].
  apply wp_bind.
  pose proof (safe_boot_verified a a0 vb h1 Hm) as Hs.
  pose proof (returns_boot_verified a a0 vb) as Hr. revert Hs Hr.
  generalize (boot_verified a a0 vb). intros p Hs Hr.
  assert (secure_boot_off h1 \/ vb = true) as Hvb by (destruct vb; [by right|left; by apply Hm]).
  clear Hm. revert Hs.
  assert (forall h2, h1 `prefix_of` h2 -> wp boot_rules p h2 (fun h' _ => h1 `prefix_of` h') ->
    wp boot_rules p h2 (fun h' o => match o with
      | Done r => wp boot_rules (mret (Some vb, r)) h' (fun h' o => match o with
          Done (m, r) => is_err r /\ (m = Some false -> secure_boot_off h') | Stopped _ => True end)
      | Stopped _ => True end)) as H.
  { induction p as [r|s|Y e k IH]; intros h2 Hp2; cbn; [|done|].
    - intros _. split; [done|]. intros [= ->]. destruct Hvb as [Hoff|[=]].
      by eapply secure_boot_off_mono.
    - intros [Hg Hk]. split; [done|]. intros x Hx. cbn in Hr. apply IH; [apply Hr| |by apply Hk].
      etrans; [exact Hp2|by eexists]. }
  intros Hs. by apply H.
Qed.

Lemma wp_cmd_boot h :
  wp boot_rules cmd_boot h (fun h' o => exists s, o = Stopped s).
Proof.
  unfold cmd_boot. apply wp_bind. eapply wp_mono; [apply wp_boot_run|].
  intros h1 [[m r]|s] [Hp Hr]; [|by eexists]. destruct Hr as [Hr Hoff]. destruct r as [?|e]; [done|].
  case_bool_decide as Hm.
  - apply wp_bind, wp_trigger; [done|]. intros [] _. apply wp_bind, wp_trigger.
    + split; [done|]. eapply secure_boot_off_mono; [|by apply Hoff]. by eexists.
    + intros [err|] _; by eexists.
  - apply wp_bind, wp_trigger; [done|]. intros [] _. by eexists.
Qed.

(** C1: The safety of the boot sequence, for every kernel, firmware and disk: in
    every execution of [cmd_boot], an image is opened to be attached to a loop
    device only if the firmware variable was read and says that Secure Boot is
    off, or if, before that, the kernel's fs-verity digest of the image was
    measured and a certificate of the UEFI database signs it; and the
    development init is executed only if Secure Boot was read as off.  The
    sequence never returns: it execs, exits or stops. *)
Theorem boot_follows_rules (t : hist sysE) (o : outcome (result unit string)) :
  exec cmd_boot t o -> guarded boot_rules [] t /\ exists s, o = Stopped s.
Proof. intros H. exact (wp_sound_all boot_rules cmd_boot t o _ (wp_cmd_boot []) H (fun _ _ _ _ => I)). Qed.

End whole.

(** ** No decision, no boot *)

Ltac total_step :=
  match goal with
  | |- total (mbind _ _) => apply total_bind; [|intros ?]
  | |- total (try_bind _ _) => apply total_try; [|intros ?]
  | |- total (with_err _ _) => apply total_with_err
  | |- total (boxed _) => apply total_boxed
  | |- total (trigger _) => intros ?; exact I
  | |- total (mret _) => exact I
  | |- total (match ?x with _ => _ end) => destruct x
  | |- total _ => progress cbv beta zeta
  end.
Ltac total_tac := repeat total_step.

(** The firmware variable cannot be read. *)
Definition secure_boot_unreadable (v : event sysE) : Prop :=
  match v with
  | @Ev _ A e x =>
      match e in sysE A return A -> Prop with
      | FsRead path => fun r =>
          (exists base, path = base +:+ "/" +:+ "SecureBoot" +:+ "-" +:+ EFI_GLOBAL_GUID) ->
          exists err, r = Err err
      | _ => fun _ => True
      end x
  end.

(** Neither data partition, nor image, nor key, nor root, nor init: the only
    mounts are the four kernel file systems of the initrd. *)
Definition before_decision (A : Type) (e : sysE A) : Prop :=
  match e with
  | LibcMount _ _ fstype _ _ =>
      fstype ∈ [Some "proc"; Some "sysfs"; Some "efivarfs"; Some "devtmpfs"]
  | LibcOpen _ _ | LibcIoctl _ _ _ | IoctlBuf _ _ _ | LibcChroot _ | LibcExecve _ _ _ | LibcExecv _ _
  | FileOpen _ _ => False
  | _ => True
  end.

Definition no_decision : protocol sysE :=
  Protocol (E := sysE) (fun _ _ e => before_decision _ e)
    (fun _ A (e : sysE A) x => secure_boot_unreadable (Ev e x)).

Ltac early_tac :=
  repeat match goal with
  | |- quiet _ (trigger (LibcMount _ _ _ _ _)) =>
      split; [rewrite !elem_of_cons; auto 6|intros ?; exact I]
  | _ => quiet_step
  end.

Section decision.
Context `{X : Externals} `{AG : Age}.

Lemma early_mount fs target :
  Some fs ∈ [Some "proc"; Some "sysfs"; Some "efivarfs"; Some "devtmpfs"] ->
  quiet before_decision (mount_pseudo_fs fs target) /\ total (mount_pseudo_fs fs target).
Proof.
  intros Hfs. unfold mount_pseudo_fs. split; [|total_tac].
  destruct (cstring fs) as [c|] eqn:E; [apply cstring_inv in E as ->|].
  2:{ apply quiet_try; [quiet_tac|]. intros _. exact I. }
  apply quiet_try; [quiet_tac|]. intros _. apply quiet_try_ok.
  apply quiet_try; [exact I|]. intros t. apply quiet_try_ok. split; [exact Hfs|]. intros ?. exact I.
Qed.

Lemma early_mount_initial l :
  Forall (fun m => Some m.1 ∈ [Some "proc"; Some "sysfs"; Some "efivarfs"; Some "devtmpfs"]) l ->
  quiet before_decision (mount_initial l) /\ total (mount_initial l).
Proof.
  induction 1 as [|[fs mp] l Hfs _ [IHq IHt]]; [done|]. cbn [mount_initial].
  destruct (early_mount fs mp Hfs) as [Hq Ht].
  split; [apply quiet_bind|apply total_bind]; done.
Qed.

Lemma early_kernel_release : quiet before_decision kernel_release /\ total kernel_release.
Proof.
  unfold kernel_release, read_to_string. split; [|total_tac]. quiet_tac.
Qed.

Lemma wp_detect_unreadable h :
  wp no_decision detect_verified_boot_strict h (fun _ o => exists e, o = Done (Err e)).
Proof.
  apply wp_bind, wp_bind, wp_trigger; [done|]. intros v _. apply wp_ret.
  apply wp_try, wp_with_err. apply wp_try, wp_try, wp_trigger; [done|].
  intros r Hr. cbn in Hr. destruct Hr as [err ->]; [by eexists|]. by eexists.
Qed.

Lemma wp_no_decision h :
  wp no_decision cmd_boot h (fun _ o => o = Stopped (Exit 1)).
Proof.
  unfold cmd_boot. apply wp_bind. unfold boot_run.
  assert (forall A B (p : sys A) (f : A -> sys B) h Q, quiet before_decision p -> total p ->
    (forall a h', wp no_decision (f a) h' Q) -> wp no_decision (p ≫= f) h Q) as Hbind.
  { intros A B p f h1 Q Hq Ht Hf. apply wp_bind.
    eapply wp_mono; [by apply (wp_total _ before_decision)|]. intros h' o [_ [a ->]]. apply Hf. }
  apply Hbind; [unfold env_or, env_var; quiet_tac|unfold env_or, env_var; total_tac|]. intros img h1.
  apply Hbind; [unfold env_or, env_var; quiet_tac|unfold env_or, env_var; total_tac|]. intros data h2.
  apply Hbind; [apply early_kernel_release|apply early_kernel_release|]. intros _ h3.
  apply Hbind; [unfold env_or, env_var; quiet_tac|unfold env_or, env_var; total_tac|]. intros _ h4.
  destruct (early_mount_initial [("proc", "/proc"); ("sysfs", "/sys"); ("efivarfs", EFIVARS);
    ("devtmpfs", "/dev")]) as [Hq Ht].
  { repeat constructor; cbn; rewrite !elem_of_cons; auto 6. }
  apply Hbind; [done..|]. intros _ h5. apply wp_bind.
  eapply wp_mono; [apply wp_detect_unreadable|]. intros h6 o [e ->].
  apply wp_ret. cbn. split; [done|]. done.
Qed.

(** C13: Without a decision there is no boot: when the SecureBoot variable cannot
    be read, [cmd_boot] mounts nothing but the kernel file systems of the
    initrd, opens no device or image, unseals nothing, executes nothing -- not
    even the development init -- and exits with status 1. *)
Theorem unreadable_secure_boot_refuses (t : hist sysE) (o : outcome (result unit string)) :
  exec cmd_boot t o -> Forall secure_boot_unreadable t ->
  o = Stopped (Exit 1) /\ Forall (event_ok before_decision) t.
Proof.
  intros H Ha.
  destruct (wp_sound no_decision cmd_boot [] t o _ (wp_no_decision []) H) as [Hg Ho].
  - intros t1 [A e x] t2 ->. apply Forall_app in Ha as [_ Ha]. by inversion Ha.
  - split; [exact Ho|]. apply Forall_forall. intros [A e x] Hin.
    apply list_elem_of_split in Hin as (t1&t2&->). apply (Hg t1 (Ev e x) t2 eq_refl).
Qed.

End decision.

(** ** Witnesses *)

(** A machine that boots in verified mode: Secure Boot is on, partition 1 of
    [/dev/sda] started the kernel, partition 2 is the data partition, and the
    images of slot 1 are signed by a certificate of the database. *)
Definition boot_file (name : string) : string := EFIVARS +:+ "/" +:+ name +:+ "-" +:+ EFI_GLOBAL_GUID.
Definition toy_superblock (label : list byte) : list byte :=
  zeros (1024 + 56) ++ [x53; xef] ++ zeros 62 ++ take 16 (label ++ zeros 16).
Definition toy_image_files (path : string) (m : gmap string (list byte)) : gmap string (list byte) :=
  <[path := toy_image]> (<[path +:+ ".sig" := []]>
  (<[path +:+ ".0304000000000000.db.sig" := [x03; x04] ++ toy_sha256 (toy_sha256 toy_image)]> m)).

Definition sysfs_files : gmap string (list byte) :=
  <["/sys/class/block/sda1/partition" := as_bytes "1"]>
  (<["/sys/class/block/sda1/uevent" := as_bytes "PARTUUID=22bb11aa-33cc-44dd-ee55-ff6677889900"]>
  (<["/sys/class/block/sda2/partition" := as_bytes "2"]>
  (<["/sys/block/sda/sda1/partition" := as_bytes "1"]>
  (<["/sys/block/sda/sda2/partition" := as_bytes "2"]>
  (<["/dev/sda1" := toy_superblock []]>
  (<["/dev/sda2" := toy_superblock (as_bytes "STATE")]> ∅)))))).

Definition efi_files (secure_boot : byte) (m : gmap string (list byte)) : gmap string (list byte) :=
  <[boot_file "SecureBoot" := zeros 4 ++ [secure_boot]]>
  (<[boot_file "BootCurrent" := zeros 4 ++ [x03; x00]]>
  (<[boot_file "Boot0003" := zeros 4 ++ encode_load_option (zeros 4) [66]
       (encode_gpt_node 1 (zeros 16) toy_guid []) []]>
  (<[EFIVARS +:+ "/db-" +:+ EFI_IMAGE_SECURITY_DB_GUID := toy_db]> m))).

Definition toy_machine (files : gmap string (list byte)) (dirs : list string) : world :=
  {| wfiles := files;
     wdirs := ["/sys/class/block"; "/sys/block"; "/sys/block/sda/sda1"; "/sys/block/sda/sda2";
               "/dev/loop-control"; "/dev/loop0"] ++ dirs;
     wlinks := ∅;
     wentries := <["/sys/class/block" := ["sda"; "sda1"; "sda2"]]>
       (<["/sys/block" := ["sda"]]> (<["/sys/block/sda" := ["sda1"; "sda2"]]> ∅));
     wenv := ∅; wclock := 0; wnext := 3; wopen := ∅; wdev := ∅; wstdin := []; wpid := 1;
     wargs := ["initos"] |}.

Definition secure_machine : world :=
  toy_machine (toy_image_files "/z/initos/1/initos.erofs"
    (toy_image_files "/z/img/1/firmware-light.composefs"
    (<["/sysroot/sbin/init" := []]> (efi_files x01 sysfs_files)))) ["/z/img/composefs/objects"].

(** The images that a trace attaches, and what it executes. *)
Definition opened_images {A} (w : world) (p : sys A) : list string :=
  omap (fun v => match v with
    | @Ev _ A e x => match e with
        | LibcOpen p f => if f =? O_RDONLY then Some p else None
        | LibcExecve p _ _ | LibcExecv p _ => Some ("exec " +:+ p)
        | _ => None end end) (trace_of w p).

Lemma boot_follows_rules_witness :
  outcome_of secure_machine cmd_boot = Stopped Replaced /\
  opened_images secure_machine cmd_boot =
    ["/z/initos/1/initos.erofs"; "/z/img/1/firmware-light.composefs"; "exec /sbin/init"] /\
  guarded boot_rules [] (trace_of secure_machine cmd_boot).
Proof.
  assert (outcome_of secure_machine cmd_boot = Stopped Replaced) as H by (vm_compute; reflexivity).
  split; [exact H|]. split; [vm_compute; reflexivity|].
  exact (proj1 (boot_follows_rules _ _ (toy_exec _ _ _ H))).
Defined.

Lemma unreadable_secure_boot_refuses_witness :
  exists t, length t = 16%nat /\ exec cmd_boot t (Stopped (Exit 1)) /\
    Forall (event_ok before_decision) t.
Proof.
  exists (trace_of world0 cmd_boot). split; [vm_compute; reflexivity|].
  assert (exec cmd_boot (trace_of world0 cmd_boot) (Stopped (Exit 1))) as H
    by (apply toy_exec; vm_compute; reflexivity).
  split; [exact H|]. apply (unreadable_secure_boot_refuses _ _ H).
  vm_compute. repeat constructor; intros ?; eexists; reflexivity.
Defined.
