(* ===== verification/BootSteps.v ===== *)
(** The steps of the boot sequence one by one: where the root file system comes
    from, images by slot, the unlocking of the encrypted state, the TPM secret
    of each mode, the choice of init, and the deadline of the search for the
    data partition. *)

From S2P Require Import Prelude Prog Str PathLib Sys World Verity Efi Verify Tpm Fscrypt Cmd Mount Boot BootSpec.

(** ** Definitions *)

(** The call neither measures nor reads a file, as every verification does. *)
Definition unverified (A : Type) (e : sysE A) : Prop :=
  match e with
  | FsRead _ | FileOpen _ _ | IoctlMeasureVerity _ _ => False
  | _ => True
  end.

(** The directories that [mount_rootfs] takes for the root, in order. *)
Definition root_dirs (state_mount root_name : string) (slot : Z) : list string :=
  [path_join (path_join (path_join state_mount "c/roots") (fmt_dec slot)) root_name;
   path_join (path_join (path_join state_mount "roots") (fmt_dec slot)) root_name;
   path_join (path_join state_mount "c/roots") root_name].

(** A file beside [path] whose name is that of [path] followed by [.*.sig]. *)
Definition is_signature_of (path name : string) : Prop :=
  exists base, file_name path = Some base /\ starts_with (lossy base +:+ ".") (lossy name) = true /\
    ends_with ".sig" (lossy name) = true.

Definition has_signature (h : hist sysE) (path : string) : Prop :=
  Ev (PathExists (signature_path path "sig")) true ∈ h \/
  exists dir entries name, parent path = Some dir /\ Ev (FsReadDir dir) (Ok entries) ∈ h /\
    Ok name ∈ entries /\ is_signature_of path name.

(** Both places where a signature of [path] can be were searched, in vain:
    there is no [<path>.sig], and no entry of the directory (when it can be
    listed) is the file of another key. *)
Definition no_signature (h : hist sysE) (path : string) : Prop :=
  Ev (PathExists (signature_path path "sig")) false ∈ h /\
  forall dir, parent path = Some dir -> exists listing, Ev (FsReadDir dir) listing ∈ h /\
    forall entries name, listing = Ok entries -> Ok name ∈ entries -> ~ is_signature_of path name.

(** The image of the slot was looked for, if the path has one, and is not there. *)
Definition slot_image_absent (h : hist sysE) (slot : Z) (path : string) : Prop :=
  forall p, partitioned_image_path path slot = Some p -> Ev (PathExists p) false ∈ h.

(** The directory [home] below the encrypted [c] is visible once it is unlocked. *)
Definition c_home (c_dir : string) : string := path_join c_dir "home".

(** The kernel accepted a key of 64 bytes for the file system of [dir]. *)
Definition key_added (dir : string) (h : hist sysE) : Prop :=
  exists key fd out, length key = 64%nat /\ Ev (FileOpen dir false) (Ok fd) ∈ h /\
    Ev (IoctlBuf fd FS_IOC_ADD_ENCRYPTION_KEY (fscrypt_add_key_arg key)) (Ok out) ∈ h.

(** A key was added, and then [home] was there. *)
Definition unlocked_by_key (c_dir : string) (h : hist sysE) : Prop :=
  exists h1 h2, h = h1 ++ h2 /\ key_added c_dir h1 /\ Ev (PathIsDir (c_home c_dir)) true ∈ h2.

(** The TPM object and the prefix of the secret of each mode. *)
Definition sealed_handle (verified : bool) : Z :=
  if verified then DEFAULT_SEALED_HANDLE_SECURE else DEFAULT_SEALED_HANDLE_DEV.
Definition sealed_prefix (verified : bool) : list byte :=
  if verified then SECURE_TPM_PREFIX else DEV_TPM_PREFIX.

(** The files that [select_init] looks for, in order, with what each selects;
    [systemd] is the resolved path of the fourth. *)
Definition no_args (path : string) : SelectedInit := {| init_path := path; init_args := [] |}.
Definition init_candidates (state_mount root systemd : string) : list (string * SelectedInit) :=
  [(path_join state_mount "c/initos/init", no_args "/z/c/initos/init");
   (path_join root "nix/var/nix/profiles/system/bin/init", no_args "/nix/var/nix/profiles/system/bin/init");
   (path_join root "sbin/init", no_args "/sbin/init");
   (systemd, {| init_path := "/lib/systemd/systemd"; init_args := ["--system"] |});
   (path_join root "opt/initos/bin/initos-init", no_args "/opt/initos/bin/initos-init")].

(** A password is read from the terminal. *)
Definition is_prompt (v : event sysE) : bool :=
  match v with @Ev _ _ e _ => match e with StdinReadLine => true | _ => false end end.
Definition no_prompt (A : Type) (e : sysE A) : Prop :=
  match e with StdinReadLine => False | _ => True end.

(** ** Lemmas *)

Section facts.
Context `{X : Externals} `{AG : Age}.
Implicit Types h : hist sysE.

Lemma env_or_exec name d t r :
  exec (env_or name d) t (Done r) -> exists v, t = [Ev (EnvVar name) v] /\ r = default d v.
Proof. intros (v&t'&->&[-> [= ->]]). exists v. by destruct v. Qed.

Lemma first_existing_exec ps t r :
  exec (first_existing ps) t (Done r) ->
  Forall (event_ok unverified) t /\
  match r with Some p => p ∈ ps /\ Ev (PathExists p) true ∈ t
             | None => Forall (fun p => Ev (PathExists p) false ∈ t) ps end.
Proof.
  revert t. induction ps as [|p ps IH]; intros t; cbn [first_existing].
  - intros [-> [= ->]]. split; constructor.
  - intros (b&t'&->&H). destruct b.
    + destruct H as [-> [= ->]]. split; [by repeat constructor|]. split; left.
    + apply IH in H as [Hq H]. split; [by constructor|]. destruct r as [p'|].
      * destruct H as [? ?]. split; by right.
      * constructor; [left|]. eapply Forall_impl; [exact H|]. intros ? ?. by right.
Qed.

Lemma encrypted_root_path_exec sm name slot t r :
  exec (encrypted_root_path sm name (Some slot)) t (Done r) ->
  Forall (event_ok unverified) t /\
  match r with Some p => p ∈ root_dirs sm name slot /\ Ev (PathExists p) true ∈ t
             | None => Forall (fun p => Ev (PathExists p) false ∈ t) (root_dirs sm name slot) end.
Proof.
  intros H. apply exec_bind_done in H as (t1&t2&r1&->&H1&H2).
  apply first_existing_exec in H1 as [Hq1 H1]. destruct r1 as [p|].
  - destruct H2 as [-> [= ->]]. rewrite (app_nil_r t1). split; [done|]. destruct H1 as [Hp ?].
    split; [|done]. unfold root_dirs. rewrite !elem_of_cons in *. tauto.
  - apply first_existing_exec in H2 as [Hq2 H2]. split; [by apply Forall_app|].
    destruct r as [p|].
    + destruct H2 as [Hp ?]. split; [|apply elem_of_app; by right].
      unfold root_dirs. rewrite !elem_of_cons in *. tauto.
    + inversion H1 as [|?? Ha H1']. inversion H1' as [|?? Hb _]. inversion H2 as [|?? Hc _]. subst.
      repeat constructor; apply elem_of_app; auto.
Qed.

Lemma recursive_bind_mount_exec source target t :
  exec (recursive_bind_mount source target) t (Done (Ok tt)) ->
  t = [Ev (FsCreateDirAll target) (Ok tt);
       Ev (LibcMount source target None (Z.lor MS_BIND MS_REC) None) (Ok tt)].
Proof.
  remember (Done (Ok tt)) as o eqn:Ho. intros H.
  unfold recursive_bind_mount in H. exec_steps H; simplify_eq.
  repeat match goal with
  | H : cstring _ = Ok _ |- _ => apply cstring_inv in H as ->
  | u : () |- _ => destruct u
  end. done.
Qed.

Lemma utf8_path_ok p q : utf8_path p = Ok q -> q = p.
Proof.
  unfold utf8_path, to_str, from_utf8. case_match; cbn; [|done].
  intros [= <-]. apply of_bytes_as_bytes.
Qed.

Lemma verify_image_trusted_exec img h t :
  exec (verify_image_trusted img "" true) t (Done (Ok tt)) -> signed_image (h ++ t) img.
Proof.
  intros H. apply (wp_sound _ _ h t _ _ (wp_verify_image_trusted img true h) H); [|done].
  by intros ? [].
Qed.

Lemma mount_loop_ok_exec img target t :
  exec (mount_loop img target) t (Done (Ok tt)) ->
  exists ctrl free loop img_fd set, t = loop_mount_calls img target ctrl free loop img_fd set.
Proof. intros H. apply mount_loop_exec in H as [_ (r&[= <-]&Hr)]. done. Qed.

(** Images by slot. *)
Lemma partitioned_path_below dir name slot :
  clean_tail dir -> dir <> "" -> is_name name -> name <> ".." ->
  partitioned_image_path (dir +:+ "/" +:+ name) slot = Some (path_join (path_join dir (fmt_dec slot)) name).
Proof.
  intros Hc Hd Hn Hne. unfold partitioned_image_path. rewrite parent_below by done.
  assert (file_name (dir +:+ "/" +:+ name) = Some name) as ->; [|done].
  destruct Hn as [Hs Hk]. unfold file_name, path_segs. rewrite path_parts_below by done. cbn [snd].
  rewrite split_slash_app, (split_slash_no_slash name), rev_app_distr by done.
  cbn [rev app drop_while]. rewrite Hk. cbn [rev]. rewrite last_snoc.
  by rewrite (proj2 (String.eqb_neq _ _)).
Qed.

Lemma partitioned_path_name path slot p :
  partitioned_image_path path slot = Some p -> exists n, file_name p = Some n.
Proof.
  unfold partitioned_image_path. destruct (parent path) as [d|]; [|done].
  destruct (file_name path) as [n|] eqn:E; [|done]. intros [= <-]. exists n.
  apply file_name_inv in E as [Hn Hd]. by apply file_name_join.
Qed.

Lemma any_signature_true p l :
  any_signature p l = true -> exists name, name ∈ l /\
    starts_with p (lossy name) = true /\ ends_with ".sig" (lossy name) = true.
Proof.
  induction l as [|a l IH]; [done|]. cbn. intros H. apply orb_prop in H as [H|H].
  - apply andb_prop in H as [? ?]. exists a. split; [left|done].
  - destruct (IH H) as (n&?&?). exists n. split; [by right|done].
Qed.

Lemma any_signature_false p l name :
  any_signature p l = false -> name ∈ l ->
  ~ (starts_with p (lossy name) = true /\ ends_with ".sig" (lossy name) = true).
Proof.
  induction l as [|a l IH]; [intros _ H; by apply elem_of_nil in H|]. cbn.
  intros [Ha Hl]%orb_false_iff [->|H]%elem_of_cons [Hp Hs]; [by rewrite Hp, Hs in Ha|].
  by apply (IH Hl H).
Qed.

Lemma ok_entries_elem_of (n : string) l : Ok n ∈ l -> n ∈ ok_entries l.
Proof. intros H. unfold ok_entries. apply list_elem_of_omap. by exists (Ok n). Qed.

Lemma elem_of_ok_entries (n : string) l : n ∈ ok_entries l -> Ok n ∈ l.
Proof.
  unfold ok_entries. rewrite list_elem_of_omap. intros (r&Hr&H). destruct r as [m|]; [|done].
  injection H as ->. done.
Qed.

Lemma signature_exists_exec path base t o :
  file_name path = Some base -> exec (signature_exists path) t o ->
  exists b : bool, o = Done b /\
    (if b then has_signature t path else no_signature t path).
Proof.
  intros Hb (e&t1&->&H). destruct e.
  { destruct H as [-> ->]. exists true. split; [done|]. left. left. }
  cbn [prog_mbind prog_bind] in H.
  destruct (parent path) as [dir|] eqn:Ep.
  2:{ destruct H as [-> ->]. exists false. split; [done|]. split; [left|]. by intros ? [=]%(eq_trans (eq_sym Ep)). }
  destruct H as ([entries|e]&t2&->&H).
  - cbn [prog_mbind prog_bind] in H. rewrite Hb in H. destruct H as [-> ->]. eexists. split; [done|].
    destruct (any_signature _ _) eqn:E.
    2:{ split; [left|]. intros d [= <-]%(eq_trans (eq_sym Ep)). eexists. split; [right; left|].
        intros es name [= <-] Hin%ok_entries_elem_of (b&[= <-]%(eq_trans (eq_sym Hb))&Hs).
        by apply (any_signature_false _ _ _ E Hin). }
    apply any_signature_true in E as (name&Hin&?&?). right. exists dir, entries, name.
    split_and!; [done|right; left|by apply elem_of_ok_entries|by exists base].
  - destruct H as [-> ->]. exists false. split; [done|]. split; [left|].
    intros d [= <-]%(eq_trans (eq_sym Ep)). eexists. split; [right; left|done].
Qed.

Lemma has_signature_mono h h' p : h ⊆ h' -> has_signature h p -> has_signature h' p.
Proof.
  intros Hs [H|(d&es&n&?&H&?)]; [left; by apply Hs|right]. exists d, es, n.
  split; [done|]. split; [by apply Hs|done].
Qed.

Lemma no_signature_mono h h' p : h ⊆ h' -> no_signature h p -> no_signature h' p.
Proof.
  intros Hs [H Hd]. split; [by apply Hs|]. intros dir Hp. apply Hd in Hp as (r&Hr&Hn).
  exists r. split; [by apply Hs|done].
Qed.

Lemma slot_image_absent_mono h h' slot c :
  h ⊆ h' -> slot_image_absent h slot c -> slot_image_absent h' slot c.
Proof. intros Hs H p Hp. by apply Hs, H. Qed.

Lemma check_partitioned_exec path slot t o :
  exec (check_partitioned_image path slot true) t o ->
  exists r, o = Done r /\
    match r with
    | Ok None => slot_image_absent t slot path
    | Ok (Some p) => partitioned_image_path path slot = Some p /\ Ev (PathExists p) true ∈ t /\
        has_signature t p
    | Err _ => exists p, partitioned_image_path path slot = Some p /\ Ev (PathExists p) true ∈ t /\
        no_signature t p
    end.
Proof.
  unfold check_partitioned_image, slot_image_absent.
  destruct (partitioned_image_path path slot) as [p|] eqn:Ep.
  2:{ intros [-> ->]. eexists. split; [done|]. done. }
  pose proof (partitioned_path_name _ _ _ Ep) as [n Hn].
  intros H. apply exec_bind in H as [(t1&t2&b&->&H1&H2)|(s&H1&->)].
  - apply (signature_exists_exec _ n) in H1 as (b'&[= <-]&Hb); [|done].
    destruct H2 as (e&t3&->&[-> ->]). eexists. split; [done|].
    assert (forall v, v ∈ t1 ++ [v]) as Hl by (intros v; apply elem_of_app; right; left).
    destruct e.
    + destruct b.
      * split; [done|]. split; [apply Hl|]. apply (has_signature_mono t1); [|done].
        intros v Hv. apply elem_of_app. by left.
      * exists p. split; [done|]. split; [apply Hl|]. apply (no_signature_mono t1); [|done].
        intros v Hv. apply elem_of_app. by left.
    + intros q [= <-]. apply Hl.
  - apply (signature_exists_exec _ n) in H1 as (b'&[=]&_); done.
Qed.

Lemma first_partitioned_exec slot cands t o :
  exec (first_partitioned slot true cands) t o ->
  exists r, o = Done r /\
    match r with
    | Ok None => Forall (slot_image_absent t slot) cands
    | Ok (Some p) => exists before c after, cands = before ++ c :: after /\
        Forall (slot_image_absent t slot) before /\ partitioned_image_path c slot = Some p /\
        Ev (PathExists p) true ∈ t /\ has_signature t p
    | Err _ => exists before c after p, cands = before ++ c :: after /\
        Forall (slot_image_absent t slot) before /\ partitioned_image_path c slot = Some p /\
        Ev (PathExists p) true ∈ t /\ no_signature t p
    end.
Proof.
  revert t. induction cands as [|c cands IH]; intros t; cbn [first_partitioned].
  { intros [-> ->]. eexists. split; [done|]. constructor. }
  intros H. apply exec_bind in H as [(t1&t2&r&->&H1&H2)|(s&H1&->)];
    apply check_partitioned_exec in H1 as (r'&[= <-]&Hr).
  assert (t1 ⊆ t1 ++ t2 /\ t2 ⊆ t1 ++ t2) as [Hs1 Hs2].
  { split; intros x Hx; apply elem_of_app; auto. }
  destruct r as [[p|]|e].
  - destruct H2 as [-> ->]. rewrite (app_nil_r t1). eexists. split; [done|].
    exists [], c, cands. split; [done|]. split; [constructor|done].
  - apply IH in H2 as (r&->&Hr2). exists r. split; [done|].
    assert (slot_image_absent (t1 ++ t2) slot c) as Ha by by apply (slot_image_absent_mono t1).
    assert (forall l, Forall (slot_image_absent t2 slot) l -> Forall (slot_image_absent (t1 ++ t2) slot) (c :: l)) as Hf.
    { intros l Hl. constructor; [done|]. eapply Forall_impl; [exact Hl|].
      intros x Hx. by apply (slot_image_absent_mono t2). }
    destruct r as [[p|]|e].
    + destruct Hr2 as (before&c'&after&->&Hb&Hp&He&Hsg). exists (c :: before), c', after.
      split_and!; [done|by apply Hf|done|by apply Hs2|by apply (has_signature_mono t2)].
    + by apply Hf.
    + destruct Hr2 as (before&c'&after&p&->&Hb&Hp&He&Hsg). exists (c :: before), c', after, p.
      split_and!; [done|by apply Hf|done|by apply Hs2|by apply (no_signature_mono t2)].
  - destruct H2 as [-> ->]. rewrite (app_nil_r t1). eexists. split; [done|].
    destruct Hr as (p&Hp&?&?). exists [], c, cands, p. split; [done|]. split; [constructor|done].
Qed.

(** Unlocking. *)
Lemma key_added_mono dir h h' : h ⊆ h' -> key_added dir h -> key_added dir h'.
Proof. intros Hs (k&fd&out&?&?&?). exists k, fd, out. split_and!; [done|by apply Hs..]. Qed.

Lemma unlocked_by_key_app c h h1 h' :
  unlocked_by_key c h -> unlocked_by_key c (h1 ++ h ++ h').
Proof.
  intros (a&b&->&Hk&Hh). exists (h1 ++ a), (b ++ h'). split; [app_eq|]. split.
  - eapply key_added_mono; [|exact Hk]. intros v Hv. apply elem_of_app. by right.
  - apply elem_of_app. by left.
Qed.

Lemma count_no_prompt t : Forall (event_ok no_prompt) t -> count is_prompt t = 0%nat.
Proof.
  unfold count. induction 1 as [|[A e x] t He _ IH]; [done|]. by destruct e.
Qed.

Lemma add_fscrypt_key_exec dir raw t o :
  exec (add_fscrypt_key dir raw) t o ->
  count is_prompt t = 0%nat /\ exists r, o = Done r /\ (r = Ok tt -> key_added dir t).
Proof.
  intros H. split.
  { apply count_no_prompt. eapply quiet_exec, H. unfold add_fscrypt_key, add_key, open_dir. quiet_tac. }
  refine (wp_exec _ _ _ _ (_ : wp free_protocol _ _ (fun h o => exists r, o = Done r /\ _)) H).
  unfold add_fscrypt_key. destruct raw as [|b raw]; [by eexists|].
  destruct (repeat_key_val 64 0 (b :: raw)) as (key&->&Hl&_); [lia|done|].
  cbn [lift]. apply wp_bind, wp_ret. apply wp_try. destruct (utf8_path dir) as [d|e] eqn:Ed; [|by eexists].
  apply utf8_path_ok in Ed as ->. apply wp_ret.
  assert (len key = 64) as Hlen by (unfold len; lia).
  apply wp_try. unfold add_key, open_dir. rewrite add_key_buf_eq by (unfold U32; lia). cbn [lift].
  apply wp_bind, wp_ret, wp_try, wp_with_err, wp_trigger; [done|]. intros [fd|e] _; [|by eexists].
  apply wp_try, wp_with_err, wp_trigger; [done|]. intros [out|e] _; [|by eexists].
  cbn [map_err]. apply wp_bind, wp_lift.
  assert (len (array (len (fscrypt_add_key_arg key)) out) = 144) as Ha.
  { assert (len (fscrypt_add_key_arg key) = 144) as E.
    { unfold fscrypt_add_key_arg. autorewrite with len. rewrite !len_zeros by lia. lia. }
    unfold array. rewrite E. unfold len. rewrite length_take, length_app. unfold zeros.
    rewrite length_replicate. lia. }
  unfold FSCRYPT_KEY_IDENTIFIER_SIZE. rewrite slice_val by lia.
  eexists. split; [reflexivity|]. intros _. exists key, fd, out. split; [done|].
  split; [left|right; left].
Qed.

Lemma c_is_unlocked_exec c t o :
  exec (c_is_unlocked c) t o -> exists b : bool, t = [Ev (PathIsDir (c_home c)) b] /\ o = Done b.
Proof. intros (b&t'&->&[-> ->]). by exists b. Qed.

Lemma try_password_exec c c_age pass t o :
  exec (try_password c c_age pass) t o ->
  count is_prompt t = 0%nat /\ exists r, o = Done r /\ (r = Ok tt -> unlocked_by_key c t).
Proof.
  intros H. unfold try_password in H. apply exec_bind in H as [(t1&t2&e&->&H1&H2)|(s&H1&->)].
  2:{ destruct H1 as (?&?&_&[_ [=]]). }
  assert (count is_prompt t1 = 0%nat) as Hc1 by (destruct H1 as (?&?&->&[-> _]); done).
  rewrite count_app, Hc1. clear H1.
  apply exec_bind in H2 as [(t3&t4&key&->&H1&H2)|(s&H1&->)].
  2:{ destruct e; [|by destruct H1]. destruct H1 as ([d|e]&?&_&H1);
        [destruct H1 as [_ [=]]|destruct H1 as [_ [=]]]. }
  assert (count is_prompt t3 = 0%nat) as Hc3.
  { destruct e; [destruct H1 as ([d|er]&?&->&H1); destruct H1 as [-> _]; done|by destruct H1 as [-> _]]. }
  rewrite count_app, Hc3. clear H1. destruct key as [key|e']; [|destruct H2 as [-> ->]; split; [done|by eexists]].
  apply exec_bind in H2 as [(t5&t6&r&->&H1&H2)|(s&H1&->)];
    apply add_fscrypt_key_exec in H1 as (Hc5&r'&[= <-]&Hk).
  rewrite count_app, Hc5. destruct r as [[]|e']; [|destruct H2 as [-> ->]; split; [done|by eexists]].
  apply exec_bind in H2 as [(t7&t8&b&->&H1&H2)|(s&H1&->)];
    apply c_is_unlocked_exec in H1 as (b'&->&[= <-]).
  destruct H2 as [-> ->]. split; [done|]. eexists. split; [done|]. destruct b; [|done]. intros _.
  exists (t1 ++ t3 ++ t5), [Ev (PathIsDir (c_home c)) true]. split; [app_eq|]. split; [|left].
  eapply key_added_mono; [|by apply Hk]. intros v Hv. rewrite !elem_of_app. auto.
Qed.

Lemma read_secret_exec t o :
  exec read_secret t o -> (count is_prompt t <= 1)%nat /\ exists r, o = Done r.
Proof.
  intros (x&t1&->&H). destruct x as [lflag|].
  - destruct H as ([[]|e]&t2&->&H); [|destruct H as [-> ->]; cbn; split; [lia|by eexists]].
    destruct H as ([data|e]&t3&->&H); [cbn in H; destruct (from_utf8 data)|];
      destruct H as (r&t4&->&[-> ->]); cbn; (split; [lia|by eexists]).
  - destruct H as ([data|e]&t3&->&H); [cbn in H; destruct (from_utf8 data)|];
      destruct H as [-> ->]; cbn; (split; [lia|by eexists]).
Qed.

Lemma password_attempts_exec n c c_age t o :
  exec (password_attempts n c c_age) t o ->
  (count is_prompt t <= n)%nat /\ exists r, o = Done r /\ (r = Ok tt -> unlocked_by_key c t).
Proof.
  revert t. induction n as [|n IH]; intros t; cbn [password_attempts].
  { intros [-> ->]. split; [done|]. by eexists. }
  intros (e&t1&->&H). cbn [prog_mbind prog_bind] in H.
  assert (forall u, count is_prompt (Ev (PathExists c_age) e :: u) = count is_prompt u) as -> by done.
  assert (forall h1 h, unlocked_by_key c h -> unlocked_by_key c (Ev (PathExists c_age) e :: h1 ++ h)) as Hmono.
  { intros h1 h Hu. rewrite <- (app_nil_r h). by apply (unlocked_by_key_app c h (_ :: h1) []). }
  apply exec_bind in H as [(t2&t3&r&->&H1&H2)|(s&H1&->)];
    apply read_secret_exec in H1 as (Hc&r'&[= <-]).
  rewrite count_app. destruct r as [pass|e']; [|destruct H2 as [-> ->]; split; [cbn; lia|by eexists]].
  destruct (is_empty pass).
  { apply IH in H2 as (Hc2&r&->&Hr). split; [lia|]. exists r. split; [done|]. auto. }
  apply exec_bind in H2 as [(t4&t5&r&->&H1&H2)|(s&H1&->)];
    apply try_password_exec in H1 as (Hc4&r'&[= <-]&Hr).
  rewrite count_app, Hc4. destruct r as [[]|e'].
  - destruct H2 as [-> ->]. split; [cbn; lia|]. eexists. split; [done|]. intros _.
    apply (unlocked_by_key_app c t4 (_ :: t2) []). auto.
  - destruct n as [|n]; [destruct H2 as [-> ->]; split; [cbn; lia|by eexists]|].
    apply IH in H2 as (Hc2&r&->&Hr2). split; [lia|]. exists r. split; [done|]. intros Hok.
    rewrite (assoc_L app). auto.
Qed.

(** A command and its answer. *)
Definition exchange (dev : Z) (cmd r : list byte) : hist sysE :=
  [Ev (FileWriteAll dev cmd) (Ok tt); Ev (FileRead dev RSP_BUF_SIZE) (Ok r)].

(** The calls of a transaction: nothing but the command and the reset of the
    lockout is sent. *)
Definition sends (P : list byte -> Prop) (A : Type) (e : sysE A) : Prop :=
  match e with FileWriteAll _ c => P c | FileRead _ _ | ThreadSleep _ => True | _ => False end.
Definition sends_only (cmd c : list byte) : Prop := c = cmd \/ da_lock_reset_cmd = Val c.

Lemma da_lock_reset_sends cmd dev t o :
  exec (da_lock_reset_raw dev) t o -> Forall (event_ok (sends (sends_only cmd))) t.
Proof.
  intros H. eapply quiet_exec, H. unfold da_lock_reset_raw. rewrite da_lock_reset_cmd_eq. cbn [lift].
  split; [right; apply da_lock_reset_cmd_eq|]. intros ?. split; [exact I|]. by intros [].
Qed.

(** The answer of a transaction is that of its last exchange. *)
Lemma transact_go_last n dev cmd t rsp :
  exec (tpm_transact_go n dev cmd) t (Done (Ok rsp)) ->
  exists t0 r, t = t0 ++ exchange dev cmd r /\ rsp = take (Z.to_nat RSP_BUF_SIZE) r /\
    Forall (event_ok (sends (sends_only cmd))) t0.
Proof.
  revert t. induction n as [|n IH]; intros t; cbn [tpm_transact_go]; intros H.
  all: apply exec_try_ok in H as (t1&t2&[]&->&H1&H).
  all: apply exec_boxed_ok in H1 as (?&?&->&[-> [= <-]]).
  all: apply exec_try_ok in H as (t3&t4&rsp'&->&H1&H).
  all: apply exec_boxed_ok in H1; destruct H1 as ([r|]&?&->&H1); [|by destruct H1].
  all: destruct H1 as [-> [= ->]].
  all: destruct (len _ <? 10); [by destruct H|].
  all: apply exec_bind_done in H as (t5&t6&rc&->&H1&H).
  all: destruct (get_u32 _ 6); [|by destruct H1..]; destruct H1 as [-> [= ->]].
  all: destruct (retryable _); [|destruct H as [-> [= ->]]; exists [], r; split_and!; [done..|constructor]].
  - destruct H as [-> [= ->]]. exists [], r. split_and!; [done..|constructor].
  - apply exec_bind_done in H as (t7&t8&[]&->&H7&H). apply exec_bind_done in H as (t9&t10&[]&->&H9&H).
    destruct H9 as (?&?&->&[-> _]). apply IH in H as (t0&r'&->&->&Ht0).
    exists (exchange dev cmd r ++ t7 ++ [Ev (ThreadSleep TPM_RETRY_DELAY_MS) x] ++ t0), r'.
    split; [unfold exchange; app_eq|]. split; [done|]. rewrite !Forall_app. split_and!; [|..|done].
    + repeat constructor.
    + destruct (_ =? _); [by eapply da_lock_reset_sends|]. by destruct H7 as [-> _].
    + repeat constructor.
Qed.

Lemma exchange_in t0 dev cmd r v : v ∈ exchange dev cmd r -> v ∈ t0 ++ exchange dev cmd r.
Proof. intros H. apply elem_of_app. by right. Qed.

Lemma transact_checked_last dev name c t rsp :
  exec (transact_checked dev name c) t (Done (Ok rsp)) ->
  exists cmd, c = Val cmd /\ get_u32 rsp 6 = Val 0 /\
    exists t0 r, t = t0 ++ exchange dev cmd r /\ rsp = take (Z.to_nat RSP_BUF_SIZE) r /\
      Forall (event_ok (sends (sends_only cmd))) t0.
Proof.
  intros H. apply exec_bind_done in H as (t1&t2&cmd&->&H1&H). destruct c as [c| |]; [|by destruct H1..].
  destruct H1 as [-> [= ->]]. exists c. split; [done|]. cbn [app].
  apply exec_try_ok in H as (t3&t4&rsp'&->&H1&H).
  apply exec_try_ok in H as (t5&t6&[]&->&Hc&[-> [= ->]]). unfold check_response in Hc.
  destruct (get_u32 rsp' 6) as [rc| |] eqn:E; [|by destruct Hc..].
  destruct Hc as [-> Hc]. destruct (Z.eqb_spec rc 0) as [->|]; [|done]. split; [done|].
  rewrite !app_nil_r. by eapply transact_go_last.
Qed.

Lemma transact_checked_ok dev name c t rsp :
  exec (transact_checked dev name c) t (Done (Ok rsp)) ->
  exists cmd, c = Val cmd /\ Ev (FileWriteAll dev cmd) (Ok tt) ∈ t /\
    exists r, Ev (FileRead dev RSP_BUF_SIZE) (Ok r) ∈ t /\ rsp = take (Z.to_nat RSP_BUF_SIZE) r.
Proof.
  intros H. apply transact_checked_last in H as (cmd&->&_&t0&r&->&->&_). exists cmd. split; [done|].
  split; [apply exchange_in; left|]. exists r. split; [apply exchange_in; right; left|done].
Qed.

(** The answer that was parsed, and what was sent before. *)
Lemma parse_response_last {A} (parse : list byte -> comp A) dev name c t a :
  exec (parse_response parse (transact_checked dev name c)) t (Done (Ok a)) ->
  exists cmd r t0, c = Val cmd /\ t = t0 ++ exchange dev cmd r /\
    get_u32 (take (Z.to_nat RSP_BUF_SIZE) r) 6 = Val 0 /\ parse (take (Z.to_nat RSP_BUF_SIZE) r) = Val a /\
    Forall (event_ok (sends (sends_only cmd))) t0.
Proof.
  intros H. apply exec_try_ok in H as (t1&t2&rsp&->&H1&H).
  apply exec_bind_done in H as (t3&t4&s&->&H2&[-> [= ->]]).
  destruct (parse rsp) eqn:E; [|by destruct H2..]. destruct H2 as [-> [= ->]].
  apply transact_checked_last in H1 as (cmd&->&H0&t0&r&->&->&Ht). exists cmd, r, t0.
  rewrite !app_nil_r. done.
Qed.

Lemma parse_response_ok {A} (parse : list byte -> comp A) dev name c t a :
  exec (parse_response parse (transact_checked dev name c)) t (Done (Ok a)) ->
  exists cmd, c = Val cmd /\ Ev (FileWriteAll dev cmd) (Ok tt) ∈ t /\
    exists r, Ev (FileRead dev RSP_BUF_SIZE) (Ok r) ∈ t /\ parse (take (Z.to_nat RSP_BUF_SIZE) r) = Val a.
Proof.
  intros H. apply parse_response_last in H as (cmd&r&t0&->&->&_&Hp&_). exists cmd. split; [done|].
  split; [apply exchange_in; left|]. exists r. split; [apply exchange_in; right; left|done].
Qed.

Lemma unseal_ok dev handle session t secret :
  exec (unseal dev handle session) t (Done (Ok secret)) ->
  Ev (FileWriteAll dev (command TPM_ST_SESSIONS TPM2_CC_UNSEAL
        (to_be 4 handle ++ auth_area (session_auth session)))) (Ok tt) ∈ t /\
  exists r, Ev (FileRead dev RSP_BUF_SIZE) (Ok r) ∈ t /\
    tpm2b_at (take (Z.to_nat RSP_BUF_SIZE) r) 14 = Val secret.
Proof.
  intros H. apply parse_response_ok in H as (cmd&Hc&H). rewrite unseal_cmd_eq in Hc.
  injection Hc as <-. done.
Qed.

Lemma bytes_strip_prefix_ok p s k : bytes_strip_prefix p s = Some k -> s = p ++ k.
Proof.
  revert s. induction p as [|a p IH]; intros s; cbn; [intros [= ->]; done|].
  destruct s as [|b s]; [done|]. case_bool_decide as E; [|done]. intros H. subst b. by rewrite (IH s).
Qed.

Lemma unlock_c_with_tpm_exec c vb t :
  exec (unlock_c_with_tpm c vb) t (Done (Ok tt)) -> unlocked_by_key c t.
Proof.
  intros H. apply exec_try_ok in H as (t1&t2&key&->&_&H).
  apply exec_try_ok in H as (t3&t4&[]&->&H3&H).
  apply add_fscrypt_key_exec in H3 as (_&r&[= <-]&Hk).
  apply exec_bind_done in H as (t5&t6&b&->&H5&H). apply c_is_unlocked_exec in H5 as (b'&->&[= <-]).
  destruct b; [|by destruct H]. exists (t1 ++ t3), (Ev (PathIsDir (c_home c)) true :: t6).
  split; [app_eq|]. split; [|left]. eapply key_added_mono; [|by apply Hk].
  intros v Hv. rewrite !elem_of_app. auto.
Qed.

Lemma unlock_state_c_exec sm vb t :
  exec (unlock_state_c sm vb) t (Done (Ok tt)) ->
  let c := path_join sm "c" in
  t = [Ev (PathExists c) false] \/
  (vb = false /\ t = [Ev (PathExists c) true; Ev (PathIsDir (c_home c)) true]) \/
  exists rest, t = Ev (PathExists c) true :: Ev (PathIsDir (c_home c)) false :: rest /\
    unlocked_by_key c rest.
Proof.
  intros (e&t1&->&H) c. fold c in H. cbn [prog_mbind prog_bind] in H. destruct e; cbn [negb] in H.
  2:{ destruct H as [-> _]. by left. }
  right. destruct H as (b&t2&->&H). cbn [prog_mbind prog_bind] in H. destruct b.
  { left. destruct vb; destruct H as [-> [=]]. done. }
  right. eexists. split; [done|]. destruct H as (tpm&t3&->&H). cbn [prog_mbind prog_bind] in H.
  apply exec_bind_done in H as (t4&t5&r&->&H1&H2).
  destruct r as [[]|e'].
  - destruct H2 as [-> _]. destruct tpm; [|by destruct H1 as [_ [=]]].
    apply unlock_c_with_tpm_exec in H1. by apply (unlocked_by_key_app c t4 [_] []).
  - apply password_attempts_exec in H2 as (_&r&[= <-]&Hr).
    rewrite <- (app_nil_r t5). apply (unlocked_by_key_app c t5 (_ :: t4) []). by apply Hr.
Qed.

(** Init. *)
Lemma first_file_exec root cs t r :
  exec (first_file root cs) t (Done r) ->
  let file c := path_join root (trim_start_matches (Ascii.eqb "/") c) in
  match r with
  | Some c => exists before after, cs = before ++ c :: after /\
      Forall (fun c => Ev (PathIsFile (file c)) false ∈ t) before /\ Ev (PathIsFile (file c)) true ∈ t
  | None => Forall (fun c => Ev (PathIsFile (file c)) false ∈ t) cs
  end.
Proof.
  intros H file. revert t H. induction cs as [|c cs IH]; intros t; cbn [first_file].
  { intros [-> [= ->]]. constructor. }
  intros (b&t'&->&H). destruct b.
  { destruct H as [-> [= ->]]. exists [], cs. split; [done|]. split; [constructor|left]. }
  assert (forall l, Forall (fun c => Ev (PathIsFile (file c)) false ∈ t') l ->
    Forall (fun c => Ev (PathIsFile (file c)) false ∈ Ev (PathIsFile (file c)) false :: t') l) as Hw.
  { intros l Hl. eapply Forall_impl; [exact Hl|]. intros ? ?. by right. }
  assert (forall l, Forall (fun c => Ev (PathIsFile (file c)) false ∈ t') l ->
    Forall (fun c0 => Ev (PathIsFile (file c0)) false ∈ Ev (PathIsFile (file c)) false :: t') (c :: l)) as Hf.
  { intros l Hl. constructor; [left|]. eapply Forall_impl; [exact Hl|]. intros ? ?. by right. }
  clear Hw. apply IH in H. destruct r as [c'|]; [|by apply Hf].
  destruct H as (before&after&->&Hb&Hc). exists (c :: before), after. split; [done|].
  split; [by apply Hf|by right].
Qed.

Lemma Forall_elem_sub {A B} (f : A -> B) l (t t' : list B) :
  t ⊆ t' -> Forall (fun x => f x ∈ t) l -> Forall (fun x => f x ∈ t') l.
Proof. intros Hs Hl. eapply Forall_impl; [exact Hl|]. intros x. apply Hs. Qed.

Ltac seen :=
  repeat apply Forall_cons_2; try apply Forall_nil_2; cbn [fst];
  repeat first [rewrite elem_of_cons | rewrite elem_of_app]; auto 10.

Lemma select_init_exec sm root t i :
  exec (select_init sm root) t (Done (Ok i)) ->
  exists v rest, t = Ev (EnvVar "INITOS_INIT") v :: rest /\
    match v with
    | Some path => i = no_args path /\ rest = []
    | None => exists systemd before file after,
        init_candidates sm root systemd = before ++ (file, i) :: after /\
        Forall (fun c => Ev (PathIsFile c.1) false ∈ rest) before /\ Ev (PathIsFile file) true ∈ rest
    end.
Proof.
  intros (v&t1&->&H). exists v, t1. split; [done|]. cbn [prog_mbind prog_bind] in H. destruct v as [p|].
  { by destruct H as [-> [= ->]]. }
  destruct H as (b&t2&->&H). cbn [prog_mbind prog_bind] in H. destruct b.
  { destruct H as [-> [= ->]]. eexists "", [], _, _. split; [done|]. split; [constructor|left]. }
  apply exec_bind_done in H as (t3&t4&r&->&H3&H). apply first_file_exec in H3. cbv zeta in H3.
  destruct r as [c|].
  { destruct H as [-> [= ->]]. rewrite (app_nil_r t3). destruct H3 as (before&after&E&Hb&Hc).
    destruct before as [|b1 [|b2 before]]; simplify_list_eq.
    - eexists "", [_], _, _. split; [done|]. split; [|by right]. seen.
    - inversion Hb as [|?? Hb1 _]. subst. eexists "", [_; _], _, _. split; [done|].
      split; [|by right]. seen.
    - by destruct before. }
  inversion H3 as [|?? Hn H3']. inversion H3' as [|?? Hs _]. subst. clear H3 H3'.
  apply exec_try_ok in H as (t5&t6&p&->&_&H).
  destruct H as (b&t7&->&H). cbn [prog_mbind prog_bind] in H. destruct b.
  { destruct H as [-> [= ->]]. eexists p, [_; _; _], _, _. split; [done|].
    split; seen. }
  apply exec_bind_done in H as (t8&t9&r&->&H8&H). apply first_file_exec in H8. cbv zeta in H8.
  destruct r as [c|]; [|by destruct H as [_ [=]]]. destruct H as [-> [= ->]].
  destruct H8 as (before&after&E&_&Hc). destruct before as [|? []]; simplify_list_eq.
  eexists p, [_; _; _; _], _, _. split; [done|].
  split; seen.
Qed.

(** The root, in both modes. *)
Lemma verify_image_trusted_mode img vb h t :
  exec (verify_image_trusted img "" vb) t (Done (Ok tt)) -> vb = true -> signed_image (h ++ t) img.
Proof. intros H ->. by apply verify_image_trusted_exec. Qed.

Lemma mount_rootfs_exec sm root img vb slot t :
  exec (mount_rootfs sm root img vb (Some slot)) t (Done (Ok tt)) ->
  exists v t1, t = Ev (EnvVar "INITOS_ROOT") v :: t1 /\
  let dirs := root_dirs sm (default "ROOTA" v) slot in
  ((exists dir t2, dir ∈ dirs /\ Ev (PathExists dir) true ∈ t /\
      t1 = t2 ++ [Ev (FsCreateDirAll root) (Ok tt);
                  Ev (LibcMount dir root None (Z.lor MS_BIND MS_REC) None) (Ok tt)] /\
      Forall (event_ok unverified) t) \/
   (Forall (fun dir => Ev (PathExists dir) false ∈ t) dirs /\
    exists image t2 ctrl free loop img_fd set,
      t1 = t2 ++ loop_mount_calls image root ctrl free loop img_fd set /\
      (vb = true -> signed_image t2 image))).
Proof.
  intros H. apply exec_bind_done in H as (t0&t1&name&->&H0&H).
  apply env_or_exec in H0 as (v&->&->).
  exists v, t1. split; [done|]. cbv zeta.
  apply exec_bind_done in H as (ta&tb&r&->&H1&H2).
  apply encrypted_root_path_exec in H1 as [Hq H1]. destruct r as [dir|].
  - left. destruct H1 as [Hd Hin]. apply exec_try_ok in H2 as (tc&td&s&->&H2&H3).
    apply exec_ret in H2 as [-> [= Hs]]. symmetry in Hs. apply utf8_path_ok in Hs as ->.
    apply exec_boxed_ok, recursive_bind_mount_exec in H3 as ->.
    exists dir, ta. split_and!; [done| |done|].
    + right. apply elem_of_app. by left.
    + constructor; [done|]. apply Forall_app. split; [done|]. by repeat constructor.
  - right. split.
    { eapply Forall_impl; [exact H1|]. intros d Hd. right. apply elem_of_app. by left. }
    apply exec_try_ok in H2 as (tc&td&path&->&_&H2).
    apply exec_try_ok in H2 as (te&tf&s&->&H2&H3).
    apply exec_ret in H2 as [-> [= Hs]]. symmetry in Hs. apply utf8_path_ok in Hs as ->.
    apply exec_try_ok in H3 as (tg&th&[]&->&H3&H4).
    pose proof (verify_image_trusted_mode _ _ (ta ++ tc) _ H3) as Hs.
    apply exec_boxed_ok, mount_loop_ok_exec in H4 as (ctrl&free&loop&fd&set&->).
    exists path, ((ta ++ tc) ++ tg), ctrl, free, loop, fd, set. split; [app_eq|done].
Qed.

(** The options of the firmware overlay: the objects are a data-only layer, and
    the kernel refuses a file whose digest is not the one of the metadata. *)
Definition overlay_options (metadata objects : string) : string :=
  "metacopy=on,redirect_dir=on,lowerdir=" +:+ metadata +:+ "::" +:+ objects +:+ ",verity=require".
Definition overlay_calls (metadata target objects : string) : hist sysE :=
  [Ev (FsCreateDirAll target) (Ok tt);
   Ev (LibcMount "composefs" target (Some "overlay") MS_RDONLY (Some (overlay_options metadata objects)))
     (Ok tt)].

(** The firmware of a slot is mounted: its metadata image, which in verified
    mode was measured and is signed, and then the overlay. *)
Definition firmware_mounted (vb : bool) (sm root : string) (slot : Z) (t : hist sysE) : Prop :=
  let slot_dir := path_join (path_join sm "img") (fmt_dec slot) in
  let image := path_join slot_dir "firmware-light.composefs" in
  let metadata := path_join root "mnt/.firmware-composefs" in
  exists objects t1 ctrl free loop img_fd set,
    objects ∈ [path_join sm "img/composefs/objects"; path_join slot_dir "firmware-objects/objects"] /\
    Ev (PathIsFile image) true ∈ t1 /\ Ev (PathIsDir objects) true ∈ t1 /\
    (vb = true -> signed_image t1 image) /\
    t = t1 ++ loop_mount_calls image metadata ctrl free loop img_fd set ++
      overlay_calls metadata (path_join root "mnt/firmware") objects.

Lemma mount_with_options_exec device target fs ro options t :
  exec (mount_filesystem_with_options device target fs ro options) t (Done (Ok tt)) ->
  t = [Ev (FsCreateDirAll target) (Ok tt);
       Ev (LibcMount device target (Some fs) (if ro then MS_RDONLY else 0) (Some options)) (Ok tt)].
Proof.
  remember (Done (Ok tt)) as o eqn:Ho. intros H. unfold mount_filesystem_with_options in H.
  exec_steps H; simplify_eq.
  repeat match goal with
  | H : cstring _ = Ok _ |- _ => apply cstring_inv in H as ->
  | u : () |- _ => destruct u
  end. done.
Qed.

Lemma mount_slot_composefs_exec sm root slot vb t :
  exec (mount_slot_composefs_firmware sm root slot vb) t (Done (Ok tt)) ->
  firmware_mounted vb sm root slot t.
Proof.
  unfold mount_slot_composefs_firmware. cbv zeta. intros (shared&t1&->&H). cbn [prog_mbind prog_bind] in H.
  set (slot_dir := path_join (path_join sm "img") (fmt_dec slot)) in *.
  set (objects := if shared then _ else _) in *.
  destruct H as (file&t2&->&H). cbn [prog_mbind prog_bind] in H.
  destruct file; [|by destruct H]. destruct H as (present&t3&->&H). cbn [prog_mbind prog_bind] in H.
  destruct present; [|by destruct H].
  apply exec_try_ok in H as (ta&t4&s&->&H'&H). destruct H' as [-> [= Hs]]. symmetry in Hs. apply utf8_path_ok in Hs as ->.
  apply exec_try_ok in H as (t5&t6&[]&->&Hv&H).
  do 3 (apply exec_try_ok in H as (?&?&s'&->&H'&H); destruct H' as [-> [= Hs]]; symmetry in Hs; apply utf8_path_ok in Hs as ->).
  apply exec_try_ok in H as (t7&t8&[]&->&Hl&H).
  apply exec_boxed_ok, mount_loop_ok_exec in Hl as (ctrl&free&loop&fd&set&->).
  apply exec_boxed_ok, mount_with_options_exec in H as ->.
  set (pre := [Ev (PathIsDir (path_join sm "img/composefs/objects")) shared;
               Ev (PathIsFile (path_join slot_dir "firmware-light.composefs")) true;
               Ev (PathIsDir objects) true]).
  exists objects, (pre ++ t5), ctrl, free, loop, fd, set.
  split; [unfold objects; destruct shared; rewrite !elem_of_cons; auto|].
  split; [right; left|]. split; [right; right; left|].
  split; [by apply (verify_image_trusted_mode _ _ pre)|]. unfold pre. app_eq.
Qed.

End facts.

(** ** Properties *)

Section properties.
Context `{X : Externals} `{AG : Age}.

(** C16: Where the root comes from in verified mode: when [mount_rootfs]
    succeeds for slot [slot], either one of the three root directories exists
    and is bound recursively, without any measurement or read of a signature
    -- the second, [roots/<slot>/<name>], is not below the encrypted [c] --, or
    none of them exists and the last calls attach an image to a loop device,
    read only, whose digest the kernel measured before and a certificate of the
    database signs. *)
Theorem mount_rootfs_source (state_mount root img : string) (slot : Z) (t : hist sysE) :
  exec (mount_rootfs state_mount root img true (Some slot)) t (Done (Ok tt)) ->
  exists name v t1, t = Ev (EnvVar "INITOS_ROOT") v :: t1 /\ name = default "ROOTA" v /\
  ((exists dir t2, dir ∈ root_dirs state_mount name slot /\ Ev (PathExists dir) true ∈ t /\
      t1 = t2 ++ [Ev (FsCreateDirAll root) (Ok tt);
                  Ev (LibcMount dir root None (Z.lor MS_BIND MS_REC) None) (Ok tt)] /\
      Forall (event_ok unverified) t) \/
   (Forall (fun dir => Ev (PathExists dir) false ∈ t) (root_dirs state_mount name slot) /\
    exists image t2 ctrl free loop img_fd set,
      t1 = t2 ++ loop_mount_calls image root ctrl free loop img_fd set /\ signed_image t2 image)).
Proof.
  intros H. apply mount_rootfs_exec in H as (v&t1&->&H). exists (default "ROOTA" v), v, t1.
  split; [done|]. split; [done|]. destruct H as [(dir&t2&?&?&?&?)|(?&image&t2&?&?&?&?&?&->&Hs)]; [left; eauto 10|right].
  split; [done|]. do 7 eexists. split; [done|]. by apply Hs.
Qed.

(** C15: In verified mode an image of the boot slot is never passed over: the
    search among the candidates always returns; it answers [None] only when no
    candidate has an image for the slot, [Some] with the image of the first
    candidate that has one, which has a signature beside it -- [<image>.sig] or
    [<image>.<key>.sig] --, and an error when that image has neither: there is
    no [<image>.sig], and the directory was searched and no entry of it is an
    [<image>.<key>.sig], or it could not be listed. *)
Theorem slot_image_not_skipped (slot : Z) (candidates : list string) (t : hist sysE)
    (o : outcome (result (option string) string)) :
  exec (first_partitioned slot true candidates) t o ->
  exists r, o = Done r /\
    match r with
    | Ok None => Forall (slot_image_absent t slot) candidates
    | Ok (Some p) => exists before c after, candidates = before ++ c :: after /\
        Forall (slot_image_absent t slot) before /\ partitioned_image_path c slot = Some p /\
        Ev (PathExists p) true ∈ t /\ has_signature t p
    | Err _ => exists before c after p, candidates = before ++ c :: after /\
        Forall (slot_image_absent t slot) before /\ partitioned_image_path c slot = Some p /\
        Ev (PathExists p) true ∈ t /\ no_signature t p
    end.
Proof. apply first_partitioned_exec. Qed.

(** C14: The encrypted state is unlocked by this boot: when [unlock_state_c]
    succeeds in verified mode, either there is no encrypted directory, or its
    [home] was not visible at first, and became visible after the kernel
    accepted a 64-byte key for it; a directory that is already unlocked is
    accepted only outside verified mode. *)
Theorem unlock_state_sound (state_mount : string) (verified_boot : bool) (t : hist sysE) :
  exec (unlock_state_c state_mount verified_boot) t (Done (Ok tt)) ->
  let c := path_join state_mount "c" in
  t = [Ev (PathExists c) false] \/
  (verified_boot = false /\ t = [Ev (PathExists c) true; Ev (PathIsDir (c_home c)) true]) \/
  exists rest, t = Ev (PathExists c) true :: Ev (PathIsDir (c_home c)) false :: rest /\
    unlocked_by_key c rest.
Proof. apply unlock_state_c_exec. Qed.

(** The password prompt is bounded: [unlock_c_with_password] always returns,
    whatever is typed and whatever the kernel answers, after at most three
    prompts, and with success only when a key made [home] visible. *)
Theorem password_prompts_bounded (c_dir c_age : string) (t : hist sysE)
    (o : outcome (result unit string)) :
  exec (unlock_c_with_password c_dir c_age) t o ->
  (count is_prompt t <= 3)%nat /\ exists r, o = Done r /\ (r = Ok tt -> unlocked_by_key c_dir t).
Proof. apply password_attempts_exec. Qed.

(** A TPM key belongs to its mode: when [unseal_key] answers a key, the
    object at the handle of the requested mode was unsealed, and its secret is
    the key behind the prefix of that mode; a secret sealed for the other mode
    has another prefix and is refused. *)
Theorem unsealed_key_of_mode (verified : bool) (t : hist sysE) (key : list byte) :
  exec (unseal_key verified) t (Done (Ok key)) ->
  exists dev session r,
    Ev (FileWriteAll dev (command TPM_ST_SESSIONS TPM2_CC_UNSEAL
          (to_be 4 (sealed_handle verified) ++ auth_area (session_auth session)))) (Ok tt) ∈ t /\
    Ev (FileRead dev RSP_BUF_SIZE) (Ok r) ∈ t /\
    tpm2b_at (take (Z.to_nat RSP_BUF_SIZE) r) 14 = Val (sealed_prefix verified ++ key) /\
    forall other, sealed_prefix verified ++ key <> sealed_prefix (negb verified) ++ other.
Proof.
  intros H.
  assert (exec (unseal_key_from_handle (sealed_handle verified) (sealed_prefix verified)
    (if verified then "secure" else "dev")) t (Done (Ok key))) as H' by by destruct verified.
  clear H. apply exec_try_ok in H' as (t1&t2&dev&->&_&H).
  apply exec_try_ok in H as (t3&t4&session&->&_&H).
  do 2 apply exec_try_ok in H as (?&?&?&->&_&H).
  apply exec_try_ok in H as (t5&t6&secret&->&H1&[-> [= Hs]]).
  apply unseal_ok in H1 as (Hw&r&Hr&Hs'). exists dev, session, r.
  split; [rewrite !elem_of_app; auto 10|]. split; [rewrite !elem_of_app; auto 10|].
  unfold strip_tpm_prefix in Hs. destruct (bytes_strip_prefix _ _) as [k|] eqn:E; [|done].
  injection Hs as <-. apply bytes_strip_prefix_ok in E as ->. split; [done|].
  intros other Ho. destruct verified; vm_compute in Ho; discriminate Ho.
Qed.

(** C24: The choice of init: [INITOS_INIT] is taken as it is; otherwise the init
    selected is the first of the five candidates whose file was found, all the
    candidates before it having been looked for and not found. *)
Theorem select_init_first (state_mount root : string) (t : hist sysE) (i : SelectedInit) :
  exec (select_init state_mount root) t (Done (Ok i)) ->
  exists v rest, t = Ev (EnvVar "INITOS_INIT") v :: rest /\
    match v with
    | Some path => i = no_args path /\ rest = []
    | None => exists systemd before file after,
        init_candidates state_mount root systemd = before ++ (file, i) :: after /\
        Forall (fun c => Ev (PathIsFile c.1) false ∈ rest) before /\ Ev (PathIsFile file) true ∈ rest
    end.
Proof. apply select_init_exec. Qed.

End properties.

(** ** Witnesses *)

(** A machine of slot 1 with a root directory beside the encrypted one: the
    machine boots in verified mode, and the root is bound unverified. *)
Definition slot_root_machine : world :=
  set_dirs secure_machine ("/z/roots/1/ROOTA" :: wdirs secure_machine).
Definition slot_root : sys (result unit string) :=
  mount_rootfs "/z" "/sysroot" "/img/initos.erofs" true (Some 1).

Lemma mount_rootfs_source_witness :
  opened_images slot_root_machine slot_root = [] /\
  opened_images secure_machine slot_root = ["/z/initos/1/initos.erofs"] /\
  exists name v t, trace_of slot_root_machine slot_root = Ev (EnvVar "INITOS_ROOT") v :: t /\
    name = default "ROOTA" v.
Proof.
  split; [vm_compute; reflexivity|]. split; [vm_compute; reflexivity|].
  destruct (mount_rootfs_source "/z" "/sysroot" "/img/initos.erofs" 1 (trace_of slot_root_machine slot_root))
    as (name&v&t&Ht&Hn&_); [apply toy_exec; vm_compute; reflexivity|].
  exists name, v, t. split; [exact Ht|exact Hn].
Defined.

(** The search on a machine whose second candidate has the image of slot 1,
    beside the files [beside]. *)
Definition slot_search : sys (result (option string) string) :=
  first_partitioned 1 true ["/z/initos/i.erofs"; "/z/img/i.erofs"; "/img/i.erofs"].
Definition slot_machine (beside : list string) : world :=
  set_entries (set_files world0 (<["/z/img/1/i.erofs" := []]> (<["/img/1/i.erofs" := []]>
    (<["/img/1/i.erofs.sig" := []]> ∅)))) {["/z/img/1" := "i.erofs" :: beside]}.

(** Without a signature the image stops the search; the signature of any key
    makes it the image of the slot. *)
Lemma slot_image_not_skipped_witness :
  outcome_of (slot_machine ["j.erofs.sig"]) slot_search = Done (Err
    "partitioned image /z/img/1/i.erofs exists but has no signature (Secure Boot requires signatures)") /\
  outcome_of (slot_machine ["i.erofs.KEY1.db.sig"]) slot_search = Done (Ok (Some "/z/img/1/i.erofs")) /\
  has_signature (trace_of (slot_machine ["i.erofs.KEY1.db.sig"]) slot_search) "/z/img/1/i.erofs".
Proof.
  split_and!; [vm_compute; reflexivity..|].
  destruct (slot_image_not_skipped 1 ["/z/initos/i.erofs"; "/z/img/i.erofs"; "/img/i.erofs"]
    (trace_of (slot_machine ["i.erofs.KEY1.db.sig"]) slot_search)
    (Done (Ok (Some "/z/img/1/i.erofs")))) as (r&[= <-]&_&_&_&_&_&_&_&H); [|exact H].
  apply toy_exec. vm_compute. reflexivity.
Defined.

(** A kernel that shows [/z/c/home] once a key was added. *)
Definition unlocking_os : forall A, sysE A -> world -> A * world := fun A e w =>
  match e in sysE A return A * world with
  | IoctlBuf fd req buf =>
      (Ok buf, if req =? FS_IOC_ADD_ENCRYPTION_KEY then set_dirs w ("/z/c/home" :: wdirs w) else w)
  | e => world_os _ e w
  end.
Definition locked_machine : world :=
  set_stdin (set_dirs world0 ["/z/c"]) [as_bytes "pw"].
Definition unlock_run : hist sysE * outcome (result unit string) * world :=
  run unlocking_os (unlock_state_c "/z" true) locked_machine.

Lemma unlock_state_sound_witness :
  unlock_run.1.2 = Done (Ok tt) /\ length unlock_run.1.1 = 10%nat /\
  (unlock_run.1.1 = [Ev (PathExists "/z/c") false] \/
   (true = false /\ unlock_run.1.1 = [Ev (PathExists "/z/c") true; Ev (PathIsDir (c_home "/z/c")) true]) \/
   exists rest, unlock_run.1.1 = Ev (PathExists "/z/c") true :: Ev (PathIsDir (c_home "/z/c")) false :: rest /\
     unlocked_by_key "/z/c" rest).
Proof.
  assert (unlock_run.1.2 = Done (Ok tt)) as Ho by (vm_compute; reflexivity).
  split; [exact Ho|]. split; [vm_compute; reflexivity|].
  apply (unlock_state_sound "/z" true). rewrite <- Ho. apply run_is_exec.
Defined.

(** Five passwords typed, none of them right. *)
Definition wrong_passwords : world :=
  set_stdin (set_dirs world0 ["/z/c"]) (replicate 5 (as_bytes "no")).
Lemma password_prompts_bounded_witness :
  outcome_of wrong_passwords (unlock_c_with_password "/z/c" "/z/initos/c.age") =
    Done (Err "/z/c did not unlock") /\
  (count is_prompt (trace_of wrong_passwords (unlock_c_with_password "/z/c" "/z/initos/c.age")) <= 3)%nat.
Proof.
  split; [vm_compute; reflexivity|].
  apply (password_prompts_bounded "/z/c" "/z/initos/c.age" _
    (outcome_of wrong_passwords (unlock_c_with_password "/z/c" "/z/initos/c.age"))).
  by apply toy_exec.
Defined.

(** A TPM that answers the five commands of an unsealing. *)
Definition sealing_tpm (secret : list byte) : world :=
  set_dev world0 (<[TPM_DEVICE := [response TPM_ST_NO_SESSIONS (to_be 4 0x03000000);
    response TPM_ST_NO_SESSIONS []; response TPM_ST_NO_SESSIONS (tpm2b (zeros 32));
    response TPM_ST_SESSIONS (to_be 4 2 ++ tpm2b secret ++ zeros 5)]]> ∅).
Lemma unsealed_key_of_mode_witness :
  outcome_of (sealing_tpm (as_bytes "secc:k")) (unseal_key true) = Done (Ok (as_bytes "k")) /\
  outcome_of (sealing_tpm (as_bytes "devc:k")) (unseal_key true) =
    Done (Err "TPM secure secret has wrong prefix") /\
  exists dev session r,
    Ev (FileWriteAll dev (command TPM_ST_SESSIONS TPM2_CC_UNSEAL
          (to_be 4 (sealed_handle true) ++ auth_area (session_auth session)))) (Ok tt)
      ∈ trace_of (sealing_tpm (as_bytes "secc:k")) (unseal_key true) /\
    tpm2b_at (take (Z.to_nat RSP_BUF_SIZE) r) 14 = Val (sealed_prefix true ++ as_bytes "k").
Proof.
  split; [vm_compute; reflexivity|]. split; [vm_compute; reflexivity|].
  destruct (unsealed_key_of_mode true (trace_of (sealing_tpm (as_bytes "secc:k")) (unseal_key true))
    (as_bytes "k")) as (dev&session&r&Hw&_&Hs&_).
  - apply toy_exec. vm_compute. reflexivity.
  - exists dev, session, r. split; [exact Hw|exact Hs].
Defined.

Lemma select_init_first_witness :
  exists v rest, trace_of secure_machine (select_init "/z" "/sysroot") = Ev (EnvVar "INITOS_INIT") v :: rest /\
    length rest = 3%nat.
Proof.
  destruct (select_init_first "/z" "/sysroot" (trace_of secure_machine (select_init "/z" "/sysroot"))
    (no_args "/sbin/init")) as (v&rest&Ht&_); [apply toy_exec; vm_compute; reflexivity|].
  exists v, rest. split; [exact Ht|].
  assert (length (trace_of secure_machine (select_init "/z" "/sysroot")) = 4%nat) as Hl
    by (vm_compute; reflexivity).
  rewrite Ht in Hl. by injection Hl.
Defined.
