(* ===== verification/AgeSpec.v ===== *)
(** What encryption with age is for ([src/cmd.rs], [src/boot.rs]): what [initos
    encrypt] writes with a passphrase, [initos decrypt] gives back with that
    passphrase, and a state key encrypted so opens the state when the passphrase
    is typed at boot. *)

From S2P Require Import Prelude Prog Str PathLib Sys World Verity Efi Verify Tpm Fscrypt Cmd Mount Boot Calm BootSpec BootSteps.

(** What was written to the standard output. *)
Definition stdout_event (v : event sysE) : list byte :=
  match v with
  | @Ev _ A e x => match e in sysE A return A -> list byte with
      | StdoutWriteAll data => fun r => if is_ok r then data else []
      | _ => fun _ => []
      end x
  end.
Definition stdout_of (t : hist sysE) : list byte := concat (map stdout_event t).

(** The age crate: a passphrase opens what was encrypted to it.  The first
    identity that recognises the file decides. *)
Class AgeLaws (AG : Age) : Prop := {
  scrypt_opens pass rs data t ids :
    exec (age_encrypt_stdout rs data) t (Done (Ok tt)) -> scrypt_recipient pass ∈ rs ->
    exists d, age_decryptor (stdout_of t) = Ok d /\
      age_decrypt d (scrypt_identity pass :: ids) = Ok (data, Ok tt);
}.

(** The calls of [t] to [e] were answered with [x]. *)
Definition replied {A} (t : hist sysE) (e : sysE A) (x : A) : Prop := forall y, Ev e y ∈ t -> y = x.

Definition input_call (input : option string) : sysE (io (list byte)) :=
  match input with Some path => FsRead path | None => StdinReadToEnd end.
Definition output_call (output : option string) (data : list byte) : sysE (io unit) :=
  match output with Some path => FsWrite path data | None => StdoutWriteAll data end.

Section age.
Context `{X : Externals} `{AG : Age} `{L : !AgeLaws AG}.

Lemma stdout_cons {A} (e : sysE A) x t : stdout_event (Ev e x) = [] -> stdout_of (Ev e x :: t) = stdout_of t.
Proof. unfold stdout_of. cbn [map concat]. by intros ->. Qed.

(** A successful encryption with a passphrase can be opened with it. *)
Lemma encrypt_opens t pass plain ids :
  pass <> "" -> exec cmd_encrypt t (Done (Ok tt)) ->
  replied t (EnvVar "KEY") (Some pass) -> replied t StdinReadToEnd (Ok plain) ->
  exists d, age_decryptor (stdout_of t) = Ok d /\ age_decrypt d (scrypt_identity pass :: ids) = Ok (plain, Ok tt).
Proof.
  intros Hp (argv&t1&->&H) Hk Hi. rewrite stdout_cons by done.
  apply exec_try_ok in H as (t2&t3&data&->&H2&H). apply exec_boxed_ok in H2 as (r&t4&->&[-> [= <-]]).
  assert (@Ok _ io_error data = Ok plain) as [= ->] by (apply Hi; right; left).
  destruct H as (k&t5&->&H). cbn [app] in *. rewrite !stdout_cons by done.
  assert (k = Some pass) as -> by (apply Hk; right; right; left).
  assert (is_empty pass = false) as E by (by destruct pass). cbn [prog_mbind prog_bind] in H. rewrite E in H. cbn [app] in H.
  eapply scrypt_opens; [exact H|left].
Qed.

Lemma decrypt_with_opens pass plain cipher d ids :
  age_decryptor cipher = Ok d -> age_decrypt d (scrypt_identity pass :: ids) = Ok (plain, Ok tt) ->
  decrypt_with (scrypt_identity pass :: ids) cipher = Ok plain.
Proof. intros H1 H2. unfold decrypt_with. by rewrite H1, H2. Qed.

Lemma read_input_exec input t o :
  exec (read_input input) t o ->
  exists r, t = [Ev (input_call input) r] /\ (forall data, r = Ok data -> o = Done (Ok data)).
Proof.
  destruct input as [path|]; intros (r&t'&->&[-> ->]); exists r; (split; [done|]); by intros ? ->.
Qed.

Lemma write_output_exec output data t o :
  exec (write_output output data) t o ->
  exists r, t = [Ev (output_call output data) r] /\ (o = Done (Ok tt) <-> r = Ok tt).
Proof.
  destruct output as [path|]; intros (r&t'&->&[-> ->]); exists r; (split; [done|]);
    destruct r as [[]|e]; cbn; split; congruence.
Qed.

Lemma key_file_exec path key t o :
  exec (decrypt_age_with_key_file path key) t o ->
  exists r, t = [Ev (FsRead path) r] /\ (forall cipher, r = Ok cipher -> o = Done (decrypt_age_with_key cipher key)).
Proof. intros (r&t'&->&H). exists r. destruct r as [c|e]; destruct H as [-> ->]; (split; [done|]); by intros ? [= ->]. Qed.

(** ** Properties *)

(** C18: Decryption inverts encryption: when [initos encrypt] succeeded with the
    passphrase [KEY] (and possibly other recipients) on the text [plain], then
    [initos decrypt] without [-i], with the same [KEY], on what was written
    reads its input once, consults nothing else, writes [plain] -- to standard
    output or to the file of [-o] -- and succeeds exactly when this write does. *)
Theorem passphrase_roundtrip (pass : string) (plain : list byte) (args : list string) (a : DecryptArgs)
    (t1 t2 : hist sysE) (o : outcome (result unit string)) :
  pass <> "" -> exec cmd_encrypt t1 (Done (Ok tt)) ->
  replied t1 (EnvVar "KEY") (Some pass) -> replied t1 StdinReadToEnd (Ok plain) ->
  parse_decrypt_args no_decrypt_args args = Ok a -> identities_files a = [] ->
  exec (decrypt_args args) t2 o -> replied t2 (EnvVar "KEY") (Some pass) ->
  replied t2 (input_call (input_file a)) (Ok (stdout_of t1)) ->
  exists r, t2 = [Ev (EnvVar "KEY") (Some pass); Ev (input_call (input_file a)) (Ok (stdout_of t1));
                  Ev (output_call (output_file a) plain) r] /\ (o = Done (Ok tt) <-> r = Ok tt).
Proof.
  intros Hp He Hk Hi Ha Hf H Hk2 Hi2. destruct (encrypt_opens t1 pass plain [] Hp He Hk Hi) as (d&Hd&Hx).
  unfold decrypt_args in H. rewrite Ha in H. unfold try_bind at 1 in H. cbn [mbind prog_mbind prog_bind mret prog_ret] in H.
  rewrite Hf in H. destruct H as (k&t3&->&H). cbn [app] in *.
  assert (k = Some pass) as -> by (apply Hk2; left).
  assert (is_empty pass = false) as E by (by destruct pass). cbn in H. rewrite E in H. cbn in H.
  apply exec_bind in H as [(t4&t5&c&->&H4&H)|(s&H4&->)]; apply read_input_exec in H4 as (r&->&Hr).
  - assert (r = Ok (stdout_of t1)) as -> by (apply Hi2; right; left). specialize (Hr _ eq_refl) as [= ->].
    cbn in H. rewrite (decrypt_with_opens pass plain _ d [] Hd Hx) in H.
    apply write_output_exec in H as (r&->&Ho). by exists r.
  - assert (r = Ok (stdout_of t1)) as -> by (apply Hi2; right; left). by specialize (Hr _ eq_refl).
Qed.

(** C17: A passphrase opens the state: if [c.age] is what [initos encrypt] wrote
    for the state key [plain] with the passphrase [KEY], then a password prompt
    of the boot sequence at which this passphrase is typed (ASCII, and without
    blanks around it, which the prompt removes) reads [c.age] and adds exactly
    [plain] as the fscrypt key of the state directory; the rest of the attempt
    does not depend on how the key was obtained. *)
Theorem encrypted_key_unlocks (pass : string) (plain : list byte) (c_dir c_age : string)
    (t1 t2 : hist sysE) (o : outcome (result unit string)) :
  pass <> "" -> trim pass = pass -> Forall is_ascii (chars pass) -> exec cmd_encrypt t1 (Done (Ok tt)) ->
  replied t1 (EnvVar "KEY") (Some pass) -> replied t1 StdinReadToEnd (Ok plain) ->
  exec (try_password c_dir c_age pass) t2 o ->
  replied t2 (PathExists c_age) true -> replied t2 (FsRead c_age) (Ok (stdout_of t1)) ->
  exists t3, t2 = Ev (PathExists c_age) true :: Ev (FsRead c_age) (Ok (stdout_of t1)) :: t3 /\
    exec (let? _ := add_fscrypt_key c_dir plain in
          let! unlocked := c_is_unlocked c_dir in
          mret (if (unlocked : bool) then Ok tt else Err (lossy c_dir +:+ " did not unlock"))) t3 o.
Proof.
  intros Hp Ht Hascii He Hk Hi (b&t3&->&H) Hex Hrd. assert (b = true) as -> by (apply Hex; left).
  cbn [prog_mbind prog_bind] in H.
  destruct (encrypt_opens t1 pass plain (option_list (x25519_identity pass)) Hp He Hk Hi) as (d&Hd&Hx).
  assert (decrypt_age_with_key (stdout_of t1) (as_bytes pass) = Ok plain) as Hkey.
  { unfold decrypt_age_with_key. rewrite from_utf8_lossy_ascii, Ht by done.
    assert (is_empty pass = false) as -> by (by destruct pass). by rewrite Hd, Hx. }
  apply exec_try in H as [(t4&t5&key&->&H4&H)|[(e&H4&->)|(s&H4&->)]]; apply key_file_exec in H4 as (r&->&Hr);
    assert (r = Ok (stdout_of t1)) as -> by (apply Hrd; right; left); specialize (Hr _ eq_refl);
    rewrite Hkey in Hr; [|done..].
  injection Hr as ->. exists t5. by split.
Qed.

End age.

(** ** Witnesses *)

(** Encryption that marks the text, for the witnesses. *)
#[local] Instance marking_age : Age := {|
  age_recipient := string; age_identity := string;
  scrypt_recipient s := s; x25519_recipient := Some;
  scrypt_identity s := s; x25519_identity _ := None;
  age_encrypt_stdout rs d := boxed (trigger (StdoutWriteAll (x61 :: d)));
  age_stream := list byte;
  age_decryptor c := match c with b :: d => if bool_decide (b = x61) then Ok d else Err "header" | [] => Err "header" end;
  age_decrypt d ids := Ok (d, Ok tt);
|}.

#[local] Instance marking_laws : AgeLaws marking_age.
Proof.
  split. intros pass rs data t ids H _. exists data. split; [|done].
  apply exec_boxed_ok in H as ([[]|e]&t'&->&[-> [=]]). unfold stdout_of. cbn. rewrite app_nil_r. done.
Qed.

(** The answers to a call, by the events that [f] recognises. *)
Lemma replied_check {A} (e : sysE A) (x : A) (f : event sysE -> option A) t :
  (forall y, f (Ev e y) = Some y) -> Forall (fun v => f v = None \/ f v = Some x) t -> replied t e x.
Proof.
  intros Hf Ht y Hy. rewrite Forall_forall in Ht. apply Ht in Hy. rewrite Hf in Hy. by destruct Hy as [|[= ->]].
Qed.

Definition env_key (v : event sysE) : option (option string) :=
  match v with
  | @Ev _ A e x => match e in sysE A return A -> option (option string) with
      | EnvVar n => fun y => if (n =? "KEY")%string then Some y else None
      | _ => fun _ => None end x
  end.
Definition stdin_end (v : event sysE) : option (io (list byte)) :=
  match v with
  | @Ev _ A e x => match e in sysE A return A -> option (io (list byte)) with
      | StdinReadToEnd => Some | _ => fun _ => None end x
  end.
Definition file_read (path : string) (v : event sysE) : option (io (list byte)) :=
  match v with
  | @Ev _ A e x => match e in sysE A return A -> option (io (list byte)) with
      | FsRead p => fun y => if (p =? path)%string then Some y else None
      | _ => fun _ => None end x
  end.
Definition path_there (path : string) (v : event sysE) : option bool :=
  match v with
  | @Ev _ A e x => match e in sysE A return A -> option bool with
      | PathExists p => fun y => if (p =? path)%string then Some y else None
      | _ => fun _ => None end x
  end.
Ltac replied_tac f :=
  apply (replied_check _ _ f); [reflexivity|vm_compute; repeat constructor; first [by left|by right]].

Definition key_env : gmap string string := {["KEY" := "pw"]}.
Definition encrypt_world : world := set_stdin (set_env world0 key_env) [as_bytes "state key"].
Definition encrypt_trace : hist sysE := trace_of encrypt_world cmd_encrypt.
Definition decrypt_world : world := set_files (set_env world0 key_env) {["/c.age" := stdout_of encrypt_trace]}.
Definition decrypt_cmdline : list string := ["/c.age"; "-o"; "/key"].

Lemma passphrase_roundtrip_witness :
  outcome_of encrypt_world cmd_encrypt = Done (Ok tt) /\
  outcome_of decrypt_world (decrypt_args decrypt_cmdline) = Done (Ok tt) /\
  exists r, trace_of decrypt_world (decrypt_args decrypt_cmdline) =
    [Ev (EnvVar "KEY") (Some "pw"); Ev (FsRead "/c.age") (Ok (stdout_of encrypt_trace));
     Ev (FsWrite "/key" (as_bytes "state key")) r].
Proof.
  assert (outcome_of encrypt_world cmd_encrypt = Done (Ok tt)) as H1 by (vm_compute; reflexivity).
  assert (outcome_of decrypt_world (decrypt_args decrypt_cmdline) = Done (Ok tt)) as H2 by (vm_compute; reflexivity).
  split; [exact H1|]. split; [exact H2|].
  destruct (passphrase_roundtrip "pw" (as_bytes "state key") decrypt_cmdline
    {| identities_files := []; output_file := Some "/key"; input_file := Some "/c.age" |}
    encrypt_trace (trace_of decrypt_world (decrypt_args decrypt_cmdline)) (Done (Ok tt))) as (r&Ht&_).
  - discriminate.
  - exact (toy_exec _ _ _ H1).
  - replied_tac env_key.
  - replied_tac stdin_end.
  - reflexivity.
  - reflexivity.
  - exact (toy_exec _ _ _ H2).
  - replied_tac env_key.
  - replied_tac (file_read "/c.age").
  - exists r. exact Ht.
Defined.

Definition typed_world : world := set_files world0 {["/c.age" := stdout_of encrypt_trace]}.
Definition typed_attempt : sys (result unit string) := try_password "/z/c" "/c.age" "pw".
Definition typed_run : hist sysE * outcome (result unit string) * world :=
  run unlocking_os typed_attempt (set_dirs typed_world ["/z/c"]).

Lemma encrypted_key_unlocks_witness :
  typed_run.1.2 = Done (Ok tt) /\
  exists t, typed_run.1.1 =
    Ev (PathExists "/c.age") true :: Ev (FsRead "/c.age") (Ok (stdout_of encrypt_trace)) :: t.
Proof.
  assert (outcome_of encrypt_world cmd_encrypt = Done (Ok tt)) as H1 by (vm_compute; reflexivity).
  split; [vm_compute; reflexivity|].
  destruct (encrypted_key_unlocks "pw" (as_bytes "state key") "/z/c" "/c.age" encrypt_trace
    typed_run.1.1 typed_run.1.2) as (t&Ht&_).
  - discriminate.
  - reflexivity.
  - repeat constructor.
  - exact (toy_exec _ _ _ H1).
  - replied_tac env_key.
  - replied_tac stdin_end.
  - exact (run_is_exec unlocking_os typed_attempt (set_dirs typed_world ["/z/c"])).
  - replied_tac (path_there "/c.age").
  - replied_tac (file_read "/c.age").
  - exists t. exact Ht.
Defined.
