(* ===== verification/BootMachine.v ===== *)
(** The boot sequence as a state machine: the phases of [cmd_boot] ([src/boot.rs]),
    what must have been done on the machine for each to follow the one before,
    and the proof that every execution is a run of this machine. *)

From S2P Require Import Prelude Prog Str PathLib Sys World Verity Efi Verify Tpm Fscrypt Cmd Mount Boot Calm BootSpec BootSteps.

(** ** What each phase requires *)

Section contracts.
Context `{X : Externals}.

(** The file systems that are always mounted below the root: source, target,
    type. *)
Definition root_filesystems : list (string * string * string) :=
  [("proc", "proc", "proc"); ("sysfs", "sys", "sysfs"); ("devtmpfs", "dev", "devtmpfs");
   ("devpts", "dev/pts", "devpts"); ("tmpfs", "dev/shm", "tmpfs"); ("tmpfs", "run", "tmpfs");
   ("none", "sys/fs/cgroup", "cgroup2"); ("tmpfs", "tmp", "tmpfs")].

Definition mounted_at (h : hist sysE) (m : string * string * string) (root : string) : Prop :=
  exists flags,
    Ev (LibcMount m.1.1 (path_join root m.1.2) (Some m.2) flags None) (Ok tt) ∈ h.

(** The firmware variable was read, and says whether the mode is verified. *)
Definition mode_read (verified : bool) (h : hist sysE) : Prop :=
  exists base data b rest,
    Ev (FsRead (base +:+ "/" +:+ "SecureBoot" +:+ "-" +:+ EFI_GLOBAL_GUID)) (Ok data) ∈ h /\
    strip_attributes data = Ok (b :: rest) /\ verified = negb (b2z b =? 0).

(** The slot is the partition number of the boot option of the firmware. *)
Definition slot_read (slot : option Z) (h : hist sysE) : Prop :=
  match slot with
  | None => True
  | Some n => exists path data payload name info,
      Ev (FsRead path) (Ok data) ∈ h /\ strip_attributes data = Ok payload /\
      device_info_of_option name payload = Val (Ok (Some info)) /\ partition_number info = n
  end.

Definition state_mount_calls (device : string) : hist sysE :=
  [Ev (FsCreateDirAll "/z") (Ok tt); Ev (LibcMount device "/z" (Some "ext4") 0 None) (Ok tt)].

(** The encrypted state is absent, was unlocked before (outside verified mode
    only), or was unlocked by a key. *)
Inductive state_unlocked (verified : bool) : hist sysE -> Prop :=
| state_absent : state_unlocked verified [Ev (PathExists "/z/c") false]
| state_open : verified = false ->
    state_unlocked verified [Ev (PathExists "/z/c") true; Ev (PathIsDir "/z/c/home") true]
| state_by_key t : unlocked_by_key "/z/c" t ->
    state_unlocked verified (Ev (PathExists "/z/c") true :: Ev (PathIsDir "/z/c/home") false :: t).

(** The root is a directory of the data partition, or an image, which in
    verified mode was measured and is signed. *)
Inductive root_attached (verified : bool) (slot : Z) : hist sysE -> Prop :=
| root_directory name dir t :
    dir ∈ root_dirs "/z" name slot -> Ev (PathExists dir) true ∈ t ->
    root_attached verified slot (t ++
      [Ev (FsCreateDirAll "/sysroot") (Ok tt);
       Ev (LibcMount dir "/sysroot" None (Z.lor MS_BIND MS_REC) None) (Ok tt)])
| root_image name image t ctrl free loop img_fd set :
    Forall (fun dir => Ev (PathExists dir) false ∈ t) (root_dirs "/z" name slot) ->
    (verified = true -> signed_image t image) ->
    root_attached verified slot (t ++ loop_mount_calls image "/sysroot" ctrl free loop img_fd set).

(** A module image is mounted if there is one, and in verified mode only when it
    was measured and is signed. *)
Inductive module_image (verified : bool) (target : string) : hist sysE -> Prop :=
| no_module t : Forall (event_ok calm) t -> module_image verified target t
| module_mounted image t ctrl free loop img_fd set :
    Forall (event_ok calm) t -> (verified = true -> signed_image t image) ->
    module_image verified target (t ++ loop_mount_calls image target ctrl free loop img_fd set).

Definition host_images (verified : bool) (sm root : string) (slot : Z) (t : hist sysE) : Prop :=
  exists firmware kernel modules rest, t =
    [Ev (FsCreateDirAll (path_join root "mnt")) (Ok tt);
     Ev (LibcMount "tmpfs" (path_join root "mnt") (Some "tmpfs") 0 None) (Ok tt)] ++
    firmware ++ modules ++ rest /\
    (verified = true -> firmware_mounted true sm root slot firmware) /\
    module_image verified (path_join root ("mnt/modules/" +:+ kernel)) modules /\
    Forall (event_ok calm) rest.

(** The data partition is bound into the root, the images of the slot and the
    system file systems are mounted. *)
Definition root_populated (verified : bool) (slot : Z) (t : hist sysE) : Prop :=
  exists images rest, t =
    [Ev (FsCreateDirAll "/sysroot/z") (Ok tt);
     Ev (LibcMount "/z" "/sysroot/z" None MS_BIND None) (Ok tt)] ++ images ++ rest /\
    host_images verified "/z" "/sysroot" slot images /\
    Forall (fun m => mounted_at rest m "/sysroot") root_filesystems.

(** The init was given, or is the first candidate that is a file. *)
Definition init_selected (init : SelectedInit) (t : hist sysE) : Prop :=
  exists v rest, t = Ev (EnvVar "INITOS_INIT") v :: rest /\
    match v with
    | Some path => init = no_args path /\ rest = []
    | None => exists systemd before file after,
        init_candidates "/z" "/sysroot" systemd = before ++ (file, init) :: after /\
        Forall (fun c => Ev (PathIsFile c.1) false ∈ rest) before /\ Ev (PathIsFile file) true ∈ rest
    end.

(** No init is executed: the call is another one, or it failed. *)
Definition not_replaced (v : event sysE) : Prop :=
  match v with
  | @Ev _ A e x =>
      match e in sysE A return A -> Prop with
      | LibcExecve _ _ _ | LibcExecv _ _ => fun r => r <> None
      | _ => fun _ => True
      end x
  end.

End contracts.

(** ** The machine *)

Inductive phase : Type :=
| Starting
| Decided (verified : bool)
| Located (verified : bool) (slot : option Z) (device : string)
| StateMounted (verified : bool) (slot : option Z)
| Unlocked (verified : bool) (slot : option Z)
| Rooted (verified : bool) (slot : option Z)
| Populated (verified : bool) (slot : Z)
| Selected (verified : bool) (slot : Z) (init : SelectedInit)
| Running (verified : bool) (slot : Z) (init : SelectedInit)
| Failed (mode : option bool)
| Development
| Exited
| Crashed (s : halt).

(** The mode of a phase in which the sequence can still fail. *)
Definition mode_of (p : phase) : option (option bool) :=
  match p with
  | Starting => Some None
  | Decided v | Located v _ _ | StateMounted v _ | Unlocked v _ | Rooted v _ | Populated v _
  | Selected v _ _ => Some (Some v)
  | _ => None
  end.

Section machine.
Context `{X : Externals} `{AG : Age}.

Inductive step : phase -> hist sysE -> phase -> Prop :=
| step_decide verified t :
    Forall (event_ok before_decision) t -> mode_read verified t ->
    step Starting t (Decided verified)
| step_locate verified slot device t :
    Forall (event_ok calm) t -> slot_read slot t ->
    step (Decided verified) t (Located verified slot device)
| step_mount verified slot device :
    step (Located verified slot device) (state_mount_calls device) (StateMounted verified slot)
| step_unlock verified slot t :
    state_unlocked verified t -> step (StateMounted verified slot) t (Unlocked verified slot)
| step_root verified slot t :
    (forall s, slot = Some s -> root_attached verified s t) ->
    step (Unlocked verified slot) t (Rooted verified slot)
| step_populate verified slot t :
    root_populated verified slot t -> step (Rooted verified (Some slot)) t (Populated verified slot)
| step_select verified slot init t :
    init_selected init t -> step (Populated verified slot) t (Selected verified slot init)
| step_switch verified slot init vars :
    step (Selected verified slot init)
      (switch_root_calls "/sysroot" (init_path init) (init_args init) vars) (Running verified slot init)
| step_fail p mode t :
    mode_of p = Some mode -> Forall not_replaced t -> step p t (Failed mode)
| step_crash p mode t s :
    mode_of p = Some mode -> Forall not_replaced t -> crash s -> step p t (Crashed s)
| step_develop msg :
    step (Failed (Some false))
      [Ev (SetVar "INITOS_BOOT_ERROR" msg) tt; Ev (LibcExecv DEV_INIT [DEV_INIT]) None] Development
| step_no_develop msg err :
    step (Failed (Some false))
      [Ev (SetVar "INITOS_BOOT_ERROR" msg) tt; Ev (LibcExecv DEV_INIT [DEV_INIT]) (Some err)] Exited
| step_exit mode :
    mode <> Some false -> step (Failed mode) [Ev (ThreadSleep 10000) tt] Exited.

(** Runs of the machine, with all the calls made. *)
Inductive path : phase -> hist sysE -> phase -> Prop :=
| path_nil p : path p [] p
| path_cons p t q u r : step p t q -> path q u r -> path p (t ++ u) r.

(** The phases in which the process ends, and how. *)
Definition final (p : phase) : option halt :=
  match p with
  | Running _ _ _ | Development => Some Replaced
  | Exited => Some (Exit 1)
  | Crashed s => Some s
  | _ => None
  end.

(** ** Runs *)

Implicit Types p q : phase.

(** The outcome of a step of the sequence, seen from phase [p]: the machine ends,
    or the step returns and the machine has failed or goes on. *)
Definition lands {A} (mode : option bool) p (t : hist sysE) (o : outcome (result A string)) : Prop :=
  (exists q s, path p t q /\ final q = Some s /\ o = Stopped s) \/
  (exists e, o = Done (Err e) /\ path p t (Failed mode)).

Lemma path_one p t q : step p t q -> path p t q.
Proof. intros H. rewrite <- (app_nil_r t). by eapply path_cons, path_nil. Qed.

Lemma lands_step {A} mode p t q u (o : outcome (result A string)) :
  step p t q -> lands mode q u o -> lands mode p (t ++ u) o.
Proof.
  intros Hs [(r&s&H&?&?)|(e&?&H)]; [left; exists r, s|right; exists e]; repeat split; try done.
  all: by eapply path_cons.
Qed.

Lemma no_exec_not_replaced t : Forall (event_ok no_exec) t -> Forall not_replaced t.
Proof. intros H. eapply Forall_impl; [exact H|]. intros [B e x]. by destruct e. Qed.

Section stages.
Context (p : phase) (mode : option bool) (Hm : mode_of p = Some mode).

Lemma lands_fail {A} t e : Forall not_replaced t -> lands mode p t (Done (Err e) : outcome (result A string)).
Proof. intros Ht. right. exists e. split; [done|]. by apply path_one, step_fail. Qed.

Lemma lands_crash {A} t s :
  Forall not_replaced t -> crash s -> lands mode p t (Stopped s : outcome (result A string)).
Proof. intros Ht Hs. left. exists (Crashed s), s. split; [|done]. by eapply path_one, step_crash. Qed.

(** A step that executes nothing, after the calls [t0]. *)
Lemma lands_bind {A B} (m : sys A) (f : A -> sys (result B string)) t0 t o :
  exec (m ≫= f) t o -> Forall not_replaced t0 -> tame no_exec crash m ->
  (forall t1 t2 a, exec m t1 (Done a) -> Forall not_replaced (t0 ++ t1) -> exec (f a) t2 o ->
    lands mode p ((t0 ++ t1) ++ t2) o) ->
  lands mode p (t0 ++ t) o.
Proof.
  intros H Ht0 Hq Hf. apply exec_bind in H as [(t1&t2&a&->&H1&H2)|(s&H1&->)].
  - destruct (tame_exec _ _ _ _ _ Hq H1) as [Hn _]. apply no_exec_not_replaced in Hn.
    rewrite (assoc_L app). apply (Hf t1 t2 a); [done| |done]. by apply Forall_app.
  - destruct (tame_exec _ _ _ _ _ Hq H1) as [Hn Hs]. apply no_exec_not_replaced in Hn.
    apply lands_crash; [by apply Forall_app|done].
Qed.

Lemma lands_try {A B} (m : sys (result A string)) (f : A -> sys (result B string)) t0 t o :
  exec (try_bind m f) t o -> Forall not_replaced t0 -> tame no_exec crash m ->
  (forall t1 t2 a, exec m t1 (Done (Ok a)) -> Forall not_replaced (t0 ++ t1) -> exec (f a) t2 o ->
    lands mode p ((t0 ++ t1) ++ t2) o) ->
  lands mode p (t0 ++ t) o.
Proof.
  intros H Ht0 Hq Hf. eapply lands_bind; [done..|]. intros t1 t2 [a|e] H1 Hn H2; [by eapply Hf|].
  destruct H2 as [-> ->]. rewrite app_nil_r. by apply lands_fail.
Qed.

End stages.

(** ** The phases one by one *)

Lemma signed_image_app l h r img : signed_image h img -> signed_image (l ++ h ++ r) img.
Proof.
  intros (base&dg&certs&cert&(h1&fd&d&h2&->&Hd)&(data&payload&Hdb&?)&?&(sig&kd&key&Hsig&?)).
  exists base, dg, certs, cert. split_and!; [|exists data, payload|done|exists sig, kd, key].
  - exists (l ++ h1), fd, d, (h2 ++ r). split; [app_eq|done].
  - split; [|done]. rewrite !elem_of_app in *. tauto.
  - split; [|done]. rewrite !elem_of_app in *. tauto.
Qed.

Lemma strip_attributes_read base name t payload :
  exec (read_efi_var name base) t (Done (Ok payload)) ->
  exists data, Ev (FsRead (base +:+ "/" +:+ name +:+ "-" +:+ EFI_GLOBAL_GUID)) (Ok data) ∈ t /\
    strip_attributes data = Ok payload.
Proof.
  intros H. apply exec_try_ok in H as (t1&t2&data&->&H1&H2). destruct H2 as [-> [= Hs]].
  destruct H1 as (r&t3&->&[-> [= <-]]). exists data. split; [left|done].
Qed.

Lemma slot_read_exec base t info :
  exec (extract_boot_device_info base) t (Done info) ->
  slot_read (partition_number <$> match info with Ok i => i | Err _ => None end) t.
Proof.
  intros H. apply exec_bind_done in H as (t1&t2&[bc|e]&->&_&H); [|by destruct H as [-> [= ->]]].
  apply exec_bind_done in H as (t3&t4&[payload|e]&->&H3&H); [|by destruct H as [-> [= ->]]].
  apply strip_attributes_read in H3 as (data&Hin&Hs).
  destruct (device_info_of_option _ payload) as [[[i|]|e]| |] eqn:E; cbn in H;
    destruct H as [-> [= ->]]; try done.
  cbn. exists (base +:+ "/" +:+ ("Boot" +:+ fmt_hex true 4 bc) +:+ "-" +:+ EFI_GLOBAL_GUID), data, payload,
    ("Boot" +:+ fmt_hex true 4 bc), i.
  split; [rewrite !elem_of_app; auto|done].
Qed.

Lemma mode_read_exec t vb :
  exec detect_verified_boot_strict t (Done (Ok vb)) -> mode_read vb t.
Proof.
  intros H. apply exec_bind_done in H as (t1&t2&base&->&_&H).
  apply exec_try_ok in H as (t3&t4&v&->&H&[-> [= ->]]).
  apply exec_bind_done in H as (t5&t6&r&->&H&Hr). destruct r as [w|e]; [|by destruct Hr].
  destruct Hr as [-> [= ->]].
  apply exec_try_ok in H as (t7&t8&payload&->&H7&H8).
  apply strip_attributes_read in H7 as (data&Hin&Hs).
  destruct payload as [|b rest]; [by destruct H8|]. destruct H8 as [-> [= ->]].
  exists base, data, b, rest. split; [rewrite !elem_of_app; auto|done].
Qed.

Lemma mount_filesystem_ok device target fs ro t :
  exec (mount_filesystem device target fs ro) t (Done (Ok tt)) ->
  t = [Ev (FsCreateDirAll target) (Ok tt);
       Ev (LibcMount device target (Some fs) (if ro then MS_RDONLY else 0) None) (Ok tt)].
Proof. intros H. apply mount_filesystem_exec in H as (_&_&r&[= <-]&Hr). auto. Qed.

Lemma bind_mount_ok source target t :
  exec (bind_mount source target) t (Done (Ok tt)) ->
  t = [Ev (FsCreateDirAll target) (Ok tt); Ev (LibcMount source target None MS_BIND None) (Ok tt)].
Proof.
  remember (Done (Ok tt)) as o eqn:Ho. intros H. unfold bind_mount in H. exec_steps H; simplify_eq.
  repeat match goal with
  | H : cstring _ = Ok _ |- _ => apply cstring_inv in H as ->
  | u : () |- _ => destruct u
  end. done.
Qed.

Lemma mount_pseudo_fs_ok fs target t :
  exec (mount_pseudo_fs fs target) t (Done (Ok tt)) ->
  exists flags, Ev (LibcMount fs target (Some fs) flags None) (Ok tt) ∈ t.
Proof.
  remember (Done (Ok tt)) as o eqn:Ho. intros H. unfold mount_pseudo_fs in H.
  exec_steps H; simplify_eq.
  all: repeat match goal with
  | H : cstring _ = Ok _ |- _ => apply cstring_inv in H as ->
  | u : () |- _ => destruct u
  end; eexists; right; left.
Qed.

Lemma unlock_state_ok vb t :
  exec (unlock_state_c "/z" vb) t (Done (Ok tt)) -> state_unlocked vb t.
Proof.
  intros H. apply unlock_state_c_exec in H. cbv zeta in H.
  change (path_join "/z" "c") with "/z/c" in H. change (c_home "/z/c") with "/z/c/home" in H.
  destruct H as [->|[[-> ->]|(rest&->&H)]]; by constructor.
Qed.

(** A call that does not look for a path. *)
Definition not_probe (v : event sysE) : Prop :=
  match v with @Ev _ _ e _ => match e with PathExists _ => False | _ => True end end.

Lemma probe_before file b t l :
  Forall not_probe l -> Ev (PathExists file) b ∈ t ++ l -> Ev (PathExists file) b ∈ t.
Proof.
  intros Hl Hin. apply elem_of_app in Hin as [Hin|Hin]; [done|].
  by apply (proj1 (Forall_forall _ _) Hl) in Hin.
Qed.

Lemma mount_rootfs_ok vb img s t :
  exec (mount_rootfs "/z" "/sysroot" img vb (Some s)) t (Done (Ok tt)) -> root_attached vb s t.
Proof.
  intros H. apply mount_rootfs_exec in H as (v&t1&->&H).
  set (name := default "ROOTA" v) in H. cbv zeta in H.
  destruct H as [(dir&t2&Hd&Hin&->&_)|(Hd&image&t2&ctrl&free&loop&fd&set&->&Hs)].
  - apply (root_directory vb s name dir (Ev (EnvVar "INITOS_ROOT") v :: t2)); [done|].
    apply (probe_before _ _ (_ :: t2)) in Hin; [done|]. by repeat constructor.
  - apply (root_image vb s name image (Ev (EnvVar "INITOS_ROOT") v :: t2)).
    + eapply Forall_impl; [exact Hd|]. intros d Hin.
      apply (probe_before _ _ (_ :: t2)) in Hin; [done|]. by repeat constructor.
    + intros Hv. rewrite <- (app_nil_r t2). exact (signed_image_app [_] t2 [] image (Hs Hv)).
Qed.

Lemma mount_host_image_ok vb sm root name target slot t :
  exec (mount_host_image sm root name target vb slot) t (Done (Ok tt)) ->
  module_image vb (path_join root target) t.
Proof.
  intros H. apply exec_try_ok in H as (t1&t2&found&->&H1&H).
  assert (Forall (event_ok calm) t1) as Hc by (eapply calm_exec, H1; tame_tac).
  destruct found as [image|]; [|destruct H as [-> _]; rewrite app_nil_r; by apply no_module].
  apply exec_try_ok in H as (t3&t4&s&->&H3&H). destruct H3 as [-> [= Hs]].
  symmetry in Hs. apply utf8_path_ok in Hs as ->.
  apply exec_try_ok in H as (t5&t6&[]&->&Hv&H).
  assert (Forall (event_ok calm) t5) as Hc5 by (eapply calm_exec, Hv; tame_tac).
  apply exec_try_ok in H as (t7&t8&s'&->&H7&H). destruct H7 as [-> [= Hs]].
  symmetry in Hs. apply utf8_path_ok in Hs as ->.
  apply exec_boxed_ok, mount_loop_ok_exec in H as (ctrl&free&loop&fd&set&->).
  pose proof (verify_image_trusted_mode _ _ t1 _ Hv) as Hsig. cbn [app].
  rewrite (assoc_L app). apply module_mounted; [by apply Forall_app|done].
Qed.

Lemma mount_host_images_ok vb sm root slot t :
  exec (mount_host_images sm root vb slot) t (Done (Ok tt)) ->
  exists s, slot = Some s /\ host_images vb sm root s t.
Proof.
  intros H. apply exec_try_ok in H as (t1&t2&m&->&H1&H). destruct H1 as [-> [= Hs]].
  symmetry in Hs. apply utf8_path_ok in Hs as ->.
  apply exec_try_ok in H as (t3&t4&[]&->&H3&H). apply exec_boxed_ok, mount_filesystem_ok in H3 as ->.
  destruct slot as [s|]; [|by destruct H as [_ [=]]]. exists s. split; [done|].
  apply exec_bind_done in H as (t5&t6&r&->&H5&H).
  apply exec_try_ok in H as (t7&t8&[]&->&H7&H).
  apply exec_try_ok in H as (t9&t10&kernel&->&H9&H).
  assert (Forall (event_ok calm) t9) as Hc9 by (eapply calm_exec, H9; tame_tac).
  apply exec_try_ok in H as (t11&t12&[]&->&H11&H). apply mount_host_image_ok in H11.
  exists (t5 ++ t7), kernel, (t9 ++ t11), t12. split; [app_eq|]. split.
  - intros ->. destruct r as [[]|e]; [|by destruct H7 as [_ [=]]]. destruct H7 as [-> _].
    rewrite app_nil_r. by apply mount_slot_composefs_exec.
  - split; [|eapply calm_exec, H; tame_tac].
    destruct H11 as [u Hu|image u ctrl free loop fd set Hu Hs].
    + apply no_module. by apply Forall_app.
    + rewrite (assoc_L app). apply module_mounted; [by apply Forall_app|]. intros Hv.
      rewrite <- (app_nil_r u). exact (signed_image_app t9 u [] image (Hs Hv)).
Qed.

Lemma mounted_at_app root m t1 t2 t3 : mounted_at t2 m root -> mounted_at (t1 ++ t2 ++ t3) m root.
Proof. intros [flags H]. exists flags. rewrite !elem_of_app. auto. Qed.

Lemma mount_pseudo_in_root_ok root fs target t :
  exec (mount_pseudo_in_root root fs target) t (Done (Ok tt)) -> mounted_at t (fs, target, fs) root.
Proof.
  intros H. apply exec_try_ok in H as (t1&t2&m&->&H1&H). destruct H1 as [-> [= Hs]].
  symmetry in Hs. apply utf8_path_ok in Hs as ->.
  by apply exec_boxed_ok, mount_pseudo_fs_ok in H.
Qed.

Lemma mount_fs_in_root_ok root source target fs t :
  exec (mount_fs_in_root root source target fs) t (Done (Ok tt)) -> mounted_at t (source, target, fs) root.
Proof.
  intros H. apply exec_try_ok in H as (t1&t2&m&->&H1&H). destruct H1 as [-> [= Hs]].
  symmetry in Hs. apply utf8_path_ok in Hs as ->.
  apply exec_boxed_ok, mount_filesystem_ok in H as ->. eexists. right. left.
Qed.

Lemma mount_system_filesystems_ok root t :
  exec (mount_system_filesystems root) t (Done (Ok tt)) ->
  Forall (fun m => mounted_at t m root) root_filesystems.
Proof.
  intros H. unfold mount_system_filesystems in H.
  repeat match goal with
  | H : exec (try_bind _ _) _ _ |- _ =>
      let u := fresh "u" in
      apply exec_try_ok in H as (?&?&u&->&?&H); destruct u
  | H : exec (mount_pseudo_in_root _ _ _) _ _ |- _ => apply mount_pseudo_in_root_ok in H
  | H : exec (mount_fs_in_root _ _ _ _) _ _ |- _ => apply mount_fs_in_root_ok in H
  end.
  repeat constructor.
  all: repeat match goal with
  | H : mounted_at ?t ?m ?r |- mounted_at ?t ?m ?r => exact H
  | H : mounted_at ?t ?m ?r |- mounted_at (?t ++ ?u) ?m ?r => exact (mounted_at_app r m [] t u H)
  | |- mounted_at (?t ++ ?u) ?m ?r =>
      rewrite <- (app_nil_r u); apply (mounted_at_app r m t u []); rewrite ?app_nil_r
  end.
Qed.

Lemma switch_root_not_replaced new_root init args t e :
  exec (switch_root_with_args new_root init args) t (Done (Err e)) -> Forall not_replaced t.
Proof.
  remember (Done (Err e)) as o eqn:Ho. intros H.
  unfold switch_root_with_args, current_environment in H. exec_steps H; simplify_eq.
  all: repeat constructor; done.
Qed.

(** ** The whole sequence *)

Lemma lands_select vb s t o :
  exec (let? init := select_init "/z" "/sysroot" in
        boxed (switch_root_with_args "/sysroot" (init_path init) (init_args init))) t o ->
  lands (Some vb) (Populated vb s) t o.
Proof.
  intros H. change t with ([] ++ t). eapply (lands_try (Populated vb s) _ eq_refl); [exact H|apply Forall_nil_2|apply calm_no_exec; tame_tac|].
  cbn [app]. clear t H. intros t1 t2 init H1 Hn H2.
  apply (lands_step _ _ _ (Selected vb s init)); [by apply step_select, select_init_exec|].
  apply exec_bind in H2 as [(t3&t4&r&->&H3&[-> ->])|(st&H3&->)]; rewrite ?app_nil_r.
  - pose proof (switch_root_exec _ _ _ _ _ H3) as [[e [= ->]]|[[=] _]].
    apply (lands_fail (Selected vb s init) _ eq_refl). by eapply switch_root_not_replaced.
  - apply switch_root_exec in H3 as [[e [=]]|[[= ->] [vars ->]]].
    left. exists (Running vb s init), Replaced. split; [|done]. apply path_one, step_switch.
Qed.

Lemma lands_populate vb slot t o :
  exec (let? _ := boxed (bind_mount "/z" "/sysroot/z") in
        let? _ := mount_host_images "/z" "/sysroot" vb slot in
        let? _ := bind_encrypted_state_paths "/z" "/sysroot" in
        let? _ := mount_system_filesystems "/sysroot" in
        let? init := select_init "/z" "/sysroot" in
        boxed (switch_root_with_args "/sysroot" (init_path init) (init_args init))) t o ->
  lands (Some vb) (Rooted vb slot) t o.
Proof.
  intros H. change t with ([] ++ t).
  eapply (lands_try (Rooted vb slot) _ eq_refl); [exact H|apply Forall_nil_2|apply calm_no_exec; tame_tac|]. clear t H.
  intros t1 t [] H1 Hn1 H. apply exec_boxed_ok, bind_mount_ok in H1 as ->.
  eapply (lands_try (Rooted vb slot) _ eq_refl); [exact H|exact Hn1|auto with tame|]. clear t H.
  intros t2 t [] H2 Hn2 H. apply mount_host_images_ok in H2 as (s&->&H2).
  eapply (lands_try (Rooted vb (Some s)) _ eq_refl); [exact H|exact Hn2|apply calm_no_exec; tame_tac|]. clear t H.
  intros t3 t [] H3 Hn3 H.
  eapply (lands_try (Rooted vb (Some s)) _ eq_refl); [exact H|exact Hn3|apply calm_no_exec; tame_tac|]. clear t H.
  intros t4 t [] H4 Hn4 H. apply mount_system_filesystems_ok in H4.
  eapply lands_step; [apply step_populate|by apply lands_select].
  exists t2, (t3 ++ t4). split; [app_eq|]. split; [done|].
  eapply Forall_impl; [exact H4|]. intros m Hm. rewrite <- (app_nil_r t4).
  by apply mounted_at_app.
Qed.

(** From phase [p], one more step that executes nothing. *)
Ltac go p H :=
  cbv beta zeta in H;
  lazymatch type of H with
  | exec (try_bind _ _) _ _ => eapply (lands_try p _ eq_refl)
  | exec (mbind _ _) _ _ => eapply (lands_bind p _ eq_refl)
  end; [exact H|first [apply Forall_nil_2|eassumption]|first [by auto with tame|apply calm_no_exec; tame_tac]|];
  clear H.

Lemma lands_mounted img vb slot t o :
  exec (let? _ := unlock_state_c "/z" vb in
        let? _ := mount_rootfs "/z" "/sysroot" img vb slot in
        let? _ := boxed (bind_mount "/z" "/sysroot/z") in
        let? _ := mount_host_images "/z" "/sysroot" vb slot in
        let? _ := bind_encrypted_state_paths "/z" "/sysroot" in
        let? _ := mount_system_filesystems "/sysroot" in
        let? init := select_init "/z" "/sysroot" in
        boxed (switch_root_with_args "/sysroot" (init_path init) (init_args init))) t o ->
  lands (Some vb) (StateMounted vb slot) t o.
Proof.
  intros H. change t with ([] ++ t). go (StateMounted vb slot) H.
  intros t1 t2 [] H1 _ H. cbn [app]. eapply lands_step; [by apply step_unlock, unlock_state_ok|].
  clear t1 H1. change t2 with ([] ++ t2). go (Unlocked vb slot) H.
  intros t1 t3 [] H1 _ H. cbn [app]. eapply lands_step; [|by apply lands_populate].
  apply step_root. intros s ->. by eapply mount_rootfs_ok.
Qed.

Ltac calm_in H := apply calm_exec in H; [|solve [tame_tac]].

Lemma slot_read_app slot t1 t2 t3 : slot_read slot t2 -> slot_read slot (t1 ++ t2 ++ t3).
Proof.
  destruct slot as [n|]; [|done]. intros (file&data&payload&name&info&Hin&?).
  exists file, data, payload, name, info. split; [rewrite !elem_of_app; auto|done].
Qed.

Lemma lands_boot_verified img data vb t o :
  exec (boot_verified img data vb) t o -> lands (Some vb) (Decided vb) t o.
Proof.
  intros H. unfold boot_verified in H. change t with ([] ++ t). go (Decided vb) H.
  intros t1 u1 base H1 Hn1 H. calm_in H1.
  go (Decided vb) H. intros t2 u2 info H2 Hn2 H.
  pose proof H2 as Hc2. calm_in Hc2. apply slot_read_exec in H2. cbv beta zeta in H.
  set (slot := partition_number <$> match info with Ok i => i | Err _ => None end) in *.
  clearbody slot. go (Decided vb) H. intros t3 u3 [disk part] H3 Hn3 H. cbv iota in H.
  calm_in H3.
  go (Decided vb) H. intros t4 u4 [] H4 Hn4 H. calm_in H4.
  go (Decided vb) H. intros t5 u5 [] H5 Hn5 H. calm_in H5.
  go (Decided vb) H. intros t6 u6 dev H6 Hn6 H. calm_in H6. cbv beta zeta in H.
  destruct (to_str dev) as [device|] eqn:Ed.
  2:{ destruct H as [-> ->]. rewrite app_nil_r. apply (lands_crash (Decided vb) _ eq_refl); [done|by left]. }
  cbn [app] in *. rewrite <- !(assoc_L app).
  rewrite (assoc_L app t1), (assoc_L app _ t3), (assoc_L app _ t4), (assoc_L app _ t5), (assoc_L app _ t6).
  eapply lands_step; [apply (step_locate vb slot device)|].
  { repeat (apply Forall_app; split; [|done]). done. }
  { rewrite <- !(assoc_L app). by apply (slot_read_app slot t1 t2). }
  change u6 with ([] ++ u6). go (Located vb slot device) H. intros t7 u7 [] H7 _ H.
  apply exec_boxed_ok, mount_filesystem_ok in H7 as ->.
  cbn [app]. apply (lands_step _ _ (state_mount_calls device) _ u7 _ (step_mount vb slot device)).
  eapply lands_mounted. exact H.
Qed.

(** A step before the decision: it returns, and touches nothing. *)
Lemma early_bind {A B} (m : sys A) (f : A -> sys B) t o :
  quiet before_decision m -> total m -> exec (m ≫= f) t o ->
  exists t1 t2 a, t = t1 ++ t2 /\ exec m t1 (Done a) /\ Forall (event_ok before_decision) t1 /\
    exec (f a) t2 o.
Proof.
  intros Hq Ht H. pose proof (quiet_total_tame _ (fun _ => False) _ Hq Ht) as Hm.
  apply exec_bind in H as [(t1&t2&a&->&H1&H2)|(s&H1&->)];
    destruct (tame_exec _ _ _ _ _ Hm H1) as [Hf Hs]; [|done]. eauto 10.
Qed.

Ltac early H :=
  apply early_bind in H as (?&?&?&->&?&?&H);
    [|solve [autounfold with initos; early_tac|apply early_kernel_release|apply early_mount_initial;
             repeat constructor; cbn; rewrite !elem_of_cons; auto 6]
     |solve [autounfold with initos; total_tac|apply early_kernel_release|apply early_mount_initial;
             repeat constructor; cbn; rewrite !elem_of_cons; auto 6]].

Lemma early_not_replaced t : Forall (event_ok before_decision) t -> Forall not_replaced t.
Proof. intros H. eapply Forall_impl; [exact H|]. intros [B e x]. by destruct e. Qed.

Lemma lands_boot_run t o :
  exec boot_run t o ->
  (exists q s, path Starting t q /\ final q = Some s /\ o = Stopped s) \/
  (exists mode e, o = Done (mode, Err e) /\ path Starting t (Failed mode)).
Proof.
  intros H. unfold boot_run in H. do 5 early H.
  apply early_bind in H as (t1&t2&decision&->&Hd&Hn&H);
    [|autounfold with initos; early_tac|autounfold with initos; total_tac].
  rewrite !(assoc_L app). set (t0 := _ ++ t1).
  assert (Forall (event_ok before_decision) t0) as Hb by (unfold t0; rewrite !Forall_app; tauto).
  destruct decision as [vb|e].
  - apply mode_read_exec in Hd. assert (step Starting t0 (Decided vb)) as Hstep.
    { apply step_decide; [done|]. destruct Hd as (base&data&b&rest&Hin&?).
      exists base, data, b, rest. split; [|done]. apply elem_of_app. by right. }
    apply exec_bind in H as [(t3&t4&r&->&Hx&[-> ->])|(s&Hx&->)];
      apply lands_boot_verified, (lands_step _ _ _ _ _ _ Hstep) in Hx.
    + rewrite app_nil_r. right. destruct Hx as [(q&s&_&_&[=])|(e&[= ->]&Hx)]. by exists (Some vb), e.
    + left. destruct Hx as [(q&s'&?&?&[= <-])|(e&[=]&_)]. by exists q, s.
  - destruct H as [-> ->]. rewrite app_nil_r. right. exists None, e. split; [done|].
    apply path_one, step_fail; [done|]. by apply early_not_replaced.
Qed.

Lemma path_app p t q u r : path p t q -> path q u r -> path p (t ++ u) r.
Proof.
  intros H. induction H as [|p' t' q' u' r' Hs _ IH]; [done|]. intros Hr. rewrite <- (assoc_L app).
  eapply path_cons; [exact Hs|by apply IH].
Qed.

(** ** An invariant of the machine *)

(** Segments of the history that satisfy the contracts, in this order. *)
Fixpoint in_order (Ps : list (hist sysE -> Prop)) (h : hist sysE) : Prop :=
  match Ps with
  | [] => True
  | P :: Ps => exists h1 t h2, h = h1 ++ t ++ h2 /\ P t /\ in_order Ps h2
  end.

Lemma in_order_app Ps h t : in_order Ps h -> in_order Ps (h ++ t).
Proof.
  revert h. induction Ps as [|P Ps IH]; intros h; [done|]. cbn. intros (h1&u&h2&->&HP&H).
  exists h1, u, (h2 ++ t). split; [app_eq|]. auto.
Qed.

Lemma in_order_snoc Ps (P : hist sysE -> Prop) h t : in_order Ps h -> P t -> in_order (Ps ++ [P]) (h ++ t).
Proof.
  intros H HP. revert h H. induction Ps as [|Q Ps IH]; intros h; cbn.
  - intros _. exists h, t, []. by rewrite app_nil_r.
  - intros (h1&u&h2&->&HQ&H). exists h1, u, (h2 ++ t). split; [app_eq|]. auto.
Qed.

(** What was done, in order, when a phase is reached. *)
Definition contracts p : list (hist sysE -> Prop) :=
  let until_root v slot := [mode_read v; slot_read slot;
    fun t => exists device, t = state_mount_calls device; state_unlocked v] in
  let until_ready v s := until_root v (Some s) ++ [root_attached v s; root_populated v s] in
  let until_selected v s init := until_ready v s ++ [init_selected init] in
  match p with
  | Starting | Exited | Failed None => []
  | Crashed s => [fun _ => crash s]
  | Decided v | Failed (Some v) => [mode_read v]
  | Located v slot _ => [mode_read v; slot_read slot]
  | StateMounted v slot => [mode_read v; slot_read slot;
      fun t => exists device, t = state_mount_calls device]
  | Unlocked v slot => until_root v slot
  | Rooted v slot => until_root v slot ++
      [fun t => forall s, slot = Some s -> root_attached v s t]
  | Populated v s => until_ready v s
  | Selected v s init => until_selected v s init
  | Running v s init => until_selected v s init ++
      [fun t => exists vars, t = switch_root_calls "/sysroot" (init_path init) (init_args init) vars]
  | Development => [mode_read false;
      fun t => exists msg, t = [Ev (SetVar "INITOS_BOOT_ERROR" msg) tt;
                                Ev (LibcExecv DEV_INIT [DEV_INIT]) None]]
  end.

Lemma in_order_mono Ps Ps' h :
  Forall2 (fun P P' : hist sysE -> Prop => forall t, P t -> P' t) Ps Ps' -> in_order Ps h -> in_order Ps' h.
Proof.
  intros H. revert h. induction H as [|P P' Ps Ps' HP _ IH]; intros h; [done|]. cbn.
  intros (h1&t&h2&->&Ht&Hi). exists h1, t, h2. auto.
Qed.

Lemma step_keeps_order p t q h : step p t q -> in_order (contracts p) h -> in_order (contracts q) (h ++ t).
Proof.
  intros Hs H. destruct Hs as [v t|v slot dev t Hc|v slot dev|v slot t|v slot t|v slot t|v s i t|v s i vars
    |p mode t Hm|p mode t st Hm|msg|msg err|mode Hm]; try exact I.
  - by apply (in_order_snoc []).
  - by apply (in_order_snoc [_]).
  - apply (in_order_snoc [_; _]); [done|by exists dev].
  - by apply (in_order_snoc [_; _; _]).
  - by apply (in_order_snoc [_; _; _; _]).
  - apply (in_order_snoc [_; _; _; _; _]); [|done]. eapply in_order_mono; [|exact H].
    repeat constructor; auto.
  - by apply (in_order_snoc (contracts (Populated v s))).
  - apply (in_order_snoc (contracts (Selected v s i))); [done|by exists vars].
  - apply in_order_app. destruct p; try discriminate Hm; injection Hm as <-; cbn in *; try done.
    all: destruct H as (h1&u&h2&->&Hu&_); by exists h1, u, h2.
  - by apply (in_order_snoc []).
  - apply (in_order_snoc [_]); [done|by exists msg].
Qed.

Lemma path_keeps_order p t q h : path p t q -> in_order (contracts p) h -> in_order (contracts q) (h ++ t).
Proof.
  intros Hp. revert h. induction Hp as [p|p t q u r Hs _ IH]; intros h H; [by rewrite app_nil_r|].
  rewrite (assoc_L app). apply IH. by eapply step_keeps_order.
Qed.

(** ** Properties *)

Lemma cmd_boot_run t o :
  exec cmd_boot t o -> exists p s, path Starting t p /\ final p = Some s /\ o = Stopped s.
Proof.
  intros H. apply exec_bind in H as [(t1&t2&[mode r]&->&H1&H2)|(s&H1&->)]; apply lands_boot_run in H1.
  - destruct H1 as [(?&?&_&_&[=])|(mode'&e&[= -> ->]&H1)]. case_bool_decide as Hm.
    + subst mode'. destruct H2 as ([]&t3&->&err&t4&->&H2). destruct err as [err|]; destruct H2 as [-> ->].
      * exists Exited, (Exit 1). split; [|done]. eapply path_app, path_one, step_no_develop. done.
      * exists Development, Replaced. split; [|done]. eapply path_app, path_one, step_develop. done.
    + destruct H2 as ([]&t3&->&[-> ->]). exists Exited, (Exit 1). split; [|done].
      eapply path_app, path_one, step_exit; done.
  - destruct H1 as [(q&s'&?&?&[= <-])|(?&?&[=]&_)]. by exists q, s.
Qed.

(** C5: The boot sequence refines the state machine of its phases: every execution
    of [cmd_boot], whatever the machine answers, is a run of the machine from
    [Starting] to a phase in which the process ends, and it ends in the way of
    that phase: replaced by the selected init, replaced by the development init
    (only with Secure Boot read as off), exit status 1, or a crash. *)
Theorem boot_refines_machine (t : hist sysE) (o : outcome (result unit string)) :
  exec cmd_boot t o -> exists p s, path Starting t p /\ final p = Some s /\ o = Stopped s.
Proof. apply cmd_boot_run. Qed.

(** C6: What has happened when init runs in verified mode: if [cmd_boot] hands
    over to an init although Secure Boot was not read as off, then, in this
    order, the firmware variable was read as on, the slot was read from the
    boot option, the data partition was mounted, the encrypted state was absent
    or unlocked by a key, the root was attached -- an existing directory or a
    signed image --, the data partition, the signed images of the slot and the
    system file systems were mounted in it, the init was selected, and it is
    this init that is executed, by the calls of [switch_root]. *)
Theorem verified_init_last (t : hist sysE) :
  exec cmd_boot t (Stopped Replaced) -> ~ secure_boot_off t ->
  exists slot init,
    in_order [mode_read true; slot_read (Some slot);
      (fun t => exists device, t = state_mount_calls device); state_unlocked true;
      root_attached true slot; root_populated true slot; init_selected init;
      (fun t => exists vars, t = switch_root_calls "/sysroot" (init_path init) (init_args init) vars)] t.
Proof.
  intros H Hoff. apply cmd_boot_run in H as (p&s&Hp&Hf&[= <-]).
  apply (path_keeps_order _ _ _ []) in Hp; [|done]. cbn [app] in Hp.
  assert (forall v Ps, in_order (mode_read v :: Ps) t -> v = true) as Hv.
  { intros v Ps (h1&u&h2&->&(base&data&b&rest&Hin&Hs&->)&_). apply negb_true_iff, Z.eqb_neq. intros Hb.
    apply Hoff. exists base, data, b, rest. split; [rewrite !elem_of_app; auto|done]. }
  destruct p; try discriminate Hf.
  - assert (verified = true) as -> by exact (Hv _ _ Hp). by exists slot, init.
  - by assert (false = true) by exact (Hv _ _ Hp).
  - injection Hf as ->. destruct Hp as (?&?&?&_&[[=]|[=]]&_).
Qed.

End machine.

(** ** Witnesses *)

Definition reads_secure_boot_off (v : event sysE) : bool :=
  match v with
  | @Ev _ A e x =>
      match e in sysE A return A -> bool with
      | FsRead path => fun r =>
          ends_with ("/" +:+ "SecureBoot" +:+ "-" +:+ EFI_GLOBAL_GUID) path &&
          match r with
          | Ok data => match strip_attributes data with Ok (b :: _) => b2z b =? 0 | _ => false end
          | Err _ => false
          end
      | _ => fun _ => false
      end x
  end.

Lemma not_secure_boot_off t :
  forallb (fun v => negb (reads_secure_boot_off v)) t = true -> ~ secure_boot_off t.
Proof.
  intros Hf (base&data&b&rest&Hin&Hs&Hb). rewrite forallb_forall in Hf.
  apply list_elem_of_In, Hf in Hin. cbn [reads_secure_boot_off] in Hin.
  rewrite ends_with_app, Hs, Hb in Hin. discriminate Hin.
Qed.

Lemma boot_refines_machine_witness :
  outcome_of secure_machine cmd_boot = Stopped Replaced /\
  exists p s, path Starting (trace_of secure_machine cmd_boot) p /\ final p = Some s /\
    Stopped (A := result unit string) Replaced = Stopped s.
Proof.
  assert (outcome_of secure_machine cmd_boot = Stopped Replaced) as H by (vm_compute; reflexivity).
  split; [exact H|]. exact (boot_refines_machine _ _ (toy_exec _ _ _ H)).
Defined.

Lemma verified_init_last_witness :
  exists slot init,
    in_order [mode_read true; slot_read (Some slot);
      (fun t => exists device, t = state_mount_calls device); state_unlocked true;
      root_attached true slot; root_populated true slot; init_selected init;
      (fun t => exists vars, t = switch_root_calls "/sysroot" (init_path init) (init_args init) vars)]
      (trace_of secure_machine cmd_boot).
Proof.
  assert (outcome_of secure_machine cmd_boot = Stopped Replaced) as H by (vm_compute; reflexivity).
  apply (verified_init_last _ (toy_exec _ _ _ H)), not_secure_boot_off. vm_compute. reflexivity.
Defined.
