(* ===== verification/Attached.v ===== *)
(** What is measured is what is attached ([src/boot.rs], [src/verify.rs],
    [src/mount.rs] against the kernel of [FileModel.v]): images are verified by
    their path and attached by their path, and nothing that initos does in
    between changes what the path means; so in verified mode the bytes of every
    file that the boot attaches to a loop device are signed. *)

From S2P Require Import Prelude Prog Str PathLib Sys World Verity Efi Verify Tpm Fscrypt Cmd Mount Boot FileModel Calm BootSpec BootSteps BootMachine.

Section attached.
Context `{X : Externals} `{AG : Age}.

(** ** Traces whose attachments are vetted *)

(** Every attachment comes right after the image was opened, and this after
    its signature was verified, with steady calls only since before. *)
Inductive vetted : hist sysE -> Prop :=
| vetted_none t : Forall (event_ok unattached) t -> vetted t
| vetted_image t img fd loop r :
    signed_image t img -> Forall (event_ok steady) t ->
    vetted (t ++ [Ev (LibcOpen img O_RDONLY) (Ok fd); Ev (LibcIoctl loop LOOP_SET_FD fd) r])
| vetted_app t1 t2 : vetted t1 -> vetted t2 -> vetted (t1 ++ t2).

(** After steady calls, at most one attachment, of [img], and then a vetted rest. *)
Inductive attaching (img : string) : hist sysE -> Prop :=
| attaching_none t : vetted t -> attaching img t
| attaching_image t fd loop r rest :
    Forall (event_ok steady) t -> vetted rest ->
    attaching img (t ++ [Ev (LibcOpen img O_RDONLY) (Ok fd); Ev (LibcIoctl loop LOOP_SET_FD fd) r] ++ rest).

Definition vets {A} (p : sys A) : Prop := forall t o, exec p t o -> vetted t.
Definition attaches (img : string) {A} (p : sys A) : Prop := forall t o, exec p t o -> attaching img t.

Lemma vets_quiet {A} (p : sys A) : quiet unattached p -> vets p.
Proof. intros Hq t o H. apply vetted_none. by eapply quiet_exec. Qed.

Lemma calm_unattached A (e : sysE A) : calm A e -> unattached A e.
Proof. by destruct e. Qed.

Lemma vets_calm {A} (p : sys A) : tame calm crash p -> vets p.
Proof.
  intros Hp. apply vets_quiet. eapply quiet_mono; [by eapply tame_quiet|]. apply calm_unattached.
Qed.

Lemma vets_bind {A B} (p : sys A) (f : A -> sys B) : vets p -> (forall a, vets (f a)) -> vets (p ≫= f).
Proof.
  intros Hp Hf t o H. apply exec_bind in H as [(t1&t2&a&->&H1&H2)|(s&H&_)]; [|by eapply Hp].
  apply vetted_app; [by eapply Hp|by eapply Hf].
Qed.

Lemma vets_try {A B Er} (p : sys (result A Er)) (f : A -> sys (result B Er)) :
  vets p -> (forall a, vets (f a)) -> vets (try_bind p f).
Proof. intros Hp Hf. apply vets_bind; [done|]. intros [a|e]; [done|]. by apply vets_calm. Qed.

Lemma vets_boxed {A} (p : sys (io A)) : vets p -> vets (boxed p).
Proof. intros Hp. apply vets_bind; [done|]. intros r. by apply vets_calm. Qed.

Lemma attaching_steady img t1 t2 :
  Forall (event_ok steady) t1 -> attaching img t2 -> attaching img (t1 ++ t2).
Proof.
  intros H1 [t Ht|t fd loop r rest Ht Hr].
  - apply attaching_none, vetted_app; [|done]. by apply vetted_none, Forall_steady.
  - rewrite (assoc_L app). apply attaching_image; [|done]. by apply Forall_app.
Qed.

Lemma attaches_quiet {A B} img (p : sys A) (f : A -> sys B) :
  quiet steady p -> (forall a, attaches img (f a)) -> attaches img (p ≫= f).
Proof.
  intros Hp Hf t o H. apply exec_bind in H as [(t1&t2&a&->&H1&H2)|(s&H&_)].
  - apply attaching_steady; [by eapply quiet_exec|by eapply Hf].
  - apply attaching_none, vetted_none, Forall_steady. by eapply quiet_exec.
Qed.

Lemma attaches_try_quiet {A B Er} img (p : sys (result A Er)) (f : A -> sys (result B Er)) :
  quiet steady p -> (forall a, attaches img (f a)) -> attaches img (try_bind p f).
Proof.
  intros Hp Hf. apply attaches_quiet; [done|]. intros [a|e]; [done|].
  intros t o [-> _]. apply attaching_none, vetted_none. constructor.
Qed.

Lemma attaches_then {A B} img (p : sys A) (f : A -> sys B) :
  attaches img p -> (forall a, vets (f a)) -> attaches img (p ≫= f).
Proof.
  intros Hp Hf t o H. apply exec_bind in H as [(t1&t2&a&->&H1&H2)|(s&H&_)]; [|by eapply Hp].
  apply Hf in H2. destruct (Hp _ _ H1) as [t Ht|t fd loop r rest Ht Hr].
  - by apply attaching_none, vetted_app.
  - rewrite <- !(assoc_L app). apply attaching_image; [done|by apply vetted_app].
Qed.

Lemma attaches_boxed {A} img (p : sys (io A)) : attaches img p -> attaches img (boxed p).
Proof. intros Hp. apply attaches_then; [done|]. intros r. by apply vets_calm. Qed.

Lemma attaches_try {A B Er} img (p : sys (result A Er)) (f : A -> sys (result B Er)) :
  attaches img p -> (forall a, vets (f a)) -> attaches img (try_bind p f).
Proof. intros Hp Hf. apply attaches_then; [done|]. intros [a|e]; [done|]. by apply vets_calm. Qed.

(** ** The functions of the boot *)

Lemma steady_try_certs img d certs : quiet steady (try_certs img d certs).
Proof. induction certs; cbn [try_certs]; quiet_tac. Qed.
Hint Resolve steady_try_certs : quiet.

Lemma steady_verify img vb : quiet steady (verify_image_trusted img "" vb).
Proof.
  repeat first [quiet_step | progress autounfold with initos].
Qed.

(** The image is attached right after it was opened. *)
Lemma attaches_mount_loop img target : attaches img (mount_loop img target).
Proof.
  unfold mount_loop. apply attaches_try_quiet; [by split|intros _].
  apply attaches_try_quiet; [by split|intros ctrl].
  apply attaches_quiet; [split; [discriminate|done]|intros free].
  apply attaches_quiet; [by split|intros _]. apply attaches_try_quiet; [done|intros idx]. cbv zeta.
  apply attaches_try_quiet; [done|intros dev]. apply attaches_try_quiet; [by split|intros loop].
  intros t o H. apply exec_try in H as [(t1&t2&c&->&[-> Hc]&H)|[(e&[-> _]&_)|(s&[_ [=]]&_)]];
    [|apply attaching_none, vetted_none; constructor].
  injection Hc as Hc. symmetry in Hc. apply cstring_inv in Hc as ->. cbn [app].
  destruct H as ([fd|e]&t3&->&H);
    [|apply attaching_none, vetted_none; constructor; [done|];
      eapply quiet_exec; [|exact H]; by repeat split].
  destruct H as (r&t4&->&H). apply (attaching_image img [] fd loop r t4); [constructor|].
  eapply vets_calm; [|exact H]. apply tame_bind; [|intros ?]; tame_tac.
Qed.

Lemma attaches_ret {A} img (a : A) : attaches img (mret a).
Proof. intros t o [-> _]. apply attaching_none, vetted_none. constructor. Qed.

(** The image is verified, and then only steady calls precede its attachment. *)
Lemma vets_verified {A} img (rest : sys (result A string)) :
  attaches img rest -> vets (let? _ := verify_image_trusted img "" true in rest).
Proof.
  intros Hr t o H. apply exec_try in H as [(t1&t2&[]&->&H1&H2)|[(e&H1&_)|(s&H1&_)]].
  2, 3: apply vetted_none, Forall_steady; eapply quiet_exec, H1; apply steady_verify.
  assert (Forall (event_ok steady) t1) as Hs by (eapply quiet_exec, H1; apply steady_verify).
  apply (verify_image_trusted_exec img []) in H1. cbn in H1.
  destruct (Hr _ _ H2) as [t Ht|t fd loop r rest' Ht Hv].
  - apply vetted_app; [by apply vetted_none, Forall_steady|done].
  - rewrite !(assoc_L app). apply vetted_app; [|done]. apply vetted_image; [|by apply Forall_app].
    eapply signed_image_mono; [by eexists|done].
Qed.

Ltac vets_step :=
  match goal with
  | |- vets (try_bind (verify_image_trusted _ "" true) _) => apply vets_verified
  | |- vets _ => solve [apply vets_calm; tame_tac]
  | |- vets (mbind _ _) => apply vets_bind; [|intros ?]
  | |- vets (try_bind _ _) => apply vets_try; [|intros ?]
  | |- vets (boxed _) => apply vets_boxed
  | |- attaches _ (boxed (mount_loop _ _)) => apply attaches_boxed, attaches_mount_loop
  | |- attaches _ (try_bind (mret _) _) => apply attaches_try_quiet; [done|intros ?]
  | |- attaches _ (try_bind _ _) => apply attaches_try; [|intros ?]
  | |- vets (match ?x with _ => _ end) => destruct x
  | |- _ => progress cbv beta zeta
  end.

Lemma vets_mount_rootfs a b c d : vets (mount_rootfs a b c true d).
Proof. unfold mount_rootfs. repeat vets_step. Qed.

Lemma vets_mount_slot_composefs a b c : vets (mount_slot_composefs_firmware a b c true).
Proof. unfold mount_slot_composefs_firmware. repeat vets_step. Qed.

Lemma vets_mount_host_image a b c d e : vets (mount_host_image a b c d true e).
Proof. unfold mount_host_image. repeat vets_step. Qed.

Lemma vets_mount_host_images a b c : vets (mount_host_images a b true c).
Proof.
  unfold mount_host_images.
  repeat first [apply vets_mount_slot_composefs | apply vets_mount_host_image | vets_step].
Qed.

Lemma vets_switch_root a b c : vets (boxed (switch_root_with_args a b c)).
Proof.
  apply vets_boxed, vets_quiet. unfold switch_root_with_args, current_environment. quiet_tac.
Qed.

Lemma vets_boot_verified img data : vets (boot_verified img data true).
Proof.
  unfold boot_verified.
  repeat first [apply vets_mount_rootfs | apply vets_mount_host_images | apply vets_switch_root | vets_step].
Qed.

Lemma secure_boot_off_app t1 t2 : secure_boot_off t1 \/ secure_boot_off t2 -> secure_boot_off (t1 ++ t2).
Proof.
  intros [H|H]; destruct H as (base&data&b&rest&Hin&?); exists base, data, b, rest;
    (split; [apply elem_of_app; auto|done]).
Qed.

(** Unless Secure Boot was read as off. *)
Definition vets_or_off {A} (p : sys A) : Prop := forall t o, exec p t o -> secure_boot_off t \/ vetted t.

Lemma vets_or_off_bind {A B} (p : sys A) (f : A -> sys B) :
  vets p -> (forall a, vets_or_off (f a)) -> vets_or_off (p ≫= f).
Proof.
  intros Hp Hf t o H. apply exec_bind in H as [(t1&t2&a&->&H1&H2)|(s&H&_)]; [|right; by eapply Hp].
  destruct (Hf _ _ _ H2) as [?|?]; [left; apply secure_boot_off_app; auto|].
  right. apply vetted_app; [by eapply Hp|done].
Qed.

Lemma vets_or_off_then {A B} (p : sys A) (f : A -> sys B) :
  vets_or_off p -> (forall a, vets (f a)) -> vets_or_off (p ≫= f).
Proof.
  intros Hp Hf t o H. apply exec_bind in H as [(t1&t2&a&->&H1&H2)|(s&H&_)]; [|by eapply Hp].
  destruct (Hp _ _ H1) as [?|?]; [left; apply secure_boot_off_app; auto|].
  right. apply vetted_app; [done|by eapply Hf].
Qed.

(** The decision: verified mode unless the firmware says Secure Boot is off. *)
Lemma vets_or_off_decided {B} (f : result bool string -> sys B) :
  (forall e, vets (f (Err e))) -> vets (f (Ok true)) -> vets_or_off (detect_verified_boot_strict ≫= f).
Proof.
  intros He Ht t o H. assert (vets detect_verified_boot_strict) as Hd by (apply vets_calm; tame_tac).
  apply exec_bind in H as [(t1&t2&d&->&H1&H2)|(s&H&_)]; [|right; by eapply Hd].
  destruct (wp_sound _ _ [] t1 _ _ (wp_detect_strict []) H1) as [_ Hm]; [by intros ? []|].
  destruct d as [[]|e].
  - right. apply vetted_app; [by eapply Hd|by eapply Ht].
  - left. apply secure_boot_off_app. left. by apply Hm.
  - right. apply vetted_app; [by eapply Hd|by eapply He].
Qed.

Lemma cmd_boot_vetted t o : exec cmd_boot t o -> secure_boot_off t \/ vetted t.
Proof.
  revert t o. change (vets_or_off cmd_boot). unfold cmd_boot, boot_run.
  apply vets_or_off_then.
  - do 5 (apply vets_or_off_bind; [apply vets_calm; tame_tac|intros ?]).
    apply vets_or_off_decided; [by intros e; apply vets_calm|].
    apply vets_bind; [apply vets_boot_verified|]. intros r. by apply vets_calm.
  - intros [m r]. apply vets_quiet. destruct r; quiet_tac.
Qed.

(** ** The bytes that are attached *)

Section kernel.
Variable verity_digest : verity -> list byte -> list byte.

(** A certificate of the database that was read signs the root hash of the
    file, by a signature file that was read. *)
Definition signed_node (t : hist sysE) (nd : node) : Prop :=
  exists v img base certs cert, node_verity nd = Some v /\ db_read t base certs /\ cert ∈ certs /\
    signed_by_cert t img (verity_digest v (node_bytes nd)) cert.

Lemma signed_node_app t1 t2 nd : signed_node t1 nd \/ signed_node t2 nd -> signed_node (t1 ++ t2) nd.
Proof.
  intros H. assert (exists t, (t = t1 \/ t = t2) /\ signed_node t nd) as (t&Ht&H') by (destruct H; eauto).
  destruct H' as (v&img&base&certs&cert&Hv&(data&pl&Hd&Hs)&Hc&(sig&kd&key&Hk&Hr)).
  assert (forall x, x ∈ t -> x ∈ t1 ++ t2) as Hin by (intros x; rewrite elem_of_app; destruct Ht as [-> | ->]; auto).
  exists v, img, base, certs, cert. split; [done|]. split; [exists data, pl; auto|]. split; [done|].
  exists sig, kd, key. auto.
Qed.

Definition vouched (t : hist sysE) (s : files) (i : Z) : Prop :=
  exists nd, nodes s !! i = Some nd /\ signed_node t nd.

Lemma vouched_later t1 t2 s s' i : sealed_kept s s' -> vouched t1 s i -> vouched (t1 ++ t2) s' i.
Proof.
  intros Hk (nd&Hi&Hs). exists nd. split; [|by apply signed_node_app; left].
  apply Hk; [done|]. by destruct Hs as (v&?&?&?&?&->&_).
Qed.

Lemma image_vouched t img fd loop r s s' :
  signed_image t img -> Forall (event_ok steady) t ->
  files_run verity_digest s
    (t ++ [Ev (LibcOpen img O_RDONLY) (Ok fd); Ev (LibcIoctl loop LOOP_SET_FD fd) (Ok r)]) s' ->
  exists i, backing s' = i :: backing s /\ vouched t s' i.
Proof.
  intros (base&dg&certs&cert&(h1&fm&d&h2&Ht&Hd)&Hdb&Hc&Hsig) Hst Hrun.
  set (attach := [_; _]) in Hrun. rewrite Ht in Hrun, Hst. apply Forall_app in Hst as [Hst1 Hst].
  apply Forall_app in Hst as [_ Hst2]. rewrite <- !(assoc_L app) in Hrun.
  apply files_run_app in Hrun as (s0&H0&Hrun).
  apply files_run_unattached in H0; [|by apply Forall_steady].
  apply files_run_same in Hrun as (i&nd&Hb&Hn&v&Hv&_&Hr); [|done].
  exists i. split; [by rewrite Hb, H0|]. exists nd. split; [done|].
  rewrite Hd in Hr. apply (f_equal (fun c => match c with Val x => x | _ => [] end)) in Hr. cbn in Hr.
  exists v, img, base, certs, cert. rewrite <- Hr. done.
Qed.

(** Everything that a vetted trace attaches is vouched for. *)
Lemma vetted_vouched t s s' :
  vetted t -> files_run verity_digest s t s' -> forall i, i ∈ backing s' -> i ∈ backing s \/ vouched t s' i.
Proof.
  intros Ht. revert s s'. induction Ht as [t Ht|t img fd loop r Hi Ht|t1 t2 _ IH1 _ IH2]; intros s s' Hrun i Hb.
  - left. by rewrite (files_run_unattached _ _ _ _ Hrun Ht) in Hb.
  - destruct r as [r|e].
    + apply image_vouched in Hrun as (j&Hj&nd&Hn&Hs); [|done..]. rewrite Hj in Hb.
      apply elem_of_cons in Hb as [->|Hb]; [right|by left].
      exists nd. split; [done|]. apply signed_node_app. by left.
    + left. apply files_run_app in Hrun as (s1&H1&H2). apply files_run_unattached in H1; [|by apply Forall_steady].
      apply files_run_cons in H2 as (s2&Ho&H2). apply files_step_unattached in Ho; [|done].
      apply files_run_one in H2 as (_&_&_&H2). rewrite andb_false_r in H2. congruence.
  - apply files_run_app in Hrun as (s1&H1&H2). destruct (IH2 _ _ H2 i Hb) as [Hs|(nd&Hn&Hs)].
    + destruct (IH1 _ _ H1 i Hs) as [?|Hv]; [by left|right].
      eapply vouched_later; [by eapply files_run_sealed|done].
    + right. exists nd. split; [done|]. apply signed_node_app. by right.
Qed.

(** Of the boot sequence. *)
Lemma boot_attaches_vouched t o s s' :
  exec cmd_boot t o -> files_run verity_digest s t s' -> backing s = [] -> ~ secure_boot_off t ->
  forall i, i ∈ backing s' -> vouched t s' i.
Proof.
  intros Hx Hrun Hb Hoff i Hi. assert (vetted t) as Hv.
  { destruct (cmd_boot_vetted _ _ Hx) as [?|?]; done. }
  destruct (vetted_vouched _ _ _ Hv Hrun i Hi) as [H|?]; [|done]. rewrite Hb in H. by apply elem_of_nil in H.
Qed.

(** C3: Time of check, time of use: on any kernel that keeps the bytes of files
    with fs-verity, and the meaning of paths but for the mounts and directory
    changes of initos itself, every file that the boot sequence attached to a
    loop device, in an execution that did not read Secure Boot as off, has
    fs-verity, and the root hash of the bytes it has is signed by a certificate
    of the UEFI database: what was verified by its path is what was attached by
    its path, and it is unchanged at the end, when init runs. *)
Theorem attached_bytes_signed (t : hist sysE) (o : outcome (result unit string)) (s s' : files) :
  exec cmd_boot t o -> files_run verity_digest s t s' -> backing s = [] -> ~ secure_boot_off t ->
  forall i, i ∈ backing s' -> vouched t s' i.
Proof.
  intros Hx Hrun Hb Hoff i Hi. by eapply boot_attaches_vouched.
Qed.

End kernel.

End attached.

(** ** A witness: the machine of BootSpec.v with its files *)

Definition opened_path (v : event sysE) : option string :=
  match v with
  | @Ev _ A e x => match e with FileOpen p _ | LibcOpen p _ => Some p | _ => None end
  end.

(** One file for each path that is opened, with the bytes it has in [w]. *)
Definition kernel_of (w : world) (t : hist sysE) : files :=
  let paths := omap opened_path t in
  let sha := {| verity_algorithm := 1; verity_block_size := 4096; verity_salt := [] |} in
  Files (list_to_map (imap (fun i p => (p, Z.of_nat i)) paths))
        (list_to_map (imap (fun i p => (Z.of_nat i, Node (default [] (wfiles w !! p)) (Some sha))) paths))
        ∅ [].

Definition toy_verity (_ : verity) (bytes : list byte) : list byte := take 32 (toy_sha256 bytes ++ zeros 64).

Definition secure_trace : hist sysE := trace_of secure_machine cmd_boot.
Definition secure_start : files := kernel_of secure_machine secure_trace.
Definition secure_end : files := default secure_start (files_after toy_verity secure_start secure_trace).

Lemma attached_bytes_signed_witness :
  length (backing secure_end) = 2%nat /\ forall i, i ∈ backing secure_end -> vouched toy_verity secure_trace secure_end i.
Proof.
  split; [vm_compute; reflexivity|].
  assert (outcome_of secure_machine cmd_boot = Stopped Replaced) as H by (vm_compute; reflexivity).
  apply (attached_bytes_signed toy_verity secure_trace _ secure_start secure_end (toy_exec _ _ _ H)).
  - apply files_after_run. unfold secure_end.
    destruct (files_after _ _ _) as [s|] eqn:E; [reflexivity|]. vm_compute in E. discriminate E.
  - reflexivity.
  - apply not_secure_boot_off. vm_compute. reflexivity.
Defined.
