(* ===== verification/BootClock.v ===== *)
(** The deadline of the search for the data partition ([src/boot.rs],
    [find_data_device]): on a monotonic clock that advances by at least what
    the thread sleeps, the two polling loops end. *)

From S2P Require Import Prelude Prog Str PathLib Sys World Mount Boot.

(** ** The clock *)

(** The least value that the clock can have after [h]. *)
Definition tick (floor : Z) (v : event sysE) : Z :=
  match v with
  | @Ev _ A e x => match e in sysE A return A -> Z with
                   | InstantNow => fun now => now
                   | ThreadSleep ms => fun _ => floor + ms * MS
                   | _ => fun _ => floor
                   end x
  end.
Definition clock_floor (h : hist sysE) : Z := foldl tick 0 h.

(** A reading of the clock is never below the last one plus the sleeps since. *)
Definition steady_clock : protocol sysE :=
  Protocol (E := sysE) (fun _ _ _ => True)
    (fun h A (e : sysE A) => match e in sysE A return A -> Prop with
                             | InstantNow => fun now => clock_floor h <= now
                             | _ => fun _ => True
                             end).

(** Calls that do not read the clock nor sleep a negative time. *)
Definition clockless (A : Type) (e : sysE A) : Prop :=
  match e with InstantNow => False | ThreadSleep ms => 0 <= ms | _ => True end.

(** A step that returns, without reading the clock. *)
Definition prompt {A} (p : sys A) : Prop := quiet clockless p /\ total p.

Create HintDb prompt.

Section prompt.
Context `{X : Externals}.

Lemma prompt_bind {A B} (p : sys A) (f : A -> sys B) :
  prompt p -> (forall a, prompt (f a)) -> prompt (p ≫= f).
Proof.
  intros [Hq Ht] Hf. split; [apply quiet_bind|apply total_bind]; try done; intros a; apply Hf.
Qed.

Lemma prompt_try {A B Er} (p : sys (result A Er)) (f : A -> sys (result B Er)) :
  prompt p -> (forall a, prompt (f a)) -> prompt (try_bind p f).
Proof. intros Hp Hf. apply prompt_bind; [done|]. by intros [a|e]. Qed.

Lemma prompt_trigger {A} (e : sysE A) : clockless A e -> prompt (trigger e).
Proof. intros He. split; cbn; auto. Qed.

End prompt.

Ltac prompt_step :=
  match goal with
  | |- prompt (mbind _ _) => apply prompt_bind; [|intros ?]
  | |- prompt (try_bind _ _) => apply prompt_try; [|intros ?]
  | |- prompt (boxed _) => apply prompt_bind; [|intros ?]
  | |- prompt (with_err _ _) => apply prompt_bind; [|intros ?]
  | |- prompt (trigger _) => apply prompt_trigger; cbn; done
  | |- prompt (mret _) => done
  | |- prompt (Ret _) => done
  | |- prompt (match ?x with _ => _ end) => destruct x
  | |- prompt _ => solve [auto with prompt nocore]
  | |- prompt _ => progress cbv beta zeta
  end.
Ltac prompt_tac := repeat prompt_step.

Section steps.
Context `{X : Externals}.

Lemma prompt_read_exact {B} fd n (f : list byte -> sys (io B)) :
  (forall data, len data = n -> prompt (f data)) -> prompt (try_bind (read_exact fd n) f).
Proof.
  intros Hf. split; cbn.
  - split; [done|]. intros [data|e]; [|done]. cbn.
    destruct (Z.eqb_spec (len data) n); [by apply Hf|done].
  - intros [data|e]; [|done]. cbn. destruct (Z.eqb_spec (len data) n); [by apply Hf|done].
Qed.

Lemma ext4_label_total sb : len sb = 136 -> exists r, ext4_label sb = Val r.
Proof.
  intros Hl. unfold ext4_label.
  destruct (index_some sb 56) as (a&_&->); [lia|]. mcbn.
  destruct (index_some sb 57) as (b&_&->); [lia|]. mcbn.
  case_match; [by eexists|]. rewrite slice_val by lia. mcbn. by eexists.
Qed.

Lemma prompt_read_ext4_label d : prompt (read_ext4_label d).
Proof.
  unfold read_ext4_label. apply prompt_try; [prompt_tac|intros fd].
  apply prompt_try; [prompt_tac|intros _]. apply prompt_read_exact. intros sb Hl.
  destruct (ext4_label_total sb Hl) as [r ->]. done.
Qed.
Lemma prompt_is_ext4 d : prompt (is_ext4 d).
Proof.
  unfold is_ext4. apply prompt_try; [prompt_tac|intros fd].
  apply prompt_try; [prompt_tac|intros _]. by apply prompt_read_exact.
Qed.
Lemma prompt_read_to_string p : prompt (read_to_string p).
Proof. unfold read_to_string. prompt_tac. Qed.
Hint Resolve prompt_read_ext4_label prompt_is_ext4 prompt_read_to_string : prompt.

Lemma prompt_label_matches d l : prompt (label_matches d l).
Proof. unfold label_matches. prompt_tac. Qed.
Lemma prompt_uevent_matches p l : prompt (uevent_matches p l).
Proof. unfold uevent_matches. prompt_tac. Qed.
Lemma prompt_device_by_label l : prompt (device_by_filesystem_label l).
Proof. unfold device_by_filesystem_label. prompt_tac. Qed.
Hint Resolve prompt_label_matches prompt_uevent_matches prompt_device_by_label : prompt.
Lemma prompt_scan_sysfs_entries l es : prompt (scan_sysfs_entries l es).
Proof. induction es; cbn [scan_sysfs_entries]; prompt_tac. Qed.
Hint Resolve prompt_scan_sysfs_entries : prompt.
Lemma prompt_scan_sysfs l : prompt (scan_sysfs_for_label l).
Proof. unfold scan_sysfs_for_label. prompt_tac. Qed.
Hint Resolve prompt_scan_sysfs : prompt.
Lemma prompt_find_label_attempts n l : prompt (find_label_attempts n l).
Proof. induction n; cbn [find_label_attempts]; prompt_tac. Qed.
Hint Resolve prompt_find_label_attempts : prompt.
Lemma prompt_find_partition_by_label l : prompt (find_partition_by_label l).
Proof. unfold find_partition_by_label. prompt_tac. Qed.
Lemma prompt_partition_entries d es : prompt (partition_entries d es).
Proof. induction es; cbn [partition_entries]; prompt_tac. Qed.
Hint Resolve prompt_find_partition_by_label prompt_partition_entries : prompt.
Lemma prompt_list_disk_partitions d : prompt (list_disk_partitions d).
Proof. unfold list_disk_partitions. prompt_tac. Qed.
Lemma prompt_by_label_link l p : prompt (by_label_link_matches l p).
Proof. unfold by_label_link_matches. prompt_tac. Qed.
Hint Resolve prompt_list_disk_partitions prompt_by_label_link : prompt.
Lemma prompt_scan_by_label d l ps : prompt (scan_partitions_by_label d l ps).
Proof. induction ps; cbn [scan_partitions_by_label]; prompt_tac. Qed.
Hint Resolve prompt_scan_by_label : prompt.
Lemma prompt_find_on_disk d l : prompt (find_partition_on_disk_by_label d l).
Proof. unfold find_partition_on_disk_by_label. prompt_tac. Qed.
Lemma prompt_read_number p : prompt (read_number p).
Proof. unfold read_number. prompt_tac. Qed.
Hint Resolve prompt_find_on_disk prompt_read_number : prompt.
Lemma prompt_scan_by_number d n ps : prompt (scan_partitions_by_number d n ps).
Proof. induction ps; cbn [scan_partitions_by_number]; prompt_tac. Qed.
Hint Resolve prompt_scan_by_number : prompt.
Lemma prompt_find_by_number d n : prompt (find_partition_by_number d n).
Proof. unfold find_partition_by_number. prompt_tac. Qed.
Hint Resolve prompt_find_by_number : prompt.
Lemma prompt_fallback d e : prompt (fallback_partition d e).
Proof. unfold fallback_partition. prompt_tac. Qed.

End steps.

(** ** The loops *)

Section loops.
Context `{X : Externals}.
Implicit Types h : hist sysE.

Lemma clock_floor_snoc h v : clock_floor (h ++ [v]) = tick (clock_floor h) v.
Proof. unfold clock_floor. by rewrite foldl_snoc. Qed.

(** The clock does not go back during a prompt step. *)
Lemma wp_prompt {A} (p : sys A) h :
  prompt p -> wp steady_clock p h (fun h' o => clock_floor h <= clock_floor h' /\ exists a, o = Done a).
Proof.
  intros [Hq Ht]. revert h. induction p as [a|s|Y e k IH]; intros h; [cbn; split; [lia|by eexists]|done|].
  destruct Hq as [He Hq]. split; [done|]. intros x _.
  eapply wp_mono; [by apply IH|]. intros h' o [Hc Ho]. split; [|done].
  etrans; [|exact Hc]. rewrite clock_floor_snoc. destruct e; cbn in *; unfold MS; try done; lia.
Qed.

Lemma wp_search_boot_disk fuel disk label deadline h :
  deadline - clock_floor h <= Z.of_nat fuel * (500 * MS) ->
  wp steady_clock (search_boot_disk (S fuel) disk label deadline) h
    (fun h' o => clock_floor h <= clock_floor h' /\ exists r, o = Done r).
Proof.
  revert h. induction fuel as [|fuel IH]; intros h Hd.
  all: match goal with |- context [search_boot_disk (S ?n)] => set (m := n) end; cbn [search_boot_disk].
  all: apply wp_bind, wp_trigger; [done|]; intros now Hnow; cbn in Hnow.
  all: destruct (Z.leb_spec deadline now); [apply wp_ret; rewrite clock_floor_snoc; by eauto|].
  { lia. }
  apply wp_bind. eapply wp_mono; [apply wp_prompt, prompt_find_on_disk|].
  intros h2 o [Hc2 [r ->]]. rewrite clock_floor_snoc in Hc2. cbn in Hc2.
  assert (wp steady_clock (do! trigger (ThreadSleep 500) in search_boot_disk (S fuel) disk label deadline) h2
    (fun h' o => clock_floor h <= clock_floor h' /\ exists r, o = Done r)) as Hrec.
  { apply wp_bind, wp_trigger; [done|]. intros [] _.
    eapply wp_mono; [apply IH|].
    - rewrite clock_floor_snoc. cbn. unfold MS in *. lia.
    - intros h3 o [Hc3 Ho]. split; [|done]. rewrite clock_floor_snoc in Hc3. cbn in Hc3. unfold MS in *. lia. }
  destruct r as [[dev|]|e]; [|exact Hrec..]. apply wp_ret. split; [lia|by eexists].
Qed.

Lemma wp_search_label fuel label disk deadline h :
  deadline - clock_floor h <= Z.of_nat fuel * (1000 * MS) ->
  wp steady_clock (search_label (S fuel) label disk deadline) h (fun _ o => exists r, o = Done r).
Proof.
  revert h. induction fuel as [|fuel IH]; intros h Hd.
  all: match goal with |- context [search_label (S ?n)] => set (m := n) end; cbn [search_label].
  all: apply wp_bind; eapply wp_mono; [apply wp_prompt, prompt_find_partition_by_label|].
  all: intros h2 o [Hc2 [r ->]]; destruct r as [dev|e]; [by eexists|].
  all: assert (forall h, wp steady_clock (fallback_partition disk e) h (fun _ o => exists r, o = Done r)) as Hf
    by (intros h'; eapply wp_mono; [apply wp_prompt, prompt_fallback|]; by intros ?? [_ ?]).
  all: apply wp_bind, wp_trigger; [done|]; intros now Hnow; cbn in Hnow.
  all: destruct (Z.ltb_spec now deadline); [|apply Hf].
  { lia. }
  apply wp_bind, wp_trigger; [done|]. intros [] _.
  apply wp_bind, wp_trigger; [done|]. intros now2 Hnow2. cbn in Hnow2.
  rewrite !clock_floor_snoc in Hnow2. cbn in Hnow2.
  destruct (Z.leb_spec deadline now2); [apply Hf|]. apply IH.
  rewrite !clock_floor_snoc. cbn. unfold MS in *. lia.
Qed.

Lemma wp_find_data_device label disk h :
  wp steady_clock (find_data_device label disk) h (fun _ o => exists r, o = Done r).
Proof.
  apply wp_bind, wp_trigger; [done|]. intros start _.
  assert (clock_floor (h ++ [Ev InstantNow start]) = start) as Hs by by rewrite clock_floor_snoc.
  apply wp_bind.
  assert (wp steady_clock (match disk with Some d => search_boot_disk 41 d label (start + 20000 * MS)
      | None => mret None end) (h ++ [Ev InstantNow start])
    (fun h' o => start <= clock_floor h' /\ exists r, o = Done r)) as H.
  { destruct disk as [d|].
    - eapply wp_mono; [apply (wp_search_boot_disk 40); rewrite Hs; unfold MS; lia|]. by rewrite Hs.
    - apply wp_ret. rewrite Hs. split; [done|by eexists]. }
  eapply wp_mono; [exact H|]. intros h2 o [Hc [r ->]]. destruct r as [dev|]; [by eexists|].
  apply (wp_search_label 20). unfold MS. lia.
Qed.

(** C19: The search for the data partition ends: on a monotonic clock that
    advances at least by what the thread sleeps, [find_data_device] returns a
    device or an error for every state of the disks, the kernel and the label:
    neither polling loop runs beyond the 41 and 21 rounds the model allows. *)
Theorem find_data_device_terminates (label : string) (boot_disk : option string) (t : hist sysE)
    (o : outcome (io string)) :
  exec (find_data_device label boot_disk) t o -> answered steady_clock [] t -> exists r, o = Done r.
Proof. intros H Ha. by apply (wp_sound _ _ [] t o _ (wp_find_data_device label boot_disk []) H). Qed.

End loops.

(** ** Witnesses *)

(** Is the clock of a trace steady? *)
Fixpoint steadyb (floor : Z) (t : hist sysE) : bool :=
  match t with
  | [] => true
  | v :: t =>
      match v with
      | @Ev _ A e x => match e in sysE A return A -> bool with
                       | InstantNow => fun now => floor <=? now
                       | _ => fun _ => true
                       end x
      end && steadyb (tick floor v) t
  end.

Lemma steadyb_answered h t : steadyb (clock_floor h) t = true -> answered steady_clock h t.
Proof.
  revert h. induction t as [|v t IH]; intros h; [intros _; apply answered_nil|].
  cbn [steadyb]. intros H. apply andb_prop in H as [Hv Ht].
  rewrite <- clock_floor_snoc in Ht. apply answered_step; [|by apply IH].
  destruct v as [A e x]. destruct e; cbn in *; try done. lia.
Qed.

(** A machine without the partition: twenty seconds of polling. *)
Lemma find_data_device_terminates_witness :
  clock_floor (trace_of world0 (find_data_device "STATE" (Some "/dev/sda"))) = 20000 * MS /\
  exists r, outcome_of world0 (find_data_device "STATE" (Some "/dev/sda")) = Done r.
Proof.
  split; [vm_compute; reflexivity|].
  apply (find_data_device_terminates "STATE" (Some "/dev/sda")
    (trace_of world0 (find_data_device "STATE" (Some "/dev/sda")))).
  - by apply toy_exec.
  - apply (steadyb_answered []). vm_compute. reflexivity.
Defined.
