(* ===== verification/BootLive.v ===== *)
(** Liveness of the boot sequence: on a machine whose clock advances and whose
    firmware, kernel and TPM answer in their documented formats, PID 1 never
    hangs in a loop nor dies of a panic.  It becomes an init, or it exits with
    status 1 after the error was reported. *)

From S2P Require Import Prelude Prog Str PathLib Sys World Verity Efi BootOption Verify Tpm Fscrypt Cmd Mount Boot Calm BootSpec BootSteps BootMachine BootClock.

(** ** The machine that the sequence relies on *)

(** The command that a device was last sent. *)
Definition track_command (last : option (list byte)) (v : event sysE) : option (list byte) :=
  match v with @Ev _ A e x => match e with FileWriteAll _ data => Some data | _ => last end end.
Definition last_command (h : hist sysE) : option (list byte) := foldl track_command None h.

Definition is_command (code : Z) (cmd : list byte) : Prop := exists tag body, cmd = command tag code body.

(** The parameters of the successful responses, TPM 2.0 part 3. *)
Definition tpm_answer (cmd rsp : list byte) : Prop :=
  get_u32 rsp 6 = Val 0 ->
  (is_command TPM2_CC_START_AUTH_SESSION cmd -> exists tag handle rest, rsp = response tag (to_be 4 handle ++ rest)) /\
  (is_command TPM2_CC_POLICY_GET_DIGEST cmd -> exists tag d rest,
     rsp = response tag (tpm2b d ++ rest) /\ len d < U16) /\
  (is_command TPM2_CC_UNSEAL cmd -> exists tag psize d rest,
     rsp = response tag (to_be 4 psize ++ tpm2b d ++ rest) /\ len d < U16).

Definition complete_option (data : list byte) : Prop :=
  forall name payload l, strip_attributes data = Ok payload ->
    load_option_file_path_list name payload = Val (Ok l) -> complete_nodes l.

(** A file [Boot####] of the firmware. *)
Definition boot_variable (path : string) : Prop :=
  exists base n, path = base +:+ "/" +:+ ("Boot" +:+ fmt_hex true 4 n) +:+ "-" +:+ EFI_GLOBAL_GUID.

Definition good_machine : protocol sysE :=
  Protocol (E := sysE) (fun _ _ _ => True)
    (fun h A (e : sysE A) => match e in sysE A return A -> Prop with
       | InstantNow => fun now => clock_floor h <= now
       | FsRead path => fun r => forall data, r = Ok data -> boot_variable path -> complete_option data
       | IoctlMeasureVerity _ _ => fun r => forall d, r = Ok d -> 0 <= digest_size d <= 64
       | FileRead _ cap => fun r => forall data cmd, r = Ok data -> last_command h = Some cmd ->
           tpm_answer cmd (take (Z.to_nat cap) data)
       | _ => fun _ => True
       end).

(** A step that returns, on such a machine. *)
Definition ends {A} (p : sys A) : Prop := forall h, wp good_machine p h (fun _ o => exists a, o = Done a).

Create HintDb ends.

(** ** Rules *)

Lemma ends_bind {A B} (p : sys A) (f : A -> sys B) : ends p -> (forall a, ends (f a)) -> ends (p ≫= f).
Proof. intros Hp Hf h. apply wp_bind. eapply wp_mono; [apply Hp|]. intros h' o [a ->]. apply Hf. Qed.

Lemma ends_try {A B Er} (p : sys (result A Er)) (f : A -> sys (result B Er)) :
  ends p -> (forall a, ends (f a)) -> ends (try_bind p f).
Proof. intros Hp Hf. apply ends_bind; [done|]. intros [a|e] h; [apply Hf|]. by eexists. Qed.

Lemma ends_ret {A} (a : A) : ends (mret a : sys A).
Proof. intros h. by eexists. Qed.

Lemma ends_trigger {A} (e : sysE A) : ends (trigger e).
Proof. intros h. apply wp_trigger; [done|]. intros x _. by eexists. Qed.

Lemma ends_lift {A} (c : comp A) : (exists a, c = Val a) -> ends (lift c).
Proof. intros [a ->]. apply ends_ret. Qed.

(** A step of which something is known when it returns. *)
Lemma ends_bind_wp {A B} (Q : A -> Prop) (p : sys A) (f : A -> sys B) :
  (forall h, wp good_machine p h (fun _ o => exists a, o = Done a /\ Q a)) ->
  (forall a, Q a -> ends (f a)) -> ends (p ≫= f).
Proof. intros Hp Hf h. apply wp_bind. eapply wp_mono; [apply Hp|]. intros h' o (a&->&Ha). by apply Hf. Qed.

Lemma ends_exec {A} (p : sys A) : (forall t o, exec p t o -> exists a, o = Done a) -> ends p.
Proof.
  induction p as [a|s|Y e k IH]; intros H h; cbn; [by eexists|by apply (H [])|].
  split; [done|]. intros x _. apply IH. intros t o Ht. apply (H (Ev e x :: t)). by exists x, t.
Qed.

Section rules.
Context `{X : Externals}.

Lemma ends_boxed {A} (p : sys (io A)) : ends p -> ends (boxed p).
Proof. intros Hp. apply ends_bind; [done|]. intros r. apply ends_ret. Qed.

Lemma ends_with_err {A Er Er'} (f : Er -> Er') (p : sys (result A Er)) : ends p -> ends (with_err f p).
Proof. intros Hp. apply ends_bind; [done|]. intros r. apply ends_ret. Qed.

End rules.

Ltac head_of t := match t with ?f _ => head_of f | _ => t end.
Ltac ends_step :=
  match goal with
  | |- ends (mbind _ _) => apply ends_bind; [|intros ?]
  | |- ends (try_bind _ _) => apply ends_try; [|intros ?]
  | |- ends (with_err _ _) => apply ends_with_err
  | |- ends (boxed _) => apply ends_boxed
  | |- ends (trigger _) => apply ends_trigger
  | |- ends (mret _) => apply ends_ret
  | |- ends (match ?x with _ => _ end) => destruct x
  | |- ends _ => solve [auto with ends nocore]
  | |- ends _ => progress cbv beta zeta
  | |- ends ?p => let f := head_of p in progress unfold f
  end.
Ltac ends_tac := repeat ends_step.

(** ** Reading the firmware *)

Section firmware.
Context `{X : Externals}.

Lemma device_info_total data name payload :
  complete_option data -> strip_attributes data = Ok payload ->
  exists r, device_info_of_option name payload = Val r.
Proof. intros Hd Hp. apply device_info_complete. intros l Hl. by eapply Hd. Qed.

Lemma ends_read_boot_current base : ends (read_boot_current base).
Proof.
  unfold read_boot_current. apply ends_try; [ends_tac|]. intros payload.
  destruct (Z.ltb_spec (len payload) 2); [apply ends_ret|].
  destruct (read_le_bounds 2 payload 0) as (v&->&_); [lia..|]. apply ends_ret.
Qed.

Lemma ends_device_info base : ends (extract_boot_device_info base).
Proof.
  apply ends_bind; [apply ends_read_boot_current|]. intros [n|e]; [|apply ends_ret].
  apply (ends_bind_wp (fun r => forall payload, r = Ok payload -> exists data,
    complete_option data /\ strip_attributes data = Ok payload)).
  - intros h. unfold read_efi_var. apply wp_try, wp_trigger; [done|]. intros [data|e] Hd.
    + apply wp_ret. eexists. split; [done|]. intros payload Hp. exists data. split; [|done].
      apply (Hd data); [done|]. by exists base, n.
    + eexists. by split; [|intros ? [=]].
  - intros [payload|e] Hp; [|apply ends_ret]. destruct (Hp payload eq_refl) as (data&Hc&Hs).
    apply ends_lift. by eapply device_info_total.
Qed.

Lemma ends_read_db base : ends (read_db base).
Proof.
  unfold read_db. apply ends_try; [ends_tac|]. intros data. destruct (strip_attributes data) as [d|e]; [|apply ends_ret].
  apply ends_lift. apply parse_esl_go_total; [lia|unfold len; lia|lia].
Qed.

Lemma ends_measure fd : ends (measure_verity_fd fd).
Proof.
  intros h. unfold measure_verity_fd. apply wp_try, wp_trigger; [done|].
  intros [d|e] Hd; [|by eexists]. specialize (Hd d eq_refl).
  assert (len (array 64 (digest d)) = 64) as Ha.
  { unfold array, len, zeros. rewrite length_take, length_app, length_replicate. lia. }
  rewrite slice_val by lia. by eexists.
Qed.

End firmware.

#[export] Hint Resolve ends_read_boot_current ends_device_info ends_read_db ends_measure : ends.

(** ** The TPM *)

Section tpm.
Context `{X : Externals}.

Lemma last_command_write h fd data r : last_command (h ++ [Ev (FileWriteAll fd data) r]) = Some data.
Proof. unfold last_command. by rewrite foldl_snoc. Qed.

Lemma ends_da_lock_reset_raw dev : ends (da_lock_reset_raw dev).
Proof.
  unfold da_lock_reset_raw. rewrite da_lock_reset_cmd_eq. apply ends_bind; [by apply ends_lift; eexists|].
  intros cmd. ends_tac.
Qed.

Lemma wp_transact_answer n dev cmd h :
  wp good_machine (tpm_transact_go n dev cmd) h
    (fun _ o => exists r, o = Done r /\ forall rsp, r = Ok rsp -> 10 <= len rsp /\ tpm_answer cmd rsp).
Proof.
  revert h. induction n as [|n IH]; intros h; cbn [tpm_transact_go].
  all: apply wp_try, wp_boxed, wp_trigger; [done|]; intros [u|e] _; [|by eexists; split; [|intros ? [=]]].
  all: apply wp_try, wp_boxed, wp_try, wp_trigger; [done|]; intros [bs|e] Hbs;
    [|by eexists; split; [|intros ? [=]]].
  all: apply wp_ret; specialize (Hbs bs cmd eq_refl (last_command_write _ _ _ _)); cbn [map_err] in *.
  all: set (rsp := take (Z.to_nat RSP_BUF_SIZE) bs) in *; cbv zeta.
  all: destruct (Z.ltb_spec (len rsp) 10); [by eexists; split; [|intros ? [=]]|].
  all: assert (forall h', wp good_machine (mret (Ok rsp)) h' (fun _ o => exists r : result (list byte) string,
      o = Done r /\ forall rsp, r = Ok rsp -> 10 <= len rsp /\ tpm_answer cmd rsp)) as Hret
    by (intros h'; apply wp_ret; eexists; split; [done|]; by intros ? [= <-]).
  all: unfold get_u32, read_be; rewrite slice_val by lia; mcbn; cbn [lift].
  all: apply wp_bind, wp_ret; destruct (retryable _); [|apply Hret].
  { apply Hret. }
  apply wp_bind, (wp_mono _ _ _ (fun _ o => exists u, o = Done u)).
  { case_match; [apply ends_da_lock_reset_raw|by eexists]. }
  intros h' o [[] ->].
  apply wp_bind, wp_trigger; [done|]. intros [] _. apply IH.
Qed.

Lemma ends_transact_checked {A} dev name cmd bytes (f : list byte -> sys (result A string)) :
  cmd = Val bytes -> (forall rsp, get_u32 rsp 6 = Val 0 -> tpm_answer bytes rsp -> ends (f rsp)) ->
  ends (try_bind (transact_checked dev name cmd) f).
Proof.
  intros -> Hf h. apply wp_try. unfold transact_checked, tpm_transact. cbn [lift]. apply wp_bind, wp_ret, wp_try.
  eapply wp_mono; [apply wp_transact_answer|]. intros h' o ([rsp|e]&->&Hr); [|by eexists].
  destruct (Hr rsp eq_refl) as [Hl Ha]. unfold check_response, get_u32, read_be.
  apply wp_try. rewrite slice_val by lia. mcbn. cbn [lift]. apply wp_ret.
  destruct (Z.eqb_spec (be_of (sub rsp 6 (6 + Z.of_nat 4))) 0) as [E|E]; cbn [negb]; [|by eexists].
  apply Hf; [|done]. unfold get_u32, read_be. rewrite slice_val by lia. mcbn. by rewrite E.
Qed.

Lemma ends_ignore_response dev name cmd bytes :
  cmd = Val bytes -> ends (ignore_response (transact_checked dev name cmd)).
Proof. intros Hc. eapply ends_transact_checked; [done|]. intros rsp _ _. apply ends_ret. Qed.

Lemma ends_parse_response {A} (parse : list byte -> comp A) dev name cmd bytes :
  cmd = Val bytes ->
  (forall rsp, get_u32 rsp 6 = Val 0 -> tpm_answer bytes rsp -> exists a, parse rsp = Val a) ->
  ends (parse_response parse (transact_checked dev name cmd)).
Proof.
  intros Hc Hp. eapply ends_transact_checked; [done|]. intros rsp H0 Ha.
  apply ends_bind; [by apply ends_lift, Hp|]. intros a. apply ends_ret.
Qed.

Lemma command_is tag code body : is_command code (command tag code body).
Proof. by exists tag, body. Qed.
Hint Resolve command_is : ends.

Lemma ends_start_policy_session dev : ends (start_policy_session dev).
Proof.
  eapply ends_parse_response; [apply start_auth_session_cmd_eq|]. intros rsp H0 Ha.
  destruct (proj1 (Ha H0) (command_is _ _ _)) as (tag&handle&rest&->).
  unfold response_handle, get_u32, read_be. rewrite slice_val; [mcbn; by eexists|lia|].
  rewrite len_response. autorewrite with len. pose proof (len_nonneg rest). lia.
Qed.

Lemma ends_policy_pcr dev session : ends (policy_pcr dev session).
Proof. eapply ends_ignore_response, policy_pcr_cmd_eq. Qed.

Lemma ends_policy_get_digest dev session : ends (policy_get_digest dev session).
Proof.
  eapply ends_parse_response; [apply handle_cmd_eq|]. intros rsp H0 Ha.
  destruct (proj1 (proj2 (Ha H0)) (command_is _ _ _)) as (tag&d&rest&->&Hd). exists d.
  apply (tpm2b_at_encode _ (to_be 2 tag ++ to_be 4 (10 + len (tpm2b d ++ rest)) ++ to_be 4 0) d rest);
    [unfold response; app_eq|len_tac|done].
Qed.

Lemma ends_unseal dev item session : ends (unseal dev item session).
Proof.
  eapply ends_parse_response; [apply unseal_cmd_eq|]. intros rsp H0 Ha.
  destruct (proj2 (proj2 (Ha H0)) (command_is _ _ _)) as (tag&psize&d&rest&->&Hd). exists d.
  apply (tpm2b_at_encode _ (to_be 2 tag ++ to_be 4 (10 + len (to_be 4 psize ++ tpm2b d ++ rest)) ++ to_be 4 0 ++
    to_be 4 psize) d rest); [unfold response; app_eq|len_tac|done].
Qed.

Lemma ends_pcr_extend dev pcr : ends (pcr_extend dev pcr).
Proof.
  unfold pcr_extend. apply ends_try; [ends_tac|]. intros fd.
  intros h. apply wp_try, wp_boxed, wp_try, wp_trigger; [done|]. intros [data|e] _; [|by eexists].
  unfold SHA256_DIGEST_SIZE. destruct (Z.eqb_spec (len data) 32); [|by eexists].
  apply wp_ret. by eapply ends_ignore_response, pcr_extend_cmd_eq.
Qed.

End tpm.

#[export] Hint Resolve ends_start_policy_session ends_policy_pcr ends_policy_get_digest ends_unseal
  ends_pcr_extend : ends.

(** ** The other steps *)

Section steps.
Context `{X : Externals} `{AG : Age}.

Lemma ends_try_certs img d certs : ends (try_certs img d certs).
Proof. induction certs; cbn [try_certs]; ends_tac. Qed.
Hint Resolve ends_try_certs : ends.
Lemma ends_verify_image_trusted img key v : ends (verify_image_trusted img key v).
Proof. ends_tac. Qed.
Hint Resolve ends_verify_image_trusted : ends.

Lemma ends_add_fscrypt_key dir raw : ends (add_fscrypt_key dir raw).
Proof. apply ends_exec. intros t o H. apply add_fscrypt_key_exec in H as (_&r&->&_). by eexists. Qed.
Hint Resolve ends_add_fscrypt_key : ends.
Lemma ends_password_attempts n c_dir c_age : ends (password_attempts n c_dir c_age).
Proof. induction n; cbn [password_attempts]; ends_tac. Qed.
Hint Resolve ends_password_attempts : ends.
Lemma ends_unlock_state_c sm v : ends (unlock_state_c sm v).
Proof. ends_tac. Qed.

Lemma ends_first_existing ps : ends (first_existing ps).
Proof. induction ps; cbn [first_existing]; ends_tac. Qed.
(** The path of a slot has a file name, which [signature_exists] unwraps. *)
Lemma ends_check_partitioned p i v : ends (check_partitioned_image p i v).
Proof.
  unfold check_partitioned_image, partitioned_image_path. destruct (parent p) as [d|]; [|apply ends_ret].
  destruct (file_name p) as [n|] eqn:E; [|apply ends_ret]. apply file_name_inv in E as [Hn Hd].
  apply ends_bind; [|intros ?; ends_tac]. unfold signature_exists. rewrite file_name_join by done. ends_tac.
Qed.
Hint Resolve ends_first_existing ends_check_partitioned : ends.
Lemma ends_first_partitioned i v cs : ends (first_partitioned i v cs).
Proof. induction cs; cbn [first_partitioned]; ends_tac. Qed.
Lemma ends_resolve_components a b cs : ends (resolve_components a b cs).
Proof. revert b; induction cs as [|[]]; intros b; cbn [resolve_components]; ends_tac. Qed.
Lemma ends_first_file r cs : ends (first_file r cs).
Proof. induction cs; cbn [first_file]; ends_tac. Qed.
Lemma ends_mount_initial l : ends (mount_initial l).
Proof. induction l as [|[]]; cbn [mount_initial]; ends_tac. Qed.
Lemma ends_search_disks d es : ends (search_disks d es).
Proof. induction es as [|[]]; cbn [search_disks]; ends_tac. Qed.
Hint Resolve ends_first_partitioned ends_resolve_components ends_first_file ends_mount_initial
  ends_search_disks : ends.
Lemma ends_boot_disk_entries g n ms es : ends (boot_disk_entries g n ms es).
Proof. revert ms; induction es as [|[]]; intros ms; cbn [boot_disk_entries]; ends_tac. Qed.
Hint Resolve ends_boot_disk_entries : ends.
Lemma ends_boot_partition_of info : ends (boot_partition_of info).
Proof. ends_tac. Qed.

Lemma ends_mount_loop a b : ends (mount_loop a b).
Proof. ends_tac. Qed.
Hint Resolve ends_mount_loop : ends.
Lemma ends_mount_rootfs a b c v s : ends (mount_rootfs a b c v s).
Proof. ends_tac. Qed.
Lemma ends_mount_host_images a b v s : ends (mount_host_images a b v s).
Proof. ends_tac. Qed.
Lemma ends_bind_encrypted a b : ends (bind_encrypted_state_paths a b).
Proof. ends_tac. Qed.
Lemma ends_mount_system a : ends (mount_system_filesystems a).
Proof. ends_tac. Qed.
Lemma ends_select_init a b : ends (select_init a b).
Proof. ends_tac. Qed.
Lemma ends_detect_strict : ends detect_verified_boot_strict.
Proof. ends_tac. Qed.
Lemma ends_kernel_release : ends kernel_release.
Proof. ends_tac. Qed.

(** The search for the data partition, whose clock is the same. *)
Lemma ends_find_data_device label disk : ends (find_data_device label disk).
Proof.
  intros h. eapply wp_assume, wp_find_data_device; [done|]. intros h' A e x. destruct e; cbn; auto.
Qed.

End steps.

#[export] Hint Resolve ends_unlock_state_c ends_boot_partition_of ends_mount_rootfs ends_mount_host_images
  ends_bind_encrypted ends_mount_system ends_select_init ends_detect_strict ends_kernel_release
  ends_mount_initial ends_find_data_device : ends.

(** ** The whole sequence *)

Section whole.
Context `{X : Externals} `{AG : Age}.

(** The search answered a device whose name is not UTF-8, which the source
    unwraps. *)
Definition unnamed_device (h : hist sysE) : Prop :=
  exists label disk h1 t device, h = h1 ++ t /\
    exec (find_data_device label disk) t (Done (Ok device)) /\ to_str device = None.

Definition settled (h : hist sysE) (s : halt) : Prop :=
  s = Replaced \/ s = Exit 1 \/ s = Panic /\ unnamed_device h.

Definition settles {A} (p : sys A) : Prop :=
  forall h, wp good_machine p h (fun h' o => match o with Done _ => True | Stopped s => settled h' s end).

Lemma settles_ends {A} (p : sys A) : ends p -> settles p.
Proof. intros Hp h. eapply wp_mono; [apply Hp|]. by intros h' o [a ->]. Qed.

Lemma settles_bind {A B} (p : sys A) (f : A -> sys B) :
  settles p -> (forall a, settles (f a)) -> settles (p ≫= f).
Proof. intros Hp Hf h. apply wp_bind. eapply wp_mono; [apply Hp|]. intros h' [a|s] Ho; [apply Hf|done]. Qed.

Lemma settles_try {A B Er} (p : sys (result A Er)) (f : A -> sys (result B Er)) :
  settles p -> (forall a, settles (f a)) -> settles (try_bind p f).
Proof. intros Hp Hf. apply settles_bind; [done|]. by intros [a|e]. Qed.

Lemma settles_boxed {A} (p : sys (io A)) : settles p -> settles (boxed p).
Proof. intros Hp. by apply settles_bind. Qed.

Lemma settles_halt {A} s : (forall h, settled h s) -> settles (Halt s : sys A).
Proof. intros Hs h. apply Hs. Qed.

Ltac settles_step :=
  match goal with
  | |- settles (Halt _) => apply settles_halt; intros ?; unfold settled; by auto
  | |- settles _ => solve [apply settles_ends; ends_tac]
  | |- settles (mbind _ _) => apply settles_bind; [|intros ?]
  | |- settles (try_bind _ _) => apply settles_try; [|intros ?]
  | |- settles (boxed _) => apply settles_boxed
  | |- settles (match ?x with _ => _ end) => destruct x
  | |- settles _ => progress cbv beta zeta
  end.
Ltac settles_tac := repeat settles_step.

Lemma settles_switch_root a b c : settles (switch_root_with_args a b c).
Proof. unfold switch_root_with_args. settles_tac. Qed.

(** The step that unwraps the name of the device. *)
Lemma settles_device {A} label disk (f : string -> sys (result A string)) :
  (forall d, settles (f d)) ->
  settles (let? dev := boxed (find_data_device label disk) in
           match to_str dev with None => Halt Panic | Some d => f d end).
Proof.
  intros Hf h. apply wp_try, wp_boxed. eapply wp_mono; [apply wp_trace, ends_find_data_device|].
  intros h' o ([[dev|e] ->]&t&->&Ht); [|done]. cbn [map_err].
  destruct (to_str dev) as [d|] eqn:E; [apply Hf|]. right. right. split; [done|].
  by exists label, disk, h, t, dev.
Qed.

Lemma settles_boot_verified img data v : settles (boot_verified img data v).
Proof.
  unfold boot_verified. do 2 (apply settles_bind; [settles_tac|intros ?]).
  apply settles_bind; [settles_tac|]. intros [disk part].
  do 2 (apply settles_bind; [settles_tac|intros ?]). apply settles_device. intros dev.
  repeat (apply settles_try; [settles_tac|intros ?]). apply settles_boxed, settles_switch_root.
Qed.

Lemma settles_cmd_boot : settles cmd_boot.
Proof.
  unfold cmd_boot. apply settles_bind.
  - unfold boot_run. do 5 (apply settles_bind; [settles_tac|intros ?]).
    apply settles_bind; [settles_tac|]. intros [v|e]; [|settles_tac].
    apply settles_bind; [apply settles_boot_verified|intros ?; settles_tac].
  - intros [m r]. settles_tac.
Qed.

(** C7: Every boot comes to an end: when the clock advances and the firmware,
    the kernel and the TPM answer in their documented formats, [cmd_boot]
    neither runs a loop out of its bound nor panics.  For every content of the
    disks, every failure of a system call and every user at the prompt, PID 1
    is replaced by an init or exits with status 1, except when the data
    partition that was found has a name that is not UTF-8. *)
Theorem boot_always_settles (t : hist sysE) (o : outcome (result unit string)) :
  exec cmd_boot t o -> answered good_machine [] t -> exists s, o = Stopped s /\ settled t s.
Proof.
  intros H Ha. destruct (cmd_boot_run t o H) as (p&s&_&_&->). exists s. split; [done|].
  exact (proj2 (wp_sound _ _ [] t _ _ (settles_cmd_boot []) H Ha)).
Qed.

End whole.

(** ** Witness *)

Definition complete_optionb (data : list byte) : bool :=
  match strip_attributes data with
  | Ok payload => match load_option_file_path_list "" payload with
                  | Val (Ok l) => nodes_completeb (S (length l)) l 0
                  | _ => true end
  | Err _ => true
  end.

Lemma complete_optionb_spec data : complete_optionb data = true -> complete_option data.
Proof.
  unfold complete_optionb. intros H name payload l Hp Hl. rewrite Hp in H.
  rewrite (load_option_name _ "" _ _ Hl) in H. by eapply nodes_completeb_spec.
Qed.

(** The answers of a trace, those of the TPM apart. *)
Definition good_eventb (floor : Z) (v : event sysE) : bool :=
  match v with
  | @Ev _ A e x => match e in sysE A return A -> bool with
      | InstantNow => fun now => floor <=? now
      | FsRead _ => fun r => match r with Ok data => complete_optionb data | Err _ => true end
      | IoctlMeasureVerity _ _ => fun r => match r with Ok d => (0 <=? digest_size d) && (digest_size d <=? 64)
                                           | Err _ => true end
      | _ => fun _ => true
      end x
  end.

Definition tpm_reply (last : option (list byte)) (v : event sysE) : list (list byte * list byte) :=
  match v with
  | @Ev _ A e x => match e in sysE A return A -> list (list byte * list byte) with
      | FileRead _ cap => fun r => match r, last with
                                   | Ok data, Some cmd => [(cmd, take (Z.to_nat cap) data)]
                                   | _, _ => [] end
      | _ => fun _ => []
      end x
  end.

Fixpoint good_traceb (floor : Z) (t : hist sysE) : bool :=
  match t with [] => true | v :: t => good_eventb floor v && good_traceb (tick floor v) t end.
Fixpoint tpm_replies (last : option (list byte)) (t : hist sysE) : list (list byte * list byte) :=
  match t with [] => [] | v :: t => tpm_reply last v ++ tpm_replies (track_command last v) t end.

Lemma good_trace_answered h t :
  good_traceb (clock_floor h) t = true ->
  Forall (fun x => tpm_answer x.1 x.2) (tpm_replies (last_command h) t) -> answered good_machine h t.
Proof.
  revert h. induction t as [|v t IH]; intros h; [intros; apply answered_nil|].
  cbn [good_traceb tpm_replies]. intros H Hx. apply andb_prop in H as [Hv Ht]. apply Forall_app in Hx as [Hx Hxs].
  rewrite <- clock_floor_snoc in Ht. unfold last_command in Hx, Hxs.
  apply answered_step; [|apply IH; [done|unfold last_command; by rewrite foldl_snoc]].
  destruct v as [A e x]. destruct e; cbn in *; try done.
  - bool_prop. lia.
  - intros data -> _. by apply complete_optionb_spec.
  - intros data cmd -> E. unfold last_command in E. rewrite E in Hx. by inversion Hx.
  - intros d ->. bool_prop. lia.
Qed.

(** A machine with Secure Boot, an encrypted state and a TPM that unseals its
    key. *)
Definition tpm_machine : world :=
  set_dev (toy_machine (toy_image_files "/z/initos/1/initos.erofs"
    (toy_image_files "/z/img/1/firmware-light.composefs"
    (<["/sysroot/sbin/init" := []]> (efi_files x01 sysfs_files))))
    ["/z/img/composefs/objects"; "/z/c"])
    (wdev (sealing_tpm (as_bytes "secc:k"))).
Definition tpm_run : hist sysE * outcome (result unit string) * world := run unlocking_os cmd_boot tpm_machine.

Lemma is_command_code code cmd : is_command code cmd -> 0 <= code < U32 -> get_u32 cmd 6 = Val code.
Proof.
  intros (tag&body&->) Hc. apply (get_u32_at _ (to_be 2 tag ++ to_be 4 (10 + len body)) code body);
    [unfold command; app_eq|len_tac|done].
Qed.

(** The three answers, by the code of the command. *)
Lemma tpm_answer_intro code cmd rsp :
  get_u32 cmd 6 = Val code ->
  (code = TPM2_CC_START_AUTH_SESSION -> exists tag handle rest, rsp = response tag (to_be 4 handle ++ rest)) ->
  (code = TPM2_CC_POLICY_GET_DIGEST -> exists tag d rest, rsp = response tag (tpm2b d ++ rest) /\ len d < U16) ->
  (code = TPM2_CC_UNSEAL -> exists tag psize d rest,
     rsp = response tag (to_be 4 psize ++ tpm2b d ++ rest) /\ len d < U16) ->
  tpm_answer cmd rsp.
Proof.
  intros Hc H1 H2 H3 _. split_and!; intros H;
    apply is_command_code in H; [|vm_compute; intuition discriminate| |vm_compute; intuition discriminate|
      |vm_compute; intuition discriminate]; rewrite Hc in H; injection H as ->; auto.
Qed.

Lemma boot_always_settles_witness :
  tpm_run.1.2 = Stopped Replaced /\
  last tpm_run.1.1 = Some (Ev (LibcExecve "/sbin/init" ["/sbin/init"]
    ["INITOS_BOOT_DISK=/dev/sda"; "INITOS_BOOT_PARTITION=/dev/sda1"]) None) /\
  exists s, tpm_run.1.2 = Stopped s /\ settled tpm_run.1.1 s.
Proof.
  assert (tpm_run.1.2 = Stopped Replaced) as Ho by (vm_compute; reflexivity).
  split; [exact Ho|]. split; [vm_compute; reflexivity|].
  apply boot_always_settles.
  - exact (run_is_exec unlocking_os cmd_boot tpm_machine).
  - apply (good_trace_answered []); [vm_compute; reflexivity|]. vm_compute tpm_replies.
    repeat apply Forall_cons_2; [..|apply Forall_nil_2].
    all: eapply tpm_answer_intro; [vm_compute; reflexivity|..]; intros E; try discriminate E; clear E.
    + exists TPM_ST_NO_SESSIONS, 0x03000000, []. vm_compute. reflexivity.
    + exists TPM_ST_NO_SESSIONS, (zeros 32), []. split; vm_compute; reflexivity.
    + exists TPM_ST_SESSIONS, 2, (as_bytes "secc:k"), (zeros 5). split; vm_compute; reflexivity.
Defined.
