(* ===== verification/Main.v ===== *)
(** The [initos] command ([src/main.rs]): argument parsing, the seal modes, the
    source of secrets, the TPM, fscrypt, verification and EFI subcommands, and
    the dispatch of [main]. *)

From S2P Require Import Prelude Prog Str PathLib Sys World Verity Efi Verify Tpm Fscrypt Cmd Mount Boot BootSpec BootSteps.

(** ** Seal modes *)

Inductive SealMode : Type := Dev | Secure.

Definition is_secure (m : SealMode) : bool := match m with Secure => true | Dev => false end.

Definition persistent_handle (m : SealMode) : Z :=
  match m with
  | Dev => DEFAULT_SEALED_HANDLE_DEV
  | Secure => DEFAULT_SEALED_HANDLE_SECURE
  end.

Definition prefix (m : SealMode) : list byte :=
  match m with Dev => as_bytes "devc:" | Secure => as_bytes "secc:" end.

Definition name (m : SealMode) : string := match m with Dev => "dev" | Secure => "secure" end.

(** ** Arguments *)

Definition strip_0x (s : string) : option string :=
  match strip_prefix "0x" s with Some h => Some h | None => strip_prefix "0X" s end.

Definition parse_tpm_handle (value : string) : result Z string :=
  let trimmed := trim value in
  if is_empty trimmed then Err "TPM handle is empty"
  else
    let hex := match strip_0x trimmed with Some h => h | None => trimmed end in
    if negb (forallb is_ascii_hexdigit (chars hex)) then
      Err ("bad TPM handle '" +:+ value +:+ "': expected hex")
    else
      match from_str_radix 16 hex with
      | Err e => Err ("bad TPM handle '" +:+ value +:+ "': " +:+ int_error_msg e)
      | Ok parsed =>
          let handle := if negb (starts_with "0x" trimmed) && negb (starts_with "0X" trimmed)
                           && (slen hex <=? 4)
                        then Z.lor 0x81000000 parsed else parsed in
          if negb ((0x81000000 <=? handle) && (handle <=? 0x81FFFFFF)) then
            Err ("bad TPM handle 0x" +:+ fmt_hex true 8 handle +:+
                 ": expected persistent handle 0x81000000..0x81FFFFFF")
          else Ok handle
      end.

(** The options seen so far. *)
Record SealArgs : Type := {
  arg_mode : option SealMode;
  arg_handle : option Z;
  arg_secret_file : option string;
}.
Definition no_seal_args : SealArgs :=
  {| arg_mode := None; arg_handle := None; arg_secret_file := None |}.
Definition set_mode (m : SealMode) (a : SealArgs) : SealArgs :=
  {| arg_mode := Some m; arg_handle := arg_handle a; arg_secret_file := arg_secret_file a |}.
Definition set_handle (h : Z) (a : SealArgs) : SealArgs :=
  {| arg_mode := arg_mode a; arg_handle := Some h; arg_secret_file := arg_secret_file a |}.
Definition set_secret_file (f : string) (a : SealArgs) : SealArgs :=
  {| arg_mode := arg_mode a; arg_handle := arg_handle a; arg_secret_file := Some f |}.

Fixpoint unseal_options (a : SealArgs) (args : list string) : result SealArgs string :=
  match args with
  | [] => Ok a
  | arg :: rest =>
      if (arg =? "--secure")%string then unseal_options (set_mode Secure a) rest
      else if (arg =? "--dev")%string then unseal_options (set_mode Dev a) rest
      else if (arg =? "--handle")%string then
        match rest with
        | [] => Err "--handle requires a value"
        | value :: rest =>
            match parse_tpm_handle value with
            | Err e => Err e
            | Ok handle => unseal_options (set_handle handle a) rest
            end
        end
      else Err ("unexpected unseal argument: " +:+ arg)
  end.

Fixpoint seal_options (a : SealArgs) (args : list string) : result SealArgs string :=
  match args with
  | [] => Ok a
  | arg :: rest =>
      if (arg =? "--secure")%string then seal_options (set_mode Secure a) rest
      else if (arg =? "--dev")%string then seal_options (set_mode Dev a) rest
      else if (arg =? "--handle")%string then
        match rest with
        | [] => Err "--handle requires a value"
        | value :: rest =>
            match parse_tpm_handle value with
            | Err e => Err e
            | Ok handle => seal_options (set_handle handle a) rest
            end
        end
      else if (arg =? "--secret-file")%string then
        match rest with
        | [] => Err "--secret-file requires a value"
        | value :: rest => seal_options (set_secret_file value a) rest
        end
      else if starts_with "--" arg then Err ("unexpected seal argument: " +:+ arg)
      else Err ("seal no longer accepts SECRET as a positional argument (visible in /proc/cmdline and shell history); use --secret-file PATH, INITOS_SECRET env, or stdin: got '"
                +:+ arg +:+ "'")
  end.

(** The public key and the secret file of [recovery-encrypt]. *)
Fixpoint recovery_options (pub_key secret_file : option string) (args : list string)
    : result (option string * option string) string :=
  match args with
  | [] => Ok (pub_key, secret_file)
  | arg :: rest =>
      if (arg =? "--secret-file")%string then
        match rest with
        | [] => Err "--secret-file requires a value"
        | value :: rest => recovery_options pub_key (Some value) rest
        end
      else if starts_with "--" arg then Err ("unexpected recovery-encrypt argument: " +:+ arg)
      else match pub_key with
           | Some _ => Err "recovery-encrypt accepts at most one PUB_KEY_B64 argument"
           | None => recovery_options (Some arg) secret_file rest
           end
  end.

Section Main.
Context `{X : Externals} `{AG : Age} `{RC : Recovery}.

Definition detect_seal_mode : sys SealMode :=
  let! base_path := env_or "INITOS_EFI_PATH" "/sys/firmware/efi/efivars" in
  let! r := read_secure_boot base_path in
  mret (match r with
        | Ok value => if negb (value =? 0) then Secure else Dev
        | Err _ => Dev
        end).

(** [mode.unwrap_or_else(detect_seal_mode)] *)
Definition mode_or_detect (mode : option SealMode) : sys SealMode :=
  match mode with Some m => mret m | None => detect_seal_mode end.

Definition parse_unseal_args (args : list string) : sys (result (SealMode * option Z) string) :=
  let? a := mret (unseal_options no_seal_args args) in
  let! mode := mode_or_detect (arg_mode a) in
  mret (Ok (mode, arg_handle a)).

Definition parse_seal_args (args : list string)
    : sys (result (SealMode * option Z * option string) string) :=
  let? a := mret (seal_options no_seal_args args) in
  let! mode := mode_or_detect (arg_mode a) in
  mret (Ok (mode, arg_handle a, arg_secret_file a)).

Definition parse_recovery_encrypt_args (args : list string)
    : sys (result (string * option string) string) :=
  let? ' (pub_key, secret_file) := mret (recovery_options None None args) in
  match pub_key with
  | Some k => mret (Ok (k, secret_file))
  | None =>
      let! v := env_var "INITOS_PUB_KEY" in
      match v with
      | Some k => mret (Ok (k, secret_file))
      | None => Halt (Exit 1)
      end
  end.

(** ** Secrets *)

(** [io::stdin().read_to_string(&mut buf)?], trimmed at the end. *)
Definition read_stdin_string : sys (result string string) :=
  let? data := boxed (trigger StdinReadToEnd) in
  match from_utf8 data with
  | Some s => mret (Ok (trim_end s))
  | None => mret (Err "stream did not contain valid UTF-8")
  end.

Definition read_secret_input (secret_file : option string) : sys (result string string) :=
  match secret_file with
  | Some path =>
      if (path =? "-")%string then read_stdin_string
      else
        let? s := boxed (read_to_string path) in
        mret (Ok (trim_end s))
  | None =>
      let! v := env_var "INITOS_SECRET" in
      match v with
      | Some secret => if is_empty secret then read_stdin_string else mret (Ok secret)
      | None => read_stdin_string
      end
  end.

(** ** Subcommands *)

Definition cmd_lock_tpm : sys (result unit string) :=
  let? dev := open_tpm in
  let? _ := pcr_extend dev 7 in
  mret (Ok tt).

Definition cmd_unseal (mode : SealMode) (handle : option Z) : sys (result unit string) :=
  let? secret := (match handle with
                  | Some handle => unseal_key_from_handle handle (prefix mode) (name mode)
                  | None => unseal_key (is_secure mode)
                  end) in
  let? _ := boxed (trigger (StdoutWriteAll secret)) in
  mret (Ok tt).

Definition cmd_fscrypt (mountpoint : string) : sys (result unit string) :=
  let? key := get_fscrypt_key in
  let? _ := add_key mountpoint key in
  mret (Ok tt).

Definition cmd_fscrypt_setup (dir : string) : sys (result unit string) :=
  let? key := get_fscrypt_key in
  let? identifier := add_key dir key in
  let? _ := set_policy dir identifier in
  mret (Ok tt).

Definition cmd_primary : sys (result unit string) :=
  let? dev := open_tpm in
  let? transient := create_primary dev in
  let persistent := DEFAULT_PRIMARY_HANDLE in
  do! try_evict_persistent dev persistent in
  let? _ := evict_control dev transient persistent in
  mret (Ok tt).

Definition cmd_seal (secret : string) (mode : SealMode) (handle : option Z)
    : sys (result unit string) :=
  let primary := DEFAULT_PRIMARY_HANDLE in
  let? dev := open_tpm in
  let? policy := start_policy_session dev in
  let? _ := policy_pcr dev policy in
  let? digest := policy_get_digest dev policy in
  let? _ := flush_context dev policy in
  let sealed_secret := prefix mode ++ as_bytes secret in
  let? ' (priv_area, pub_area) := create dev primary sealed_secret digest in
  let? loaded := load dev primary priv_area pub_area in
  let persistent := match handle with Some h => h | None => persistent_handle mode end in
  do! try_evict_persistent dev persistent in
  let? _ := evict_control dev loaded persistent in
  mret (Ok tt).

Definition cmd_verify (img : string) : sys (result unit string) :=
  let! pub_key := env_or "INITOS_PUB_KEY" "" in
  let? _ := verify_image_trusted img pub_key true in
  mret (Ok tt).

(** [print!] panics when standard output cannot be written. *)
Definition cmd_efi : sys (result unit string) :=
  let! base_path := env_or "INITOS_EFI_PATH" "/sys/firmware/efi/efivars" in
  let? info := boxed (read_efi_info base_path) in
  let! r := trigger (StdoutWriteAll (as_bytes info)) in
  match r with Ok _ => mret (Ok tt) | Err _ => Halt Panic end.

(** ** [main] *)

(** A secret that is not empty, or exit. *)
Definition with_secret (secret_file : option string) (k : string -> sys (result unit string))
    : sys (result unit string) :=
  let! r := read_secret_input secret_file in
  match r with
  | Ok secret => if is_empty secret then Halt (Exit 1) else k secret
  | Err _ => Halt (Exit 1)
  end.

(** The subcommand [cmd] with what follows it. *)
Definition run_command (cmd : string) (rest : list string) : sys (result unit string) :=
  if (cmd =? "unseal")%string then
    let! r := parse_unseal_args rest in
    match r with
    | Ok (mode, handle) => cmd_unseal mode handle
    | Err _ => Halt (Exit 1)
    end
  else if (cmd =? "lock_tpm")%string then cmd_lock_tpm
  else if (cmd =? "primary")%string then cmd_primary
  else if (cmd =? "seal")%string then
    let! r := parse_seal_args rest in
    match r with
    | Ok (mode, handle, secret_file) =>
        with_secret secret_file (fun secret => cmd_seal secret mode handle)
    | Err _ => Halt (Exit 1)
    end
  else if (cmd =? "fscrypt")%string then
    match rest with mountpoint :: _ => cmd_fscrypt mountpoint | [] => Halt (Exit 1) end
  else if (cmd =? "fscrypt-setup")%string then
    match rest with dir :: _ => cmd_fscrypt_setup dir | [] => Halt (Exit 1) end
  else if (cmd =? "boot")%string then cmd_boot
  else if (cmd =? "verify")%string then
    match rest with img :: _ => cmd_verify img | [] => Halt (Exit 1) end
  else if (cmd =? "efi")%string then cmd_efi
  else if (cmd =? "encrypt")%string then cmd_encrypt
  else if (cmd =? "decrypt")%string then cmd_decrypt
  else if (cmd =? "recovery-encrypt")%string then
    let! r := parse_recovery_encrypt_args rest in
    match r with
    | Ok (pub_key, secret_file) =>
        with_secret secret_file (fun secret => cmd_recovery_encrypt secret pub_key)
    | Err _ => Halt (Exit 1)
    end
  else if (cmd =? "help")%string || (cmd =? "--help")%string || (cmd =? "-h")%string then mret (Ok tt)
  else Halt (Exit 1).

(** [std::env::args] panics on an argument that is not UTF-8. *)
Definition main : sys unit :=
  let! args := trigger ProcArgs in
  if negb (forallb (fun a => utf8_valid (as_bytes a)) args) then Halt Panic
  else
    let! result := (match args with
                    | _ :: cmd :: rest => run_command cmd rest
                    | _ =>
                        let! pid := trigger ProcessId in
                        if (pid : Z) =? 1 then cmd_boot
                        else
                          let! mode := detect_seal_mode in
                          cmd_unseal mode None
                    end) in
    match result with
    | Ok _ => mret tt
    | Err _ => Halt (Exit 1)
    end.

End Main.

(** ** Lemmas *)

Lemma no_ws_hexdigit c : is_ascii_hexdigit c = true -> no_ws c.
Proof. unfold is_ascii_hexdigit, is_ascii_digit, no_ws. intros H. bool_prop. lia. Qed.

Lemma hex_string_digits up n v :
  Forall (fun c => is_ascii_hexdigit c = true) (chars (of_chars (hex_fixed up n v))).
Proof. rewrite chars_of_chars. apply hex_fixed_hexdigit. Qed.

Lemma slen_of_chars l : slen (of_chars l) = Z.of_nat (length l).
Proof.
  unfold slen. f_equal. induction l as [|c l IH]; [done|].
  change (S (String.length (of_chars l)) = S (length l)). by rewrite IH.
Qed.

(** Text of hexadecimal digits only has no prefix [0x]. *)
Lemma strip_0x_digits s :
  Forall (fun c => is_ascii_hexdigit c = true) (chars s) ->
  strip_prefix "0x" s = None /\ strip_prefix "0X" s = None.
Proof.
  intros H. destruct s as [|a [|b s]]; [done|cbn [strip_prefix]; by repeat case_match|].
  inversion H as [|?? _ H1]. inversion H1 as [|?? Hb _]. subst. cbn [strip_prefix].
  split; case_match; try done; case_match eqn:E; try done; apply Ascii.eqb_eq in E; subst b; discriminate Hb.
Qed.

Lemma from_str_radix_digits s v :
  s <> "" -> Forall (fun c => is_ascii_hexdigit c = true) (chars s) ->
  digits_value 16 U32 0 s = Ok v -> from_str_radix 16 s = Ok v.
Proof.
  intros Hn Hs Hv. unfold from_str_radix. destruct s as [|c s]; [done|].
  inversion Hs as [|?? Hc _]. subst. destruct (Ascii.eqb_spec c "+"%char) as [->|]; [discriminate Hc|done].
Qed.

Lemma forallb_digits s :
  Forall (fun c => is_ascii_hexdigit c = true) (chars s) -> forallb is_ascii_hexdigit (chars s) = true.
Proof. induction 1 as [|c l Hc _ IH]; [done|]. cbn. by rewrite Hc. Qed.

Lemma lor_low_bits a n b : 0 <= n -> 0 <= b < 2 ^ n -> Z.lor (a * 2 ^ n) b = a * 2 ^ n + b.
Proof.
  intros Hn Hb. assert (Z.land (a * 2 ^ n) b = 0) as Hl; [|rewrite <- Z.add_lor_land, Hl; lia].
  apply Z.bits_inj'. intros k Hk. rewrite Z.land_spec, Z.bits_0. destruct (Z.lt_ge_cases k n).
  - rewrite Z.mul_pow2_bits_low by lia. done.
  - destruct (decide (b = 0)) as [->|]; [by rewrite Z.bits_0, andb_false_r|].
    rewrite (Z.bits_above_log2 b), andb_false_r; [done|lia|]. apply Z.log2_lt_pow2; [lia|].
    eapply Z.lt_le_trans; [apply Hb|]. apply Z.pow_le_mono_r; lia.
Qed.

Definition persistent_range (h : Z) : Prop := 0x81000000 <= h <= 0x81FFFFFF.

Lemma parse_tpm_handle_ok value h : parse_tpm_handle value = Ok h -> persistent_range h.
Proof.
  unfold parse_tpm_handle, persistent_range. destruct (is_empty _); [done|].
  destruct (negb (forallb _ _)); [done|]. destruct (from_str_radix 16 _) as [p|]; [|done].
  destruct (_ && _ && _); (case_match eqn:E; [done|]; intros [= <-]; bool_prop; lia).
Qed.

Lemma parse_tpm_handle_digits s v :
  s <> "" -> Forall (fun c => is_ascii_hexdigit c = true) (chars s) -> digits_value 16 U32 0 s = Ok v ->
  persistent_range (if slen s <=? 4 then Z.lor 0x81000000 v else v) ->
  parse_tpm_handle s = Ok (if slen s <=? 4 then Z.lor 0x81000000 v else v).
Proof.
  intros Hn Hs Hv Hr. unfold parse_tpm_handle.
  assert (trim s = s) as ->.
  { apply trim_no_ws. eapply Forall_impl; [exact Hs|]. apply no_ws_hexdigit. }
  destruct (strip_0x_digits s Hs) as [H1 H2]. unfold strip_0x, starts_with. rewrite H1, H2.
  rewrite forallb_digits, (from_str_radix_digits s v) by done. cbn [negb andb].
  assert (is_empty s = false) as -> by by destruct s.
  destruct (slen s <=? 4); unfold persistent_range in Hr;
    rewrite (proj2 (Z.leb_le _ _)), (proj2 (Z.leb_le _ _)) by lia; done.
Qed.

Lemma parse_tpm_handle_prefixed s v x :
  x = "0x" \/ x = "0X" ->
  s <> "" -> Forall (fun c => is_ascii_hexdigit c = true) (chars s) -> digits_value 16 U32 0 s = Ok v ->
  persistent_range v -> parse_tpm_handle (x +:+ s) = Ok v.
Proof.
  intros Hx Hn Hs Hv Hr. unfold parse_tpm_handle.
  assert (trim (x +:+ s) = x +:+ s) as ->.
  { apply trim_no_ws. rewrite chars_app. apply Forall_app. split.
    - destruct Hx as [-> | ->]; repeat first [apply Forall_nil_2|apply Forall_cons_2; [vm_compute; split; congruence|]].
    - eapply Forall_impl; [exact Hs|]. apply no_ws_hexdigit. }
  assert (strip_0x (x +:+ s) = Some s) as ->.
  { destruct Hx as [-> | ->]; done. }
  assert (negb (starts_with "0x" (x +:+ s)) && negb (starts_with "0X" (x +:+ s)) = false) as ->.
  { destruct Hx as [-> | ->]; done. }
  assert (is_empty (x +:+ s) = false) as -> by by destruct Hx as [-> | ->].
  rewrite forallb_digits, (from_str_radix_digits s v) by done. cbn [negb andb].
  unfold persistent_range in Hr. rewrite (proj2 (Z.leb_le _ _)), (proj2 (Z.leb_le _ _)) by lia. done.
Qed.

Lemma bytes_strip_prefix_app p k : bytes_strip_prefix p (p ++ k) = Some k.
Proof. induction p as [|a p IH]; [done|]. cbn. by rewrite bool_decide_eq_true_2. Qed.

(** The two modes of the command line are the two modes of the boot. *)
Lemma mode_sealed m : prefix m = sealed_prefix (is_secure m) /\ persistent_handle m = sealed_handle (is_secure m).
Proof. by destruct m. Qed.

(** The arguments a trace starts with. *)
Definition ev_args (v : event sysE) : option (list string) :=
  match v with
  | @Ev _ A e x => match e in sysE A return A -> option (list string) with
                   | ProcArgs => Some
                   | _ => fun _ => None
                   end x
  end.
Lemma ev_args_inj a b (t u : hist sysE) : Ev ProcArgs a :: t = Ev ProcArgs b :: u -> a = b /\ t = u.
Proof.
  intros H. split; [|by apply (f_equal (@tail _)) in H].
  apply (f_equal head) in H. apply (f_equal (fun v => v ≫= ev_args)) in H. by injection H.
Qed.

Section facts.
Context `{X : Externals} `{AG : Age} `{RC : Recovery}.
Implicit Types h : hist sysE.

Lemma ignore_response_ok dev nm c t :
  exec (ignore_response (transact_checked dev nm c)) t (Done (Ok tt)) ->
  exists cmd, c = Val cmd /\ Ev (FileWriteAll dev cmd) (Ok tt) ∈ t.
Proof.
  intros H. apply exec_try_ok in H as (t1&t2&rsp&->&H1&[-> _]).
  apply transact_checked_ok in H1 as (cmd&->&Hw&_). exists cmd. rewrite (app_nil_r t1). done.
Qed.

Lemma policy_digest_ok dev session t digest :
  exec (policy_get_digest dev session) t (Done (Ok digest)) ->
  exists r, Ev (FileRead dev RSP_BUF_SIZE) (Ok r) ∈ t /\
    tpm2b_at (take (Z.to_nat RSP_BUF_SIZE) r) 10 = Val digest /\ len digest <= 4084.
Proof.
  intros H. apply parse_response_ok in H as (cmd&_&_&r&Hr&Hd). exists r. split_and!; [done..|].
  unfold tpm2b_at in Hd. apply comp_bind_inv in Hd as (sz&_&Hd). apply slice_inv in Hd as (Ha&Hb&->).
  rewrite len_sub by lia. assert (len (take (Z.to_nat RSP_BUF_SIZE) r) <= 4096); [|lia].
  unfold len, RSP_BUF_SIZE. rewrite length_take. lia.
Qed.

Lemma create_ok dev parent data digest t blobs :
  len digest <= 4084 -> exec (create dev parent data digest) t (Done (Ok blobs)) ->
  len data < 65532 /\
  Ev (FileWriteAll dev (command TPM_ST_SESSIONS TPM2_CC_CREATE (create_body parent data digest))) (Ok tt) ∈ t.
Proof.
  intros Hl H. apply parse_response_ok in H as (cmd&Hc&Hw&_).
  destruct (Z.lt_ge_cases (len data) 65532) as [Hd|Hd].
  - rewrite create_cmd_eq in Hc by (unfold U16; lia). injection Hc as <-. done.
  - rewrite create_cmd_panics in Hc by (unfold U16; lia). done.
Qed.

Lemma verify_image_if_key_exec img key h t :
  exec (verify_image_if_key img key) t (Done (Ok tt)) -> key <> "" -> signed_by_key (h ++ t) img key.
Proof.
  intros H Hk. unfold verify_image_if_key in H. destruct key as [|c key]; [done|].
  cbn [is_empty] in H. apply exec_try_ok in H as (t1&t2&valid&->&H1&[-> Hv]).
  destruct valid; [|done]. rewrite (app_nil_r t1). apply exec_boxed_ok in H1.
  apply (wp_sound _ _ h t1 _ _ (wp_verify_image img _ h) H1). by intros ? [].
Qed.

End facts.

(** ** Properties *)

Section properties.
Context `{X : Externals} `{AG : Age} `{RC : Recovery}.

(** What sealing stores: when [cmd_seal] succeeds, the TPM was asked to
    create, under the primary key and with the policy digest it had answered,
    an object whose data is exactly the secret behind the prefix of the mode,
    and then to persist the loaded object at the handle given or at that of the
    mode; the boot strips this prefix in the same mode, at the same default
    handle, and gets the secret back, and refuses the object in the other
    mode.  Secrets of 65532 bytes with their prefix never get that far. *)
Theorem seal_stores_prefixed_secret (secret : string) (mode : SealMode) (handle : option Z)
    (t : hist sysE) :
  exec (cmd_seal secret mode handle) t (Done (Ok tt)) ->
  let data := prefix mode ++ as_bytes secret in
  len data < 65532 /\
  (exists dev digest r loaded t1 t2 t3, t = t1 ++ t2 ++ t3 /\
    Ev (FileRead dev RSP_BUF_SIZE) (Ok r) ∈ t1 /\
    tpm2b_at (take (Z.to_nat RSP_BUF_SIZE) r) 10 = Val digest /\
    Ev (FileWriteAll dev (command TPM_ST_SESSIONS TPM2_CC_CREATE
          (create_body DEFAULT_PRIMARY_HANDLE data digest))) (Ok tt) ∈ t2 /\
    Ev (FileWriteAll dev (command TPM_ST_SESSIONS TPM2_CC_EVICT_CONTROL
          (to_be 4 TPM_RH_OWNER ++ to_be 4 loaded ++ auth_area (session_auth TPM_RS_PW) ++
           to_be 4 (default (sealed_handle (is_secure mode)) handle)))) (Ok tt) ∈ t3) /\
  strip_tpm_prefix data (sealed_prefix (is_secure mode)) (name mode) = Ok (as_bytes secret) /\
  exists e, strip_tpm_prefix data (sealed_prefix (negb (is_secure mode))) (name mode) = Err e.
Proof.
  intros H data. destruct (mode_sealed mode) as [Hp Hh].
  apply exec_try_ok in H as (t1&u1&dev&->&_&H).
  apply exec_try_ok in H as (t2&u2&policy&->&_&H).
  apply exec_try_ok in H as (t3&u3&[]&->&_&H).
  apply exec_try_ok in H as (t4&u4&digest&->&H4&H).
  apply policy_digest_ok in H4 as (r&Hr&Hd&Hl).
  apply exec_try_ok in H as (t5&u5&[]&->&_&H).
  apply exec_try_ok in H as (t6&u6&[priv pub]&->&H6&H).
  apply create_ok in H6 as [Hlen Hw]; [|done]. fold data in Hlen, Hw.
  apply exec_try_ok in H as (t7&u7&loaded&->&_&H).
  apply exec_bind_done in H as (t8&u8&[]&->&_&H).
  apply exec_try_ok in H as (t9&u9&[]&->&H9&[-> _]).
  apply ignore_response_ok in H9 as (cmd&Hc&He). rewrite evict_control_cmd_eq in Hc. injection Hc as <-.
  split; [done|]. split.
  - exists dev, digest, r, loaded, (t1 ++ t2 ++ t3 ++ t4), (t5 ++ t6), (t7 ++ t8 ++ t9).
    split; [rewrite app_nil_r; app_eq|]. split; [rewrite !elem_of_app; auto|]. split; [done|].
    split; [rewrite !elem_of_app; auto|].
    rewrite <- Hh. rewrite !elem_of_app. right; right. by destruct handle.
  - unfold strip_tpm_prefix, data. rewrite Hp, bytes_strip_prefix_app. split; [done|].
    destruct mode; by eexists.
Qed.

(** C22: Exit status 0 of [initos verify IMG] means that the image is signed: the
    kernel measured it, and its digest is signed by the Ed25519 key of
    [INITOS_PUB_KEY] when that is set, or by a certificate of the UEFI
    database. *)
Theorem verify_command_sound (arg0 img : string) (rest : list string) (t : hist sysE) :
  exec main (Ev ProcArgs (arg0 :: "verify" :: img :: rest) :: t) (Done tt) ->
  (exists key t1, key <> "" /\ t = Ev (EnvVar "INITOS_PUB_KEY") (Some key) :: t1 /\
     signed_by_key t img key) \/
  signed_image t img.
Proof.
  intros (args&t0&E&H). apply ev_args_inj in E as [<- <-].
  cbn [prog_mbind prog_bind] in H.
  destruct (negb (forallb _ _)); [by destruct H|].
  change (run_command "verify" (img :: rest)) with (cmd_verify img) in H.
  apply exec_bind_done in H as (t1&t2&r&->&H1&H2).
  destruct r as [[]|e]; [|by destruct H2]. destruct H2 as [-> _]. rewrite (app_nil_r t1).
  apply exec_bind_done in H1 as (t3&t4&key&->&H3&H4). apply env_or_exec in H3 as (v&->&->).
  apply exec_try_ok in H4 as (t5&t6&[]&->&H5&[-> _]). rewrite (app_nil_r t5).
  unfold verify_image_trusted in H5. destruct (is_empty (default "" v)) eqn:Ek; cbn [negb] in H5.
  - right. apply (verify_image_trusted_exec img [_]). done.
  - left. destruct v as [key|]; [|done]. cbn in Ek, H5.
    exists key, t5. assert (key <> "") by (intros ->; done). split; [done|]. split; [done|].
    by apply (verify_image_if_key_exec img key [_]).
Qed.

(** TPM handles on the command line: a parsed handle is in the persistent
    range; eight hexadecimal digits of any such handle, with or without [0x] or
    [0X], in either case, give it back; and four digits alone are an index
    below [0x81000000]. *)
Theorem parse_tpm_handle_correct (up : bool) (h index : Z) (value : string) (r : Z) :
  persistent_range h -> 0 <= index < 0x10000 -> parse_tpm_handle value = Ok r ->
  persistent_range r /\
  parse_tpm_handle (of_chars (hex_fixed up 8 h)) = Ok h /\
  parse_tpm_handle ("0x" +:+ of_chars (hex_fixed up 8 h)) = Ok h /\
  parse_tpm_handle ("0X" +:+ of_chars (hex_fixed up 8 h)) = Ok h /\
  parse_tpm_handle (of_chars (hex_fixed up 4 index)) = Ok (0x81000000 + index).
Proof.
  intros Hh Hi Hr. split; [by eapply parse_tpm_handle_ok|]. unfold persistent_range in Hh.
  assert (forall n v, of_chars (hex_fixed up (S n) v) <> "") as Hne.
  { intros n v E. apply (f_equal chars) in E. rewrite chars_of_chars in E.
    apply (f_equal length) in E. rewrite length_hex_fixed in E. done. }
  assert (digits_value 16 U32 0 (of_chars (hex_fixed up 8 h)) = Ok h) as Hd
    by (apply digits_value_hex_fixed; [change (16 ^ Z.of_nat 8) with 0x100000000; lia|done]).
  split_and!.
  - pose proof (parse_tpm_handle_digits _ h (Hne _ _) (hex_string_digits up 8 h) Hd) as Hp.
    rewrite slen_of_chars, length_hex_fixed in Hp. apply Hp. exact Hh.
  - apply parse_tpm_handle_prefixed; auto using hex_string_digits.
  - apply parse_tpm_handle_prefixed; auto using hex_string_digits.
  - assert (digits_value 16 U32 0 (of_chars (hex_fixed up 4 index)) = Ok index) as Hd4
      by (apply digits_value_hex_fixed; [change (16 ^ Z.of_nat 4) with 0x10000; lia|done]).
    assert (Z.lor 0x81000000 index = 0x81000000 + index) as Hl.
    { change 0x81000000 with (0x8100 * 2 ^ 16). apply lor_low_bits; [lia|exact Hi]. }
    rewrite <- Hl. pose proof (parse_tpm_handle_digits _ index (Hne _ _) (hex_string_digits up 4 index) Hd4) as Hp.
    rewrite slen_of_chars, length_hex_fixed in Hp. apply Hp. change (Z.of_nat 4 <=? 4) with true. cbv iota. rewrite Hl.
    unfold persistent_range. lia.
Qed.

End properties.

(** ** Witnesses *)

Lemma parse_tpm_handle_correct_witness :
  parse_tpm_handle "1003" = Ok 0x81001003 /\ parse_tpm_handle "0x81001002" = Ok 0x81001002 /\
  persistent_range 0x81001003.
Proof.
  destruct (parse_tpm_handle_correct true 0x81001002 0x1003 " 81001003 " 0x81001003)
    as (Hr&_&Hx&_&Hi); [unfold persistent_range; lia|lia|vm_compute; reflexivity|].
  split; [exact Hi|]. split; [exact Hx|exact Hr].
Defined.

(** A TPM that answers the eight commands of a sealing. *)
Definition fresh_tpm : world :=
  set_dev world0 (<[TPM_DEVICE := [response TPM_ST_NO_SESSIONS (to_be 4 0x03000000);
    response TPM_ST_NO_SESSIONS []; response TPM_ST_NO_SESSIONS (tpm2b (zeros 32));
    response TPM_ST_NO_SESSIONS [];
    response TPM_ST_SESSIONS (to_be 4 8 ++ tpm2b [x01; x02] ++ tpm2b [x03; x04]);
    response TPM_ST_SESSIONS (to_be 4 0x80000001 ++ zeros 8);
    response TPM_ST_SESSIONS []; response TPM_ST_SESSIONS []]]> ∅).

Lemma seal_stores_prefixed_secret_witness :
  outcome_of fresh_tpm (cmd_seal "key" Secure None) = Done (Ok tt) /\
  strip_tpm_prefix (as_bytes "secc:key") SECURE_TPM_PREFIX "secure" = Ok (as_bytes "key").
Proof.
  assert (outcome_of fresh_tpm (cmd_seal "key" Secure None) = Done (Ok tt)) as H by (vm_compute; reflexivity).
  split; [exact H|].
  destruct (seal_stores_prefixed_secret "key" Secure None _ (toy_exec _ _ _ H)) as (_&_&Hs&_).
  exact Hs.
Defined.

#[local] Instance no_recovery : Recovery := {|
  edwards_decompress _ := None; scalar_from_bytes d := d; x25519_basepoint_mul d := d;
  montgomery_mul d _ := d; chacha_encrypt _ _ _ := Err "";
|}.

Definition verify_machine : world :=
  {| wfiles := wfiles toy_verify_world; wdirs := []; wlinks := ∅; wentries := ∅;
     wenv := <["INITOS_EFI_PATH" := "/efi"]> ∅; wclock := 0; wnext := 3; wopen := ∅; wdev := ∅;
     wstdin := []; wpid := 7; wargs := ["initos"; "verify"; "/b/i.img"] |}.

Lemma verify_command_sound_witness :
  outcome_of verify_machine main = Done tt /\
  ((exists key t1, key <> "" /\ tail (trace_of verify_machine main) =
      Ev (EnvVar "INITOS_PUB_KEY") (Some key) :: t1 /\
      signed_by_key (tail (trace_of verify_machine main)) "/b/i.img" key) \/
   signed_image (tail (trace_of verify_machine main)) "/b/i.img").
Proof.
  assert (outcome_of verify_machine main = Done tt) as H by (vm_compute; reflexivity).
  split; [exact H|].
  apply (verify_command_sound "initos" "/b/i.img" []). exact (toy_exec verify_machine main (Done tt) H).
Defined.
