(* ===== verification/Options.v ===== *)
(** The options of [initos seal] and [initos unseal] ([src/main.rs]): the two
    parsers accept exactly the grammar below, and the last option of each kind
    wins.  A command line is printed from a list of options; the theorem is that
    the parsers invert this printer on every list of words. *)

From S2P Require Import Prelude Prog Str PathLib Sys World Verity Efi Verify Tpm Fscrypt Cmd Mount Boot BootSpec BootSteps Main.

(** ** The grammar *)

(** An option, with the text of its value as it was typed. *)
Inductive opt : Type :=
| OMode (m : SealMode)
| OHandle (value : string)
| OSecretFile (path : string).

Definition option_words (o : opt) : list string :=
  match o with
  | OMode Secure => ["--secure"]
  | OMode Dev => ["--dev"]
  | OHandle value => ["--handle"; value]
  | OSecretFile path => ["--secret-file"; path]
  end.

Definition command_line (opts : list opt) : list string := concat (map option_words opts).

Definition typed_handle (value : string) : option Z := result_ok (parse_tpm_handle value).

(** Options of [seal]: a handle has to be readable.  [unseal] has no secret file. *)
Definition seal_option (o : opt) : Prop :=
  match o with OHandle value => is_Some (typed_handle value) | _ => True end.
Definition unseal_option (o : opt) : Prop :=
  match o with OHandle value => is_Some (typed_handle value) | OSecretFile _ => False | OMode _ => True end.

(** What the options say: the last one of each kind. *)
Definition opt_mode (o : opt) : option SealMode := match o with OMode m => Some m | _ => None end.
Definition opt_handle (o : opt) : option Z := match o with OHandle value => typed_handle value | _ => None end.
Definition opt_secret_file (o : opt) : option string := match o with OSecretFile path => Some path | _ => None end.

Definition last_of {A} (f : opt -> option A) (opts : list opt) : option A := last (omap f opts).

(** ** The parsers invert the printer *)

Definition settled (a : SealArgs) (o : opt) : SealArgs :=
  match o with
  | OMode m => set_mode m a
  | OHandle value => match typed_handle value with Some h => set_handle h a | None => a end
  | OSecretFile path => set_secret_file path a
  end.

Definition settle (a : SealArgs) (opts : list opt) : SealArgs := fold_left settled opts a.

Lemma typed_handle_ok value h : typed_handle value = Some h <-> parse_tpm_handle value = Ok h.
Proof. unfold typed_handle. destruct (parse_tpm_handle value); cbn; split; congruence. Qed.

Lemma seal_options_printed opts : forall a,
  Forall seal_option opts -> seal_options a (command_line opts) = Ok (settle a opts).
Proof.
  induction opts as [|o opts IH]; intros a Hv; [done|]. inversion Hv as [|?? Ho Hs]; subst.
  destruct o as [[]|value|path]; cbn; try by apply IH.
  destruct Ho as [h Hh]. rewrite (proj1 (typed_handle_ok _ _) Hh), Hh. by apply IH.
Qed.

Lemma unseal_options_printed opts : forall a,
  Forall unseal_option opts -> unseal_options a (command_line opts) = Ok (settle a opts).
Proof.
  induction opts as [|o opts IH]; intros a Hv; [done|]. inversion Hv as [|?? Ho Hs]; subst.
  destruct o as [[]|value|path]; cbn; [by apply IH|by apply IH| |done].
  destruct Ho as [h Hh]. rewrite (proj1 (typed_handle_ok _ _) Hh), Hh. by apply IH.
Qed.

(** One option off the front of the words: [next] are the words after it. *)
Ltac take_option next o :=
  match goal with IH : forall args a b, _ -> _ -> exists opts, _, H : _ = Ok _ |- _ =>
    destruct (IH next _ _ ltac:(cbn in *; lia) H) as (opts & -> & Hv); exists (o :: opts);
    split; [done|]; constructor; [|done]; cbn; eauto using mk_is_Some
  end.

Lemma seal_options_words n : forall args a b,
  (length args <= n)%nat -> seal_options a args = Ok b ->
  exists opts, args = command_line opts /\ Forall seal_option opts.
Proof.
  induction n as [|n IH]; intros [|arg args] a b Hn H; cbn in H; cbn [length] in Hn;
    [by exists []|lia|by exists []|].
  destruct (String.eqb_spec arg "--secure") as [->|_]; [take_option args (OMode Secure)|].
  destruct (String.eqb_spec arg "--dev") as [->|_]; [take_option args (OMode Dev)|].
  destruct (String.eqb_spec arg "--handle") as [->|_].
  { destruct args as [|value args]; [done|]. destruct (parse_tpm_handle value) as [h|] eqn:Eh; [|done].
    apply typed_handle_ok in Eh. take_option args (OHandle value). }
  destruct (String.eqb_spec arg "--secret-file") as [->|_].
  { destruct args as [|path args]; [done|]. take_option args (OSecretFile path). }
  by destruct (starts_with _ _).
Qed.

Lemma unseal_options_words n : forall args a b,
  (length args <= n)%nat -> unseal_options a args = Ok b ->
  exists opts, args = command_line opts /\ Forall unseal_option opts.
Proof.
  induction n as [|n IH]; intros [|arg args] a b Hn H; cbn in H; cbn [length] in Hn;
    [by exists []|lia|by exists []|].
  destruct (String.eqb_spec arg "--secure") as [->|_]; [take_option args (OMode Secure)|].
  destruct (String.eqb_spec arg "--dev") as [->|_]; [take_option args (OMode Dev)|].
  destruct (String.eqb_spec arg "--handle") as [->|_]; [|done].
  destruct args as [|value args]; [done|]. destruct (parse_tpm_handle value) as [h|] eqn:Eh; [|done].
  apply typed_handle_ok in Eh. take_option args (OHandle value).
Qed.

(** ** The last one wins *)

Definition or_else {A} (x y : option A) : option A := match x with Some _ => x | None => y end.

Lemma last_of_cons {A} (f : opt -> option A) o opts :
  last_of f (o :: opts) = or_else (last_of f opts) (f o).
Proof.
  unfold last_of. cbn. destruct (f o) as [x|]; [|by destruct (last _)].
  rewrite last_cons. by destruct (last _).
Qed.

Lemma settle_last opts : forall a,
  arg_mode (settle a opts) = or_else (last_of opt_mode opts) (arg_mode a) /\
  arg_handle (settle a opts) = or_else (last_of opt_handle opts) (arg_handle a) /\
  arg_secret_file (settle a opts) = or_else (last_of opt_secret_file opts) (arg_secret_file a).
Proof.
  induction opts as [|o opts IH]; intros a; [done|]. rewrite !last_of_cons.
  destruct (IH (settled a o)) as (Hm&Hh&Hf). unfold settle in *. cbn [fold_left]. rewrite Hm, Hh, Hf.
  destruct o as [m|value|path]; cbn; [| destruct (typed_handle value); cbn |];
    destruct (last_of opt_mode opts), (last_of opt_handle opts), (last_of opt_secret_file opts); done.
Qed.

Lemma settle_none opts :
  arg_mode (settle no_seal_args opts) = last_of opt_mode opts /\
  arg_handle (settle no_seal_args opts) = last_of opt_handle opts /\
  arg_secret_file (settle no_seal_args opts) = last_of opt_secret_file opts.
Proof.
  destruct (settle_last opts no_seal_args) as (->&->&->).
  by destruct (last_of opt_mode opts), (last_of opt_handle opts), (last_of opt_secret_file opts).
Qed.

(** ** The two command lines *)

Section command_lines.
Context `{X : Externals} `{AG : Age} `{RC : Recovery}.

Definition refused {A} (valid : opt -> Prop) (args : list string) (p : sys (result A string)) : Prop :=
  (forall opts, args = command_line opts -> ~ Forall valid opts) /\ exists e, p = mret (Err e).

(** C23: The options on the command line: the words after [seal] are the
    printing of a list of options with readable handles -- and then the parser
    answers the last mode, the last handle and the last secret file, the mode
    being detected from the firmware only when none was given -- or they are the
    printing of no such list, and the parser refuses them before any call to the
    system.  [unseal] is the same without secret files. *)
Theorem command_line_exact (args : list string) :
  ((exists opts, args = command_line opts /\ Forall seal_option opts /\
      parse_seal_args args = (let! mode := mode_or_detect (last_of opt_mode opts) in
                              mret (Ok (mode, last_of opt_handle opts, last_of opt_secret_file opts)))) \/
   refused seal_option args (parse_seal_args args)) /\
  ((exists opts, args = command_line opts /\ Forall unseal_option opts /\
      parse_unseal_args args = (let! mode := mode_or_detect (last_of opt_mode opts) in
                                mret (Ok (mode, last_of opt_handle opts)))) \/
   refused unseal_option args (parse_unseal_args args)).
Proof.
  unfold parse_seal_args, parse_unseal_args, refused. split.
  - destruct (seal_options no_seal_args args) as [a|e] eqn:E; [left|right].
    + destruct (seal_options_words _ _ _ _ (le_n _) E) as (opts&->&Hv). exists opts. do 2 (split; [done|]).
      rewrite seal_options_printed in E by done. apply (f_equal result_ok) in E. injection E as <-.
      destruct (settle_none opts) as (<-&<-&<-). done.
    + split; [|by exists e]. intros opts -> Hv. by rewrite seal_options_printed in E.
  - destruct (unseal_options no_seal_args args) as [a|e] eqn:E; [left|right].
    + destruct (unseal_options_words _ _ _ _ (le_n _) E) as (opts&->&Hv). exists opts. do 2 (split; [done|]).
      rewrite unseal_options_printed in E by done. apply (f_equal result_ok) in E. injection E as <-.
      destruct (settle_none opts) as (<-&<-&_). done.
    + split; [|by exists e]. intros opts -> Hv. by rewrite unseal_options_printed in E.
Qed.

End command_lines.
