(* ===== verification/SealVault.v ===== *)
(** Sealing and unlocking across boots ([src/main.rs], [src/boot.rs],
    [src/tpm2.rs]): on a TPM that keeps what it persisted, the key that the boot
    sequence unseals is the secret that [initos seal] was given. *)

From S2P Require Import Prelude Prog Str PathLib Sys World Verity Efi Verify Tpm Fscrypt Cmd Mount Boot Calm BootSpec BootSteps BootMachine BootClock BootLive Main.

(** ** What a TPM keeps *)

Definition create_command (parent : Z) (data digest : list byte) : list byte :=
  command TPM_ST_SESSIONS TPM2_CC_CREATE (create_body parent data digest).
Definition load_command (parent : Z) (priv pub : list byte) : list byte :=
  command TPM_ST_SESSIONS TPM2_CC_LOAD (to_be 4 parent ++ auth_area (session_auth TPM_RS_PW) ++ priv ++ pub).
Definition evict_command (object handle : Z) : list byte :=
  command TPM_ST_SESSIONS TPM2_CC_EVICT_CONTROL
    (to_be 4 TPM_RH_OWNER ++ to_be 4 object ++ auth_area (session_auth TPM_RS_PW) ++ to_be 4 handle).
Definition unseal_command (handle session : Z) : list byte :=
  command TPM_ST_SESSIONS TPM2_CC_UNSEAL (to_be 4 handle ++ auth_area (session_auth session)).

Definition extend_command (pcr : Z) (digest : list byte) : list byte :=
  command TPM_ST_SESSIONS TPM2_CC_PCR_EXTEND
    (to_be 4 pcr ++ auth_area (session_auth TPM_RS_PW) ++ to_be 4 1 ++ to_be 2 TPM_ALG_SHA256 ++ digest).

Definition rsp_of (r : list byte) : list byte := take (Z.to_nat RSP_BUF_SIZE) r.
Definition success (r : list byte) : Prop := get_u32 (rsp_of r) 6 = Val 0.

Definition one_of (codes : list Z) (c : list byte) : Prop := exists code, code ∈ codes /\ is_command code c.

(** The commands that remove persistent objects: TPM2_EvictControl,
    TPM2_ChangeEPS, TPM2_ChangePPS and TPM2_Clear. *)
Definition removing_codes : list Z := [TPM2_CC_EVICT_CONTROL; 0x124; 0x125; 0x126].
Definition keeps_objects (c : list byte) : Prop := forall code, get_u32 c 6 = Val code -> code ∉ removing_codes.
Definition keeping (A : Type) (e : sysE A) : Prop :=
  match e with FileWriteAll _ c => keeps_objects c | _ => True end.

Definition writes_nothing (A : Type) (e : sysE A) : Prop :=
  match e with FileWriteAll _ _ => False | _ => True end.
Definition keeping_code (code : Z) : Prop := 0 <= code < U32 /\ code ∉ removing_codes.

(** In [h], an object with the data [data] was created, loaded, persisted at
    [handle], and not removed since. *)
Definition persisted (h : hist sysE) (handle : Z) (data : list byte) : Prop :=
  exists dev parent digest priv pub loaded r1 r2 r3 h0 h1 h2 h3,
    h = h0 ++ exchange dev (create_command parent data digest) r1 ++ h1 ++
        exchange dev (load_command parent priv pub) r2 ++ h2 ++
        exchange dev (evict_command loaded handle) r3 ++ h3 /\
    success r1 /\ created_blobs (rsp_of r1) = Val (priv, pub) /\
    success r2 /\ response_handle (rsp_of r2) = Val loaded /\ success r3 /\
    Forall (event_ok (sends (one_of [TPM2_CC_LOAD; TPM2_CC_DA_LOCK_RESET]))) h1 /\
    Forall (event_ok (sends (one_of [TPM2_CC_EVICT_CONTROL; TPM2_CC_DA_LOCK_RESET]))) h2 /\
    Forall (event_ok keeping) h3.

(** TPM2_Unseal returns the data of the object at the handle. *)
Definition tpm_vault : protocol sysE :=
  Protocol (E := sysE) (fun _ _ _ => True)
    (fun h A (e : sysE A) => match e in sysE A return A -> Prop with
       | FileRead _ cap => fun r => forall rsp handle session data,
           r = Ok rsp -> last_command h = Some (unseal_command handle session) ->
           get_u32 (take (Z.to_nat cap) rsp) 6 = Val 0 -> persisted h handle data ->
           tpm2b_at (take (Z.to_nat cap) rsp) 14 = Val data
       | _ => fun _ => True
       end).

Ltac keeping_tac := split; [vm_compute; intuition discriminate|by apply (bool_decide_unpack _)].

(** ** What is sent *)

Section sent.
Context `{X : Externals} `{AG : Age} `{RC : Recovery}.

Lemma sends_mono (P Q : list byte -> Prop) t :
  (forall c, P c -> Q c) -> Forall (event_ok (sends P)) t -> Forall (event_ok (sends Q)) t.
Proof. intros H Ht. eapply Forall_impl; [exact Ht|]. intros [A e x]. destruct e; cbn; auto. Qed.

Lemma sends_keeping (P : list byte -> Prop) t :
  (forall c, P c -> keeps_objects c) -> Forall (event_ok (sends P)) t -> Forall (event_ok keeping) t.
Proof. intros H Ht. eapply Forall_impl; [exact Ht|]. intros [A e x]. destruct e; cbn; auto; done. Qed.

Lemma code_keeps code c :
  is_command code c -> keeping_code code -> keeps_objects c.
Proof. intros Hc [Hr Hin] code' E. rewrite (is_command_code _ _ Hc Hr) in E. by injection E as <-. Qed.

(** What a transaction sends before its last exchange. *)
Lemma sends_only_codes codes cmd c code :
  is_command code cmd -> code ∈ codes -> TPM2_CC_DA_LOCK_RESET ∈ codes -> sends_only cmd c -> one_of codes c.
Proof.
  intros Hc Hin Hda [->|H]; [by exists code|]. rewrite da_lock_reset_cmd_eq in H. injection H as <-.
  eexists. split; [exact Hda|]. apply command_is.
Qed.

Lemma quiet_transact_go P n dev cmd :
  P cmd -> (forall c, da_lock_reset_cmd = Val c -> P c) -> quiet (sends P) (tpm_transact_go n dev cmd).
Proof.
  intros Hc Hda. induction n as [|n IH]; cbn [tpm_transact_go].
  all: apply quiet_try; [apply quiet_boxed; by split|intros _].
  all: apply quiet_try; [unfold read_some; quiet_tac|intros rsp].
  all: cbv zeta; destruct (len rsp <? 10); [done|]; apply quiet_bind; [apply quiet_lift|intros rc].
  all: destruct (retryable rc); [|done].
  { done. }
  apply quiet_bind; [|intros _; quiet_tac].
  destruct (_ =? _); [|done]. unfold da_lock_reset_raw. rewrite da_lock_reset_cmd_eq. cbn [lift].
  split; [apply Hda, da_lock_reset_cmd_eq|]. intros ?. split; [exact I|]. by intros [].
Qed.

Lemma quiet_transact_checked P dev nm c :
  (forall cmd, c = Val cmd -> P cmd) -> (forall cmd, da_lock_reset_cmd = Val cmd -> P cmd) ->
  quiet (sends P) (transact_checked dev nm c).
Proof.
  intros Hc Hda. destruct c as [c| |]; [|done..].
  apply (quiet_try (sends P) (tpm_transact dev c)); [apply quiet_transact_go; auto|]. intros rsp. apply quiet_try; [apply quiet_lift|done].
Qed.

Lemma try_evict_sends dev handle t o :
  exec (try_evict_persistent dev handle) t o ->
  Forall (event_ok (sends (one_of [TPM2_CC_EVICT_CONTROL; TPM2_CC_DA_LOCK_RESET]))) t.
Proof.
  set (codes := [TPM2_CC_EVICT_CONTROL; TPM2_CC_DA_LOCK_RESET]). intros H. eapply quiet_exec, H.
  assert (forall c, da_lock_reset_cmd = Val c -> one_of codes c) as Hda.
  { intros c Hc. rewrite da_lock_reset_cmd_eq in Hc. injection Hc as <-. eexists. split; [right; left|apply command_is]. }
  assert (forall nm code tag body, code ∈ codes ->
    quiet (sends (one_of codes)) (ignore_response (transact_checked dev nm (Val (command tag code body))))) as Hq.
  { intros nm code tag body Hin. apply quiet_try; [|done]. apply quiet_transact_checked; [|done].
    intros cmd [= <-]. exists code. split; [done|apply command_is]. }
  unfold try_evict_persistent, evict_control, dictionary_attack_lock_reset.
  rewrite evict_control_cmd_eq, da_lock_reset_cmd_eq.
  apply quiet_bind; [apply Hq; left|]. intros [u|e]; [done|]. apply quiet_bind; [apply Hq; right; left|done].
Qed.

Lemma ignore_response_last dev name c t :
  exec (ignore_response (transact_checked dev name c)) t (Done (Ok tt)) ->
  exists cmd r t0, c = Val cmd /\ t = t0 ++ exchange dev cmd r /\ success r /\
    Forall (event_ok (sends (sends_only cmd))) t0.
Proof.
  intros H. apply exec_try_ok in H as (t1&t2&rsp&->&H1&[-> _]).
  apply transact_checked_last in H1 as (cmd&->&H0&t0&r&->&->&Ht). exists cmd, r, t0. by rewrite app_nil_r.
Qed.

(** ** Sealing *)

Lemma seal_persists secret mode t :
  exec (cmd_seal secret mode None) t (Done (Ok tt)) ->
  persisted t (persistent_handle mode) (prefix mode ++ as_bytes secret).
Proof.
  intros H. apply exec_try_ok in H as (t1&u1&dev&->&_&H).
  apply exec_try_ok in H as (t2&u2&policy&->&_&H).
  apply exec_try_ok in H as (t3&u3&[]&->&_&H).
  apply exec_try_ok in H as (t4&u4&digest&->&H4&H).
  apply policy_digest_ok in H4 as (_&_&_&Hl).
  apply exec_try_ok in H as (t5&u5&[]&->&_&H).
  apply exec_try_ok in H as (t6&u6&[priv pub]&->&H6&H). pose proof (create_ok _ _ _ _ _ _ Hl H6) as [Hlen _].
  apply parse_response_last in H6 as (cmd&r1&c0&Hc&->&H60&Hblobs&_).
  rewrite create_cmd_eq in Hc by (unfold U16; lia). injection Hc as <-.
  apply exec_try_ok in H as (t7&u7&loaded&->&H7&H).
  apply parse_response_last in H7 as (cmd&r2&l0&Hc&->&H70&Hload&Hl0).
  pose proof (created_blobs_len _ _ _ Hblobs) as [Hp1 Hp2].
  assert (len (take (Z.to_nat RSP_BUF_SIZE) r1) <= 4096) as Hmax by (unfold len, RSP_BUF_SIZE; rewrite length_take; lia).
  rewrite load_cmd_eq in Hc by (unfold U32; lia). injection Hc as <-.
  apply exec_bind_done in H as (t8&u8&[]&->&H8&H). apply try_evict_sends in H8.
  apply exec_try_ok in H as (t9&u9&[]&->&H9&[-> _]).
  apply ignore_response_last in H9 as (cmd&r3&e0&Hc&->&H90&He0).
  rewrite evict_control_cmd_eq in Hc. injection Hc as <-.
  exists dev, DEFAULT_PRIMARY_HANDLE, digest, priv, pub, loaded, r1, r2, r3,
    (t1 ++ t2 ++ t3 ++ t4 ++ t5 ++ c0), l0, (t8 ++ e0), [].
  split; [unfold create_command, load_command, evict_command; app_eq|].
  split_and!; try done.
  - eapply sends_mono, Hl0. intros c Hc. eapply sends_only_codes, Hc; [apply command_is|left|right; left].
  - apply Forall_app. split; [done|]. eapply sends_mono, He0. intros c Hc.
    eapply sends_only_codes, Hc; [apply command_is|left|right; left].
Qed.

(** ** Unlocking *)

Lemma persisted_app h t handle data :
  persisted h handle data -> Forall (event_ok keeping) t -> persisted (h ++ t) handle data.
Proof.
  intros (dev&parent&digest&priv&pub&loaded&r1&r2&r3&h0&h1&h2&h3&->&H) Ht.
  exists dev, parent, digest, priv, pub, loaded, r1, r2, r3, h0, h1, h2, (h3 ++ t).
  split; [app_eq|]. destruct H as (?&?&?&?&?&?&?&?). split_and!; try done. by apply Forall_app.
Qed.

Lemma exchange_keeping dev cmd r t0 code :
  is_command code cmd -> keeping_code code -> Forall (event_ok (sends (sends_only cmd))) t0 ->
  Forall (event_ok keeping) t0 /\ Forall (event_ok keeping) (t0 ++ exchange dev cmd r).
Proof.
  intros Hc Hin Ht. assert (Forall (event_ok keeping) t0) as Hk.
  { eapply sends_keeping, Ht. intros c [->|E]; [by eapply code_keeps|].
    rewrite da_lock_reset_cmd_eq in E. injection E as <-.
    eapply code_keeps; [apply command_is|keeping_tac]. }
  split; [done|]. apply Forall_app. split; [done|]. repeat constructor. by eapply code_keeps.
Qed.

Lemma parse_keeping {A} (parse : list byte -> comp A) dev name c tag code body t a :
  exec (parse_response parse (transact_checked dev name c)) t (Done (Ok a)) ->
  c = Val (command tag code body) -> keeping_code code -> Forall (event_ok keeping) t.
Proof.
  intros H -> Hin. apply parse_response_last in H as (cmd&r&t0&[= <-]&->&_&_&Ht0).
  by eapply exchange_keeping; [apply command_is|..].
Qed.

Lemma ignore_keeping dev name c tag code body t :
  exec (ignore_response (transact_checked dev name c)) t (Done (Ok tt)) ->
  c = Val (command tag code body) -> keeping_code code -> Forall (event_ok keeping) t.
Proof.
  intros H -> Hin. apply ignore_response_last in H as (cmd&r&t0&[= <-]&->&_&Ht0).
  by eapply exchange_keeping; [apply command_is|..].
Qed.

(** What was unsealed, and that nothing sent before removes an object. *)
Lemma unseal_key_exec handle pre mode t key :
  exec (unseal_key_from_handle handle pre mode) t (Done (Ok key)) ->
  exists dev session r t0, t = t0 ++ exchange dev (unseal_command handle session) r /\
    Forall (event_ok keeping) t0 /\ success r /\ tpm2b_at (rsp_of r) 14 = Val (pre ++ key).
Proof.
  intros H. apply exec_try_ok in H as (t1&u1&dev&->&H1&H).
  assert (Forall (event_ok keeping) t1) as K1 by (eapply quiet_exec, H1; unfold open_tpm; quiet_tac).
  apply exec_try_ok in H as (t2&u2&session&->&H2&H).
  eapply parse_keeping in H2; [|apply start_auth_session_cmd_eq|keeping_tac].
  apply exec_try_ok in H as (t3&u3&[]&->&H3&H). eapply ignore_keeping in H3; [|apply policy_pcr_cmd_eq|keeping_tac].
  apply exec_try_ok in H as (t4&u4&dg&->&H4&H). eapply parse_keeping in H4; [|apply handle_cmd_eq|keeping_tac].
  apply exec_try_ok in H as (t5&u5&sealed&->&H5&[-> [= Hs]]).
  apply parse_response_last in H5 as (cmd&r&t0&Hc&->&H0&Hd&Ht0). rewrite unseal_cmd_eq in Hc. injection Hc as <-.
  eapply (exchange_keeping dev _ r) in Ht0 as [Ht0 _]; [|apply command_is|keeping_tac].
  unfold strip_tpm_prefix in Hs. destruct (bytes_strip_prefix pre sealed) as [k|] eqn:Ek; [|done]. injection Hs as ->.
  apply bytes_strip_prefix_ok in Ek as ->.
  exists dev, session, r, (t1 ++ t2 ++ t3 ++ t4 ++ t0).
  split; [unfold unseal_command; rewrite app_nil_r; app_eq|]. split; [|done]. rewrite !Forall_app. done.
Qed.

(** What is sealed is what the boot unlocks with: on a TPM whose
    TPM2_Unseal returns the data of the object that was persisted at the
    handle, if [initos seal] succeeded for a mode, nothing that removes a
    persistent object was sent since, and no one else uses the TPM during the
    two, then the key that the boot sequence unseals in that mode is the secret
    that was given to [seal], byte for byte, whatever was retried, and whatever
    the TPM answers to the other commands. *)
Theorem sealed_secret_unlocks (secret : string) (mode : SealMode) (t1 between t2 : hist sysE) (key : list byte) :
  exec (cmd_seal secret mode None) t1 (Done (Ok tt)) -> Forall (event_ok keeping) between ->
  exec (unseal_key (is_secure mode)) t2 (Done (Ok key)) ->
  answered tpm_vault [] (t1 ++ between ++ t2) -> key = as_bytes secret.
Proof.
  intros Hs Hb Hu Ha. apply seal_persists in Hs. destruct (mode_sealed mode) as [Hp Hh].
  assert (exec (unseal_key_from_handle (persistent_handle mode) (prefix mode) (name mode)) t2 (Done (Ok key))) as Hk
    by by destruct mode.
  apply unseal_key_exec in Hk as (dev&session&r&t0&->&Ht0&H0&Hd).
  set (w := Ev (FileWriteAll dev (unseal_command (persistent_handle mode) session)) (Ok tt)).
  specialize (Ha (t1 ++ (between ++ t0) ++ [w]) (Ev (FileRead dev RSP_BUF_SIZE) (Ok r)) []). cbn in Ha.
  specialize (Ha ltac:(unfold exchange; app_eq) r (persistent_handle mode) session (prefix mode ++ as_bytes secret) eq_refl).
  assert (Val (prefix mode ++ key) = Val (prefix mode ++ as_bytes secret)) as E; [|injection E; apply app_inv_head].
  rewrite <- Hd. apply Ha; [|exact H0|].
  - rewrite !(assoc_L app). apply last_command_write.
  - apply persisted_app; [done|]. rewrite !Forall_app. split_and!; [done..|]. repeat constructor.
    eapply code_keeps; [apply command_is|keeping_tac].
Qed.

(** ** Closing the secret *)

Lemma pcr_extend_last dev pcr t :
  exec (pcr_extend dev pcr) t (Done (Ok tt)) ->
  exists urand digest r t0, t = t0 ++ exchange dev (extend_command pcr digest) r /\ success r /\
    Ev (FileReadExact urand SHA256_DIGEST_SIZE) (Ok digest) ∈ t0 /\ len digest = SHA256_DIGEST_SIZE.
Proof.
  intros H. apply exec_try_ok in H as (t1&u1&urand&->&_&H). apply exec_try_ok in H as (t2&u2&digest&->&H2&H).
  apply exec_boxed_ok in H2. apply exec_try_ok in H2 as (t3&t4&d&->&(x&t5&->&[-> [= <-]])&H2).
  destruct (Z.eqb_spec (len d) SHA256_DIGEST_SIZE) as [Hd|]; [|destruct H2 as [_ H2]; discriminate H2].
  destruct H2 as [-> Ed]. apply outcome_ok_inj in Ed as ->.
  apply ignore_response_last in H as (cmd&r&t0&Hc&->&H0&_). rewrite pcr_extend_cmd_eq in Hc by done. injection Hc as <-.
  exists urand, d, r, (t1 ++ [Ev (FileReadExact urand SHA256_DIGEST_SIZE) (Ok d)] ++ t0).
  split; [unfold extend_command; app_eq|]. split; [done|]. split; [|done].
  rewrite !elem_of_app. right. left. left.
Qed.

(** Anti-replay: when the TPM unlocked [/c], the secret was unsealed from
    the object of the mode, nothing was sent to the TPM between that and the
    check that [/c] is readable, and the last thing sent is the extension of
    PCR 7, which the policy of the object covers, with 32 bytes read from
    [/dev/urandom], accepted by the TPM; the unlocking succeeds without it only
    when opening the TPM, reading the random bytes or the extension itself
    failed. *)
Theorem tpm_unlock_extends_pcr (c_dir : string) (verified : bool) (t : hist sysE) :
  exec (unlock_c_with_tpm c_dir verified) t (Done (Ok tt)) ->
  exists dev session r pre mid post,
    t = pre ++ exchange dev (unseal_command (sealed_handle verified) session) r ++ mid ++ post /\ success r /\
    Forall (event_ok writes_nothing) mid /\ Ev (PathIsDir (path_join c_dir "home")) true ∈ mid /\
    ((exists dev' urand digest r' t0, post = t0 ++ exchange dev' (extend_command 7 digest) r' /\ success r' /\
        Ev (FileReadExact urand SHA256_DIGEST_SIZE) (Ok digest) ∈ t0 /\ len digest = SHA256_DIGEST_SIZE) \/
     (exists e, exec open_tpm post (Done (Err e))) \/
     (exists t1 t2 dev' e, post = t1 ++ t2 /\ exec open_tpm t1 (Done (Ok dev')) /\
        exec (pcr_extend dev' 7) t2 (Done (Err e)))).
Proof.
  intros H. apply exec_try_ok in H as (t1&u1&key&->&H1&H).
  assert (exec (unseal_key_from_handle (sealed_handle verified) (sealed_prefix verified)
    (if verified then "secure" else "dev")) t1 (Done (Ok key))) as Hk by by destruct verified.
  apply unseal_key_exec in Hk as (dev&session&r&t0&->&_&H0&_).
  apply exec_try_ok in H as (t2&u2&[]&->&H2&H).
  assert (Forall (event_ok writes_nothing) t2) as Hq.
  { eapply (tame_exec writes_nothing crash); [|exact H2]. tame_tac. }
  apply exec_bind_done in H as (t3&u3&b&->&H3&H).
  apply c_is_unlocked_exec in H3 as (b'&->&[= <-]). destruct b; [|by destruct H].
  exists dev, session, r, t0, (t2 ++ [Ev (PathIsDir (path_join c_dir "home")) true]), u3.
  split; [app_eq|]. split; [done|]. split; [apply Forall_app; split; [done|by repeat constructor]|].
  split; [apply elem_of_app; right; left|].
  apply exec_bind_done in H as (t5&u5&d&->&H5&H). destruct d as [dev'|e]; [|].
  - apply exec_bind_done in H as (t6&u6&x&->&H6&[-> _]). rewrite app_nil_r. destruct x as [[]|e].
    + left. apply pcr_extend_last in H6 as (urand&digest&r'&t7&->&Hr&Hin&Hl).
      exists dev', urand, digest, r', (t5 ++ t7). split; [app_eq|]. split; [done|]. split; [|done].
      apply elem_of_app. by right.
    + right. right. by exists t5, t6, dev', e.
  - destruct H as [-> _]. right. left. exists e. by rewrite app_nil_r.
Qed.

End sent.

(** ** A TPM that is sealed to and unsealed from *)

Lemma created_data parent data digest :
  len data < U16 -> tpm2b_at (create_command parent data digest) 31 = Val data.
Proof.
  intros H. set (rest := tpm2b (sealed_object_template digest) ++ tpm2b [] ++ to_be 4 0).
  apply (tpm2b_at_encode _ (to_be 2 TPM_ST_SESSIONS ++ to_be 4 (10 + len (create_body parent data digest)) ++
    to_be 4 TPM2_CC_CREATE ++ to_be 4 parent ++ auth_area (session_auth TPM_RS_PW) ++
    to_be 2 (len (tpm2b [] ++ tpm2b data)) ++ tpm2b []) data rest); [|vm_compute|done].
  - unfold create_command, command, create_body, rest. unfold tpm2b at 1. app_eq.
  - done.
Qed.

(** The commands of a trace that create an object, and the answers to those
    that unseal one, carry the data [d]. *)
Definition creates (d : list byte) (v : event sysE) : bool :=
  match v with
  | @Ev _ A e x => match e with
      | FileWriteAll _ c => negb (bool_decide (get_u32 c 6 = Val TPM2_CC_CREATE)) ||
                            ((len c <? U16) && bool_decide (tpm2b_at c 31 = Val d))
      | _ => true end
  end.
Definition unseals (d : list byte) (x : list byte * list byte) : bool :=
  negb (bool_decide (get_u32 x.1 6 = Val TPM2_CC_UNSEAL)) || bool_decide (tpm2b_at x.2 14 = Val d).

Lemma persisted_created d h handle data :
  forallb (creates d) h = true -> persisted h handle data -> data = d.
Proof.
  intros H (dev&parent&digest&priv&pub&loaded&r1&r2&r3&h0&h1&h2&h3&->&_).
  rewrite !forallb_app in H. apply andb_prop in H as [_ H]. apply andb_prop in H as [H _].
  apply andb_prop in H as [H _]. cbn [creates] in H.
  rewrite (is_command_code TPM2_CC_CREATE) in H; [|apply command_is|vm_compute; intuition discriminate].
  rewrite bool_decide_eq_true_2 in H by done. cbn [negb orb] in H. bool_prop.
  assert (len data < U16) as Hl.
  { pose proof (len_nonneg (auth_area (session_auth TPM_RS_PW))). pose proof (len_nonneg (sealed_object_template digest)).
    revert H. unfold create_command, command, create_body. intros H.
    rewrite ?len_app, ?len_tpm2b, ?len_to_be, ?len_app, ?len_tpm2b, ?len_nil in H. lia. }
  rewrite created_data in H0 by done. apply bool_decide_eq_true in H0. by injection H0.
Qed.

Lemma vault_answered d h t :
  forallb (creates d) (h ++ t) = true ->
  forallb (unseals d) (tpm_replies (last_command h) t) = true -> answered tpm_vault h t.
Proof.
  revert h. induction t as [|v t IH]; intros h Hc Hu; [apply answered_nil|].
  cbn [tpm_replies] in Hu. rewrite forallb_app in Hu. apply andb_prop in Hu as [Hv Hu].
  apply answered_step.
  - destruct v as [A e x]. destruct e; try done. cbn in *. intros rsp handle session data -> El H0 Hp.
    rewrite El in Hv. cbn in Hv. unfold unseals in Hv. cbn [fst snd] in Hv.
    rewrite (is_command_code TPM2_CC_UNSEAL) in Hv; [|apply command_is|vm_compute; intuition discriminate].
    rewrite bool_decide_eq_true_2 in Hv by done. cbn in Hv. rewrite andb_true_r in Hv.
    apply bool_decide_eq_true in Hv. rewrite forallb_app in Hc. apply andb_prop in Hc as [Hc _].
    by apply (persisted_created d) in Hp as ->.
  - apply IH; [by rewrite <- (assoc_L app)|]. unfold last_command. by rewrite foldl_snoc.
Qed.

Lemma sealed_secret_unlocks_witness :
  outcome_of fresh_tpm (cmd_seal "key" Secure None) = Done (Ok tt) /\
  outcome_of (sealing_tpm (as_bytes "secc:key")) (unseal_key true) = Done (Ok (as_bytes "key")).
Proof.
  assert (outcome_of fresh_tpm (cmd_seal "key" Secure None) = Done (Ok tt)) as H1 by (vm_compute; reflexivity).
  split; [exact H1|].
  destruct (outcome_of (sealing_tpm (as_bytes "secc:key")) (unseal_key true)) as [[key|e]|s] eqn:H2;
    [|vm_compute in H2; discriminate H2..].
  rewrite (sealed_secret_unlocks "key" Secure _ [] _ key (toy_exec _ _ _ H1) (Forall_nil_2 _) (toy_exec _ _ _ H2));
    [reflexivity|].
  apply (vault_answered (as_bytes "secc:key")).
  - vm_compute. reflexivity.
  - vm_compute. reflexivity.
Defined.

(** An unlocking by a TPM that also answers the extension. *)
Definition extending_machine : world :=
  set_dev tpm_machine (<["/dev/urandom" := [zeros 32]]> (<[TPM_DEVICE :=
    [response TPM_ST_NO_SESSIONS (to_be 4 0x03000000); response TPM_ST_NO_SESSIONS [];
     response TPM_ST_NO_SESSIONS (tpm2b (zeros 32));
     response TPM_ST_SESSIONS (to_be 4 2 ++ tpm2b (as_bytes "secc:k") ++ zeros 5);
     response TPM_ST_SESSIONS []]]> ∅)).
Definition extending_run : hist sysE * outcome (result unit string) * world :=
  run unlocking_os (unlock_c_with_tpm "/z/c" true) extending_machine.

Lemma tpm_unlock_extends_pcr_witness :
  extending_run.1.2 = Done (Ok tt) /\
  Ev (FileWriteAll 5 (extend_command 7 (zeros 32))) (Ok tt) ∈ drop (length extending_run.1.1 - 2) extending_run.1.1 /\
  exists dev session r pre rest,
    extending_run.1.1 = pre ++ exchange dev (unseal_command (sealed_handle true) session) r ++ rest.
Proof.
  assert (extending_run.1.2 = Done (Ok tt)) as Ho by (vm_compute; reflexivity).
  split; [exact Ho|]. split; [vm_compute; left|].
  destruct (tpm_unlock_extends_pcr "/z/c" true extending_run.1.1) as (dev&session&r&pre&mid&post&Ht&_).
  - rewrite <- Ho. exact (run_is_exec unlocking_os (unlock_c_with_tpm "/z/c" true) extending_machine).
  - exists dev, session, r, pre, (mid ++ post). exact Ht.
Defined.
