(* ===== verification/TpmPolicy.v ===== *)
(** What sealing guarantees on a TPM ([src/main.rs], [src/boot.rs],
    [src/tpm2.rs] against the abstract TPM of [TpmModel.v]): a secret opens with
    the PCR 7 that it was sealed to and with no other, and the boot that used it
    cannot be made to reveal it again.  Both are reductions: where they fail, it
    is because given strings of the execution collide in the hash of the TPM, or
    because extending PCR 7 brought it back to a value that it had. *)

From S2P Require Import Prelude Prog Str PathLib Sys World Verity Efi Verify Tpm TpmModel Fscrypt Cmd Mount Boot Calm BootSpec BootSteps BootMachine BootClock BootLive Main SealVault.

Section policy.
Context `{X : Externals} `{AG : Age} `{RC : Recovery}.
Variable tpm_hash : list byte -> list byte.
Abbreviation talks := (talks tpm_hash).
Abbreviation bus_run := (bus_run tpm_hash).

(** Two given strings collide; two given values of PCR 7 have the same policy
    only when one of two given pairs of strings does. *)
Definition collide (x y : list byte) : Prop := x <> y /\ tpm_hash x = tpm_hash y.
Definition policies_clash (p q : list byte) : Prop :=
  collide p q \/ collide (policy_input tpm_hash (zeros 32) p) (policy_input tpm_hash (zeros 32) q).
(** PCR 7 was extended at least once, and has the value that it had before. *)
Definition pcr_came_back (s s' : tpm) : Prop :=
  exists d ds, pcr7 s' = extend_all tpm_hash (pcr7 s) (d :: ds) /\ pcr7 s' = pcr7 s.

(** The boot could not extend PCR 7: the trace ends with the failure to open
    the TPM again, or with the failure of the extension. *)
Definition extension_failed (t : hist sysE) : Prop :=
  exists pre post e, t = pre ++ post /\
    (exec open_tpm post (Done (Err e)) \/ exists dev, exec (pcr_extend dev 7) post (Done (Err e))).

(** ** PCR 7 between two resets of the platform *)

#[export] Instance later_preorder : PreOrder (later tpm_hash).
Proof.
  split.
  - intros s. exists []. cbn. split; [done|]. unfold len. cbn. lia.
  - intros s1 s2 s3 (d1&E1&U1) (d2&E2&U2). exists (d1 ++ d2). split; [|len_tac].
    unfold extend_all in *. by rewrite foldl_app, <- E1.
Qed.

Lemma later_same s s' : pcr7 s' = pcr7 s -> updates s' = updates s -> later tpm_hash s s'.
Proof. intros E U. exists []. cbn. split; [done|]. rewrite U. unfold len. cbn. lia. Qed.

Lemma later_next s q rsp s' : tpm_next tpm_hash s q rsp = Some s' -> later tpm_hash s s'.
Proof.
  intros H. destruct q; cbn in H;
    repeat first [case_match; try done|apply bind_Some in H as (?&_&H)]; simplify_eq; try by apply later_same.
  exists [digest]. split; [done|]. cbn. unfold len. cbn. lia.
Qed.

Lemma later_step s q rsp s' : tpm_step tpm_hash s q rsp s' -> later tpm_hash s s'.
Proof.
  unfold tpm_step. destruct (succeeded rsp); [|intros ->; by apply later_same].
  destruct q; try apply later_next. done.
Qed.

Lemma later_lost s cmd s' : lost tpm_hash s cmd s' -> later tpm_hash s s'.
Proof. intros [->|(rsp&H)]; [done|by eapply later_step]. Qed.

Lemma later_bus b v b' : bus_step tpm_hash b v b' -> later tpm_hash (chip b) (chip b').
Proof.
  destruct v as [A e x]. destruct e; cbn; try (by intros ->).
  - destruct (sent b) as [cmd|]; [|by intros ->]. intros [_ H].
    destruct x; [by eapply later_step|by eapply later_lost].
  - destruct x; [by intros ->|]. intros [_ H]. by eapply later_lost.
Qed.

Lemma later_run b t b' : bus_run b t b' -> later tpm_hash (chip b) (chip b').
Proof. induction 1 as [b|b v b1 t b2 Hv _ IH]; [done|]. etrans; [|exact IH]. by eapply later_bus. Qed.

Lemma pcr_policy_inj p q : pcr_policy tpm_hash p = pcr_policy tpm_hash q -> p = q \/ policies_clash p q.
Proof.
  intros H. destruct (decide (p = q)) as [|Hne]; [by left|right].
  destruct (decide (tpm_hash p = tpm_hash q)) as [E|E]; [by left|right]. split; [|exact H].
  intros Hs. apply E. by do 3 apply app_inv_head in Hs.
Qed.

(** ** Sealing and unsealing, by the state of the TPM *)

Hypothesis hash_length : forall d, len (tpm_hash d) = SHA256_DIGEST_SIZE.

(** The four steps that both start with: the session has the policy of PCR 7. *)
Lemma talks_policy_session dev b h b1 b2 d b3 :
  talks b (start_policy_session dev) (Done (Ok h)) b1 -> talks b1 (policy_pcr dev h) (Done (Ok tt)) b2 ->
  talks b2 (policy_get_digest dev h) (Done (Ok d)) b3 ->
  0 <= h < U32 /\ d = pcr_policy tpm_hash (pcr7 (chip b)) /\
  chip b3 = set_sessions (chip b) (<[h := Session false d (Some (updates (chip b)))]> (sessions (chip b))).
Proof.
  intros H1 H2 H3. apply talks_start in H1 as [Hh E1]; [|done].
  eapply talks_policy_pcr in H2; [|done|rewrite E1; apply lookup_insert_eq].
  eapply talks_get_digest in H3 as [-> E3]; [|done|rewrite H2; apply lookup_insert_eq].
  split; [done|]. cbn [ses_digest]. rewrite E1. split; [done|].
  rewrite E3, H2, E1. unfold set_sessions. cbn. by rewrite insert_insert_eq.
Qed.

Lemma talks_open b dev b1 : talks b open_tpm (Done (Ok dev)) b1 -> b1 = b.
Proof. apply talks_silent. apply quiet_with_err. done. Qed.

Lemma unseal_talks handle pre nm b key b' :
  0 <= handle < U32 -> talks b (unseal_key_from_handle handle pre nm) (Done (Ok key)) b' ->
  pcr7 (chip b') = pcr7 (chip b) /\ persistent (chip b') = persistent (chip b) /\
  exists o, object_at (chip b) handle = Some o /\ obj_data o = pre ++ key /\
    (user_with_auth o = true \/ obj_policy o = pcr_policy tpm_hash (pcr7 (chip b))).
Proof.
  intros Hr H. apply talks_try_ok in H as (dev&b0&H0&H). apply talks_open in H0 as ->.
  apply talks_try_ok in H as (h&b1&H1&H). apply talks_try_ok in H as ([]&b2&H2&H).
  apply talks_try_ok in H as (d&b3&H3&H). destruct (talks_policy_session _ _ _ _ _ _ _ H1 H2 H3) as (Hh&->&E3).
  apply talks_try_ok in H as (data&b4&H4&H). apply talks_ret in H as [[= Hs] ->].
  apply talks_unseal in H4 as (o&Ho&Ha&->&E4); [|done..].
  unfold strip_tpm_prefix in Hs. destruct (bytes_strip_prefix pre (obj_data o)) as [k|] eqn:Ek; [|done].
  injection Hs as ->. apply bytes_strip_prefix_ok in Ek.
  rewrite E4, E3. split; [done|]. split; [done|]. exists o. rewrite E3 in Ho, Ha. split; [exact Ho|]. split; [done|].
  unfold authorised in Ha. apply orb_prop in Ha as [Ha|Ha]; [by left|right].
  cbn [sessions set_sessions] in Ha. rewrite lookup_insert_eq in Ha. bool_prop.
  match goal with H : bool_decide _ = true |- _ => apply bool_decide_eq_true in H; by symmetry end.
Qed.

Lemma seal_talks secret mode b b' :
  talks b (cmd_seal secret mode None) (Done (Ok tt)) b' ->
  pcr7 (chip b') = pcr7 (chip b) /\
  persistent (chip b') !! persistent_handle mode =
    Some (Object (pcr_policy tpm_hash (pcr7 (chip b))) SEALED_OBJ_ATTRS (prefix mode ++ as_bytes secret)).
Proof.
  intros H. apply talks_try_ok in H as (dev&b0&H0&H). apply talks_open in H0 as ->.
  apply talks_try_ok in H as (h&b1&H1&H). apply talks_try_ok in H as ([]&b2&H2&H).
  apply talks_try_ok in H as (d&b3&H3&H). destruct (talks_policy_session _ _ _ _ _ _ _ H1 H2 H3) as (Hh&->&E3).
  apply talks_try_ok in H as ([]&b4&H4&H). apply talks_flush in H4; [|done].
  set (policy := pcr_policy tpm_hash (pcr7 (chip b))) in *.
  assert (len policy <= 4084) as Hl by (unfold policy, pcr_policy, policy_next; by rewrite hash_length).
  apply talks_try_ok in H as ([priv pub]&b5&H5&H).
  apply talks_create in H5 as (Hv&Hp&E5); [|done|done].
  apply talks_try_ok in H as (o&b6&H6&H).
  eapply talks_load in H6 as [Ho E6]; [|done|done|done|rewrite E5; cbn; by rewrite decide_True].
  apply talks_bind_done in H as ([]&b7&H7&H).
  assert (0 <= persistent_handle mode < U32) as Hm by (by destruct mode).
  apply talks_try_evict in H7; [|done|by eexists].
  apply talks_try_ok in H as ([]&b8&H8&H). apply talks_ret in H as [_ ->].
  eapply talks_evict in H8; [|done|done|rewrite H7, E6; apply lookup_insert_eq].
  rewrite H8. cbn. split; [by rewrite H7, E6, E5, H4, E3|]. apply lookup_insert_eq.
Qed.

Lemma extend_talks dev b b' :
  talks b (pcr_extend dev 7) (Done (Ok tt)) b' ->
  exists d, pcr7 (chip b') = extend tpm_hash (pcr7 (chip b)) d.
Proof.
  intros H. apply talks_try_ok in H as (urand&b1&H1&H). apply talks_silent in H1 as ->; [|by apply quiet_with_err].
  apply talks_try_ok in H as (d&b2&H2&H). assert (len d = SHA256_DIGEST_SIZE) as Hd.
  { destruct H2 as (t&H2&_). apply exec_boxed_ok in H2. apply exec_try_ok in H2 as (t1&t2&x&->&_&H2).
    destruct (Z.eqb_spec (len x) SHA256_DIGEST_SIZE); [|by destruct H2]. by destruct H2 as [_ [= ->]]. }
  apply talks_silent in H2 as ->; [|apply quiet_boxed, quiet_try; [done|intros x; by destruct (len x =? _)]].
  apply talks_extend in H as [H _]; [|done]. by exists d.
Qed.

(** ** Properties *)

(** C11: A secret is bound to PCR 7: on any TPM that works as the abstract one,
    if [initos seal] succeeded and the TPM later, possibly many boots later,
    still holds the object, then a key that the boot unseals in that mode is
    the secret that was sealed, and PCR 7 is what it was when the secret was
    sealed; the alternative is a collision of the hash of the TPM, between the
    two values of PCR 7 or between the two policies made of them. *)
Theorem sealed_to_pcr (secret : string) (mode : SealMode) (b0 b1 b2 b3 : bus) (key : list byte) :
  talks b0 (cmd_seal secret mode None) (Done (Ok tt)) b1 ->
  persistent (chip b2) !! persistent_handle mode = persistent (chip b1) !! persistent_handle mode ->
  talks b2 (unseal_key (is_secure mode)) (Done (Ok key)) b3 ->
  key = as_bytes secret /\ (pcr7 (chip b2) = pcr7 (chip b0) \/ policies_clash (pcr7 (chip b0)) (pcr7 (chip b2))).
Proof.
  intros Hs Hp Hu. apply seal_talks in Hs as [_ Ho]. rewrite Ho in Hp.
  assert (talks b2 (unseal_key_from_handle (persistent_handle mode) (prefix mode) (name mode)) (Done (Ok key)) b3)
    as Hk by by destruct mode.
  apply unseal_talks in Hk as (_&_&o&Hat&Hd&Hauth); [|by destruct mode].
  unfold object_at in Hat. rewrite Hp in Hat. injection Hat as <-. cbn in Hd, Hauth.
  apply app_inv_head in Hd. split; [done|]. destruct Hauth as [Hauth|Hauth]; [done|].
  apply pcr_policy_inj in Hauth as [E|Hc]; auto.
Qed.

Lemma unseal_key_talks verified b key b' :
  talks b (unseal_key verified) (Done (Ok key)) b' ->
  pcr7 (chip b') = pcr7 (chip b) /\
  exists o, object_at (chip b) (sealed_handle verified) = Some o /\
    (user_with_auth o = true \/ obj_policy o = pcr_policy tpm_hash (pcr7 (chip b))).
Proof.
  intros H. assert (talks b (unseal_key_from_handle (sealed_handle verified) (sealed_prefix verified)
    (if verified then "secure" else "dev")) (Done (Ok key)) b') as Hk by by destruct verified.
  apply unseal_talks in Hk as (Hp&_&o&Ho&_&Ha); [|by destruct verified]. split; [done|]. by exists o.
Qed.

(** What the unlocking of [/c] by the TPM does to PCR 7. *)
Lemma unlock_talks c_dir verified b0 t b1 :
  exec (unlock_c_with_tpm c_dir verified) t (Done (Ok tt)) -> bus_run b0 t b1 ->
  (exists key b, talks b0 (unseal_key verified) (Done (Ok key)) b) /\
  ((exists d, pcr7 (chip b1) = extend tpm_hash (pcr7 (chip b0)) d) \/ extension_failed t).
Proof.
  intros H Hr. apply exec_try_ok in H as (ta&tb&key&->&Ha&H). apply bus_run_app in Hr as (bA&Hra&Hr).
  assert (talks b0 (unseal_key verified) (Done (Ok key)) bA) as HA by by exists ta.
  split; [by eexists _, _|]. apply unseal_key_talks in HA as [<- _].
  apply exec_try_ok in H as (tc&td&[]&->&Hc&H). apply bus_run_app in Hr as (bC&Hrc&Hr).
  assert (bC = bA) as ->.
  { eapply talks_silent; [|by exists tc]. eapply tame_quiet with (fin := crash). tame_tac. }
  apply exec_bind_done in H as (te&tf&u&->&He&H). apply bus_run_app in Hr as (bE&Hre&Hr).
  assert (bE = bA) as -> by (eapply (talks_silent _ (c_is_unlocked c_dir)); [|by exists te]; done).
  destruct u; [|by destruct H]. cbn [negb] in H.
  apply exec_bind_done in H as (tg&th&r&->&Hg&H). apply bus_run_app in Hr as (bG&Hrg&Hr).
  destruct r as [dev|e].
  - assert (bG = bA) as -> by (eapply talks_open; by exists tg).
    apply exec_bind_done in H as (ti&tj&r&->&Hi&[-> _]). rewrite app_nil_r in *.
    destruct r as [[]|e]; [left; eapply extend_talks; by exists ti|].
    right. exists (ta ++ tc ++ te ++ tg), ti, e. split; [app_eq|]. right. by exists dev.
  - destruct H as [-> _]. right. exists (ta ++ tc ++ te), tg, e. split; [rewrite app_nil_r; app_eq|by left].
Qed.

(** C12: A secret is used once per boot: when the TPM unlocked [/c] with an
    object that does not open with a password (as [initos seal] makes them),
    then, whatever any software sends to the TPM afterwards in the same boot, if
    the object is still the same, unsealing it again does not give a key --
    unless the boot could not extend PCR 7 (the trace of the unlocking ends with
    the failure), or the extensions brought PCR 7 back to its value, or that
    value and the new one collide in the hash of the TPM. *)
Theorem unsealed_once (c_dir : string) (verified : bool) (ob : object) (t later_t : hist sysE)
    (b0 b1 b2 b3 : bus) (o : outcome (result (list byte) string)) :
  persistent (chip b0) !! sealed_handle verified = Some ob -> user_with_auth ob = false ->
  exec (unlock_c_with_tpm c_dir verified) t (Done (Ok tt)) -> bus_run b0 t b1 -> bus_run b1 later_t b2 ->
  persistent (chip b2) !! sealed_handle verified = Some ob ->
  talks b2 (unseal_key verified) o b3 ->
  (forall key, o <> Done (Ok key)) \/ extension_failed t \/ pcr_came_back (chip b0) (chip b2) \/
  policies_clash (pcr7 (chip b0)) (pcr7 (chip b2)).
Proof.
  intros Hob Hna Hu Hr Hlater Hkept H2.
  destruct (unlock_talks _ _ _ _ _ Hu Hr) as [(key&b&H1) [[d Hd]|Hf]]; [|by right; left].
  apply unseal_key_talks in H1 as (_&o1&Ho1&Ha1). unfold object_at in Ho1. rewrite Hob in Ho1. injection Ho1 as <-.
  destruct o as [[key2|e]|s]; [|by left..]. right. right.
  apply unseal_key_talks in H2 as (_&o2&Ho2&Ha2). unfold object_at in Ho2. rewrite Hkept in Ho2. injection Ho2 as <-.
  destruct Ha1 as [Ha1|Ha1]; [by rewrite Ha1 in Hna|]. destruct Ha2 as [Ha2|Ha2]; [by rewrite Ha2 in Hna|].
  rewrite Ha1 in Ha2. apply pcr_policy_inj in Ha2 as [E|Hc]; [left|by right].
  apply later_run in Hlater as (ds&Hds&_). exists d, ds. split; [by rewrite Hds, Hd|done].
Qed.

End policy.

(** ** Witnesses *)

(** A hash that reverses, and TPMs that answer with it. *)
Definition rev_hash (d : list byte) : list byte := take 32 (rev d ++ zeros 32).
Lemma rev_hash_length d : len (rev_hash d) = SHA256_DIGEST_SIZE.
Proof. unfold rev_hash, len, zeros, SHA256_DIGEST_SIZE. rewrite length_take, length_app, length_replicate. lia. Qed.

Definition pcr_at_start : list byte := map (fun n => z2b (Z.of_nat n)) (seq 1 32).
Definition random_digest : list byte := replicate 32 x2a.
Definition new_bus : bus := Bus (Tpm pcr_at_start 0 ∅ [] ∅ ∅) None.

(** The answers to a session with the policy of the PCR value [p]. *)
Definition session_answers (p : list byte) : list (list byte) :=
  [response TPM_ST_NO_SESSIONS (to_be 4 0x03000000); response TPM_ST_NO_SESSIONS [];
   response TPM_ST_NO_SESSIONS (tpm2b (pcr_policy rev_hash p))].
Definition seal_answers : list (list byte) :=
  session_answers pcr_at_start ++
  [response TPM_ST_NO_SESSIONS [];
   response TPM_ST_SESSIONS (to_be 4 8 ++ tpm2b [x01; x02] ++ tpm2b [x03; x04]);
   response TPM_ST_SESSIONS (to_be 4 0x80000001 ++ zeros 8);
   response TPM_ST_SESSIONS []; response TPM_ST_SESSIONS []].
Definition unseal_answer : list byte := response TPM_ST_SESSIONS (to_be 4 2 ++ tpm2b (as_bytes "secc:key") ++ zeros 5).
Definition policy_fail : list byte := to_be 2 TPM_ST_NO_SESSIONS ++ to_be 4 10 ++ to_be 4 0x99d.
Definition tpm_world (answers : list (list byte)) : world :=
  set_dev tpm_machine (<["/dev/urandom" := [random_digest]]> (<[TPM_DEVICE := answers]> ∅)).

Definition seal_world : world := tpm_world seal_answers.
Definition seal_end : bus := default new_bus (bus_after rev_hash new_bus (trace_of seal_world (cmd_seal "key" Secure None))).
Definition reveal_world : world := tpm_world (session_answers pcr_at_start ++ [unseal_answer]).
Definition reveal_end : bus := default new_bus (bus_after rev_hash seal_end (trace_of reveal_world (unseal_key true))).

Lemma sealed_to_pcr_witness :
  outcome_of seal_world (cmd_seal "key" Secure None) = Done (Ok tt) /\
  outcome_of reveal_world (unseal_key true) = Done (Ok (as_bytes "key")) /\
  (pcr7 (chip seal_end) = pcr7 (chip new_bus) \/ policies_clash rev_hash (pcr7 (chip new_bus)) (pcr7 (chip seal_end))).
Proof.
  assert (outcome_of seal_world (cmd_seal "key" Secure None) = Done (Ok tt)) as H1 by (vm_compute; reflexivity).
  assert (outcome_of reveal_world (unseal_key true) = Done (Ok (as_bytes "key"))) as H2 by (vm_compute; reflexivity).
  split; [exact H1|]. split; [exact H2|].
  apply (sealed_to_pcr rev_hash rev_hash_length "key" Secure new_bus seal_end seal_end reveal_end (as_bytes "key")).
  - exists (trace_of seal_world (cmd_seal "key" Secure None)). split; [exact (toy_exec _ _ _ H1)|].
    apply bus_after_run. vm_compute. reflexivity.
  - reflexivity.
  - exists (trace_of reveal_world (unseal_key true)). split; [exact (toy_exec _ _ _ H2)|].
    apply bus_after_run. vm_compute. reflexivity.
Defined.

(** The boot that unlocks, extends PCR 7, and is then refused the secret. *)
Definition extended_pcr : list byte := extend rev_hash pcr_at_start random_digest.
Definition unlock_world : world :=
  tpm_world (session_answers pcr_at_start ++ [unseal_answer; response TPM_ST_SESSIONS []]).
Definition unlock_once : hist sysE * outcome (result unit string) * world :=
  run unlocking_os (unlock_c_with_tpm "/z/c" true) unlock_world.
Definition unlock_end : bus := default new_bus (bus_after rev_hash seal_end unlock_once.1.1).
Definition refused_world : world := tpm_world (session_answers extended_pcr ++ [policy_fail]).
Definition refused_end : bus := default new_bus (bus_after rev_hash unlock_end (trace_of refused_world (unseal_key true))).

Lemma unsealed_once_witness :
  unlock_once.1.2 = Done (Ok tt) /\ pcr7 (chip unlock_end) = extended_pcr /\
  is_ok match outcome_of refused_world (unseal_key true) with Done r => r | Stopped _ => Err "" end = false /\
  ((forall key, outcome_of refused_world (unseal_key true) <> Done (Ok key)) \/ extension_failed unlock_once.1.1 \/
   pcr_came_back rev_hash (chip seal_end) (chip unlock_end) \/
   policies_clash rev_hash (pcr7 (chip seal_end)) (pcr7 (chip unlock_end))).
Proof.
  assert (unlock_once.1.2 = Done (Ok tt)) as H1 by (vm_compute; reflexivity).
  split; [exact H1|]. split; [vm_compute; reflexivity|]. split; [vm_compute; reflexivity|].
  apply (unsealed_once rev_hash "/z/c" true (Object (pcr_policy rev_hash pcr_at_start) SEALED_OBJ_ATTRS (as_bytes "secc:key"))
    unlock_once.1.1 [] seal_end unlock_end unlock_end refused_end).
  - vm_compute. reflexivity.
  - reflexivity.
  - rewrite <- H1. exact (run_is_exec unlocking_os (unlock_c_with_tpm "/z/c" true) unlock_world).
  - apply bus_after_run. vm_compute. reflexivity.
  - apply run_nil.
  - vm_compute. reflexivity.
  - exists (trace_of refused_world (unseal_key true)). split; [exact (toy_exec _ _ _ eq_refl)|].
    apply bus_after_run. vm_compute. reflexivity.
Defined.
