(* ===== verification/TpmLive.v ===== *)
(** Sealing and unsealing succeed ([src/main.rs], [src/boot.rs],
    [src/tpm2.rs]): on a TPM that carries out what it can, as the abstract TPM of
    [TpmModel.v] would, a secret that fits is sealed, and it is unsealed as long
    as the object is kept and PCR 7 is what it was. *)

From S2P Require Import Prelude Prog Str PathLib Sys World Verity Efi Verify Tpm TpmModel Fscrypt Cmd Mount Boot Calm BootSpec BootSteps BootMachine BootClock BootLive Main SealVault TpmPolicy.

(** ** A TPM that works *)

(** Handles of transient objects and of persistent ones of the owner. *)
Definition transient (h : Z) : bool := (0x80000000 <=? h) && (h <? 0x81000000).
Definition owner_persistent (h : Z) : bool := (0x81000000 <=? h) && (h <? 0x81800000).
(** The most that a sealed object holds (MAX_SYM_DATA). *)
Definition MAX_SEALED : Z := 128.

(** The requests that a TPM with room for a session and an object carries out. *)
Definition accepts (s : tpm) (q : request) : bool :=
  match q with
  | StartAuthSession _ => true
  | PolicyPCR h | PolicyGetDigest h => bool_decide (is_Some (sessions s !! h))
  | PCRExtend _ => true
  | Unseal h a => match object_at s h with Some o => authorised s a o | None => false end
  | Create o => len (obj_data o) <=? MAX_SEALED
  | Load priv pub => bool_decide (is_Some (blob_object (blobs s) (priv, pub)))
  | EvictControl obj h =>
      owner_persistent h &&
      match loaded s !! obj with
      | Some _ => bool_decide (persistent s !! h = None)
      | None => (obj =? h) && bool_decide (is_Some (persistent s !! h))
      end
  | FlushContext h => bool_decide (is_Some (sessions s !! h)) || bool_decide (is_Some (loaded s !! h))
  | DALockReset | OtherRequest => false
  end.

(** The handle of a loaded object is that of a transient one. *)
Definition loads_transient (q : request) (rsp : list byte) : bool :=
  match q, response_handle rsp with Load _ _, Val h => transient h | _, _ => true end.

Section working.
Variable tpm_hash : list byte -> list byte.
Abbreviation bus_after := (bus_after tpm_hash).
Abbreviation tpm_next := (tpm_next tpm_hash).

(** The answer [rsp] to [q] is one of a TPM in the state [s] that works: a
    success where it accepts the request, and either a success of the abstract
    TPM or a failure. *)
Definition replies (s : tpm) (q : request) (rsp : list byte) : bool :=
  (10 <=? len rsp) && (negb (accepts s q) || succeeded rsp) &&
  (negb (succeeded rsp) || bool_decide (is_Some (tpm_next s q rsp)) && loads_transient q rsp).

(** The device opens and takes every command, and the TPM behind it works. *)
Definition works (b : bus) (v : event sysE) : bool :=
  match v with
  | @Ev _ A e x => match e in sysE A return A -> bool with
      | FileOpen path _ => fun r => negb (path =? TPM_DEVICE)%string || is_ok r
      | FileWriteAll _ _ => fun r => is_ok r
      | FileRead _ cap => fun r => match sent b, r with
          | Some cmd, Ok rsp => replies (chip b) (decode cmd) (take (Z.to_nat cap) rsp)
          | Some _, Err _ => false
          | None, _ => true
          end
      | _ => fun _ => true
      end x
  end.

Definition working_tpm (b0 : bus) : protocol sysE :=
  Protocol (E := sysE) (fun _ _ _ => True)
    (fun h A e x => forall b, bus_after b0 h = Some b -> works b (Ev e x) = true).

(** After [h], the TPM is in the state [s]. *)
Definition at_state (b0 : bus) (h : hist sysE) (s : tpm) : Prop := exists c, bus_after b0 h = Some (Bus s c).

Lemma bus_after_snoc b h v : bus_after b (h ++ [v]) = bus_after b h ≫= fun b' => bus_next tpm_hash b' v.
Proof.
  revert b. induction h as [|w h IH]; intros b; cbn; [by destruct (bus_next _ _ _)|].
  destruct (bus_next tpm_hash b w); [apply IH|done].
Qed.

(** ** The transport *)

Section transport.
Context `{X : Externals}.
Context (b0 : bus).
Abbreviation W := (working_tpm b0).
Implicit Types (h : hist sysE) (s : tpm).

(** What a transaction does to the TPM in the state [s]. *)
Definition replied_to (s : tpm) (q : request) (h' : hist sysE) (rsp : list byte) : Prop :=
  replies s q rsp = true /\
  if succeeded rsp then exists s', tpm_next s q rsp = Some s' /\ at_state b0 h' s' else at_state b0 h' s.

Lemma at_state_quiet h s A (e : sysE A) x : silent A e -> at_state b0 h s -> at_state b0 (h ++ [Ev e x]) s.
Proof. intros He [c Hc]. exists c. rewrite bus_after_snoc, Hc. by destruct e. Qed.

Lemma wp_read_live dev cap cmd h s :
  bus_after b0 h = Some (Bus s (Some cmd)) ->
  wp W (read_some dev cap) h (fun h' o => exists rsp, o = Done (Ok rsp) /\ replied_to s (decode cmd) h' rsp).
Proof.
  intros H1. apply wp_try, wp_trigger; [done|]. intros r Hr. specialize (Hr _ H1).
  cbn [works assume working_tpm sent chip] in Hr. destruct r as [rsp|e]; [|done]. apply wp_ret.
  set (rsp' := take (Z.to_nat cap) rsp) in *. exists rsp'. split; [done|]. split; [done|].
  assert (forall s', tpm_after tpm_hash s (decode cmd) rsp' = Some s' ->
    at_state b0 (h ++ [Ev (FileRead dev cap) (Ok rsp)]) s') as Hat.
  { intros s' Hs'. exists None. rewrite bus_after_snoc, H1. cbn [mbind option_bind bus_next sent chip].
    fold rsp'. by rewrite Hs'. }
  clearbody rsp'. unfold tpm_after in Hat. unfold replies in Hr.
  destruct (succeeded rsp'); [|by apply Hat]. cbn [negb orb] in Hr. bool_prop.
  match goal with H : bool_decide _ = true |- _ => apply bool_decide_eq_true in H as [s' Hs'] end.
  exists s'. split; [done|by apply Hat].
Qed.

Lemma wp_exchange {B} dev cmd h s (f : list byte -> sys (result B string)) Q :
  at_state b0 h s ->
  (forall h' rsp, replied_to s (decode cmd) h' rsp -> wp W (f rsp) h' Q) ->
  wp W (let? _ := boxed (trigger (FileWriteAll dev cmd)) in
        let? rsp := boxed (read_some dev RSP_BUF_SIZE) in f rsp) h Q.
Proof.
  intros [c Hc] Hf. apply wp_try, wp_boxed, wp_trigger; [done|]. intros r Hr.
  specialize (Hr _ Hc). destruct r as [u|e]; [|done]. cbn [map_err]. set (h1 := h ++ _).
  assert (bus_after b0 h1 = Some (Bus s (Some cmd))) as H1 by (unfold h1; rewrite bus_after_snoc, Hc; done).
  clearbody h1. apply wp_try, wp_boxed. eapply wp_mono; [by apply wp_read_live|].
  intros h' o (rsp&->&Hr2). by apply Hf.
Qed.

Lemma next_reset s rsp s' : tpm_next s DALockReset rsp = Some s' -> s' = s.
Proof. by intros [= ->]. Qed.

(** The reset of the lockout changes nothing. *)
Lemma wp_reset_live dev h s :
  at_state b0 h s -> wp W (da_lock_reset_raw dev) h (fun h' o => exists u, o = Done u /\ at_state b0 h' s).
Proof.
  intros [c Hc]. destruct da_lock_reset_cmd as [cmd| |] eqn:E; [|by rewrite da_lock_reset_cmd_eq in E..].
  unfold da_lock_reset_raw. rewrite E. apply wp_bind, wp_lift, wp_bind, wp_trigger; [done|]. intros r Hr.
  specialize (Hr _ Hc). destruct r as [u|e]; [|done]. set (h1 := h ++ _).
  assert (bus_after b0 h1 = Some (Bus s (Some cmd))) as H1 by (unfold h1; rewrite bus_after_snoc, Hc; done).
  clearbody h1. apply wp_bind. eapply wp_mono; [by apply (wp_read_live dev RSP_BUF_SIZE cmd)|].
  intros h' o (rsp&->&_&Hr2). apply wp_ret. exists tt. split; [done|].
  rewrite (decode_da_lock_reset _ E) in Hr2. destruct (succeeded rsp); [|done].
  destruct Hr2 as (s'&Hn&Hs). by apply next_reset in Hn as ->.
Qed.

(** A transaction always returns an answer to the command that was given. *)
Lemma wp_transact_live n dev cmd h s :
  at_state b0 h s ->
  wp W (tpm_transact_go n dev cmd) h (fun h' o => exists rsp, o = Done (Ok rsp) /\
    replied_to s (decode cmd) h' rsp).
Proof.
  revert h. induction n as [|n IH]; intros h Hs; cbn [tpm_transact_go]; apply (wp_exchange _ _ _ s); [done| |done|].
  all: intros h1 rsp Hr; cbv zeta; pose proof Hr as (Hr1&Hr2); unfold replies in Hr1; bool_prop.
  all: rewrite (proj2 (Z.ltb_ge _ _)) by lia; apply wp_bind, wp_lift;
    unfold get_u32 at 1, read_be; rewrite slice_val by lia; mcbn; set (rc := be_of _).
  all: assert (get_u32 rsp 6 = Val rc) as Hrc by (unfold get_u32, read_be; rewrite slice_val by lia; done).
  all: destruct (retryable rc) eqn:Hretry; [|apply wp_ret; by exists rsp].
  { apply wp_ret. by exists rsp. }
  rewrite (retryable_failure rsp rc Hrc Hretry) in Hr2.
  assert (forall h2, at_state b0 h2 s -> wp W (do! trigger (ThreadSleep TPM_RETRY_DELAY_MS) in
    tpm_transact_go n dev cmd) h2 (fun h' o => exists rsp, o = Done (Ok rsp) /\ replied_to s (decode cmd) h' rsp)) as Hk.
  { intros h2 H2. apply wp_bind, wp_trigger; [done|]. intros u _. by apply IH, at_state_quiet. }
  apply wp_bind. destruct (rc =? TPM_RC_LOCKOUT); [|by apply wp_ret, Hk].
  eapply wp_mono; [by apply wp_reset_live|]. intros h2 o (u&->&H2). by apply Hk.
Qed.

(** ** The operations *)

Lemma wp_checked_live dev nm c cmd q h s :
  c = Val cmd -> decode cmd = q -> at_state b0 h s ->
  wp W (transact_checked dev nm c) h (fun h' o =>
    (exists rsp s', o = Done (Ok rsp) /\ tpm_next s q rsp = Some s' /\ loads_transient q rsp = true /\
       at_state b0 h' s') \/
    (exists e, o = Done (Err e) /\ accepts s q = false /\ at_state b0 h' s)).
Proof.
  intros -> <- Hs. apply wp_bind, wp_lift, wp_try. eapply wp_mono; [by apply wp_transact_live|].
  intros h1 o (rsp&->&Hr&Ha). apply andb_prop in Hr as [Hr Hn]. apply andb_prop in Hr as [Hm Hr].
  apply Z.leb_le in Hm.
  assert (exists rc, get_u32 rsp 6 = Val rc) as [rc Hrc]
    by (unfold get_u32, read_be; rewrite slice_val by lia; eexists; reflexivity).
  assert (succeeded rsp = (rc =? 0)) as Hsu.
  { unfold succeeded. rewrite Hrc. destruct (Z.eqb_spec rc 0) as [->|E]; [by apply bool_decide_eq_true_2|].
    apply bool_decide_eq_false_2. congruence. }
  apply wp_try. unfold check_response. rewrite Hrc, Hsu in *. mcbn. destruct (rc =? 0); cbn [negb orb] in *.
  - apply wp_ret. left. destruct Ha as (s'&Hn'&Hat). exists rsp, s'. by apply andb_prop in Hn as [_ Hn].
  - right. eexists. split; [done|]. split; [|done]. by destruct (accepts s (decode cmd)).
Qed.

(** What is accepted succeeds. *)
Lemma wp_parse_live {A} (parse : list byte -> comp A) (R : A -> tpm -> Prop) dev nm c cmd q h s :
  c = Val cmd -> decode cmd = q -> accepts s q = true -> at_state b0 h s ->
  (forall rsp s', tpm_next s q rsp = Some s' -> loads_transient q rsp = true ->
     exists a, parse rsp = Val a /\ R a s') ->
  wp W (parse_response parse (transact_checked dev nm c)) h (fun h' o =>
    exists a s', o = Done (Ok a) /\ R a s' /\ at_state b0 h' s').
Proof.
  intros Hc Hq Ha Hs Hp. apply wp_try. eapply wp_mono; [by eapply wp_checked_live|].
  intros h1 o [(rsp&s'&->&Hn&Ht&Hat)|(e&_&E&_)]; [|congruence].
  destruct (Hp _ _ Hn Ht) as (a&Hv&HR). rewrite Hv. apply wp_ret. by exists a, s'.
Qed.

Lemma wp_ignore_live (R : tpm -> Prop) dev nm c cmd q h s :
  c = Val cmd -> decode cmd = q -> accepts s q = true -> at_state b0 h s ->
  (forall rsp s', tpm_next s q rsp = Some s' -> R s') ->
  wp W (ignore_response (transact_checked dev nm c)) h (fun h' o =>
    exists s', o = Done (Ok tt) /\ R s' /\ at_state b0 h' s').
Proof.
  intros Hc Hq Ha Hs Hp. apply wp_try. eapply wp_mono; [by eapply wp_checked_live|].
  intros h1 o [(rsp&s'&->&Hn&Ht&Hat)|(e&_&E&_)]; [|congruence]. apply wp_ret. exists s'. eauto.
Qed.

Lemma wp_open_tpm_live h s :
  at_state b0 h s -> wp W open_tpm h (fun h' o => exists dev, o = Done (Ok dev) /\ at_state b0 h' s).
Proof.
  intros Hs. pose proof Hs as [c Hc]. apply wp_bind, wp_trigger; [done|]. intros r Hr. specialize (Hr _ Hc).
  destruct r as [dev|e]; [|done]. apply wp_ret. exists dev. split; [done|]. by apply at_state_quiet.
Qed.

(** The session with the policy of the PCR value of the moment. *)
Definition with_session (s : tpm) (ses : Z) : tpm :=
  set_sessions s (<[ses := Session false (pcr_policy tpm_hash (pcr7 s)) (Some (updates s))]> (sessions s)).

Lemma wp_policy_session {B} dev (f : Z -> list byte -> sys (result B string)) h s Q :
  at_state b0 h s ->
  (forall h' ses, 0 <= ses < U32 -> at_state b0 h' (with_session s ses) ->
     wp W (f ses (pcr_policy tpm_hash (pcr7 s))) h' Q) ->
  wp W (let? ses := start_policy_session dev in
        let? _ := policy_pcr dev ses in
        let? d := policy_get_digest dev ses in f ses d) h Q.
Proof.
  intros Hs Hf. apply wp_try. eapply wp_mono; [eapply (wp_parse_live _ (fun ses s' => 0 <= ses < U32 /\
    s' = set_sessions s (<[ses := Session false (zeros 32) None]> (sessions s))));
    [apply start_auth_session_cmd_eq|by eapply decode_start_auth_session, start_auth_session_cmd_eq|done|exact Hs|]|].
  { intros rsp s' Hn _. cbn in Hn. destruct (response_handle rsp) as [ses| |] eqn:E; [|done..].
    injection Hn as <-. exists ses. split; [done|]. split; [by eapply get_u32_range|done]. }
  intros h1 o (ses&s1&->&[Hr ->]&H1). apply wp_try.
  eapply wp_mono; [eapply (wp_ignore_live (fun s' => s' = with_session s ses));
    [apply policy_pcr_cmd_eq|by eapply decode_policy_pcr, policy_pcr_cmd_eq| |exact H1|]|].
  { cbn. rewrite lookup_insert_eq. by apply bool_decide_eq_true_2. }
  { intros rsp s' Hn. cbn in Hn. rewrite lookup_insert_eq in Hn. injection Hn as <-.
    unfold with_session, set_sessions. cbn. by rewrite insert_insert_eq. }
  intros h2 o (s2&->&->&H2). apply wp_try.
  eapply wp_mono; [eapply (wp_parse_live _ (fun d s' => d = pcr_policy tpm_hash (pcr7 s) /\ s' = with_session s ses));
    [apply handle_cmd_eq|by eapply decode_policy_get_digest, handle_cmd_eq| |exact H2|]|].
  { cbn. rewrite lookup_insert_eq. by apply bool_decide_eq_true_2. }
  { intros rsp s' Hn _. cbn in Hn. rewrite lookup_insert_eq in Hn. cbn in Hn. case_bool_decide as E; [|done].
    injection Hn as <-. by eexists. }
  intros h3 o (d&s3&->&[-> ->]&H3). by apply Hf.
Qed.

(** ** Unsealing *)

Lemma wp_unseal_key_live handle pre nm data h s :
  0 <= handle < U32 ->
  persistent s !! handle = Some (Object (pcr_policy tpm_hash (pcr7 s)) SEALED_OBJ_ATTRS (pre ++ data)) ->
  at_state b0 h s ->
  wp W (unseal_key_from_handle handle pre nm) h (fun _ o => o = Done (Ok data)).
Proof.
  intros Hh Ho Hs. apply wp_try. eapply wp_mono; [by apply wp_open_tpm_live|]. intros h1 o (dev&->&H1).
  apply (wp_policy_session _ (fun ses _ => let? secret := unseal dev handle ses in
    mret (strip_tpm_prefix secret pre nm)) _ s); [done|].
  intros h2 ses Hr H2. apply wp_try.
  assert (object_at (with_session s ses) handle =
    Some (Object (pcr_policy tpm_hash (pcr7 s)) SEALED_OBJ_ATTRS (pre ++ data))) as Hat
    by (unfold object_at; cbn; by rewrite Ho).
  assert (authorised (with_session s ses) ses (Object (pcr_policy tpm_hash (pcr7 s)) SEALED_OBJ_ATTRS (pre ++ data)) = true)
    as Hau.
  { unfold authorised. apply orb_true_iff. right. cbn. rewrite lookup_insert_eq. cbn.
    by rewrite bool_decide_eq_true_2, Z.eqb_refl. }
  eapply wp_mono; [eapply (wp_parse_live _ (fun d _ => d = pre ++ data));
    [apply unseal_cmd_eq|by eapply decode_unseal, unseal_cmd_eq| |exact H2|]|].
  { cbn [accepts]. by rewrite Hat. }
  { intros rsp s' Hn _. cbn [TpmModel.tpm_next] in Hn. rewrite Hat in Hn. cbn [mbind option_bind] in Hn.
    rewrite Hau in Hn. cbn [andb] in Hn. case_bool_decide as E; [|done]. by eexists. }
  intros h3 o (d&s3&->&->&_). apply wp_ret. unfold strip_tpm_prefix. by rewrite bytes_strip_prefix_app.
Qed.

(** ** Sealing *)

Hypothesis hash_length : forall d, len (tpm_hash d) = SHA256_DIGEST_SIZE.

Definition loads_ok (s : tpm) : Prop := forall l : Z, is_Some (loaded s !! l) -> transient l = true.
(** The state of the policy and of the persistent objects is that of [s]. *)
Definition unsealed_yet (s s' : tpm) : Prop :=
  pcr7 s' = pcr7 s /\ persistent s' = persistent s /\ loads_ok s'.

Lemma wp_flush_live dev ses h s :
  0 <= ses < U32 -> loads_ok s -> at_state b0 h (with_session s ses) ->
  wp W (flush_context dev ses) h (fun h' o => exists s', o = Done (Ok tt) /\ unsealed_yet s s' /\ at_state b0 h' s').
Proof.
  intros Hr Hl Hs. eapply (wp_ignore_live (unsealed_yet s));
    [apply handle_cmd_eq|by eapply decode_flush_context, handle_cmd_eq| |exact Hs|].
  - cbn. rewrite lookup_insert_eq. apply orb_true_iff. left. by apply bool_decide_eq_true_2.
  - intros rsp s' Hn. cbn in Hn. injection Hn as <-. split_and!; [done..|]. intros l Hin. apply Hl. cbn in Hin.
    destruct Hin as [ob Hin]. apply lookup_delete_Some in Hin as [_ Hin]. by exists ob.
Qed.

Lemma wp_create_live dev data policy h s :
  len data <= MAX_SEALED -> len policy = SHA256_DIGEST_SIZE -> loads_ok s -> at_state b0 h s ->
  wp W (create dev DEFAULT_PRIMARY_HANDLE data policy) h (fun h' o => exists b s',
    o = Done (Ok b) /\ (sized b.1 /\ sized b.2 /\
      blob_object (blobs s') (b.1, b.2) = Some (Object policy SEALED_OBJ_ATTRS data) /\ unsealed_yet s s') /\
    at_state b0 h' s').
Proof.
  unfold MAX_SEALED, SHA256_DIGEST_SIZE. intros Hd Hp Hl Hs. pose proof (len_nonneg data).
  assert (create_cmd DEFAULT_PRIMARY_HANDLE data policy = Val (command TPM_ST_SESSIONS TPM2_CC_CREATE
    (create_body DEFAULT_PRIMARY_HANDLE data policy))) as Hc by (apply create_cmd_eq; unfold U16; lia).
  eapply wp_parse_live; [exact Hc|eapply decode_create, Hc; unfold U16; first [done|lia]| |exact Hs|].
  - cbn. unfold MAX_SEALED. lia.
  - intros rsp s' Hn _. cbn in Hn. destruct (created_blobs rsp) as [[priv pub]| |] eqn:E; [|done..].
    injection Hn as <-. exists (priv, pub). pose proof (created_blobs_sized _ _ _ E) as [??].
    cbn. by rewrite decide_True.
Qed.

Lemma wp_load_object_live dev priv pub ob h s :
  sized priv -> sized pub -> blob_object (blobs s) (priv, pub) = Some ob -> at_state b0 h s ->
  wp W (load dev DEFAULT_PRIMARY_HANDLE priv pub) h (fun h' o => exists l s', o = Done (Ok l) /\
    (transient l = true /\ s' = set_loaded s (<[l := ob]> (loaded s))) /\ at_state b0 h' s').
Proof.
  intros Hv Hb Ho Hs.
  assert (load_cmd DEFAULT_PRIMARY_HANDLE priv pub = Val (command TPM_ST_SESSIONS TPM2_CC_LOAD
    (to_be 4 DEFAULT_PRIMARY_HANDLE ++ auth_area (session_auth TPM_RS_PW) ++ priv ++ pub))) as Hc.
  { destruct Hv as (v&->&?), Hb as (u&->&?). apply load_cmd_eq. in_range. }
  eapply wp_parse_live; [exact Hc|by eapply decode_load, Hc| |exact Hs|].
  - cbn. rewrite Ho. by apply bool_decide_eq_true_2.
  - intros rsp s' Hn Ht. cbn in Hn, Ht. destruct (response_handle rsp) as [l| |] eqn:E; [|done..].
    rewrite Ho in Hn. injection Hn as <-. by exists l.
Qed.

(** The handle is free afterwards, whether an object was there or not. *)
Lemma wp_try_evict_live dev handle h s :
  owner_persistent handle = true -> loaded s !! handle = None -> at_state b0 h s ->
  wp W (try_evict_persistent dev handle) h (fun h' o => exists u, o = Done u /\
    at_state b0 h' (set_persistent s (delete handle (persistent s)))).
Proof.
  intros Hh Hl Hs. pose proof Hh as Hr. unfold owner_persistent in Hr. bool_prop.
  assert (0 <= handle < U32) as Hu by (unfold U32; lia). apply wp_bind, wp_try.
  eapply wp_mono; [eapply wp_checked_live; [apply evict_control_cmd_eq|
    by eapply decode_evict_control, evict_control_cmd_eq|exact Hs]|].
  intros h1 o [(rsp&s'&->&Hn&_&Hat)|(e&->&Hacc&Hat)]; cbn in *.
  - rewrite Hl, Z.eqb_refl in Hn. injection Hn as <-. by exists tt.
  - rewrite Hh, Hl, Z.eqb_refl in Hacc. cbn in Hacc. apply bool_decide_eq_false in Hacc.
    assert (set_persistent s (delete handle (persistent s)) = s) as ->.
    { unfold set_persistent. rewrite delete_id by (by apply eq_None_not_Some). by destruct s. }
    apply wp_bind, wp_try. eapply wp_mono; [eapply wp_checked_live; [apply da_lock_reset_cmd_eq|
      by eapply decode_da_lock_reset, da_lock_reset_cmd_eq|exact Hat]|].
    intros h2 o [(rsp&s'&->&Hn&_&Hat2)|(e2&->&_&Hat2)]; [injection Hn as <-|]; by exists tt.
Qed.

Lemma handle_facts mode : owner_persistent (persistent_handle mode) = true /\
  transient (persistent_handle mode) = false /\ 0 <= persistent_handle mode < U32.
Proof. by destruct mode. Qed.

Lemma transient_u32 l : transient l = true -> 0 <= l < U32.
Proof. unfold transient, U32. intros H. bool_prop. lia. Qed.

Lemma wp_seal_live secret mode h s :
  len (prefix mode ++ as_bytes secret) <= MAX_SEALED -> loads_ok s -> at_state b0 h s ->
  wp W (cmd_seal secret mode None) h (fun h' o => o = Done (Ok tt) /\ exists s', at_state b0 h' s' /\
    pcr7 s' = pcr7 s /\ persistent s' !! persistent_handle mode =
      Some (Object (pcr_policy tpm_hash (pcr7 s)) SEALED_OBJ_ATTRS (prefix mode ++ as_bytes secret))).
Proof.
  intros Hlen Hl Hs. destruct (handle_facts mode) as (Ho&Hnt&Hu). set (ph := persistent_handle mode) in *.
  set (ob := Object (pcr_policy tpm_hash (pcr7 s)) SEALED_OBJ_ATTRS (prefix mode ++ as_bytes secret)).
  apply wp_try. eapply wp_mono; [by apply wp_open_tpm_live|]. intros h1 o (dev&->&H1).
  eapply (wp_policy_session _ _ _ s); [done|]. intros h2 ses Hr H2. cbv beta.
  apply wp_try. eapply wp_mono; [by apply (wp_flush_live _ _ _ s)|]. intros h3 o (s1&->&(Hp1&Hps1&Hl1)&H3).
  apply wp_try. eapply wp_mono; [apply wp_create_live; [exact Hlen|apply hash_length|exact Hl1|exact H3]|].
  intros h4 o ([priv pub]&s2&->&(Hv&Hb&Hob&Hp2&Hps2&Hl2)&H4). cbn in Hv, Hb, Hob. fold ob in Hob.
  apply wp_try. eapply wp_mono; [by eapply wp_load_object_live|]. intros h5 o (l&s3&->&[Ht ->]&H5).
  assert (loaded s2 !! ph = None) as Hn2.
  { apply eq_None_not_Some. intros Hin. apply Hl2 in Hin. congruence. }
  apply wp_bind. eapply wp_mono; [apply (wp_try_evict_live _ ph); [done| |exact H5]|].
  { cbn. rewrite lookup_insert_ne by congruence. done. }
  intros h6 o (u&->&H6). apply wp_try. apply transient_u32 in Ht.
  eapply wp_mono; [eapply (wp_ignore_live (fun s' => pcr7 s' = pcr7 s /\ persistent s' !! ph = Some ob));
    [apply evict_control_cmd_eq|by eapply decode_evict_control, evict_control_cmd_eq| |exact H6|]|].
  - fold ph. unfold accepts. rewrite Ho. cbn. rewrite lookup_insert_eq, lookup_delete_eq. by apply bool_decide_eq_true_2.
  - intros rsp s' Hn. fold ph in Hn. cbn in Hn. rewrite lookup_insert_eq in Hn. injection Hn as <-. cbn.
    split; [congruence|apply lookup_insert_eq].
  - intros h7 o (s4&->&[Hp4 Hps4]&H7). apply wp_ret. split; [done|]. by exists s4.
Qed.

End transport.

(** ** Property *)

Context `{X : Externals} `{AG : Age} `{RC : Recovery}.
Hypothesis hash_length : forall d, len (tpm_hash d) = SHA256_DIGEST_SIZE.

(** C10: Sealing and unsealing succeed: on a TPM whose device opens and takes the
    commands, and that carries out what the abstract TPM can (a session, an
    object of at most 128 bytes; it may refuse what cannot be done, with any
    code), [initos seal] succeeds for every secret that fits with its prefix,
    whether an object was at the handle or not; and whenever the object is
    still there and PCR 7 has the same value, any number of boots later,
    the boot in that mode unseals exactly the secret: neither ends with an
    error, panics, or runs out of retries. *)
Theorem seal_then_unseal (secret : string) (mode : SealMode) (b0 : bus) (t1 : hist sysE)
    (o1 : outcome (result unit string)) :
  len (prefix mode ++ as_bytes secret) <= MAX_SEALED -> loads_ok (chip b0) ->
  exec (cmd_seal secret mode None) t1 o1 -> answered (working_tpm b0) [] t1 ->
  o1 = Done (Ok tt) /\
  exists b1, bus_after b0 t1 = Some b1 /\
    forall (b2 : bus) (t2 : hist sysE) (o2 : outcome (result (list byte) string)),
      persistent (chip b2) !! persistent_handle mode = persistent (chip b1) !! persistent_handle mode ->
      pcr7 (chip b2) = pcr7 (chip b1) ->
      exec (unseal_key (is_secure mode)) t2 o2 -> answered (working_tpm b2) [] t2 ->
      o2 = Done (Ok (as_bytes secret)).
Proof.
  intros Hlen Hl Hs Ha.
  assert (forall b, at_state b [] (chip b)) as Hat by (intros [s c]; by exists c).
  destruct (wp_sound _ _ [] t1 o1 _ (wp_seal_live b0 hash_length secret mode [] _ Hlen Hl (Hat b0)) Hs Ha)
    as (_&->&s1&[c Hc]&Hp&Ho).
  split; [done|]. exists (Bus s1 c). split; [exact Hc|]. cbn. intros b2 t2 o2 Hps Hp2 Hu Ha2.
  rewrite Ho, <- Hp, <- Hp2 in Hps. destruct (handle_facts mode) as (_&_&Hh).
  pose proof (wp_unseal_key_live b2 (persistent_handle mode) (prefix mode) (name mode) (as_bytes secret) [] _
    Hh Hps (Hat b2)) as Hw.
  assert (exec (unseal_key_from_handle (persistent_handle mode) (prefix mode) (name mode)) t2 o2) as Hk
    by by destruct mode.
  by destruct (wp_sound _ _ [] t2 o2 _ Hw Hk Ha2) as [_ ?].
Qed.

End working.

(** ** Witness: the machine of TpmPolicy.v, whose TPM first refuses to remove
    what is not there *)

Definition handle_fail : list byte := to_be 2 TPM_ST_NO_SESSIONS ++ to_be 4 10 ++ to_be 4 0x18b.
Definition busy : list byte := to_be 2 TPM_ST_NO_SESSIONS ++ to_be 4 10 ++ to_be 4 TPM_RC_LOCKOUT.
Definition live_answers : list (list byte) :=
  take 6 seal_answers ++ [busy; handle_fail; handle_fail; handle_fail; response TPM_ST_SESSIONS []].
Definition live_world : world := tpm_world live_answers.
Definition live_trace : hist sysE := trace_of live_world (cmd_seal "key" Secure None).

(** Does a TPM in the state [b] work along the trace? *)
Fixpoint working_trace (hash : list byte -> list byte) (b : bus) (t : hist sysE) : bool :=
  match t with
  | [] => true
  | v :: t => works hash b v &&
      match bus_next hash b v with Some b' => working_trace hash b' t | None => false end
  end.

Lemma working_trace_answered hash b0 h t b :
  bus_after hash b0 h = Some b -> working_trace hash b t = true -> answered (working_tpm hash b0) h t.
Proof.
  revert h b. induction t as [|v t IH]; intros h b Hb Ht; [apply answered_nil|].
  cbn [working_trace] in Ht. apply andb_prop in Ht as [Hv Ht]. apply answered_step.
  - destruct v as [A e x]. cbn. intros b' Hb'. rewrite Hb in Hb'. injection Hb' as <-. exact Hv.
  - destruct (bus_next hash b v) as [b'|] eqn:E; [|done]. apply (IH _ b'); [by rewrite bus_after_snoc, Hb|done].
Qed.

Lemma seal_then_unseal_witness :
  length live_trace = 24%nat /\
  outcome_of live_world (cmd_seal "key" Secure None) = Done (Ok tt) /\
  outcome_of reveal_world (unseal_key true) = Done (Ok (as_bytes "key")).
Proof.
  assert (outcome_of live_world (cmd_seal "key" Secure None) = Done (Ok tt)) as H1 by (vm_compute; reflexivity).
  assert (outcome_of reveal_world (unseal_key true) = Done (Ok (as_bytes "key"))) as H2 by (vm_compute; reflexivity).
  assert (bus_after rev_hash new_bus live_trace = Some seal_end) as E by (vm_compute; reflexivity).
  split; [vm_compute; reflexivity|]. split; [exact H1|]. rewrite H2.
  destruct (seal_then_unseal rev_hash rev_hash_length "key" Secure new_bus live_trace (Done (Ok tt)))
    as [_ (b1&Hb&Hu)].
  - vm_compute. discriminate.
  - intros l [x Hx]. discriminate Hx.
  - exact (toy_exec _ _ _ H1).
  - apply (working_trace_answered _ _ _ _ new_bus); [reflexivity|vm_compute; reflexivity].
  - apply (eq_trans (eq_sym E)), Some_inj in Hb. rewrite <- Hb in Hu.
    apply (Hu seal_end (trace_of reveal_world (unseal_key true))); [reflexivity|reflexivity|exact (toy_exec _ _ _ H2)|].
    apply (working_trace_answered _ _ _ _ seal_end); [reflexivity|vm_compute; reflexivity].
Defined.
