(* ===== verification/Install.v ===== *)
(** An installation, end to end ([src/main.rs], [src/cmd.rs], [src/fscrypt.rs],
    [src/boot.rs]): the state directory was set up with [initos fscrypt-setup],
    the same secret was sealed with [initos seal], and the boot unlocks by the
    TPM: the key it adds to the kernel is the one that the directory's policy
    names. *)

From S2P Require Import Prelude Prog Str PathLib Sys World Verity Efi Verify Tpm TpmModel Fscrypt Cmd Mount Boot Calm BootSpec BootSteps AgeSpec BootMachine BootClock BootLive Main SealVault TpmPolicy.

(** The kernel derives the identifier of a key from the key: what it writes back
    when a key is added, bytes 8 to 24 of the structure. *)
Definition identifies (kid : list byte -> list byte) (t : hist sysE) : Prop :=
  forall fd key out, Ev (IoctlBuf fd FS_IOC_ADD_ENCRYPTION_KEY (fscrypt_add_key_arg key)) (Ok out) ∈ t ->
    slice (array (len (fscrypt_add_key_arg key)) out) 8 24 = Val (kid key).

Definition adds_key (key : list byte) (t : hist sysE) : Prop :=
  exists fd out, Ev (IoctlBuf fd FS_IOC_ADD_ENCRYPTION_KEY (fscrypt_add_key_arg key)) (Ok out) ∈ t.
Definition sets_policy (id : list byte) (t : hist sysE) : Prop :=
  exists fd out, Ev (IoctlBuf fd FS_IOC_SET_ENCRYPTION_POLICY (fscrypt_policy_v2 id)) (Ok out) ∈ t.

Section install.
Context `{X : Externals} `{AG : Age} `{RC : Recovery}.

(** The 64-byte key made of a secret. *)
Definition key_of (secret key : list byte) : Prop := repeat_key 64 0 secret = Val key /\ length key = 64%nat.

Lemma key_of_fun secret k k' : key_of secret k -> key_of secret k' -> k = k'.
Proof. intros [H _] [H' _]. rewrite H in H'. by injection H'. Qed.

Lemma key_of_exists secret : secret <> [] -> exists key, key_of secret key.
Proof. intros H. destruct (repeat_key_val 64 0 secret) as (key&Hk&Hl&_); [lia|done|]. by exists key. Qed.

Lemma get_fscrypt_key_exec t key secret :
  exec get_fscrypt_key t (Done (Ok key)) -> replied t (EnvVar "FSCRYPT_KEY") (Some secret) ->
  key_of (as_bytes secret) key.
Proof.
  intros (v&t1&->&H) Hv. assert (v = Some secret) as -> by (apply Hv; left). cbn [prog_mbind prog_bind] in H.
  apply exec_try_ok in H as (t2&t3&raw&->&H2&H). destruct H2 as [-> [= ->]]. destruct (is_empty secret) eqn:E; [by destruct H|].
  apply exec_bind_done in H as (t4&t5&k&->&H&H5). destruct H5 as [-> [= ->]].
  destruct (key_of_exists (as_bytes secret)) as (k'&Hk'); [by destruct secret|].
  pose proof Hk' as [Hr _]. rewrite Hr in H. by destruct H as [_ [= ->]].
Qed.

Lemma add_key_exec path key t id :
  length key = 64%nat -> exec (add_key path key) t (Done (Ok id)) ->
  adds_key key t /\ forall kid, identifies kid t -> id = kid key.
Proof.
  intros Hl H. apply exec_bind_done in H as (t0&t1&buf&->&H0&H).
  rewrite add_key_buf_eq in H0 by (unfold len, U32; lia). destruct H0 as [-> [= ->]].
  apply exec_try_ok in H as (t2&t3&fd&->&_&H). apply exec_try_ok in H as (t4&t5&out&->&H4&H).
  apply exec_with_err_ok, exec_trigger in H4 as (r&->&E4). injection E4 as <-. cbn [app]. split.
  - exists fd, out. rewrite !elem_of_app. right. left.
  - intros kid Hkid. specialize (Hkid fd key out). rewrite !elem_of_app in Hkid.
    specialize (Hkid ltac:(right; left)).
    apply exec_bind_done in H as (t9&t10&s&->&H&E9). destruct E9 as [-> [= ->]]. change (8 + FSCRYPT_KEY_IDENTIFIER_SIZE) with 24 in H.
    rewrite Hkid in H. by destruct H as [_ [= ->]].
Qed.

Lemma set_policy_exec dir id t : exec (set_policy dir id) t (Done (Ok tt)) -> sets_policy id t.
Proof.
  intros H. apply exec_bind_done in H as (t0&t1&buf&->&H0&H). rewrite policy_buf_eq in H0. destruct H0 as [-> [= ->]].
  apply exec_try_ok in H as (t2&t3&fd&->&_&H). destruct H as (x&t4&->&H). cbn [prog_mbind prog_bind] in H.
  destruct x as [?|?]; [by destruct H|]. apply exec_try_ok in H as (t5&t6&u&->&H5&_).
  apply exec_with_err_ok, exec_trigger in H5 as (r&->&E5). injection E5 as <-.
  exists fd, u. rewrite !elem_of_app, elem_of_cons. right. right. right. left.
Qed.

Lemma setup_exec dir secret t kid :
  exec (cmd_fscrypt_setup dir) t (Done (Ok tt)) -> replied t (EnvVar "FSCRYPT_KEY") (Some secret) ->
  identifies kid t -> exists key, key_of (as_bytes secret) key /\ sets_policy (kid key) t.
Proof.
  intros H Hv Hk. apply exec_try_ok in H as (t1&t2&key&->&H1&H).
  apply get_fscrypt_key_exec with (secret := secret) in H1;
    [|intros y Hy; apply Hv; apply elem_of_app; by left].
  apply exec_try_ok in H as (t3&t4&id&->&H3&H). apply add_key_exec in H3 as [_ Hid]; [|by destruct H1].
  rewrite (Hid kid) in H by (intros fd k out Hin; apply (Hk fd); rewrite !elem_of_app; auto).
  apply exec_try_ok in H as (t5&t6&[]&->&H5&_). apply set_policy_exec in H5 as (fd&out&Hin).
  exists key. split; [done|]. exists fd, out. rewrite !elem_of_app. auto.
Qed.

Lemma add_fscrypt_key_adds dir raw t :
  exec (add_fscrypt_key dir raw) t (Done (Ok tt)) -> exists key, key_of raw key /\ adds_key key t.
Proof.
  intros H. destruct raw as [|b raw]; [by destruct H|].
  destruct (key_of_exists (b :: raw)) as (key&Hk); [done|]. exists key. split; [done|]. pose proof Hk as [Hr Hl].
  unfold add_fscrypt_key in H. apply exec_bind_done in H as (t1&t2&k&->&H1&H). rewrite Hr in H1.
  destruct H1 as [-> [= ->]]. apply exec_try_ok in H as (t3&t4&d&->&H3&H). destruct H3 as [-> _].
  apply exec_try_ok in H as (t5&t6&id&->&H5&_). apply add_key_exec in H5 as [(fd&out&Hin) _]; [|done].
  exists fd, out. cbn. apply elem_of_app. by left.
Qed.

Variable tpm_hash : list byte -> list byte.
Hypothesis hash_length : forall d, len (tpm_hash d) = SHA256_DIGEST_SIZE.

(** ** The property *)

(** C9: The installation fits together: if the directory was set up with
    [initos fscrypt-setup] and the key material [secret], the same secret was
    sealed with [initos seal], and the TPM still holds the object when the boot
    unlocks with it -- any number of boots later --, then the boot adds to the
    kernel the very 64-byte key whose identifier, as the kernel derived it at
    the set-up, is in the encryption policy of the directory. *)
Theorem sealed_installation_unlocks (secret : string) (mode : SealMode) (dir c_dir : string)
    (kid : list byte -> list byte) (t1 t2 : hist sysE) (b0 b1 b2 b3 : bus) :
  exec (cmd_fscrypt_setup dir) t1 (Done (Ok tt)) -> replied t1 (EnvVar "FSCRYPT_KEY") (Some secret) ->
  identifies kid t1 ->
  talks tpm_hash b0 (cmd_seal secret mode None) (Done (Ok tt)) b1 ->
  persistent (chip b2) !! persistent_handle mode = persistent (chip b1) !! persistent_handle mode ->
  exec (unlock_c_with_tpm c_dir (is_secure mode)) t2 (Done (Ok tt)) -> bus_run tpm_hash b2 t2 b3 ->
  exists key, key_of (as_bytes secret) key /\ sets_policy (kid key) t1 /\ adds_key key t2.
Proof.
  intros Hsetup Hv Hid Hs Hp Hu Hr. destruct (setup_exec _ _ _ _ Hsetup Hv Hid) as (key&Hkey&Hpol).
  exists key. split; [done|]. split; [done|].
  apply exec_try_ok in Hu as (ta&tb&k&->&Ha&H). apply bus_run_app in Hr as (bA&Hra&_).
  assert (k = as_bytes secret) as ->.
  { apply (seal_talks _ hash_length) in Hs as [_ Ho]. rewrite Ho in Hp. destruct (mode_sealed mode) as [Epre Eh].
    assert (talks tpm_hash b2 (unseal_key_from_handle (persistent_handle mode) (prefix mode) (name mode))
      (Done (Ok k)) bA) as Hk by (exists ta; by destruct mode).
    apply unseal_talks in Hk as (_&_&o&Hat&Hd&_); [|by destruct mode]. unfold object_at in Hat.
    rewrite Hp in Hat. injection Hat as <-. by apply app_inv_head in Hd. }
  apply exec_try_ok in H as (tc&td&[]&->&Hc&_). apply add_fscrypt_key_adds in Hc as (key'&Hk'&fd&out&Hin).
  rewrite <- (key_of_fun _ _ _ Hkey Hk') in Hin. exists fd, out. rewrite !elem_of_app. auto.
Qed.

End install.

(** ** Witness: the machine of TpmPolicy.v, set up with its secret *)

(** The kernel writes an identifier in the buffer of ADD_ENCRYPTION_KEY. *)
Definition toy_kid (key : list byte) : list byte := take 16 (rev key).
Definition toy_identify (buf : list byte) : list byte := take 8 buf ++ toy_kid (drop 80 buf) ++ drop 24 buf.
Definition setup_os : forall A, sysE A -> world -> A * world := fun A e w =>
  match e in sysE A return A * world with
  | IoctlBuf fd req buf =>
      (if req =? FS_IOC_ADD_ENCRYPTION_KEY then Ok (toy_identify buf)
       else if req =? FS_IOC_GET_ENCRYPTION_POLICY then Err (OsError 61) else Ok buf, w)
  | e => world_os _ e w
  end.
Definition setup_world : world := set_dirs (set_env world0 {["FSCRYPT_KEY" := "key"]}) ["/z/c"].
Definition setup_run : hist sysE * outcome (result unit string) * world :=
  run setup_os (cmd_fscrypt_setup "/z/c") setup_world.

Definition identifiesb (v : event sysE) : bool :=
  match v with
  | @Ev _ A e x => match e in sysE A return A -> bool with
      | IoctlBuf _ req buf => fun r => match r with
          | Ok out => negb (req =? FS_IOC_ADD_ENCRYPTION_KEY) ||
                      bool_decide (slice (array (len buf) out) 8 24 = Val (toy_kid (drop 80 buf)))
          | Err _ => true end
      | _ => fun _ => true end x
  end.

Lemma drop_add_key_arg key : drop 80 (fscrypt_add_key_arg key) = key.
Proof. unfold fscrypt_add_key_arg. rewrite !(assoc_L app). by apply drop_app_length'. Qed.

Lemma identifiesb_spec t : forallb identifiesb t = true -> identifies toy_kid t.
Proof.
  intros H fd key out Hin. rewrite forallb_forall in H. apply list_elem_of_In in Hin. apply H in Hin.
  cbn [identifiesb] in Hin. rewrite Z.eqb_refl in Hin. cbn [negb orb] in Hin.
  apply bool_decide_eq_true in Hin. by rewrite drop_add_key_arg in Hin.
Qed.

Definition fscrypt_env (v : event sysE) : option (option string) :=
  match v with
  | @Ev _ A e x => match e in sysE A return A -> option (option string) with
      | EnvVar n => fun y => if (n =? "FSCRYPT_KEY")%string then Some y else None
      | _ => fun _ => None end x
  end.

Lemma sealed_installation_unlocks_witness :
  setup_run.1.2 = Done (Ok tt) /\ outcome_of seal_world (cmd_seal "key" Secure None) = Done (Ok tt) /\
  unlock_once.1.2 = Done (Ok tt) /\
  exists key, key_of (as_bytes "key") key /\ sets_policy (toy_kid key) setup_run.1.1 /\ adds_key key unlock_once.1.1.
Proof.
  assert (setup_run.1.2 = Done (Ok tt)) as H0 by (vm_compute; reflexivity).
  assert (outcome_of seal_world (cmd_seal "key" Secure None) = Done (Ok tt)) as H1 by (vm_compute; reflexivity).
  assert (unlock_once.1.2 = Done (Ok tt)) as H2 by (vm_compute; reflexivity).
  split; [exact H0|]. split; [exact H1|]. split; [exact H2|].
  apply (sealed_installation_unlocks rev_hash rev_hash_length "key" Secure "/z/c" "/z/c" toy_kid
    setup_run.1.1 unlock_once.1.1 new_bus seal_end seal_end unlock_end).
  - rewrite <- H0. exact (run_is_exec setup_os (cmd_fscrypt_setup "/z/c") setup_world).
  - apply (replied_check _ _ fscrypt_env); [reflexivity|vm_compute; repeat constructor; first [by left|by right]].
  - apply identifiesb_spec. vm_compute. reflexivity.
  - exists (trace_of seal_world (cmd_seal "key" Secure None)). split; [exact (toy_exec _ _ _ H1)|].
    apply bus_after_run. vm_compute. reflexivity.
  - reflexivity.
  - rewrite <- H2. exact (run_is_exec unlocking_os (unlock_c_with_tpm "/z/c" true) unlock_world).
  - apply bus_after_run. vm_compute. reflexivity.
Defined.
