(* ===== verification/Loader.v ===== *)
(** The UEFI loader ([src/bin/efi.rs]): files read through the firmware, the
    signature database, the verification of config, kernel and initrd, and the
    Linux EFI handover, on an explicit memory. *)

From S2P Require Import Prelude Prog Str Sys Verity.

(** ** The firmware *)

Abbreviation ures A := (result A Z).   (** [uefi::Result]: a value or a status *)

Definition INVALID_PARAMETER : Z := 0x8000000000000002.
Definition NOT_FOUND : Z := 0x800000000000000E.
Definition LOAD_ERROR : Z := 0x8000000000000001.

(** The memory of the machine: nothing is known of what was not written. *)
Definition memory : Type := Z -> byte.

Definition mem_write (m : memory) (addr : Z) (bs : list byte) : memory :=
  fun x => if (addr <=? x) && (x <? addr + len bs) then nth (Z.to_nat (x - addr)) bs x00 else m x.
Definition mem_fill (m : memory) (addr n : Z) (b : byte) : memory :=
  fun x => if (addr <=? x) && (x <? addr + n) then b else m x.
Definition mem_read (m : memory) (addr n : Z) : list byte :=
  map (fun i => m (addr + Z.of_nat i)) (seq 0 (Z.to_nat n)).

Inductive fwE : Type -> Type :=
| FwInit : fwE (ures unit)
| FwTimestampHandle : fwE (ures Z)
| FwOpenTimestamp (handle : Z) : fwE (ures Z)
| FwTimestampFrequency (ts : Z) : fwE (ures Z)
| FwTimestamp (ts : Z) : fwE Z
| FwGetTime : fwE (ures unit)
| FwOpenLoadedImage : fwE (ures Z)
| FwDevice (image : Z) : fwE (option Z)
| FwOpenFileSystem (device : Z) : fwE (ures Z)
| FwOpenVolume (fs : Z) : fwE (ures Z)
| FwOpenFile (root : Z) (path : string) : fwE (ures Z)
| FwIsRegular (handle : Z) : fwE (ures bool)
| FwFileSize (file : Z) : fwE (ures Z)
| FwReadFile (file size : Z) : fwE (ures (list byte))   (** the buffer after the call *)
| FwAllocatePages (pages : Z) : fwE (ures Z)
| FwAllocatePool (size : Z) : fwE (ures Z)
| FwGetVariable (name vendor : string) (size : Z) : fwE (ures (list byte))
| FwStall (us : Z) : fwE unit
| FwReset : fwE unit
| FwHandover (entry setup : Z) (mem : memory) : fwE unit.

Abbreviation fw := (prog fwE).

(** [uefi::CStr16::from_str_with_buf]: does the text fit a buffer of [n] units? *)
Class Uefi : Type := { cstr16_from_str : string -> Z -> bool }.

(** ** The setup header of the kernel *)

(** The fields of [SetupHeader], a packed structure, with their sizes. *)
Definition setup_layout : list (string * nat) :=
  [("boot_sector", 0x1f1); ("setup_secs", 1); ("root_flags", 2); ("sys_size", 4); ("ram_size", 2);
   ("video_mode", 2); ("root_dev", 2); ("signature", 2); ("jump", 2); ("header", 4); ("version", 2);
   ("su_switch", 2); ("setup_seg", 2); ("start_sys", 2); ("kernel_ver", 2); ("loader_id", 1);
   ("load_flags", 1); ("movesize", 2); ("code32_start", 4); ("ramdisk_start", 4); ("ramdisk_len", 4);
   ("bootsect_kludge", 4); ("heap_end", 2); ("ext_loader_ver", 1); ("ext_loader_type", 1);
   ("cmd_line_ptr", 4); ("ramdisk_max", 4); ("kernel_alignment", 4); ("relocatable_kernel", 1);
   ("min_alignment", 1); ("xloadflags", 2); ("cmdline_size", 4); ("hardware_subarch", 4);
   ("hardware_subarch_data", 8); ("payload_offset", 4); ("payload_length", 4); ("setup_data", 8);
   ("pref_address", 8); ("init_size", 4); ("handover_offset", 4)]%nat.

Fixpoint field_at (l : list (string * nat)) (off : Z) (f : string) : option (Z * nat) :=
  match l with
  | [] => None
  | (g, w) :: l => if (g =? f)%string then Some (off, w) else field_at l (off + Z.of_nat w) f
  end.

Definition get_field (m : memory) (base : Z) (f : string) : Z :=
  match field_at setup_layout 0 f with
  | Some (off, w) => le_of (mem_read m (base + off) (Z.of_nat w))
  | None => 0
  end.
Definition set_field (m : memory) (base : Z) (f : string) (v : Z) : memory :=
  match field_at setup_layout 0 f with
  | Some (off, w) => mem_write m (base + off) (to_le w v)
  | None => m
  end.

Definition SETUP_MAGIC : Z := 0x53726448.
Definition FAILURE_REBOOT_DELAY_SECONDS : Z := 15.

Definition X509_GUID : list byte :=
  [xa1; x59; xc0; xa5; xe4; x94; xa7; x4a; x87; xb5; xab; x15; x5c; x2b; xf0; x72].
Definition RSA_OID : string := "1.2.840.113549.1.1.1".

(** ** Parsing the kernel *)

Definition read_u32_le (data : list byte) (offset : Z) : comp (option Z) :=
  if len data <? offset + 4 then mret None
  else
    let! v := read_le 4 data offset in mret (Some v).

(** [data.get(a..b) == Some(bs)] *)
Definition has_bytes (data : list byte) (a : Z) (bs : list byte) : bool :=
  match slice data a (a + len bs) with Val s => bool_decide (s = bs) | _ => false end.

Definition pe_size_of_image (data : list byte) : comp (option Z) :=
  if (len data <? 0x40) || negb (has_bytes data 0 (as_bytes "MZ")) then mret None
  else
    let! pe := read_u32_le data 0x3c in
    match pe with
    | None => mret None
    | Some pe_offset =>
        if (len data <? pe_offset + 0x5c) || negb (has_bytes data pe_offset [x50; x45; x00; x00])
        then mret None
        else read_u32_le data (pe_offset + 0x50)
    end.

Record EfiTimer : Type := {
  timestamp : option Z;
  frequency : Z;
  start : Z;
}.

(** What [verify_data_signature] counts for its error message. *)
Record Tally : Type := {
  cert_count : Z;
  sig_file_count : Z;
  mismatch_count : Z;
  unsupported_count : Z;
  last_key_id : string;
  last_sig_path : string;
}.
Definition no_tally : Tally :=
  {| cert_count := 0; sig_file_count := 0; mismatch_count := 0; unsupported_count := 0;
     last_key_id := ""; last_sig_path := "" |}.
Definition count_cert (key_id sig_path : string) (c : Tally) : Tally :=
  {| cert_count := cert_count c + 1; sig_file_count := sig_file_count c;
     mismatch_count := mismatch_count c; unsupported_count := unsupported_count c;
     last_key_id := key_id; last_sig_path := sig_path |}.
Definition count_mismatch (c : Tally) : Tally :=
  {| cert_count := cert_count c; sig_file_count := sig_file_count c + 1;
     mismatch_count := mismatch_count c + 1; unsupported_count := unsupported_count c;
     last_key_id := last_key_id c; last_sig_path := last_sig_path c |}.
Definition count_unsupported (c : Tally) : Tally :=
  {| cert_count := cert_count c; sig_file_count := sig_file_count c + 1;
     mismatch_count := mismatch_count c; unsupported_count := unsupported_count c + 1;
     last_key_id := last_key_id c; last_sig_path := last_sig_path c |}.

(** The message when no signature verified. *)
Definition tally_error (label : string) (c : Tally) : string :=
  if cert_count c =? 0 then "no X.509 certificates found in db"
  else if sig_file_count c =? 0 then
    "no " +:+ label +:+ " signature file matched any db cert; checked " +:+ fmt_dec (cert_count c) +:+
    " cert(s); last expected path=" +:+ last_sig_path c +:+ " KEY_ID=" +:+ last_key_id c
  else if 0 <? mismatch_count c then
    label +:+ " RSA signature mismatch; checked " +:+ fmt_dec (sig_file_count c) +:+
    " signature file(s); last path=" +:+ last_sig_path c +:+ " KEY_ID=" +:+ last_key_id c
  else
    "unsupported " +:+ label +:+ " signing key or signature format; checked " +:+
    fmt_dec (sig_file_count c) +:+ " signature file(s), unsupported " +:+ fmt_dec (unsupported_count c).

Section Loader.
Context `{X : Externals} `{UE : Uefi}.

Definition fail_and_reboot {A} : fw A :=
  do! trigger (FwStall (FAILURE_REBOOT_DELAY_SECONDS * 1000000)) in
  do! trigger FwReset in
  Halt (Exit LOAD_ERROR).

(** ** The timer *)

Definition timer_new : fw EfiTimer :=
  let none := {| timestamp := None; frequency := 0; start := 0 |} in
  let! handle := trigger FwTimestampHandle in
  match handle with
  | Err _ => mret none
  | Ok handle =>
      let! ts := trigger (FwOpenTimestamp handle) in
      match ts with
      | Err _ => mret none
      | Ok ts =>
          let! freq := trigger (FwTimestampFrequency ts) in
          match freq with
          | Ok freq =>
              if negb (freq =? 0) then
                let! start := trigger (FwTimestamp ts) in
                mret {| timestamp := Some ts; frequency := freq; start := start |}
              else mret none
          | Err _ => mret none
          end
      end
  end.

Definition timer_now (t : EfiTimer) : fw (option Z) :=
  match timestamp t with
  | Some ts => let! now := trigger (FwTimestamp ts) in mret (Some now)
  | None => mret None
  end.

Definition elapsed_ms_since (t : EfiTimer) (start : Z) : fw (option Z) :=
  let! now := timer_now t in
  match now with
  | None => mret None
  | Some now =>
      let ticks := u64_wrap (now - start) in
      if frequency t =? 0 then Halt Panic
      else mret (Some (Z.min (ticks * 1000) (U64 - 1) / frequency t))
  end.

Definition total_ms (t : EfiTimer) : fw (option Z) := elapsed_ms_since t (start t).

(** [start.and_then(|start| timer.elapsed_ms_since(start))] *)
Definition elapsed_opt (t : EfiTimer) (start : option Z) : fw (option Z) :=
  match start with Some s => elapsed_ms_since t s | None => mret None end.

(** ** Files *)

(** The first lines of both loading functions: the open file and its size. *)
Definition open_sized (path : string) : fw (ures (Z * Z)) :=
  if negb (cstr16_from_str path 128) then mret (Err INVALID_PARAMETER)
  else
    let? image := trigger FwOpenLoadedImage in
    let! device := trigger (FwDevice image) in
    match device with
    | None => Halt Panic
    | Some device =>
        let? fs := trigger (FwOpenFileSystem device) in
        let? root := trigger (FwOpenVolume fs) in
        let? handle := trigger (FwOpenFile root path) in
        let? regular := trigger (FwIsRegular handle) in
        if negb regular then mret (Err NOT_FOUND)
        else
          let? size := trigger (FwFileSize handle) in
          mret (Ok (handle, size))
    end.

Definition load_file_to_memory (path : string) : fw (ures (list byte)) :=
  let? ' (file, size) := open_sized path in
  let? data := trigger (FwReadFile file size) in
  mret (Ok (array size data)).

(** The size in pages of 4096 bytes; sizes within 4095 bytes of 2^64, where the
    sum would wrap, are those of no file of a FAT volume. *)
Definition pages_for (size : Z) : Z := (size + 4095) / 4096.

Definition load_kernel_to_address (m : memory) (path : string) : fw (ures (Z * Z * memory)) :=
  let? ' (file, size) := open_sized path in
  let? addr := trigger (FwAllocatePages (pages_for size)) in
  let? data := trigger (FwReadFile file size) in
  mret (Ok (addr, size, mem_write m addr (array size data))).

Definition load_pe_kernel_to_address (m : memory) (path : string)
    : fw (ures (Z * Z * Z * memory)) :=
  let? data := load_file_to_memory path in
  let file_size := len data in
  let! pe := lift (pe_size_of_image data) in
  let image_size := Z.max (match pe with Some n => n | None => file_size end) file_size in
  let pages_needed := pages_for image_size in
  let? addr := trigger (FwAllocatePages pages_needed) in
  let m := mem_fill m addr (pages_needed * 4096) x00 in
  mret (Ok (addr, file_size, image_size, mem_write m addr data)).

(** ** Signatures *)

(** One certificate: [None] when its signature file verifies. *)
Definition check_cert (data der_bytes : list byte) (template : string) (c : Tally)
    : fw (option Tally) :=
  match x509_from_der der_bytes with
  | Err _ => mret (Some c)
  | Ok cert =>
      let spki_der_bytes := match spki_to_der cert with Ok d => d | Err _ => [] end in
      let pub_key_bytes := match spki_public_key cert with Some b => b | None => [] end in
      let! id := lift (slice (sha256 spki_der_bytes) 0 8) in
      let key_id := digest_to_hex id in
      let sig_path := replace "{}" key_id template in
      let c := count_cert key_id sig_path c in
      let! sig := load_file_to_memory sig_path in
      match sig with
      | Err _ => mret (Some c)
      | Ok sig_data =>
          if (spki_algorithm_oid cert =? RSA_OID)%string then
            match rsa_from_pkcs1_der pub_key_bytes with
            | Some rsa_pub =>
                if rsa_verify rsa_pub (sha256 data) sig_data then mret None
                else mret (Some (count_mismatch c))
            | None => mret (Some (count_unsupported c))
            end
          else mret (Some (count_unsupported c))
      end
  end.

(** The certificates of one X.509 list. *)
Fixpoint scan_sigs (fuel : nat) (data db_data : list byte) (template : string)
    (sig_size sigs_end sig_offset : Z) (c : Tally) : fw (option Tally) :=
  match fuel with
  | O => Halt OutOfFuel
  | S fuel =>
      if sig_offset + sig_size <=? sigs_end then
        let! der_bytes := lift (slice db_data (sig_offset + 16) (sig_offset + 16 + (sig_size - 16))) in
        let! r := check_cert data der_bytes template c in
        match r with
        | None => mret None
        | Some c => scan_sigs fuel data db_data template sig_size sigs_end (sig_offset + sig_size) c
        end
      else mret (Some c)
  end.

Fixpoint scan_lists (fuel : nat) (data db_data : list byte) (template label : string)
    (offset : Z) (c : Tally) : fw (result unit string) :=
  match fuel with
  | O => Halt OutOfFuel
  | S fuel =>
      if offset + 28 <=? len db_data then
        let! sig_type := lift (slice db_data offset (offset + 16)) in
        let! list_size := lift (read_le 4 db_data (offset + 16)) in
        let! header_size := lift (read_le 4 db_data (offset + 20)) in
        let! sig_size := lift (read_le 4 db_data (offset + 24)) in
        if list_size =? 0 then mret (Err (tally_error label c))
        else if len db_data <? offset + list_size then
          mret (Err ("malformed db: signature list at offset " +:+ fmt_dec offset +:+
                     " extends past db size " +:+ fmt_dec (len db_data)))
        else if negb (bool_decide (sig_type = X509_GUID)) then
          scan_lists fuel data db_data template label (offset + list_size) c
        else
          let sigs_start := offset + 28 + header_size in
          let sigs_end := offset + list_size in
          if (sig_size <? 16) || (sigs_end <? sigs_start) then
            mret (Err ("malformed db: invalid X.509 list at offset " +:+ fmt_dec offset +:+
                       " header_size=" +:+ fmt_dec header_size +:+ " sig_size=" +:+ fmt_dec sig_size))
          else
            let! r := scan_sigs (S (length db_data)) data db_data template sig_size sigs_end sigs_start c in
            match r with
            | None => mret (Ok tt)
            | Some c => scan_lists fuel data db_data template label (offset + list_size) c
            end
      else mret (Err (tally_error label c))
  end.

Definition verify_data_signature (data db_data : list byte) (template label : string)
    : fw (result unit string) :=
  scan_lists (S (length db_data)) data db_data template label 0 no_tally.

(** ** The handover *)

Definition linux_exec (m : memory) (cmdline : string) (kernel_addr initrd_addr initrd_size : Z)
    (timer : EfiTimer) : fw unit :=
  let sig := get_field m kernel_addr "signature" in
  let hdr := get_field m kernel_addr "header" in
  if negb (sig =? 0xAA55) || negb (hdr =? SETUP_MAGIC) then fail_and_reboot
  else
    let version := get_field m kernel_addr "version" in
    let relocatable := get_field m kernel_addr "relocatable_kernel" in
    let xloadflags := get_field m kernel_addr "xloadflags" in
    if Z.land xloadflags 0x08 =? 0 then fail_and_reboot
    else if (version <? 0x20b) || (relocatable =? 0) then fail_and_reboot
    else
      let! setup_addr := trigger (FwAllocatePages 4) in
      match setup_addr with
      | Err _ => fail_and_reboot
      | Ok setup =>
          let m := mem_fill m setup (4 * 4096) x00 in
          let setup_secs := get_field m kernel_addr "setup_secs" in
          let ramdisk_max := get_field m kernel_addr "ramdisk_max" in
          let handover_offset := get_field m kernel_addr "handover_offset" in
          let code32_start := kernel_addr + (setup_secs + 1) * 512 in
          let handover_addr := code32_start + 512 + handover_offset in
          let m := set_field m setup "loader_id" 0x21 in
          let m := set_field m setup "ramdisk_max" ramdisk_max in
          let cmdline_len := slen cmdline in
          let! pool := trigger (FwAllocatePool (cmdline_len + 1)) in
          match pool with
          | Err _ => fail_and_reboot
          | Ok pool =>
              let m := mem_write m pool (as_bytes cmdline) in
              let m := mem_write m (pool + cmdline_len) [x00] in
              let m := set_field m setup "cmd_line_ptr" (u32_wrap pool) in
              let m := if 0 <? initrd_size then
                         set_field (set_field m setup "ramdisk_start" (u32_wrap initrd_addr))
                           setup "ramdisk_len" (u32_wrap initrd_size)
                       else m in
              do! total_ms timer in
              do! trigger (FwHandover handover_addr setup m) in
              Halt Replaced
          end
      end.

(** ** [main] *)

Definition GLOBAL_VARIABLE : string := "8be4df61-93ca-11d2-aa0d-00e098032b8c".
Definition IMAGE_SECURITY_DATABASE : string := "d719b2cb-3d3a-4596-a3bc-dad00e67656f".

(** [CStr16::from_str_with_buf(name, &mut [0u16; 16]).unwrap()], then the call. *)
Definition get_variable (name vendor : string) (size : Z) : fw (ures (list byte)) :=
  if negb (cstr16_from_str name 16) then Halt Panic else trigger (FwGetVariable name vendor size).

Definition first_byte (data : list byte) : Z := match data with b :: _ => b2z b | [] => 0 end.

Definition read_secure_boot_var : fw bool :=
  let! r := get_variable "SecureBoot" GLOBAL_VARIABLE 1 in
  mret (match r with Ok data => first_byte data =? 1 | Err _ => false end).

(** The database, when Secure Boot is on; a missing or empty one stops the boot. *)
Definition read_db_var (secure_boot : bool) : fw (list byte) :=
  if secure_boot then
    let! r := get_variable "db" IMAGE_SECURITY_DATABASE 4096 in
    match r with
    | Ok (b :: data) => mret (b :: data)
    | Ok [] => fail_and_reboot
    | Err _ => fail_and_reboot
    end
  else mret [].

(** A verification whose failure stops the boot. *)
Definition require_signature (data db_data : list byte) (template label : string) : fw unit :=
  let! r := verify_data_signature data db_data template label in
  match r with
  | Ok _ => mret tt
  | Err _ => fail_and_reboot
  end.

Definition config_cmdline (config_data : list byte) : string :=
  match lines (from_utf8_lossy config_data) with l :: _ => trim l | [] => "" end.

Definition load_initrd (m : memory) (secure_boot : bool) (db_data : list byte) (timer : EfiTimer)
    : fw (Z * Z * memory) :=
  let! start := timer_now timer in
  let! r := load_kernel_to_address m "\EFI\BOOT\INITRD.IMG" in
  match r with
  | Ok (addr, size, m) =>
      do! elapsed_opt timer start in
      do! (if secure_boot && negb (bool_decide (db_data = [])) then
             require_signature (mem_read m addr size) db_data "\EFI\BOOT\{}.initrd.sig" "initrd"
           else mret tt) in
      mret (addr, size, m)
  | Err _ => mret (0, 0, m)
  end.

Definition main (m : memory) : fw unit :=
  let! init := trigger FwInit in
  match init with
  | Err _ => Halt Panic
  | Ok _ =>
      let! timer := timer_new in
      do! trigger FwGetTime in
      let! config := load_file_to_memory "\EFI\BOOT\config" in
      match config with
      | Err _ => fail_and_reboot
      | Ok config_data =>
          let cmdline := config_cmdline config_data in
          let! secure_boot := read_secure_boot_var in
          let! db_slice := read_db_var secure_boot in
          do! (if (secure_boot : bool)
               then require_signature config_data db_slice "\EFI\BOOT\{}.sig" "config"
               else mret tt) in
          let! bzimage_load_start := timer_now timer in
          let! kernel := load_pe_kernel_to_address m "\EFI\BOOT\BZIMAGE" in
          match kernel with
          | Err _ => fail_and_reboot
          | Ok (kernel_addr, kernel_size, _, m) =>
              do! elapsed_opt timer bzimage_load_start in
              do! (if (secure_boot : bool)
                   then require_signature (mem_read m kernel_addr kernel_size) db_slice
                          "\EFI\BOOT\{}.kernel.sig" "kernel"
                   else mret tt) in
              let! ' (initrd_addr, initrd_size, m) := load_initrd m secure_boot db_slice timer in
              linux_exec m cmdline kernel_addr initrd_addr initrd_size timer
          end
      end
  end.

End Loader.
