(* ===== verification/LoaderScan.v ===== *)
(** The loader's scan of the signature database ([src/bin/efi.rs]) is the
    reference loop over the certificates of the lists, one after the other, and
    these certificates are those of the parser of the initrd ([Efi.v]). *)

From S2P Require Import Prelude Prog Str Sys World Verity Efi Verify Loader.

(** ** The reference loop *)

(** The X.509 entries of a database, in order. *)
Definition list_entries (l : SignatureList) : list (list byte) :=
  if bytes_eqb (sl_type l) X509_GUID then map snd (sl_sigs l) else [].
Definition x509_entries (ls : list SignatureList) : list (list byte) := concat (map list_entries ls).

Section scan.
Context `{X : Externals} `{UE : Uefi}.

(** The entries one by one, until a signature verifies. *)
Fixpoint check_entries (data : list byte) (template : string) (ders : list (list byte)) (c : Tally)
    : fw (option Tally) :=
  match ders with
  | [] => mret (Some c)
  | der :: ders =>
      let! r := check_cert data der template c in
      match r with
      | None => mret None
      | Some c => check_entries data template ders c
      end
  end.

Definition check_database (data : list byte) (template label : string) (ls : list SignatureList)
    : fw (result unit string) :=
  let! r := check_entries data template (x509_entries ls) no_tally in
  mret (match r with None => Ok tt | Some c => Err (tally_error label c) end).

Lemma check_entries_app data template l k c :
  check_entries data template (l ++ k) c ≡
  let! r := check_entries data template l c in
  match r with None => mret None | Some c => check_entries data template k c end.
Proof.
  revert c. induction l as [|der l IH]; intros c; cbn [app check_entries]; [done|].
  etrans; [|symmetry; apply prog_bind_assoc]. f_equiv. intros [c'|]; [apply IH|done].
Qed.

Lemma scan_sigs_entries fuel data db pre sigs post template sig_size c :
  16 <= sig_size -> Forall (fun s => length s.1 = 16%nat /\ len s.2 = sig_size - 16) sigs ->
  db = pre ++ concat (map encode_sig sigs) ++ post -> (length sigs < fuel)%nat ->
  scan_sigs fuel data db template sig_size (len pre + len (concat (map encode_sig sigs))) (len pre) c ≡
  check_entries data template (map snd sigs) c.
Proof.
  intros Hs Hw. revert fuel pre c. induction Hw as [|[o d] sigs [Ho Hd] Hw IH];
    intros fuel pre c Hdb Hf; (destruct fuel as [|fuel]; [cbn in Hf; lia|]); cbn [scan_sigs].
  - cbn. by rewrite (proj2 (Z.leb_gt _ _)) by (autorewrite with len; lia).
  - rewrite concat_sigs_cons in Hdb |- *. cbn [fst snd map check_entries] in *. apply len_16 in Ho.
    pose proof (len_nonneg (concat (map encode_sig sigs))).
    rewrite (proj2 (Z.leb_le _ _)) by len_tac.
    rewrite (slice_at _ (pre ++ o) d (concat (map encode_sig sigs) ++ post)); [|rewrite Hdb; app_eq|len_tac..].
    cbn [lift]. change (mbind ?f (Ret d)) with (f d). cbv beta. f_equiv. intros [c'|]; [|done].
    replace (len pre + len (o ++ d ++ concat (map encode_sig sigs)))
      with (len (pre ++ o ++ d) + len (concat (map encode_sig sigs))) by len_tac.
    replace (len pre + sig_size) with (len (pre ++ o ++ d)) by len_tac.
    apply IH; [rewrite Hdb; app_eq|cbn in Hf; lia].
Qed.

Lemma scan_lists_entries fuel data db pre ls tail template label c :
  Forall sl_wf ls -> len tail < 28 -> db = pre ++ encode_esl ls ++ tail -> (length ls < fuel)%nat ->
  scan_lists fuel data db template label (len pre) c ≡
  let! r := check_entries data template (x509_entries ls) c in
  mret (match r with None => Ok tt | Some c => Err (tally_error label c) end).
Proof.
  intros Hw Ht. revert fuel pre c. induction Hw as [|l ls Hl Hw IH];
    intros fuel pre c Hd Hf; (destruct fuel as [|fuel]; [cbn in Hf; lia|]); cbn [scan_lists].
  - by rewrite Hd, (proj2 (Z.leb_gt _ _)) by (cbn; len_tac).
  - assert (db = pre ++ encode_signature_list l ++ encode_esl ls ++ tail) as Hd'
      by (rewrite Hd; unfold encode_esl; cbn [map concat]; app_eq).
    destruct (signature_list_header _ _ _ _ Hl Hd') as (Hlen&->&->&->&->&Hnext&Hmin).
    rewrite (proj2 (Z.leb_le _ _)) by done. cbn [lift].
    repeat match goal with |- context [mbind ?f (Ret ?a)] => change (mbind f (Ret a)) with (f a); cbv beta end.
    assert (db = (pre ++ encode_signature_list l) ++ encode_esl ls ++ tail) as Hd2 by (rewrite Hd'; app_eq).
    pose proof (len_nonneg (sl_header l)). pose proof (len_nonneg (encode_esl ls ++ tail)).
    rewrite (proj2 (Z.eqb_neq _ _)) by lia.
    rewrite (proj2 (Z.ltb_ge (len db) _)) by (rewrite Hnext, Hd2, (len_app (pre ++ _)); lia).
    unfold x509_entries. cbn [map concat]. unfold list_entries at 1, bytes_eqb. rewrite check_entries_app.
    case_bool_decide as Hg; cbn [negb].
    + destruct (signature_list_body _ _ _ _ Hl Hd') as (before&Hb&Hlb&He&Hn). rewrite <- Hlb, He.
      pose proof Hl as (_&[Hss _]&_&Hsigs). pose proof (len_nonneg (concat (map encode_sig (sl_sigs l)))).
      rewrite (proj2 (Z.ltb_ge (sl_sig_size l) _)), (proj2 (Z.ltb_ge _ (len before))) by lia. cbn [orb].
      rewrite prog_bind_assoc. f_equiv; [|by apply (scan_sigs_entries _ _ _ _ _ (encode_esl ls ++ tail))].
      intros [c'|]; [|done]. rewrite <- He, Hnext. apply IH; [done|cbn in Hf; lia].
    + rewrite Hnext. cbn [check_entries]. apply IH; [done|cbn in Hf; lia].
Qed.

Lemma scan_database data ls tail template label :
  Forall sl_wf ls -> len tail < 28 ->
  verify_data_signature data (encode_esl ls ++ tail) template label ≡ check_database data template label ls.
Proof.
  intros Hw Ht. apply (scan_lists_entries _ _ _ [] _ tail); [done..|].
  rewrite length_app. pose proof (length_encode_esl ls). lia.
Qed.

(** The entries are those of the parser of the initrd. *)
Lemma entries_certs ls :
  omap (fun der => result_ok (parse_x509_cert der)) (x509_entries ls) = esl_certs ls.
Proof.
  unfold x509_entries, esl_certs. induction ls as [|l ls IH]; [done|]. cbn [map concat].
  rewrite omap_app, IH. f_equal. unfold list_entries, list_certs.
  change X509_GUID with EFI_CERT_X509_GUID. destruct (bytes_eqb _ _); [|done].
  induction (sl_sigs l) as [|s sigs IHs]; [done|]. cbn. by rewrite IHs.
Qed.

(** ** Property *)

(** C20: The loader's scan of the database is equivalent to the reference loop:
    for every sequence of well-formed signature lists, followed by fewer than
    28 stray bytes, [verify_data_signature] has exactly the executions (the
    same files opened in the same order, the same answer, the same message) of
    the loop that checks the X.509 entries one after the other; and these
    entries are those whose certificates the parser of the initrd,
    [parse_esl], returns. *)
Theorem database_scan_reference (data : list byte) (ls : list SignatureList) (tail : list byte)
    (template label : string) :
  Forall sl_wf ls -> len tail < 28 ->
  verify_data_signature data (encode_esl ls ++ tail) template label ≡ check_database data template label ls /\
  parse_esl (encode_esl ls ++ tail) =
    Val (Ok (omap (fun der => result_ok (parse_x509_cert der)) (x509_entries ls))).
Proof.
  intros Hw Ht. split; [by apply scan_database|]. rewrite entries_certs. by apply parse_esl_encode.
Qed.

End scan.

(** ** Witness *)

#[export] Instance toy_uefi : Uefi := { cstr16_from_str s n := slen s <? n }.
Definition toy_config : list byte := as_bytes "console=ttyS0".

Lemma database_scan_reference_witness :
  x509_entries [toy_other_list; toy_list] = [[x30; x01; x02]; [x31; x01; x02]; [x30; x03; x04]] /\
  verify_data_signature toy_config (encode_esl [toy_other_list; toy_list] ++ [x00]) "\EFI\BOOT\{}.sig" "config" ≡
  check_database toy_config "\EFI\BOOT\{}.sig" "config" [toy_other_list; toy_list].
Proof.
  split; [vm_compute; reflexivity|].
  apply (database_scan_reference toy_config [toy_other_list; toy_list] [x00]).
  - repeat constructor; vm_compute; try reflexivity; intros H; discriminate H.
  - vm_compute. reflexivity.
Defined.
