(* ===== verification/LoaderSpec.v ===== *)
(** What the UEFI loader guarantees: the signature check terminates and is
    sound, and with Secure Boot on the handover passes the signed kernel, the
    signed initrd and the command line of the signed config. *)

From S2P Require Import Prelude Prog Str Sys World Verity Efi Verify Loader LoaderScan.

(** ** Memory *)

Lemma length_mem_read m a n : length (mem_read m a n) = Z.to_nat n.
Proof. unfold mem_read. by rewrite length_map, length_seq. Qed.

(** Two memories that agree on a range give the same bytes. *)
Lemma mem_read_ext m m' a n :
  (forall x, a <= x < a + n -> m x = m' x) -> mem_read m a n = mem_read m' a n.
Proof.
  intros H. unfold mem_read. apply map_ext_in. intros i Hi. apply in_seq in Hi. apply H. lia.
Qed.

Definition apart (a n b k : Z) : Prop := a + n <= b \/ b + k <= a.

Lemma mem_read_write_apart m a bs b n :
  apart a (len bs) b n -> mem_read (mem_write m a bs) b n = mem_read m b n.
Proof.
  intros Hd. apply mem_read_ext. intros x Hx. unfold mem_write, apart in *.
  destruct (Z.leb_spec a x), (Z.ltb_spec x (a + len bs)); cbn; (done || lia).
Qed.

Lemma mem_read_fill_apart m a n v b k :
  apart a n b k -> mem_read (mem_fill m a n v) b k = mem_read m b k.
Proof.
  intros Hd. apply mem_read_ext. intros x Hx. unfold mem_fill, apart in *.
  destruct (Z.leb_spec a x), (Z.ltb_spec x (a + n)); cbn; (done || lia).
Qed.

Lemma mem_read_write m a bs : mem_read (mem_write m a bs) a (len bs) = bs.
Proof.
  apply list_eq. intros i. unfold mem_read. rewrite list_lookup_fmap.
  destruct (decide (i < length bs)%nat) as [Hi|Hi].
  - rewrite lookup_seq_lt by (unfold len; lia). cbn. unfold mem_write.
    rewrite (proj2 (Z.leb_le _ _)), (proj2 (Z.ltb_lt _ _)) by (unfold len; lia). cbn.
    replace (Z.to_nat (a + Z.of_nat i - a)) with i by lia.
    destruct (lookup_lt_is_Some_2 bs i Hi) as [b Hb]. rewrite Hb. f_equal. by apply nth_lookup_Some.
  - rewrite (lookup_ge_None_2 bs) by lia. rewrite lookup_seq_ge by (unfold len; lia). done.
Qed.

Lemma mem_read_fill m a n v b k :
  a <= b -> b + k <= a + n -> mem_read (mem_fill m a n v) b k = replicate (Z.to_nat k) v.
Proof.
  intros Ha Hb. apply list_eq. intros i. unfold mem_read. rewrite list_lookup_fmap.
  destruct (decide (i < Z.to_nat k)%nat) as [Hi|Hi].
  - rewrite lookup_seq_lt, lookup_replicate_2 by lia. cbn. unfold mem_fill.
    rewrite (proj2 (Z.leb_le _ _)), (proj2 (Z.ltb_lt _ _)) by lia. done.
  - rewrite lookup_seq_ge by lia. symmetry. apply lookup_replicate_None. lia.
Qed.

(** ** Fields *)

Fixpoint layout_size (l : list (string * nat)) : Z :=
  match l with [] => 0 | (_, w) :: l => Z.of_nat w + layout_size l end.

Lemma layout_size_nonneg l : 0 <= layout_size l.
Proof. induction l as [|[g w] l IH]; cbn; lia. Qed.

Lemma field_at_bounds l o f off w :
  field_at l o f = Some (off, w) -> o <= off /\ off + Z.of_nat w <= o + layout_size l.
Proof.
  revert o. induction l as [|[g v] l IH]; intros o; [done|]. cbn.
  pose proof (layout_size_nonneg l). case_match.
  - intros [= <- <-]. lia.
  - intros H'. apply IH in H'. lia.
Qed.

Definition SETUP_SIZE : Z := 0x268.

Lemma setup_field_bounds f off w :
  field_at setup_layout 0 f = Some (off, w) -> 0 <= off /\ off + Z.of_nat w <= SETUP_SIZE.
Proof. intros H. apply field_at_bounds in H. exact H. Qed.

Lemma get_field_ext m m' base f :
  (forall x, base <= x < base + SETUP_SIZE -> m x = m' x) -> get_field m base f = get_field m' base f.
Proof.
  intros H. unfold get_field. destruct (field_at _ _ _) as [[off w]|] eqn:E; [|done].
  apply setup_field_bounds in E. f_equal. apply mem_read_ext. intros x Hx. apply H. lia.
Qed.

Lemma get_field_write_apart m a bs base f :
  apart a (len bs) base SETUP_SIZE -> get_field (mem_write m a bs) base f = get_field m base f.
Proof.
  intros Hd. apply get_field_ext. intros x Hx. unfold mem_write, apart in *.
  destruct (Z.leb_spec a x), (Z.ltb_spec x (a + len bs)); cbn; (done || lia).
Qed.

Lemma get_field_set m base f v off w :
  field_at setup_layout 0 f = Some (off, w) -> 0 <= v < 256 ^ Z.of_nat w ->
  get_field (set_field m base f v) base f = v.
Proof.
  intros Hf Hv. unfold get_field, set_field. rewrite Hf.
  replace (Z.of_nat w) with (len (to_le w v)) by (unfold len; by rewrite length_to_le).
  rewrite mem_read_write. by apply le_of_to_le_small.
Qed.

Lemma get_field_set_other m base f g v o1 w1 o2 w2 :
  field_at setup_layout 0 f = Some (o1, w1) -> field_at setup_layout 0 g = Some (o2, w2) ->
  apart o1 (Z.of_nat w1) o2 (Z.of_nat w2) ->
  get_field (set_field m base f v) base g = get_field m base g.
Proof.
  intros Hf Hg Hd. unfold get_field, set_field. rewrite Hf, Hg. f_equal.
  apply mem_read_write_apart. unfold apart, len in *. rewrite length_to_le. lia.
Qed.

(** A field is written within the header. *)
Lemma mem_read_set_apart m base f v b n :
  apart base SETUP_SIZE b n -> mem_read (set_field m base f v) b n = mem_read m b n.
Proof.
  intros Hd. unfold set_field. destruct (field_at _ _ _) as [[off w]|] eqn:E; [|done].
  apply setup_field_bounds in E. apply mem_read_write_apart. unfold apart, len in *.
  rewrite length_to_le. lia.
Qed.

Lemma get_field_fill m base f n :
  SETUP_SIZE <= n -> get_field (mem_fill m base n x00) base f = 0.
Proof.
  intros Hn. unfold get_field. destruct (field_at _ _ _) as [[off w]|] eqn:E; [|done].
  apply setup_field_bounds in E. rewrite mem_read_fill by lia.
  induction (Z.to_nat (Z.of_nat w)) as [|k IH]; [done|]. cbn. rewrite IH. done.
Qed.

(** ** What a signed file is, in terms of the calls that were made *)

(** The file at [path] was opened and read. *)
Definition file_read (h : hist fwE) (path : string) (data : list byte) : Prop :=
  exists root file size raw,
    Ev (FwOpenFile root path) (Ok file) ∈ h /\ Ev (FwReadFile file size) (Ok raw) ∈ h /\
    data = array size raw.

(** A certificate [der] with [P] has a signature file, named by its key, that
    verifies for [data]. *)
Definition vouched_by `{X : Externals} (P : list byte -> Prop) (h : hist fwE) (data : list byte)
    (template : string) : Prop :=
  exists der cert key id sig,
    P der /\ x509_from_der der = Ok cert /\ spki_algorithm_oid cert = RSA_OID /\
    rsa_from_pkcs1_der (match spki_public_key cert with Some k => k | None => [] end) = Some key /\
    slice (sha256 (match spki_to_der cert with Ok d => d | Err _ => [] end)) 0 8 = Val id /\
    file_read h (replace "{}" (digest_to_hex id) template) sig /\
    rsa_verify key (sha256 data) sig = true.

(** The certificate is found in [db]: it is a part of it, and where [db] is a
    well-formed database, it is one of its X.509 entries. *)
Definition vouched `{X : Externals} (h : hist fwE) (db data : list byte) (template : string) : Prop :=
  vouched_by (fun der => exists a b, slice db a b = Val der) h data template /\
  forall ls tail, Forall sl_wf ls -> len tail < 28 -> db = encode_esl ls ++ tail ->
    vouched_by (fun der => der ∈ x509_entries ls) h data template.

(** The memory that was handed out: base and size. *)
Definition allocation (v : event fwE) : option (Z * Z) :=
  match v with
  | @Ev _ A e x => match e in fwE A return A -> option (Z * Z) with
                   | FwAllocatePages n => fun r => match r with Ok a => Some (a, n * 4096) | Err _ => None end
                   | FwAllocatePool n => fun r => match r with Ok a => Some (a, n) | Err _ => None end
                   | _ => fun _ => None
                   end x
  end.
Definition allocations (h : hist fwE) : list (Z * Z) := omap allocation h.

(** Memory handed out is not in use. *)
Definition fresh (h : hist fwE) (a n : Z) : Prop :=
  forall b k, (b, k) ∈ allocations h -> apart a n b k.

(** [a, a + n) lies in one allocation. *)
Definition owned (h : hist fwE) (a n : Z) : Prop := exists k, (a, k) ∈ allocations h /\ n <= k.

(** The firmware did not say that Secure Boot is on. *)
Definition secure_boot_not_on (h : hist fwE) : Prop :=
  exists r, Ev (FwGetVariable "SecureBoot" GLOBAL_VARIABLE 1) r ∈ h /\
    match r with Ok data => first_byte data <> 1 | Err _ => True end.

(** What the handover passes on, when Secure Boot is on. *)
Definition verified_handover `{X : Externals} (h : hist fwE) (entry setup : Z) (m : memory) : Prop :=
  exists db config kernel_addr kernel_size pool,
    (exists r, Ev (FwGetVariable "db" IMAGE_SECURITY_DATABASE 4096) (Ok r) ∈ h /\ db = r) /\
    (* the config that was read is signed, and its first line is the command line *)
    file_read h "\EFI\BOOT\config" config /\ vouched h db config "\EFI\BOOT\{}.sig" /\
    get_field m setup "cmd_line_ptr" = u32_wrap pool /\
    mem_read m pool (slen (config_cmdline config) + 1) = as_bytes (config_cmdline config) ++ [x00] /\
    (* the kernel in memory is signed, and control goes to its entry point *)
    vouched h db (mem_read m kernel_addr kernel_size) "\EFI\BOOT\{}.kernel.sig" /\
    (0 < kernel_size ->
     entry = kernel_addr + (get_field m kernel_addr "setup_secs" + 1) * 512 + 512 +
             get_field m kernel_addr "handover_offset") /\
    (* there is no initrd, or the initrd in memory is signed *)
    (get_field m setup "ramdisk_start" = 0 /\ get_field m setup "ramdisk_len" = 0 \/
     exists initrd_addr initrd_size,
       vouched h db (mem_read m initrd_addr initrd_size) "\EFI\BOOT\{}.initrd.sig" /\
       get_field m setup "ramdisk_start" = u32_wrap initrd_addr /\
       get_field m setup "ramdisk_len" = u32_wrap initrd_size).

Definition loader_rules `{X : Externals} : protocol fwE :=
  Protocol (E := fwE)
    (fun h A (e : fwE A) => match e with
      | FwHandover entry setup m => secure_boot_not_on h \/ verified_handover h entry setup m
      | _ => True
      end)
    (fun h A (e : fwE A) => match e in fwE A return A -> Prop with
      | FwAllocatePages n => fun r => match r with Ok a => fresh h a (n * 4096) | Err _ => True end
      | FwAllocatePool n => fun r => match r with Ok a => fresh h a n | Err _ => True end
      | FwFileSize _ => fun r => match r with Ok n => 0 <= n | Err _ => True end
      | _ => fun _ => True
      end).

(** Every call but the handover. *)
Definition grounded (A : Type) (e : fwE A) : Prop :=
  match e with FwHandover _ _ _ => False | _ => True end.

Ltac ground_step :=
  match goal with
  | |- quiet _ (mbind _ _) => apply quiet_bind; [|intros ?]
  | |- quiet _ (try_bind _ _) => apply quiet_try; [|intros ?]
  | |- quiet _ (lift _) => apply quiet_lift
  | |- quiet _ (trigger _) => split; [exact I|intros ?; exact I]
  | |- quiet _ (mret _) => exact I
  | |- quiet _ (Halt _) => exact I
  | |- quiet _ (match ?x with _ => _ end) => destruct x
  | |- quiet _ _ => solve [auto with quiet nocore]
  | |- quiet _ _ => progress cbv beta zeta
  end.
Ltac ground_tac := repeat ground_step.

Section check.
Context `{X : Externals} `{UE : Uefi}.
Implicit Types h : hist fwE.

Lemma ground_fail A : quiet grounded (fail_and_reboot (A:=A)).
Proof. unfold fail_and_reboot. ground_tac. Qed.
Lemma ground_open_sized p : quiet grounded (open_sized p).
Proof. unfold open_sized. ground_tac. Qed.
Hint Resolve ground_fail ground_open_sized : quiet.
Lemma ground_load_file p : quiet grounded (load_file_to_memory p).
Proof. unfold load_file_to_memory. ground_tac. Qed.
Hint Resolve ground_load_file : quiet.
Lemma ground_check_cert d der t c : quiet grounded (check_cert d der t c).
Proof. unfold check_cert. ground_tac. Qed.
Hint Resolve ground_check_cert : quiet.
Lemma ground_scan_sigs n d db t ss se so c : quiet grounded (scan_sigs n d db t ss se so c).
Proof. revert so c. induction n; intros so c; cbn [scan_sigs]; ground_tac. Qed.
Hint Resolve ground_scan_sigs : quiet.
Lemma ground_scan_lists n d db t l o c : quiet grounded (scan_lists n d db t l o c).
Proof. revert o c. induction n; intros o c; cbn [scan_lists]; ground_tac. Qed.
Hint Resolve ground_scan_lists : quiet.
Lemma ground_require_signature d db t l : quiet grounded (require_signature d db t l).
Proof. unfold require_signature, verify_data_signature. ground_tac. Qed.
Lemma ground_load_kernel m p : quiet grounded (load_kernel_to_address m p).
Proof. unfold load_kernel_to_address. ground_tac. Qed.
Lemma ground_load_pe m p : quiet grounded (load_pe_kernel_to_address m p).
Proof. unfold load_pe_kernel_to_address. ground_tac. Qed.

Lemma file_read_mono h h' p d : h `prefix_of` h' -> file_read h p d -> file_read h' p d.
Proof.
  intros Hp (root&f&s&raw&?&?&?). exists root, f, s, raw.
  split_and!; try done; by eapply elem_of_prefix.
Qed.

Lemma vouched_by_mono P h h' d t : h `prefix_of` h' -> vouched_by P h d t -> vouched_by P h' d t.
Proof.
  intros Hp (der&cert&key&id&sig&?&?&?&?&?&Hf&?). exists der, cert, key, id, sig.
  split_and!; try done. by eapply file_read_mono.
Qed.

Lemma vouched_mono h h' db d t : h `prefix_of` h' -> vouched h db d t -> vouched h' db d t.
Proof.
  intros Hp [H1 H2]. split; [by eapply vouched_by_mono|]. intros ls tail Hw Ht Hd.
  eapply vouched_by_mono; [done|by eapply H2].
Qed.

Lemma owned_mono h h' a n : h `prefix_of` h' -> owned h a n -> owned h' a n.
Proof.
  intros [k ->] (s&Hin&?). exists s. split; [|done]. unfold allocations in *.
  rewrite omap_app. apply elem_of_app. by left.
Qed.

(** The calls of a file load. *)
Lemma wp_open_sized p h :
  wp free_protocol (open_sized p) h (fun h' o => h `prefix_of` h' /\
    match o with
    | Done (Ok (file, size)) => exists root, Ev (FwOpenFile root p) (Ok file) ∈ h'
    | Done (Err _) => True
    | Stopped s => s = Panic
    end).
Proof.
  apply wp_prefix. unfold open_sized. destruct (negb _); [done|].
  apply wp_try, wp_trigger; [done|]. intros [img|e] _; [|done].
  apply wp_bind, wp_trigger; [done|]. intros [dev|] _; [|done].
  apply wp_try, wp_trigger; [done|]. intros [fs|e] _; [|done].
  apply wp_try, wp_trigger; [done|]. intros [root|e] _; [|done].
  apply wp_try, wp_trigger; [done|]. intros [f|e] _; [|done].
  apply wp_try, wp_trigger; [done|]. intros [[]|e] _; [|done..].
  apply wp_try, wp_trigger; [done|]. intros [size|e] _; [|done].
  exists root. rewrite !elem_of_app, !list_elem_of_singleton. auto.
Qed.

Lemma wp_load_file p h :
  wp free_protocol (load_file_to_memory p) h (fun h' o => h `prefix_of` h' /\
    match o with
    | Done (Ok data) => file_read h' p data
    | Done (Err _) => True
    | Stopped s => s = Panic
    end).
Proof.
  apply wp_try. eapply wp_mono; [apply wp_open_sized|].
  intros h1 [[[f size]|e]|s] [Hp H1]; [|done..].
  apply wp_try, wp_trigger; [done|].
  assert (forall r, h `prefix_of` h1 ++ [Ev (FwReadFile f size) r]) as Hp'
    by (intros r; etrans; [exact Hp|by eexists]).
  intros [raw|e] _; [|done]. apply wp_ret. split; [done|].
  destruct H1 as [root H1]. exists root, f, size, raw.
  rewrite !elem_of_app, !list_elem_of_singleton. auto.
Qed.

Lemma wp_check_cert (P : list byte -> Prop) data der template c h :
  P der ->
  wp free_protocol (check_cert data der template c) h (fun h' o => h `prefix_of` h' /\
    match o with
    | Done None => vouched_by P h' data template
    | Done (Some _) => True
    | Stopped s => s = Panic
    end).
Proof.
  intros Hs. unfold check_cert. destruct (x509_from_der der) as [cert|] eqn:Ec; [|done].
  cbv zeta. set (spki := match spki_to_der cert with Ok d => d | Err _ => [] end).
  set (pub := match spki_public_key cert with Some k => k | None => [] end).
  apply wp_bind, wp_lift. destruct (slice (sha256 spki) 0 8) as [id| |] eqn:Ei; [|done|].
  2:{ unfold slice in Ei. by case_match. }
  apply wp_bind. eapply wp_mono; [apply wp_load_file|].
  intros h1 [[sig|e]|s] [Hp H1]; [|done..].
  destruct (String.eqb_spec (spki_algorithm_oid cert) RSA_OID) as [Ho|]; [|done].
  destruct (rsa_from_pkcs1_der pub) as [key|] eqn:Ek; [|done].
  destruct (rsa_verify key (sha256 data) sig) eqn:Ev; [|done].
  apply wp_ret. split; [done|]. by exists der, cert, key, id, sig.
Qed.

(** The answers of the check, whatever is counted: [V] holds of a success. *)
Definition signature_post (V : hist fwE -> Prop) (h h' : hist fwE) (o : outcome (result unit string)) : Prop :=
  h `prefix_of` h' /\
  match o with
  | Done (Ok _) => V h'
  | Done (Err _) => True
  | Stopped s => s = Panic
  end.

Lemma wp_scan_sigs fuel data db template ss se so c h :
  se <= len db -> 0 <= so <= se -> 16 <= ss -> se - so < Z.of_nat fuel ->
  wp free_protocol (scan_sigs fuel data db template ss se so c) h (fun h' o => h `prefix_of` h' /\
    match o with
    | Done None => vouched_by (fun der => exists a b, slice db a b = Val der) h' data template
    | Done (Some _) => True
    | Stopped s => s = Panic
    end).
Proof.
  intros Hse. revert so c h. induction fuel as [|fuel IH]; intros so c h Hso Hss Hf; cbn [scan_sigs].
  { lia. }
  destruct (Z.leb_spec (so + ss) se); [|done].
  rewrite slice_val by lia. apply wp_bind, wp_ret. apply wp_bind.
  eapply wp_mono; [apply (wp_check_cert (fun der => exists a b, slice db a b = Val der));
    exists (so + 16), (so + 16 + (ss - 16)); apply slice_val; lia|].
  intros h1 [[c'|]|s] [Hp H1]; [|done..].
  eapply wp_mono; [apply IH; lia|]. intros h2 o [Hp2 Ho]. split; [by etrans|done].
Qed.

Lemma read_le_some n l a : 0 <= a -> a + Z.of_nat n <= len l -> exists v, read_le n l a = Val v /\ 0 <= v.
Proof.
  intros Ha Hl. unfold read_le. rewrite slice_val by lia. eexists. split; [reflexivity|].
  apply le_of_range.
Qed.

Lemma wp_scan_lists fuel data db template label offset c h :
  0 <= offset <= len db -> len db - offset < Z.of_nat fuel ->
  wp free_protocol (scan_lists fuel data db template label offset c) h (signature_post (fun h' => vouched_by (fun der => exists a b, slice db a b = Val der) h' data template) h).
Proof.
  revert offset c h. induction fuel as [|fuel IH]; intros offset c h Ho Hf; cbn [scan_lists].
  { lia. }
  destruct (Z.leb_spec (offset + 28) (len db)); [|done].
  rewrite slice_val by lia. apply wp_bind, wp_ret.
  destruct (read_le_some 4 db (offset + 16)) as (ls&->&Hls); [lia..|]. apply wp_bind, wp_ret.
  destruct (read_le_some 4 db (offset + 20)) as (hs&->&Hhs); [lia..|]. apply wp_bind, wp_ret.
  destruct (read_le_some 4 db (offset + 24)) as (ss&->&Hss); [lia..|]. apply wp_bind, wp_ret.
  destruct (Z.eqb_spec ls 0); [done|].
  destruct (Z.ltb_spec (len db) (offset + ls)); [done|].
  destruct (negb (bool_decide _)); [apply IH; lia|].
  destruct (Z.ltb_spec ss 16), (Z.ltb_spec (offset + ls) (offset + 28 + hs)); [done..|]. cbn [orb].
  apply wp_bind. eapply wp_mono; [apply wp_scan_sigs; unfold len in *; lia|].
  intros h1 [[c'|]|s] [Hp Hv]; [|done..].
  eapply wp_mono; [apply IH; lia|]. intros h2 o [Hp2 Ho2]. split; [by etrans|done].
Qed.

(** The reference loop, on a well-formed database. *)
Lemma wp_check_entries data template ders c h :
  wp free_protocol (check_entries data template ders c) h (fun h' o => h `prefix_of` h' /\
    match o with
    | Done None => vouched_by (fun der => der ∈ ders) h' data template
    | Done (Some _) => True
    | Stopped s => s = Panic
    end).
Proof.
  revert c h. induction ders as [|der ders IH]; intros c h; cbn [check_entries]; [done|].
  apply wp_bind. eapply wp_mono; [apply (wp_check_cert (fun d => d ∈ der :: ders)); left|].
  intros h1 [[c'|]|s] [Hp H1]; [|done..]. eapply wp_mono; [apply IH|].
  intros h2 [[c2|]|s] [Hp2 H2]; (split; [by etrans|]); [done| |done].
  destruct H2 as (d&cert&key&id&sig&Hd&H2). exists d, cert, key, id, sig. split; [by right|done].
Qed.

Lemma wp_verify_entries data ls tail template label h :
  Forall sl_wf ls -> len tail < 28 ->
  wp free_protocol (verify_data_signature data (encode_esl ls ++ tail) template label) h
    (signature_post (fun h' => vouched_by (fun der => der ∈ x509_entries ls) h' data template) h).
Proof.
  intros Hw Ht. eapply wp_equiv; [done|by apply scan_database|]. apply wp_bind.
  eapply wp_mono; [apply wp_check_entries|]. by intros h1 [[c|]|s] [Hp H1].
Qed.

Lemma wp_verify_data_signature data db template label h :
  wp free_protocol (verify_data_signature data db template label) h
    (signature_post (fun h' => vouched h' db data template) h).
Proof.
  eapply wp_mono; [apply (wp_forall _ _ (fun (x : {k : list SignatureList * list byte |
      Forall sl_wf k.1 /\ len k.2 < 28 /\ db = encode_esl k.1 ++ k.2}) =>
      signature_post (fun h' => vouched_by (fun der => der ∈ x509_entries (`x).1) h' data template) h))|].
  - apply wp_scan_lists; unfold len; lia.
  - intros ((ls&tail)&Hw&Ht&->). by apply wp_verify_entries.
  - intros h1 o [[Hp H1] H2]. split; [done|]. destruct o as [[[]|e]|s]; [|done..].
    split; [done|]. intros ls tail Hw Ht Hd. apply (H2 (exist _ (ls, tail) (conj Hw (conj Ht Hd)))).
Qed.

(** Past a required signature, the data is signed. *)
Lemma wp_require_signature data db template label h :
  wp free_protocol (require_signature data db template label) h (fun h' o => h `prefix_of` h' /\
    match o with Done _ => vouched h' db data template | Stopped _ => True end).
Proof.
  apply wp_prefix, wp_bind. eapply wp_mono; [apply wp_verify_data_signature|].
  intros h1 [[[]|e]|s] [Hp H1]; [done| |done].
  apply wp_bind, wp_trigger; [done|]. intros [] _. apply wp_bind, wp_trigger; [done|]. done.
Qed.

End check.

(** ** The handover *)

Lemma apart_sym a n b k : apart a n b k -> apart b k a n.
Proof. unfold apart. tauto. Qed.

Section handover.
Context `{X : Externals} `{UE : Uefi}.
Implicit Types h : hist fwE.

Lemma fresh_owned h a n b k : fresh h a n -> owned h b k -> apart a n b k.
Proof. intros Hf (s&Hin&Hs). specialize (Hf _ _ Hin). unfold apart in *. lia. Qed.

Lemma owned_snoc h (v : event fwE) a n : allocation v = Some (a, n) -> owned (h ++ [v]) a n.
Proof.
  intros Hv. exists n. split; [|done]. unfold allocations. rewrite omap_app. apply elem_of_app. right.
  cbn. rewrite Hv. left.
Qed.

Lemma not_handover_allowed h A (e : fwE A) : grounded A e -> guard loader_rules h e.
Proof. by destruct e. Qed.

(** The memory of the handover. *)
Definition setup_memory (m : memory) (cmdline : string) (setup pool rdmax ia isz : Z) : memory :=
  let m := mem_fill m setup (4 * 4096) x00 in
  let m := set_field m setup "loader_id" 0x21 in
  let m := set_field m setup "ramdisk_max" rdmax in
  let m := mem_write m pool (as_bytes cmdline) in
  let m := mem_write m (pool + slen cmdline) [x00] in
  let m := set_field m setup "cmd_line_ptr" (u32_wrap pool) in
  if 0 <? isz then set_field (set_field m setup "ramdisk_start" (u32_wrap ia)) setup "ramdisk_len" (u32_wrap isz)
  else m.

Lemma slen_as_bytes s : slen s = len (as_bytes s).
Proof.
  unfold slen, len. f_equal. rewrite as_bytes_chars, length_map.
  induction s as [|c s IH]; [done|]. change (S (String.length s) = S (length (chars s))). by rewrite IH.
Qed.

Ltac apart_tac := unfold apart, SETUP_SIZE in *; change (len [x00]) with 1 in *; lia.

(** Memory apart from the setup block and the command line is unchanged. *)
Lemma setup_memory_apart m cmdline setup pool rdmax ia isz b n :
  apart setup (4 * 4096) b n -> apart pool (slen cmdline + 1) b n ->
  mem_read (setup_memory m cmdline setup pool rdmax ia isz) b n = mem_read m b n.
Proof.
  intros Hs Hp. pose proof (len_nonneg (as_bytes cmdline)). rewrite slen_as_bytes in Hp.
  assert (apart setup SETUP_SIZE b n) as Hs' by apart_tac.
  unfold setup_memory. cbv zeta. destruct (0 <? isz); rewrite ?(mem_read_set_apart _ setup) by done.
  all: rewrite mem_read_write_apart by (rewrite slen_as_bytes; apart_tac).
  all: rewrite mem_read_write_apart by apart_tac.
  all: rewrite !(mem_read_set_apart _ setup) by done.
  all: by rewrite mem_read_fill_apart.
Qed.

(** The command line, terminated by a zero. *)
Lemma setup_memory_cmdline m cmdline setup pool rdmax ia isz :
  apart pool (slen cmdline + 1) setup (4 * 4096) ->
  mem_read (setup_memory m cmdline setup pool rdmax ia isz) pool (slen cmdline + 1) =
    as_bytes cmdline ++ [x00].
Proof.
  intros Hp. pose proof (len_nonneg (as_bytes cmdline)). rewrite slen_as_bytes in *.
  assert (apart setup SETUP_SIZE pool (len (as_bytes cmdline) + 1)) as Hs' by apart_tac.
  unfold setup_memory. cbv zeta. rewrite slen_as_bytes.
  destruct (0 <? isz); rewrite ?(mem_read_set_apart _ setup) by done.
  all: generalize (set_field (set_field (mem_fill m setup (4 * 4096) x00) setup "loader_id" 33)
         setup "ramdisk_max" rdmax); intros m1.
  all: transitivity (mem_read (mem_write m1 pool (as_bytes cmdline ++ [x00])) pool
         (len (as_bytes cmdline ++ [x00]))); [|apply mem_read_write].
  all: rewrite len_app; change (len [x00]) with 1; apply mem_read_ext; intros x Hx.
  all: unfold mem_write; rewrite !len_app; change (len [x00]) with 1.
  all: rewrite (proj2 (Z.leb_le pool x)), (proj2 (Z.ltb_lt x (pool + (len (as_bytes cmdline) + 1)))) by lia.
  all: cbn [andb]; destruct (Z.leb_spec (pool + len (as_bytes cmdline)) x).
  all: try (rewrite (proj2 (Z.ltb_lt x (pool + len (as_bytes cmdline) + 1))) by lia; cbn [andb];
    rewrite app_nth2 by (unfold len in *; lia); f_equal; unfold len in *; lia).
  all: cbn [andb]; rewrite (proj2 (Z.ltb_lt x (pool + len (as_bytes cmdline)))) by lia.
  all: rewrite app_nth1 by (unfold len in *; lia); done.
Qed.

Lemma u32_wrap_range z : 0 <= u32_wrap z < 256 ^ Z.of_nat 4.
Proof. apply Z.mod_pos_bound. done. Qed.

Lemma setup_memory_cmd_line_ptr m cmdline setup pool rdmax ia isz :
  get_field (setup_memory m cmdline setup pool rdmax ia isz) setup "cmd_line_ptr" = u32_wrap pool.
Proof.
  pose proof (u32_wrap_range pool). unfold setup_memory. cbv zeta. destruct (0 <? isz).
  - erewrite get_field_set_other by (reflexivity || (unfold apart; vm_compute; intuition congruence)).
    erewrite get_field_set_other by (reflexivity || (unfold apart; vm_compute; intuition congruence)).
    by eapply get_field_set.
  - by eapply get_field_set.
Qed.

Lemma setup_memory_ramdisk m cmdline setup pool rdmax ia isz :
  apart pool (slen cmdline + 1) setup (4 * 4096) ->
  let M := setup_memory m cmdline setup pool rdmax ia isz in
  get_field M setup "ramdisk_start" = (if 0 <? isz then u32_wrap ia else 0) /\
  get_field M setup "ramdisk_len" = (if 0 <? isz then u32_wrap isz else 0).
Proof.
  intros Hp M. subst M. pose proof (u32_wrap_range ia). pose proof (u32_wrap_range isz).
  pose proof (len_nonneg (as_bytes cmdline)). rewrite slen_as_bytes in *.
  unfold setup_memory. cbv zeta. destruct (0 <? isz).
  - split; [|by eapply get_field_set].
    erewrite get_field_set_other by (reflexivity || (unfold apart; vm_compute; intuition congruence)).
    by eapply get_field_set.
  - rewrite slen_as_bytes. split.
    all: erewrite get_field_set_other by (reflexivity || (unfold apart; vm_compute; intuition congruence)).
    all: rewrite !get_field_write_apart by apart_tac.
    all: erewrite get_field_set_other by (reflexivity || (unfold apart; vm_compute; intuition congruence)).
    all: erewrite get_field_set_other by (reflexivity || (unfold apart; vm_compute; intuition congruence)).
    all: apply get_field_fill; done.
Qed.

(** The facts about the loaded files that the handover relies on. *)
Definition ready (h : hist fwE) (db config : list byte) (m : memory) (ka ks ia isz : Z) : Prop :=
  (exists r, Ev (FwGetVariable "db" IMAGE_SECURITY_DATABASE 4096) (Ok r) ∈ h /\ db = r) /\
  file_read h "\EFI\BOOT\config" config /\ vouched h db config "\EFI\BOOT\{}.sig" /\
  owned h ka ks /\ (0 < ks -> owned h ka SETUP_SIZE) /\
  vouched h db (mem_read m ka ks) "\EFI\BOOT\{}.kernel.sig" /\
  (isz <= 0 \/ owned h ia isz /\ vouched h db (mem_read m ia isz) "\EFI\BOOT\{}.initrd.sig").

Lemma ready_mono h h' db config m ka ks ia isz :
  h `prefix_of` h' -> ready h db config m ka ks ia isz -> ready h' db config m ka ks ia isz.
Proof.
  intros Hp ((r&Hr&?)&?&?&?&?&?&Hi). split; [exists r; split; [by eapply elem_of_prefix|done]|].
  split; [by eapply file_read_mono|]. split; [by eapply vouched_mono|].
  split; [by eapply owned_mono|]. split; [intros ?; apply (owned_mono h); auto|].
  split; [by eapply vouched_mono|].
  destruct Hi as [?|[? ?]]; [by left|right]. split; [by eapply owned_mono|by eapply vouched_mono].
Qed.

(** The kernel header is among the bytes of the kernel. *)
Lemma get_field_mem_read m m' base n f :
  SETUP_SIZE <= n -> mem_read m base n = mem_read m' base n -> get_field m base f = get_field m' base f.
Proof.
  intros Hn Hm. apply get_field_ext. intros x Hx.
  assert (forall m, mem_read m base n !! Z.to_nat (x - base) = Some (m x)) as Hl.
  { intros m1. unfold mem_read. rewrite list_lookup_fmap, lookup_seq_lt by lia. cbn. do 2 f_equal. lia. }
  pose proof (Hl m) as H1. rewrite Hm, Hl in H1. congruence.
Qed.

Lemma wp_linux_exec h db config m ka ks ia isz timer :
  ready h db config m ka ks ia isz ->
  wp loader_rules (linux_exec m (config_cmdline config) ka ia isz timer) h (fun _ _ => True).
Proof.
  intros Hr. set (cmdline := config_cmdline config).
  assert (forall h, wp loader_rules (fail_and_reboot (A:=unit)) h (fun _ _ => True)) as Hfail.
  { intros h'. eapply wp_mono; [apply (wp_quiet _ grounded), ground_fail|done]. apply not_handover_allowed. }
  unfold linux_exec. cbv zeta. destruct (_ || _); [apply Hfail|]. destruct (_ =? 0); [apply Hfail|].
  destruct (_ || _); [apply Hfail|].
  apply wp_bind, wp_trigger; [done|]. intros [setup|e] Hf1; [|apply Hfail]. cbn in Hf1.
  set (h1 := h ++ _). assert (h `prefix_of` h1) as Hp1 by by eexists.
  assert (owned h1 setup (4 * 4096)) as Ho1 by by apply owned_snoc.
  apply wp_bind, wp_trigger; [done|]. intros [pool|e] Hf2; [|apply Hfail]. cbn in Hf2.
  set (h2 := h1 ++ _). assert (h1 `prefix_of` h2) as Hp2 by by eexists.
  assert (ready h1 db config m ka ks ia isz) as Hr1 by by eapply ready_mono.
  assert (apart pool (slen cmdline + 1) setup (4 * 4096)) as Hps by by eapply fresh_owned.
  fold cmdline in Hf2.
  pose proof Hr as (_&_&_&Hok&Hoh&_&Hoi). pose proof Hr1 as (_&_&_&Hok1&Hoh1&_&Hoi1).
  assert (forall b n, owned h b n -> owned h1 b n ->
    mem_read (setup_memory m cmdline setup pool (get_field (mem_fill m setup (4 * 4096) x00) ka "ramdisk_max") ia isz) b n
    = mem_read m b n) as Hkeep.
  { intros b n Hb Hb1. apply setup_memory_apart; by eapply fresh_owned. }
  fold (setup_memory m cmdline setup pool (get_field (mem_fill m setup (4 * 4096) x00) ka "ramdisk_max") ia isz).
  set (M := setup_memory _ _ _ _ _ _ _) in *.
  assert (forall f, 0 < ks -> get_field (mem_fill m setup (4 * 4096) x00) ka f = get_field M ka f) as Hg.
  { intros f Hks. transitivity (get_field m ka f).
    - apply (get_field_mem_read _ _ _ SETUP_SIZE); [done|]. apply mem_read_fill_apart.
      eapply fresh_owned; [done|by apply Hoh].
    - apply (get_field_mem_read _ _ _ SETUP_SIZE); [done|]. symmetry. by apply Hkeep; [apply Hoh|apply Hoh1]. }
  apply wp_bind.
  assert (quiet grounded (total_ms timer)) as Hq.
  { unfold total_ms, elapsed_ms_since, timer_now. ground_tac. }
  eapply wp_mono; [apply (wp_quiet _ grounded); [apply not_handover_allowed|exact Hq]|].
  intros h3 [ms|s] Hp3; [|done]. apply wp_bind, wp_trigger; [|by intros [] _].
  assert (h `prefix_of` h3) as Hp by (do 2 (etrans; [eassumption|]); done).
  right. pose proof (ready_mono _ _ _ _ _ _ _ _ _ Hp Hr) as (Hdb&Hc&Hvc&_&_&Hvk&Hvi).
  exists db, config, ka, ks, pool. split; [exact Hdb|]. split; [exact Hc|]. split; [exact Hvc|].
  split; [apply setup_memory_cmd_line_ptr|]. split; [by apply setup_memory_cmdline|].
  split; [by rewrite Hkeep|]. split; [intros Hks; by rewrite !Hg|].
  destruct (setup_memory_ramdisk m cmdline setup pool
    (get_field (mem_fill m setup (4 * 4096) x00) ka "ramdisk_max") ia isz Hps) as [Hrs Hrl].
  fold M in Hrs, Hrl. destruct (Z.ltb_spec 0 isz); [right|by left].
  exists ia, isz. destruct Hvi as [?|[Hoi' Hvi]]; [lia|]. destruct Hoi as [?|[Hoi _]]; [lia|].
  destruct Hoi1 as [?|[Hoi1 _]]; [lia|]. rewrite Hkeep by done. done.
Qed.

(** ** Loading *)

Lemma pages_for_covers n : 0 <= n -> n <= pages_for n * 4096 /\ (0 < n -> 4096 <= pages_for n * 4096).
Proof. intros Hn. unfold pages_for. Z.to_euclidean_division_equations. lia. Qed.

(** The postcondition of a step of the loader that does not hand over. *)
Lemma wp_ground {A} (p : fw A) h Q :
  quiet grounded p -> wp free_protocol p h Q -> wp loader_rules p h Q.
Proof. apply wp_weaken, not_handover_allowed. Qed.

Lemma len_array n l : 0 <= n -> len (array n l) = n.
Proof.
  intros Hn. unfold array, len, zeros. rewrite length_take, length_app, length_replicate. lia.
Qed.

Lemma wp_open_sized_size p h :
  wp loader_rules (open_sized p) h (fun h' o => h `prefix_of` h' /\
    match o with Done (Ok (_, size)) => 0 <= size | _ => True end).
Proof.
  apply wp_prefix. unfold open_sized. destruct (negb _); [done|].
  apply wp_try, wp_trigger; [done|]. intros [img|e] _; [|done].
  apply wp_bind, wp_trigger; [done|]. intros [dev|] _; [|done].
  apply wp_try, wp_trigger; [done|]. intros [fs|e] _; [|done].
  apply wp_try, wp_trigger; [done|]. intros [root|e] _; [|done].
  apply wp_try, wp_trigger; [done|]. intros [f|e] _; [|done].
  apply wp_try, wp_trigger; [done|]. intros [[]|e] _; [|done..].
  apply wp_try, wp_trigger; [done|]. by intros [size|e].
Qed.

Lemma wp_load_pe m p h :
  wp loader_rules (load_pe_kernel_to_address m p) h (fun h' o => h `prefix_of` h' /\
    match o with
    | Done (Ok (ka, ks, _, m')) => 0 <= ks /\ owned h' ka ks /\ (0 < ks -> owned h' ka SETUP_SIZE)
    | _ => True
    end).
Proof.
  apply wp_prefix. unfold load_pe_kernel_to_address.
  apply wp_try. eapply wp_mono; [apply wp_ground, wp_any; apply ground_load_file|].
  intros h1 [[data|e]|s] _; [|done..].
  apply wp_bind. eapply wp_mono; [apply wp_ground, wp_any; apply quiet_lift|].
  intros h2 [pe|s] _; [|done]. pose proof (len_nonneg data).
  set (size := Z.max _ _). destruct (pages_for_covers size) as [Hc Hc1]; [lia|].
  apply wp_try, wp_trigger; [done|]. intros [addr|e] Hf; [|done]. apply wp_ret.
  split; [done|].
  assert (owned (h2 ++ [Ev (FwAllocatePages (pages_for size)) (Ok addr)]) addr (pages_for size * 4096)) as (k&Hin&Hk)
    by by apply owned_snoc.
  split; [exists k; split; [done|lia]|]. intros Hp. exists k. split; [done|]. unfold SETUP_SIZE. lia.
Qed.

Lemma wp_load_kernel m p h :
  wp loader_rules (load_kernel_to_address m p) h (fun h' o => h `prefix_of` h' /\
    match o with
    | Done (Ok (ia, isz, m')) => owned h' ia isz /\
        forall b n, owned h b n -> mem_read m' b n = mem_read m b n
    | _ => True
    end).
Proof.
  unfold load_kernel_to_address. apply wp_try. eapply wp_mono; [apply wp_open_sized_size|].
  intros h1 [[[f size]|e]|s] [Hp1 Hs]; [|done..].
  apply wp_try, wp_trigger; [done|]. intros [addr|e] Hf; cbn in Hf;
    [|split; [etrans; [exact Hp1|by eexists]|done]].
  set (h2 := h1 ++ _). assert (h `prefix_of` h2) as Hp2 by (etrans; [exact Hp1|by eexists]).
  assert (owned h2 addr (pages_for size * 4096)) as Ho by by apply owned_snoc.
  destruct (pages_for_covers size) as [Hc _]; [done|].
  apply wp_try, wp_trigger; [done|].
  assert (forall r, h2 `prefix_of` h2 ++ [Ev (FwReadFile f size) r]) as Hp3 by by eexists.
  intros [data|e] _; [|split; [by etrans|done]]. apply wp_ret. split; [by etrans|]. split.
  - destruct Ho as (k&Hin&Hk). eapply owned_mono; [apply Hp3|]. exists k. split; [done|lia].
  - intros b n Hb. apply mem_read_write_apart. rewrite len_array by done.
    assert (apart addr (pages_for size * 4096) b n) as Ha.
    { eapply fresh_owned; [exact Hf|]. by eapply owned_mono. }
    unfold apart in *. lia.
Qed.

Lemma ground_elapsed_opt t s : quiet grounded (elapsed_opt t s).
Proof. unfold elapsed_opt, elapsed_ms_since, timer_now. ground_tac. Qed.
Lemma ground_timer_now t : quiet grounded (timer_now t).
Proof. unfold timer_now. ground_tac. Qed.
Lemma ground_timer_new : quiet grounded timer_new.
Proof. unfold timer_new. ground_tac. Qed.
Lemma ground_get_variable a b c : quiet grounded (get_variable a b c).
Proof. unfold get_variable. ground_tac. Qed.
Hint Resolve ground_elapsed_opt ground_timer_now ground_timer_new ground_get_variable ground_fail
  ground_require_signature ground_load_file ground_load_pe ground_load_kernel : quiet.
Lemma ground_load_initrd m sb db t : quiet grounded (load_initrd m sb db t).
Proof. unfold load_initrd. ground_tac. Qed.

(** Steps of which nothing is needed but that they do not hand over. *)
Lemma wp_skip {A B} (p : fw A) (f : A -> fw B) h Q :
  quiet grounded p -> (forall a h', h `prefix_of` h' -> wp loader_rules (f a) h' Q) ->
  (forall h' s, Q h' (Stopped s)) -> wp loader_rules (p ≫= f) h Q.
Proof.
  intros Hq Hf Hs. apply wp_bind. eapply wp_mono; [apply wp_ground, wp_any; exact Hq|].
  intros h' [a|s] Hp; [by apply Hf|apply Hs].
Qed.

Lemma wp_required data db template label h :
  wp loader_rules (require_signature data db template label) h (fun h' o => h `prefix_of` h' /\
    match o with Done _ => vouched h' db data template | Stopped _ => True end).
Proof. apply wp_ground; [apply ground_require_signature|apply wp_require_signature]. Qed.

(** The initrd, if there is one, is signed. *)
Lemma wp_load_initrd m db timer h :
  db <> [] ->
  wp loader_rules (load_initrd m true db timer) h (fun h' o => h `prefix_of` h' /\
    match o with
    | Done (ia, isz, m') =>
        (isz <= 0 \/ owned h' ia isz /\ vouched h' db (mem_read m' ia isz) "\EFI\BOOT\{}.initrd.sig") /\
        forall b n, owned h b n -> mem_read m' b n = mem_read m b n
    | Stopped _ => True
    end).
Proof.
  intros Hdb. unfold load_initrd. rewrite bool_decide_eq_false_2 by done. cbn [negb andb].
  apply wp_bind. eapply wp_mono; [apply wp_ground, wp_any; apply ground_timer_now|].
  intros h1 [st|s] Hp1; [|done].
  apply wp_bind. eapply wp_mono; [apply wp_load_kernel|].
  intros h2 [[[[ia isz] m']|e]|s] [Hp2 H2]; cbn in Hp1.
  - destruct H2 as [Ho Hk]. apply wp_bind. eapply wp_mono; [apply wp_ground, wp_any; apply ground_elapsed_opt|].
    intros h3 [ms|s] Hp3; [|split; [by do 2 (etrans; [eassumption|])|done]].
    apply wp_bind. eapply wp_mono; [apply wp_required|].
    intros h4 [[]|s] [Hp4 Hv]; (split; [by do 3 (etrans; [eassumption|])|]); [|done].
    split; [right; split; [|done]|].
    + eapply owned_mono; [|exact Ho]. by etrans.
    + intros b n Hb. apply Hk. by eapply owned_mono.
  - apply wp_ret. split; [by etrans|]. split; [left; lia|done].
  - split; [by etrans|done].
Qed.

(** ** [main] *)

Definition anything {A} (h : hist fwE) (o : outcome A) : Prop := True.

(** With Secure Boot not on, nothing is asked. *)
Lemma wp_not_secure {A} (p : fw A) h : secure_boot_not_on h -> wp loader_rules p h anything.
Proof.
  intros (r&Hin&Hr). eapply wp_mono; [apply (wp_quiet_from _ (fun _ _ => True))|done].
  - intros h' B e Hp _. destruct e; try done. left. exists r. split; [by eapply elem_of_prefix|done].
  - induction p as [a|s|B e k IH]; cbn; auto.
Qed.

Lemma wp_main m h : wp loader_rules (main m) h anything.
Proof.
  unfold main. apply wp_skip; [ground_tac| |done]. intros [[]|e] h1 _; [|done].
  apply wp_skip; [ground_tac| |done]. intros timer h2 _.
  apply wp_skip; [ground_tac| |done]. intros _ h3 _.
  apply wp_bind. eapply wp_mono; [apply wp_ground, wp_load_file; apply ground_load_file|].
  assert (forall h, wp loader_rules (fail_and_reboot (A:=unit)) h anything) as Hfail.
  { intros h'. eapply wp_mono; [apply wp_ground, wp_any; apply ground_fail|done]. }
  intros h4 [[config|e]|s] [Hp4 Hc]; [|apply Hfail|done].
  apply wp_bind, wp_bind. unfold get_variable. destruct (negb _); [done|].
  apply wp_trigger; [done|]. intros r _. set (h5 := h4 ++ _). apply wp_ret.
  assert (h4 `prefix_of` h5) as Hp5 by by eexists.
  assert (Ev (FwGetVariable "SecureBoot" GLOBAL_VARIABLE 1) r ∈ h5) as Hin
    by (apply elem_of_app; right; left).
  destruct r as [sb|e]; [destruct (Z.eqb_spec (first_byte sb) 1) as [Hsb|Hsb]|];
    [|apply wp_not_secure; by eexists..].
  apply wp_bind, wp_bind. unfold get_variable. destruct (negb _); [done|].
  apply wp_trigger; [done|]. intros rdb _. set (h6 := h5 ++ _).
  assert (h5 `prefix_of` h6) as Hp6 by by eexists.
  assert (forall A (P : hist fwE -> outcome A -> Prop) h, (forall h' s, P h' (Stopped s)) ->
    wp loader_rules (fail_and_reboot (A:=A)) h P) as Hstop.
  { intros A P h' HP. apply wp_bind, wp_trigger; [done|]. intros [] _.
    apply wp_bind, wp_trigger; [done|]. intros [] _. apply HP. }
  destruct rdb as [[|b db]|e]; [by apply Hstop| |by apply Hstop].
  assert (Ev (FwGetVariable "db" IMAGE_SECURITY_DATABASE 4096) (Ok (b :: db)) ∈ h6) as Hdb
    by (apply elem_of_app; right; left).
  apply wp_ret. assert (b :: db <> []) as Hne by done. remember (b :: db) as dbs eqn:E. clear E b db.
  apply wp_bind. eapply wp_mono; [apply wp_required|]. intros h7 [[]|s] [Hp7 Hvc]; [|done].
  apply wp_skip; [apply ground_timer_now| |done]. intros kstart h8 Hp8.
  apply wp_bind. eapply wp_mono; [apply wp_load_pe|].
  intros h9 [[[[[ka ks] ims] m1]|e]|s] [Hp9 H9]; [|apply Hfail|done]. destruct H9 as (Hks&Hok&Hoh).
  apply wp_skip; [apply ground_elapsed_opt| |done]. intros kms h10 Hp10.
  apply wp_bind. eapply wp_mono; [apply wp_required|]. intros h11 [[]|s] [Hp11 Hvk]; [|done].
  apply wp_bind. eapply wp_mono; [by apply wp_load_initrd|].
  intros h12 [[[ia isz] m2]|s] [Hp12 H12]; [|done]. destruct H12 as [Hvi Hk].
  eapply wp_mono; [|done]. apply (wp_linux_exec _ dbs config _ ka ks).
  assert (h9 `prefix_of` h11) as Hp911 by by etrans.
  assert (h7 `prefix_of` h12) as Hp712 by (do 4 (etrans; [eassumption|]); done).
  assert (h6 `prefix_of` h12) as Hp612 by by etrans.
  split; [exists dbs; split; [by eapply elem_of_prefix|done]|].
  split; [eapply file_read_mono; [|exact Hc]; do 2 (etrans; [eassumption|]); done|].
  split; [exact (vouched_mono _ _ _ _ _ Hp712 Hvc)|].
  split; [eapply owned_mono; [|exact Hok]; by etrans|].
  split; [intros Hp; eapply owned_mono; [|by apply Hoh]; by etrans|].
  split; [|exact Hvi].
  rewrite Hk by (exact (owned_mono _ _ _ _ Hp911 Hok)). exact (vouched_mono _ _ _ _ _ Hp12 Hvk).
Qed.

End handover.

(** ** The checks of the kernel header *)

(** A kernel that the loader enters: the boot sector and setup signatures, the
    64-bit handover flag, a recent enough protocol, relocatable. *)
Definition bootable (m : memory) (kernel_addr : Z) : Prop :=
  get_field m kernel_addr "signature" = 0xAA55 /\ get_field m kernel_addr "header" = SETUP_MAGIC /\
  Z.land (get_field m kernel_addr "xloadflags") 0x08 <> 0 /\
  0x20b <= get_field m kernel_addr "version" /\ get_field m kernel_addr "relocatable_kernel" <> 0.

Definition handover_pointer (m : memory) (cmdline : string) (ka : Z) : protocol fwE :=
  Protocol (E := fwE)
    (fun h A (e : fwE A) => match e with
      | FwHandover _ setup M => bootable m ka /\ exists pool,
          Ev (FwAllocatePool (slen cmdline + 1)) (Ok pool) ∈ h /\
          get_field M setup "cmd_line_ptr" = u32_wrap pool
      | _ => True
      end) (fun _ _ _ _ => True).

Lemma wp_linux_exec_pointer `{X : Externals} m cmdline ka ia isz timer h :
  wp (handover_pointer m cmdline ka) (linux_exec m cmdline ka ia isz timer) h (fun _ _ => True).
Proof.
  assert (forall h (A : Type) (e : fwE A), grounded A e -> guard (handover_pointer m cmdline ka) h e) as Hok
    by (intros h' A e; by destruct e).
  assert (forall h, wp (handover_pointer m cmdline ka) (fail_and_reboot (A:=unit)) h (fun _ _ => True)) as Hfail.
  { intros h'. eapply wp_mono; [apply (wp_quiet _ grounded), ground_fail; exact Hok|done]. }
  unfold linux_exec. cbv zeta.
  destruct (Z.eqb_spec (get_field m ka "signature") 0xAA55) as [Hs|]; [|apply Hfail].
  destruct (Z.eqb_spec (get_field m ka "header") SETUP_MAGIC) as [Hh|]; [|apply Hfail]. cbn [negb orb].
  destruct (Z.eqb_spec (Z.land (get_field m ka "xloadflags") 8) 0) as [|Hx]; [apply Hfail|].
  destruct (Z.ltb_spec (get_field m ka "version") 0x20b) as [|Hv]; [apply Hfail|].
  destruct (Z.eqb_spec (get_field m ka "relocatable_kernel") 0) as [|Hr]; [apply Hfail|]. cbn [orb].
  apply wp_bind, wp_trigger; [done|]. intros [setup|e] _; [|apply Hfail].
  apply wp_bind, wp_trigger; [done|]. intros [pool|e] _; [|apply Hfail].
  fold (setup_memory m cmdline setup pool (get_field (mem_fill m setup (4 * 4096) x00) ka "ramdisk_max") ia isz).
  apply wp_bind. eapply wp_mono; [apply (wp_quiet_from _ grounded)|].
  - intros h' A e _. apply Hok.
  - unfold total_ms, elapsed_ms_since, timer_now. ground_tac.
  - intros h3 [ms|s] Hp3; [|done]. apply wp_bind, wp_trigger; [|by intros [] _].
    split; [done|]. exists pool. split; [|apply setup_memory_cmd_line_ptr].
    eapply elem_of_prefix; [exact Hp3|]. apply elem_of_app. right. left.
Qed.

(** ** Properties *)

Section properties.
Context `{X : Externals} `{UE : Uefi}.

(** C2: What the UEFI loader hands over, for every firmware that hands out
    memory that is not in use: in every execution of [main], whatever was in
    memory, the kernel is entered only when the firmware did not say that
    Secure Boot is on, or with: a command line in memory that is the first line
    of a config file signed by a certificate of the database; at its entry
    point, a kernel whose bytes in memory at that moment are signed; and either
    no initrd, or one whose bytes in memory at that moment are signed.  No
    later load or allocation touches what was verified. *)
Theorem loader_handover_verified (m : memory) (t : hist fwE) (o : outcome unit) :
  exec (main m) t o -> answered loader_rules [] t -> guarded loader_rules [] t.
Proof. intros H Ha. by apply (wp_sound loader_rules (main m) [] t o _ (wp_main m []) H). Qed.

(** The loader's signature check terminates on every database, well formed
    or not, and is sound: it answers, or stops on a firmware without a boot
    device; when it answers [Ok], a certificate found in the database has a
    signature file, named by the hash of its key, with a valid RSA signature of
    the data's hash. *)
Theorem verify_data_signature_sound (data db_data : list byte) (template label : string)
    (t : hist fwE) (o : outcome (result unit string)) :
  exec (verify_data_signature data db_data template label) t o ->
  match o with
  | Done (Ok _) => vouched t db_data data template
  | Done (Err _) => True
  | Stopped s => s = Panic
  end.
Proof.
  intros H. apply (wp_exec _ _ _ _ (wp_verify_data_signature data db_data template label []) H).
Qed.

(** C21: The kernel is entered only if its header has both signatures, the 64-bit
    handover flag, version 2.11 or later and the relocatable flag; and the
    command line pointer it is given is the address of the pool that holds the
    command line exactly when the firmware allocated that pool below 4 GiB: the
    address is cut to 32 bits, and nothing bounds it, unlike the pages of the
    kernel and the initrd. *)
Theorem handover_command_line_pointer (m : memory) (cmdline : string)
    (kernel_addr initrd_addr initrd_size : Z) (timer : EfiTimer) (t : hist fwE) (o : outcome unit)
    (entry setup : Z) (M : memory) :
  exec (linux_exec m cmdline kernel_addr initrd_addr initrd_size timer) t o ->
  Ev (FwHandover entry setup M) tt ∈ t ->
  bootable m kernel_addr /\
  exists pool, Ev (FwAllocatePool (slen cmdline + 1)) (Ok pool) ∈ t /\
    (0 <= pool -> get_field M setup "cmd_line_ptr" = pool <-> pool < U32).
Proof.
  intros H Hin.
  destruct (wp_sound_all _ _ _ _ _ (wp_linux_exec_pointer m cmdline kernel_addr initrd_addr initrd_size timer [])
    H (fun _ _ _ _ => I)) as [Hg _].
  apply list_elem_of_split in Hin as (t1&t2&->).
  destruct (Hg t1 _ t2 eq_refl) as [Hb (pool&Hp&->)]. split; [exact Hb|]. exists pool.
  split; [apply elem_of_app; by left|]. intros Hp0. unfold u32_wrap. split.
  - intros E. rewrite <- E. apply Z.mod_pos_bound. done.
  - intros Hlt. by apply Z.mod_small.
Qed.

End properties.

(** ** Witnesses *)

(** A firmware with files, variables and a first free address. *)
Record firmware : Type := {
  ffiles : gmap string (list byte);
  fvars : gmap string (list byte);
  fopen : gmap Z string;
  fnext : Z;
  ffree : Z;
}.

Definition fw_os : forall A, fwE A -> firmware -> A * firmware := fun A e w =>
  match e in fwE A return A * firmware with
  | FwInit => (Ok tt, w)
  | FwTimestampHandle => (Ok 1, w)
  | FwOpenTimestamp _ => (Ok 2, w)
  | FwTimestampFrequency _ => (Ok 1000, w)
  | FwTimestamp _ => (5, w)
  | FwGetTime => (Ok tt, w)
  | FwOpenLoadedImage => (Ok 3, w)
  | FwDevice _ => (Some 4, w)
  | FwOpenFileSystem _ => (Ok 5, w)
  | FwOpenVolume _ => (Ok 6, w)
  | FwOpenFile _ path =>
      match ffiles w !! path with
      | Some _ => (Ok (fnext w), {| ffiles := ffiles w; fvars := fvars w;
                     fopen := <[fnext w := path]> (fopen w); fnext := fnext w + 1; ffree := ffree w |})
      | None => (Err NOT_FOUND, w)
      end
  | FwIsRegular _ => (Ok true, w)
  | FwFileSize f => (Ok (len (default [] (fopen w !! f ≫= fun p => ffiles w !! p))), w)
  | FwReadFile f _ => (Ok (default [] (fopen w !! f ≫= fun p => ffiles w !! p)), w)
  | FwAllocatePages n => (Ok (ffree w), {| ffiles := ffiles w; fvars := fvars w; fopen := fopen w;
                            fnext := fnext w; ffree := ffree w + n * 4096 |})
  | FwAllocatePool n => (Ok (ffree w), {| ffiles := ffiles w; fvars := fvars w; fopen := fopen w;
                            fnext := fnext w; ffree := ffree w + n |})
  | FwGetVariable name _ _ => (match fvars w !! name with Some d => Ok d | None => Err NOT_FOUND end, w)
  | FwStall _ => (tt, w)
  | FwReset => (tt, w)
  | FwHandover _ _ _ => (tt, w)
  end.

(** The signature of the key [03 04] of the database. *)
Definition toy_signature (data : list byte) : list byte := [x03; x04] ++ toy_sha256 data.
Definition toy_kernel : list byte :=
  zeros 0x1f1 ++ [x01] ++ zeros 12 ++ [x55; xaa] ++ zeros 2 ++ [x48; x64; x72; x53; x0b; x02] ++
  zeros 0x2c ++ [x01; x00; x08; x00] ++ zeros 0x2c ++ to_le 4 0x190.
Definition secure_firmware (free : Z) : firmware := {|
  ffiles := <["\EFI\BOOT\config" := toy_config]>
    (<["\EFI\BOOT\0304000000000000.sig" := toy_signature toy_config]>
    (<["\EFI\BOOT\BZIMAGE" := toy_kernel]>
    (<["\EFI\BOOT\0304000000000000.kernel.sig" := toy_signature toy_kernel]>
    (<["\EFI\BOOT\INITRD.IMG" := [x07; x08]]>
    (<["\EFI\BOOT\0304000000000000.initrd.sig" := toy_signature [x07; x08]]> ∅)))));
  fvars := <["SecureBoot" := [x01]]> (<["db" := encode_esl [toy_list]]> ∅);
  fopen := ∅; fnext := 10; ffree := free |}.

Definition blank : memory := fun _ => xff.
Definition loader_run (free : Z) : hist fwE * outcome unit * firmware :=
  run fw_os (main blank) (secure_firmware free).

(** Do the answers of a trace satisfy the assumptions? *)
Definition answer_ok (h : hist fwE) (v : event fwE) : bool :=
  match v with
  | @Ev _ A e x => match e in fwE A return A -> bool with
      | FwAllocatePages n => fun r => match r with
          | Ok a => forallb (fun bk => (a + n * 4096 <=? bk.1) || (bk.1 + bk.2 <=? a)) (allocations h)
          | Err _ => true end
      | FwAllocatePool n => fun r => match r with
          | Ok a => forallb (fun bk => (a + n <=? bk.1) || (bk.1 + bk.2 <=? a)) (allocations h)
          | Err _ => true end
      | FwFileSize _ => fun r => match r with Ok n => 0 <=? n | Err _ => true end
      | _ => fun _ => true
      end x
  end.
Fixpoint answers_ok (h t : hist fwE) : bool :=
  match t with [] => true | v :: t => answer_ok h v && answers_ok (h ++ [v]) t end.

Lemma forallb_fresh h a n :
  forallb (fun bk => (a + n <=? bk.1) || (bk.1 + bk.2 <=? a)) (allocations h) = true -> fresh h a n.
Proof.
  intros H b k Hin. rewrite forallb_forall in H. apply list_elem_of_In in Hin. specialize (H _ Hin).
  cbn in H. unfold apart. apply orb_prop in H as [H|H]; apply Z.leb_le in H; lia.
Qed.

Lemma answers_ok_answered h t : answers_ok h t = true -> answered loader_rules h t.
Proof.
  revert h. induction t as [|v t IH]; intros h; [by intros _ [|] ???|].
  cbn [answers_ok]. intros H. apply andb_prop in H as [Hv Ht]. specialize (IH _ Ht).
  intros [|v' t1] w t2; cbn.
  - intros [= <- _]. rewrite app_nil_r. destruct v as [A e x].
    destruct e; cbn in *; try done; destruct x; try done; try (by apply forallb_fresh). lia.
  - intros [= <- ->]. rewrite (cons_middle _ h), (assoc_L app). by eapply IH.
Qed.

Lemma loader_handover_verified_witness :
  (loader_run 0x100000).1.2 = Stopped Replaced /\
  guarded loader_rules [] (loader_run 0x100000).1.1.
Proof.
  assert ((loader_run 0x100000).1.2 = Stopped Replaced) as Ho by (vm_compute; reflexivity).
  assert (answers_ok [] (loader_run 0x100000).1.1 = true) as Ha by (vm_compute; reflexivity).
  split; [exact Ho|].
  apply (loader_handover_verified blank _ (loader_run 0x100000).1.2).
  - unfold loader_run. destruct (run fw_os (main blank) (secure_firmware 0x100000)) as [[t o] w] eqn:E.
    eapply run_exec, E.
  - by apply answers_ok_answered.
Defined.

Definition check_run : hist fwE * outcome (result unit string) * firmware :=
  run fw_os (verify_data_signature toy_config (encode_esl [toy_list]) "\EFI\BOOT\{}.sig" "config")
    (secure_firmware 0).
Lemma verify_data_signature_sound_witness :
  check_run.1.2 = Done (Ok tt) /\
  vouched check_run.1.1 (encode_esl [toy_list]) toy_config "\EFI\BOOT\{}.sig".
Proof.
  assert (check_run.1.2 = Done (Ok tt)) as Ho by (vm_compute; reflexivity).
  split; [exact Ho|].
  apply (verify_data_signature_sound toy_config (encode_esl [toy_list]) "\EFI\BOOT\{}.sig" "config"
    check_run.1.1 (Done (Ok tt))).
  rewrite <- Ho. unfold check_run. destruct (run fw_os _ _) as [[t o] w] eqn:E. eapply run_exec, E.
Defined.

(** A firmware that allocates the pool above 4 GiB. *)
Definition high_run : hist fwE * outcome unit * firmware :=
  run fw_os (linux_exec (mem_write blank 0 toy_kernel) "quiet" 0 0 0
    {| timestamp := None; frequency := 0; start := 0 |}) (secure_firmware 0x100000000).
Definition handovers (t : hist fwE) : list (Z * Z * memory) :=
  omap (fun v => match v with
    | @Ev _ A e x => match e with FwHandover entry setup M => Some (entry, setup, M) | _ => None end end) t.

Lemma elem_of_handovers t entry setup M :
  (entry, setup, M) ∈ handovers t -> Ev (FwHandover entry setup M) tt ∈ t.
Proof.
  unfold handovers. rewrite list_elem_of_omap. intros ([A e x]&Hin&He). destruct e; try done.
  injection He as -> -> ->. by destruct x.
Qed.

Lemma handover_command_line_pointer_witness :
  exists entry setup M, Ev (FwHandover entry setup M) tt ∈ high_run.1.1 /\
    get_field M setup "cmd_line_ptr" = 0x4000 /\ bootable (mem_write blank 0 toy_kernel) 0.
Proof.
  assert (map (fun x => get_field x.2 x.1.2 "cmd_line_ptr") (handovers high_run.1.1) = [0x4000]) as Hf
    by (vm_compute; reflexivity).
  destruct (handovers high_run.1.1) as [|[[entry setup] M] l] eqn:E; [discriminate Hf|].
  assert (Ev (FwHandover entry setup M) tt ∈ high_run.1.1) as Hin
    by (apply elem_of_handovers; rewrite E; left).
  exists entry, setup, M. split; [exact Hin|]. split; [by injection Hf|].
  eapply (handover_command_line_pointer (mem_write blank 0 toy_kernel) "quiet" 0 0 0
    {| timestamp := None; frequency := 0; start := 0 |} high_run.1.1 high_run.1.2 entry setup M); [|exact Hin].
  clear. unfold high_run. destruct (run fw_os _ _) as [[t o] w] eqn:E. eapply run_exec, E.
Defined.
