(* ===== verification/LoaderLive.v ===== *)
(** What the UEFI loader achieves ([src/bin/efi.rs]): on a firmware that works,
    a machine whose files are signed starts its kernel. *)

From S2P Require Import Prelude Prog Str Sys World Verity Efi Verify Loader LoaderScan LoaderSpec.

(** ** A firmware that works *)

(** [CStr16::from_str_with_buf] accepts ASCII text that fits with its zero. *)
Class UefiLaws (U : Uefi) : Prop := {
  cstr16_fits : forall s n, Forall (fun c => 0 < code c < 128) (chars s) -> slen s < n ->
    cstr16_from_str s n = true;
}.

(** The fields of the setup header in the file of a kernel. *)
Definition image_field (data : list byte) (f : string) : Z :=
  match field_at setup_layout 0 f with
  | Some (off, w) => le_of (sub data off (off + Z.of_nat w))
  | None => 0
  end.
Definition bootable_image (data : list byte) : Prop :=
  SETUP_SIZE <= len data /\
  image_field data "signature" = 0xAA55 /\ image_field data "header" = SETUP_MAGIC /\
  Z.land (image_field data "xloadflags") 0x08 <> 0 /\
  0x20b <= image_field data "version" /\ image_field data "relocatable_kernel" <> 0.

Definition key_path (cert : Certificate) (template : string) `{X : Externals} : string :=
  replace "{}" (digest_to_hex (take 8 (sha256 (match spki_to_der cert with Ok d => d | Err _ => [] end)))) template.

Section firmware.
Context `{X : Externals} `{XL : !ExternalsLaws X} `{UE : Uefi} `{UL : !UefiLaws UE}.
(** The files of the boot volume, what an open file holds, the variables. *)
Context (files : string -> option (list byte)) (content : Z -> option (list byte)).
Context (secure : bool) (db : list byte).
Implicit Types h : hist fwE.

Definition works (A : Type) (e : fwE A) : A -> Prop :=
  match e in fwE A return A -> Prop with
  | FwInit => fun r => r = Ok tt
  | FwOpenLoadedImage => fun r => exists i, r = Ok i
  | FwDevice _ => fun r => exists d, r = Some d
  | FwOpenFileSystem _ => fun r => exists i, r = Ok i
  | FwOpenVolume _ => fun r => exists i, r = Ok i
  | FwOpenFile _ path => fun r => match files path with
                                  | Some d => exists f, r = Ok f /\ content f = Some d
                                  | None => exists e, r = Err e end
  | FwIsRegular f => fun r => forall d, content f = Some d -> r = Ok true
  | FwFileSize f => fun r => forall d, content f = Some d -> r = Ok (len d)
  | FwReadFile f n => fun r => forall d, content f = Some d -> n = len d -> r = Ok d
  | FwAllocatePages _ => fun r => exists a, r = Ok a
  | FwAllocatePool _ => fun r => exists a, r = Ok a
  | FwGetVariable name _ _ => fun r =>
      (name = "SecureBoot" -> exists data, r = Ok data /\ (first_byte data =? 1) = secure) /\
      (name = "db" -> r = Ok db)
  | _ => fun _ => True
  end.

(** It hands out memory that is not in use, and its calls succeed. *)
Definition good_firmware : protocol fwE :=
  Protocol (E := fwE) (fun _ _ _ => True) (fun h A e x => assume loader_rules h e x /\ works A e x).

(** A certificate whose signature file is there and verifies. *)
Definition signs (data : list byte) (template : string) (der : list byte) : Prop :=
  exists cert key sig,
    x509_from_der der = Ok cert /\ spki_algorithm_oid cert = RSA_OID /\
    rsa_from_pkcs1_der (match spki_public_key cert with Some k => k | None => [] end) = Some key /\
    files (key_path cert template) = Some sig /\ rsa_verify key (sha256 data) sig = true.
Definition signed_file (ls : list SignatureList) (data : list byte) (template : string) : Prop :=
  exists der, der ∈ x509_entries ls /\ signs data template der.

(** ** Rules *)

Lemma wp_then {A B} (P : hist fwE -> A -> Prop) (p : fw A) (f : A -> fw B) h Q :
  wp good_firmware p h (fun h' o => exists a, o = Done a /\ P h' a) ->
  (forall a h', h `prefix_of` h' -> P h' a -> wp good_firmware (f a) h' Q) ->
  wp good_firmware (p ≫= f) h Q.
Proof.
  intros Hp Hf. apply wp_bind. eapply wp_mono; [apply wp_prefix, Hp|].
  intros h' o (Hpre&a&->&Ha). by apply Hf.
Qed.

(** What is known of the executions that obey the rules. *)
Lemma wp_rules {A} (p : fw A) h Q : wp loader_rules p h Q -> wp good_firmware p h Q.
Proof. apply wp_assume; [done|]. by intros h' B e x [H _]. Qed.

Lemma wp_open_live path h :
  cstr16_from_str path 128 = true ->
  wp good_firmware (open_sized path) h (fun _ o => exists r, o = Done r /\
    match files path with
    | Some d => exists f, r = Ok (f, len d) /\ content f = Some d
    | None => exists e, r = Err e end).
Proof.
  intros Hc. unfold open_sized. rewrite Hc. cbn [negb].
  apply wp_try, wp_trigger; [done|]. intros r [_ [i ->]].
  apply wp_bind, wp_trigger; [done|]. intros r [_ [d ->]].
  apply wp_try, wp_trigger; [done|]. intros r [_ [fs ->]].
  apply wp_try, wp_trigger; [done|]. intros r [_ [root ->]].
  apply wp_try, wp_trigger; [done|]. intros r [_ Hr]. cbn in Hr.
  destruct (files path) as [data|]; [destruct Hr as (f&->&Hf)|destruct Hr as [e ->]; eexists; split; [done|by eexists]].
  apply wp_try, wp_trigger; [done|]. intros r [_ Hr]. rewrite (Hr _ Hf). cbn [negb].
  apply wp_try, wp_trigger; [done|]. intros r2 [_ Hr2]. rewrite (Hr2 _ Hf).
  apply wp_ret. eexists. split; [done|]. by exists f.
Qed.

Lemma array_self (d : list byte) : array (len d) d = d.
Proof. unfold array, len. rewrite Nat2Z.id, take_app_le, take_ge by lia. done. Qed.

Lemma wp_load_live path h :
  cstr16_from_str path 128 = true ->
  wp good_firmware (load_file_to_memory path) h (fun _ o => exists r, o = Done r /\
    match files path with Some d => r = Ok d | None => exists e, r = Err e end).
Proof.
  intros Hc. unfold load_file_to_memory. apply wp_try. eapply wp_mono; [by apply wp_open_live|].
  intros h' o (r&->&Hr). destruct (files path) as [d|]; [destruct Hr as (f&->&Hf)|destruct Hr as [e ->]; by eauto].
  apply wp_try, wp_trigger; [done|]. intros r [_ Hr]. rewrite (Hr d Hf eq_refl).
  apply wp_ret. eexists. split; [done|]. by rewrite array_self.
Qed.

(** ** Signatures *)

(** The template names files whose paths fit the buffer. *)
Definition fits (template : string) : Prop :=
  forall id, len id = 8 -> cstr16_from_str (replace "{}" (digest_to_hex id) template) 128 = true.

Lemma wp_check_cert_live data der template c h :
  fits template ->
  wp good_firmware (check_cert data der template c) h (fun _ o => exists r, o = Done r /\
    (signs data template der -> r = None)).
Proof.
  intros Hfit. unfold check_cert, signs. destruct (x509_from_der der) as [cert|e] eqn:Ec.
  2:{ eexists. split; [done|]. intros (cert&_&_&[=]&_). }
  cbv zeta. set (spki := match spki_to_der cert with Ok d => d | Err _ => [] end).
  assert (len (sha256 spki) = 32) as Hl by (unfold len; by rewrite sha256_length).
  rewrite slice_val by lia. cbn [lift]. apply wp_bind, wp_ret.
  assert (len (sub (sha256 spki) 0 8) = 8) as Hid by (rewrite len_sub; lia).
  change (sub (sha256 spki) 0 8) with (take 8 (sha256 spki)) in *.
  apply (wp_then (fun _ (r : ures (list byte)) => match files (key_path cert template) with
    Some d => r = Ok d | None => exists e, r = Err e end)).
  { eapply wp_mono; [by apply wp_load_live, Hfit|]. done. }
  intros r h' _ Hr. destruct (files (key_path cert template)) as [sig|] eqn:Ef; [rewrite Hr|destruct Hr as [e ->]].
  2:{ eexists. split; [done|]. intros (?&?&?&[= <-]&_&_&E&_). congruence. }
  destruct (String.eqb_spec (spki_algorithm_oid cert) RSA_OID) as [Ho|Ho].
  2:{ eexists. split; [done|]. intros (?&?&?&[= <-]&E&_). congruence. }
  destruct (rsa_from_pkcs1_der _) as [key|] eqn:Ek.
  2:{ eexists. split; [done|]. intros (?&?&?&[= <-]&_&E&_). congruence. }
  destruct (rsa_verify key (sha256 data) sig) eqn:Ev; (eexists; split; [done|]); [done|].
  intros (?&?&?&[= <-]&_&Ek'&Ef'&E). congruence.
Qed.

Lemma wp_check_entries_live data template ders c h :
  fits template ->
  wp good_firmware (check_entries data template ders c) h (fun _ o => exists r, o = Done r /\
    ((exists der, der ∈ ders /\ signs data template der) -> r = None)).
Proof.
  intros Hfit. revert c h. induction ders as [|der ders IH]; intros c h; cbn [check_entries].
  { eexists. split; [done|]. intros (d&Hd&_). by apply elem_of_nil in Hd. }
  apply (wp_then (fun _ (r : option Tally) => signs data template der -> r = None)); [by apply wp_check_cert_live|].
  intros [c'|] h' _ Hr; [|by eexists]. eapply wp_mono; [apply IH|]. intros h2 o (r&->&Hr2).
  eexists. split; [done|]. intros (d&Hd&Hs). apply elem_of_cons in Hd as [->|Hd]; [by discriminate Hr|].
  apply Hr2. by exists d.
Qed.

Context (ls : list SignatureList) (tail : list byte).
Context (Hls : Forall sl_wf ls) (Htail : len tail < 28) (Hdb : db = encode_esl ls ++ tail).

Lemma wp_required_live data template label h :
  fits template -> signed_file ls data template ->
  wp good_firmware (require_signature data db template label) h (fun _ o => o = Done tt).
Proof.
  intros Hfit Hs. unfold require_signature. apply (wp_then (fun _ (r : result unit string) => r = Ok tt)); [|by intros r h' _ ->].
  rewrite Hdb. eapply wp_equiv; [done|by apply scan_database|].
  apply (wp_then (fun _ (r : option Tally) => r = None)); [|intros r h' _ ->; by eexists].
  eapply wp_mono; [by apply wp_check_entries_live|]. intros h' o (r&->&Hr). exists r. split; [done|]. by apply Hr.
Qed.

(** ** The kernel in memory *)

Lemma pe_size_total data : exists r, pe_size_of_image data = Val r.
Proof.
  assert (forall off, 0 <= off -> exists r, read_u32_le data off = Val r /\
    forall v, r = Some v -> 0 <= v) as Hr.
  { intros off Ho. unfold read_u32_le. destruct (Z.ltb_spec (len data) (off + 4)); [by eexists|].
    destruct (read_le_some 4 data off) as (v&->&Hv); [lia..|]. mcbn. eexists. split; [done|]. by intros ? [= <-]. }
  unfold pe_size_of_image. destruct (_ || _); [by eexists|].
  destruct (Hr 0x3c ltac:(lia)) as ([v|]&->&Hv); mcbn; [|by eexists].
  destruct (_ || _); [by eexists|]. specialize (Hv v eq_refl).
  destruct (Hr (v + 0x50) ltac:(lia)) as (r&->&_). by eexists.
Qed.

Lemma mem_read_sub m a n i k :
  0 <= i -> 0 <= k -> i + k <= n -> mem_read m (a + i) k = sub (mem_read m a n) i (i + k).
Proof.
  intros Hi Hk Hn. apply list_eq. intros j. unfold sub, mem_read.
  destruct (decide (j < Z.to_nat k)%nat) as [Hj|Hj].
  - rewrite lookup_take_lt, lookup_drop, !list_lookup_fmap, !lookup_seq_lt by lia. cbn. do 2 f_equal. lia.
  - rewrite (lookup_ge_None_2 (take _ _)) by (rewrite length_take; lia).
    rewrite list_lookup_fmap, lookup_seq_ge by lia. done.
Qed.

(** The header in memory is the header of the file. *)
Lemma get_field_image m a data f :
  SETUP_SIZE <= len data -> mem_read m a (len data) = data -> get_field m a f = image_field data f.
Proof.
  intros Hl Hm. unfold get_field, image_field. destruct (field_at _ _ _) as [[off w]|] eqn:E; [|done].
  apply setup_field_bounds in E. rewrite (mem_read_sub m a (len data)), Hm by lia. done.
Qed.

Lemma bootable_in_memory m a data :
  bootable_image data -> mem_read m a (len data) = data -> bootable m a.
Proof. intros (Hl&Hb) Hm. unfold bootable. by rewrite !(get_field_image m a data). Qed.

Lemma wp_load_pe_live m path kernel h :
  cstr16_from_str path 128 = true -> files path = Some kernel ->
  wp good_firmware (load_pe_kernel_to_address m path) h (fun h' o => exists r, o = Done r /\
    exists ka ims m', r = Ok (ka, len kernel, ims, m') /\
      owned h' ka (len kernel) /\ mem_read m' ka (len kernel) = kernel).
Proof.
  intros Hc Hk. unfold load_pe_kernel_to_address. apply wp_try.
  eapply wp_mono; [by apply wp_load_live|]. rewrite Hk. intros h1 o (r&->&->).
  destruct (pe_size_total kernel) as [pe ->]. apply wp_bind, wp_ret. pose proof (len_nonneg kernel).
  set (size := Z.max _ _). destruct (pages_for_covers size) as [Hcov _]; [lia|].
  apply wp_try, wp_trigger; [done|]. intros r [_ [ka ->]]. apply wp_ret. eexists. split; [done|].
  exists ka, size. eexists. split; [done|]. split; [|apply mem_read_write].
  destruct (owned_snoc h1 (Ev (FwAllocatePages (pages_for size)) (Ok ka)) ka _ eq_refl) as (k&Hin&Hle).
  exists k. split; [done|lia].
Qed.

Definition timer_ok (t : EfiTimer) : Prop := timestamp t = None \/ frequency t <> 0.

Lemma wp_timer_new_live h :
  wp good_firmware timer_new h (fun _ o => exists t, o = Done t /\ timer_ok t).
Proof.
  unfold timer_new. apply wp_bind, wp_trigger; [done|]. intros [i|e] _; [|by eexists; split; [|left]].
  apply wp_bind, wp_trigger; [done|]. intros [ts|e] _; [|by eexists; split; [|left]].
  apply wp_bind, wp_trigger; [done|]. intros [f|e] _; [|by eexists; split; [|left]].
  destruct (Z.eqb_spec f 0); [by eexists; split; [|left]|].
  apply wp_bind, wp_trigger; [done|]. intros start _. eexists. split; [done|]. by right.
Qed.

Lemma wp_timer_now_live t h : wp good_firmware (timer_now t) h (fun _ o => exists r, o = Done r /\ True).
Proof.
  unfold timer_now. destruct (timestamp t); [|by eexists]. apply wp_bind, wp_trigger; [done|].
  intros now _. by eexists.
Qed.

Lemma wp_elapsed_live t s h :
  timer_ok t -> wp good_firmware (elapsed_ms_since t s) h (fun _ o => exists r, o = Done r /\ True).
Proof.
  intros Ht. unfold elapsed_ms_since, timer_now. destruct (timestamp t) eqn:E; [|by eexists].
  destruct Ht as [Ht|Ht]; [congruence|]. apply wp_bind, wp_bind, wp_trigger; [done|]. intros now _.
  rewrite (proj2 (Z.eqb_neq _ _)) by done. by eexists.
Qed.

Lemma wp_elapsed_opt_live t s h :
  timer_ok t -> wp good_firmware (elapsed_opt t s) h (fun _ o => exists r, o = Done r /\ True).
Proof. intros Ht. destruct s; [by apply wp_elapsed_live|by eexists]. Qed.

Lemma wp_linux_exec_live m cmdline ka ia isz timer h :
  bootable m ka -> timer_ok timer ->
  wp good_firmware (linux_exec m cmdline ka ia isz timer) h (fun _ o => o = Stopped Replaced).
Proof.
  intros (Hs&Hh&Hx&Hv&Hr) Ht. unfold linux_exec. cbv zeta.
  rewrite Hs, Hh, (proj2 (Z.eqb_neq _ _) Hx), (proj2 (Z.eqb_neq _ _) Hr), (proj2 (Z.ltb_ge _ _) Hv).
  rewrite !Z.eqb_refl. cbn [negb orb].
  apply wp_bind, wp_trigger; [done|]. intros r [_ [setup ->]].
  apply wp_bind, wp_trigger; [done|]. intros r [_ [pool ->]].
  apply (wp_then (fun _ _ => True)); [by apply wp_elapsed_live|]. intros ms h' _ _.
  apply wp_bind, wp_trigger; [done|]. by intros [] _.
Qed.

(** ** The whole loader *)

Definition CONFIG : string := "\EFI\BOOT\config".
Definition KERNEL : string := "\EFI\BOOT\BZIMAGE".
Definition INITRD : string := "\EFI\BOOT\INITRD.IMG".

Definition plain_text (s : string) : bool := forallb (fun c => (0 <? code c) && (code c <? 128)) (chars s).

Lemma fits_plain s n : plain_text s = true -> (slen s <? n) = true -> cstr16_from_str s n = true.
Proof.
  intros Hs Hn. apply cstr16_fits; [|by apply Z.ltb_lt]. apply Forall_forall. intros c Hc.
  unfold plain_text in Hs. rewrite forallb_forall in Hs. apply list_elem_of_In in Hc.
  specialize (Hs c Hc). bool_prop. lia.
Qed.

Lemma fits_key a b :
  plain_text a = true -> plain_text b = true -> (slen a + slen b <? 96) = true ->
  (forall k, replace "{}" k (a +:+ "{}" +:+ b) = a +:+ k +:+ b) -> fits (a +:+ "{}" +:+ b).
Proof.
  intros Ha Hb Hl Hrep id Hid. rewrite Hrep. apply fits_plain.
  - unfold plain_text in *. rewrite !chars_app, !forallb_app, Ha, Hb. cbn [andb]. rewrite andb_true_r.
    apply forallb_forall. intros c Hc. apply list_elem_of_In in Hc.
    pose proof (digest_to_hex_lower id) as Hd. rewrite Forall_forall in Hd. apply Hd in Hc.
    unfold lower_hex in Hc. bool_prop. lia.
  - assert (forall s, slen s = len (chars s)) as Hlen.
    { intros s. unfold slen, len. f_equal. induction s; [done|]. cbn. by f_equal. }
    rewrite !Hlen in *. rewrite !chars_app, !len_app.
    assert (len (chars (digest_to_hex id)) = 16) by (unfold len in *; rewrite length_digest_to_hex; lia).
    apply Z.ltb_lt in Hl. apply Z.ltb_lt. lia.
Qed.

Lemma wp_load_kernel_live m path h :
  cstr16_from_str path 128 = true ->
  wp good_firmware (load_kernel_to_address m path) h (fun h' o => exists r, o = Done r /\
    match files path with
    | Some d => exists ia m', r = Ok (ia, len d, m') /\ mem_read m' ia (len d) = d /\
                  forall b n, owned h b n -> mem_read m' b n = mem_read m b n
    | None => exists e, r = Err e end).
Proof.
  intros Hc. eapply wp_mono; [apply (wp_conj _ _ _ (fun _ o => exists r, o = Done r /\ match files path with
    | Some d => exists ia m', r = Ok (ia, len d, m') /\ mem_read m' ia (len d) = d
    | None => exists e, r = Err e end)), wp_rules, wp_load_kernel|].
  - unfold load_kernel_to_address. apply wp_try. eapply wp_mono; [by apply wp_open_live|].
    intros h1 o (r&->&Hr). destruct (files path) as [d|]; [destruct Hr as (f&->&Hf)|destruct Hr as [e ->]; by eauto].
    apply wp_try, wp_trigger; [done|]. intros r [_ [ia ->]].
    apply wp_try, wp_trigger; [done|]. intros r [_ Hr]. rewrite (Hr d Hf eq_refl), array_self.
    apply wp_ret. eexists. split; [done|]. eexists _, _. split; [done|]. apply mem_read_write.
  - intros h' o [(r&->&Hr) [_ Hk]]. exists r. split; [done|]. destruct (files path) as [d|]; [|done].
    destruct Hr as (ia&m'&->&Hd). exists ia, m'. split; [done|]. split; [done|apply Hk].
Qed.

(** There is no initrd, or it is signed when that is required. *)
Definition initrd_ok : Prop :=
  forall d, files INITRD = Some d -> secure = true -> signed_file ls d "\EFI\BOOT\{}.initrd.sig".

Lemma signed_db data template : signed_file ls data template -> db <> [].
Proof.
  intros (der&Hin&_) Hnil. destruct ls as [|l ls'] eqn:E; [by apply elem_of_nil in Hin|].
  rewrite <- E in Hdb. pose proof (length_encode_esl ls) as Hl. rewrite Hnil in Hdb.
  symmetry in Hdb. apply app_eq_nil in Hdb as [H _]. rewrite H, E in Hl. cbn in Hl. lia.
Qed.

Lemma wp_secure_boot_live h :
  wp good_firmware read_secure_boot_var h (fun _ o => exists r, o = Done r /\ r = secure).
Proof.
  unfold read_secure_boot_var, get_variable. rewrite fits_plain by done.
  apply wp_bind, wp_trigger; [done|]. intros r [_ [Hr _]]. destruct (Hr eq_refl) as (data&->&Hs).
  apply wp_ret. by eexists.
Qed.

Lemma wp_db_live h :
  (secure = true -> db <> []) ->
  wp good_firmware (read_db_var secure) h (fun _ o => exists r, o = Done r /\ (secure = true -> r = db)).
Proof.
  intros Hne. unfold read_db_var. destruct secure; [|by eexists]. specialize (Hne eq_refl).
  unfold get_variable. rewrite fits_plain by done. apply wp_bind, wp_trigger; [done|].
  intros r [_ [_ Hd]]. rewrite (Hd eq_refl). destruct db as [|b d]; [done|]. by eexists.
Qed.

Lemma wp_optional_live data dbs template label h :
  fits template -> (secure = true -> dbs = db) -> (secure = true -> signed_file ls data template) ->
  wp good_firmware (if secure then require_signature data dbs template label else mret tt) h
    (fun _ o => exists u, o = Done u /\ True).
Proof.
  intros Hf Hd Hs. destruct secure; [|by eexists]. rewrite Hd by done.
  eapply wp_mono; [by apply wp_required_live, Hs|]. intros h' o ->. by eexists.
Qed.

Lemma wp_load_initrd_live m dbs timer h :
  initrd_ok -> timer_ok timer -> (secure = true -> dbs = db) ->
  wp good_firmware (load_initrd m secure dbs timer) h (fun h' o => exists r : Z * Z * memory, o = Done r /\
    forall b n, owned h b n -> mem_read r.2 b n = mem_read m b n).
Proof.
  intros Hi Ht Hds. unfold load_initrd. apply (wp_then (fun _ _ => True)); [apply wp_timer_now_live|].
  intros st h1 Hp1 _. eapply (wp_then (fun h' r => match files INITRD with
    | Some d => exists ia m', r = Ok (ia, len d, m') /\ mem_read m' ia (len d) = d /\
                  forall b n, owned h1 b n -> mem_read m' b n = mem_read m b n
    | None => exists e, r = Err e end)); [by apply wp_load_kernel_live, fits_plain|].
  intros r h2 Hp2 Hr. destruct (files INITRD) as [d|] eqn:E; [destruct Hr as (ia&m'&->&Hd&Hk)|destruct Hr as [e ->]].
  2:{ apply wp_ret. eexists. by split. }
  apply (wp_then (fun _ _ => True)); [by apply wp_elapsed_opt_live|]. intros ms h3 _ _.
  apply (wp_then (fun _ _ => True)).
  - rewrite Hd. case_bool_decide; [rewrite andb_false_r; by eexists|]. rewrite andb_true_r.
    apply wp_optional_live; [by apply (fits_key "\EFI\BOOT\" ".initrd.sig")|done|by apply Hi].
  - intros _ h4 _ _. apply wp_ret. eexists. split; [done|]. intros b n Hb. apply Hk. by eapply owned_mono.
Qed.

(** Its files: a kernel that can be entered and a config, signed when that is
    required. *)
Definition boot_files (config kernel : list byte) : Prop :=
  files CONFIG = Some config /\ files KERNEL = Some kernel /\ bootable_image kernel /\ initrd_ok /\
  (secure = true -> signed_file ls config "\EFI\BOOT\{}.sig" /\ signed_file ls kernel "\EFI\BOOT\{}.kernel.sig").

Lemma wp_main_live m config kernel h :
  boot_files config kernel -> wp good_firmware (main m) h (fun _ o => o = Stopped Replaced).
Proof.
  intros (Hc&Hk&Hb&Hi&Hs). unfold main.
  apply wp_bind, wp_trigger; [done|]. intros r [_ ->].
  apply (wp_then (fun _ t => timer_ok t)); [apply wp_timer_new_live|]. intros timer h1 _ Ht.
  apply wp_bind, wp_trigger; [done|]. intros time _.
  apply (wp_then (fun _ r => r = Ok config)).
  { eapply wp_mono; [by apply (wp_load_live CONFIG), fits_plain|]. rewrite Hc. by intros h' o (r&->&->); eexists. }
  intros r h2 _ ->. apply (wp_then (fun _ r => r = secure)); [apply wp_secure_boot_live|]. intros sb h3 _ ->.
  apply (wp_then (fun _ r => secure = true -> r = db)).
  { apply wp_db_live. intros Hse. eapply signed_db, (proj1 (Hs Hse)). }
  intros dbs h4 _ Hd. apply (wp_then (fun _ _ => True)).
  { apply wp_optional_live; [by apply (fits_key "\EFI\BOOT\" ".sig")|done|by apply Hs]. }
  intros _ h5 _ _. apply (wp_then (fun _ _ => True)); [apply wp_timer_now_live|]. intros st h6 _ _.
  eapply wp_then; [by apply (wp_load_pe_live _ KERNEL kernel), Hk; apply fits_plain|].
  intros r h7 _ (ka&ims&m1&->&Ho&Hm). apply (wp_then (fun _ _ => True)); [by apply wp_elapsed_opt_live|].
  intros ms h8 Hp8 _. apply (wp_then (fun _ _ => True)).
  { rewrite Hm. apply wp_optional_live; [by apply (fits_key "\EFI\BOOT\" ".kernel.sig")|done|by apply Hs]. }
  intros _ h9 Hp9 _. eapply wp_then; [by apply (wp_load_initrd_live m1)|].
  intros [[ia isz] m2] h10 _ Hkeep. apply wp_linux_exec_live; [|done].
  apply (bootable_in_memory _ _ kernel Hb). cbn [snd] in Hkeep. rewrite Hkeep; [done|].
  eapply owned_mono; [|exact Ho]. by etrans.
Qed.

End firmware.

(** ** Properties *)

Section properties.
Context `{X : Externals} `{XL : !ExternalsLaws X} `{UE : Uefi} `{UL : !UefiLaws UE}.

(** C8: A signed machine starts: on every firmware whose calls succeed and that
    hands out memory not in use, with a config and a kernel whose header can be
    entered, and, if Secure Boot is on, signature files for the config, the
    kernel and the initrd if there is one, by any certificate of the database,
    whatever the others are, [main] ends with the handover to the kernel: it
    neither reboots nor panics nor runs out of a loop. *)
Theorem signed_machine_starts (m : memory) (files : string -> option (list byte))
    (content : Z -> option (list byte)) (secure : bool) (ls : list SignatureList)
    (tail config kernel : list byte) (t : hist fwE) (o : outcome unit) :
  Forall sl_wf ls -> len tail < 28 -> boot_files files secure ls config kernel ->
  exec (main m) t o -> answered (good_firmware files content secure (encode_esl ls ++ tail)) [] t ->
  o = Stopped Replaced.
Proof.
  intros Hw Ht Hf H Ha.
  exact (proj2 (wp_sound _ _ [] t o _ (wp_main_live files content secure _ ls tail Hw Ht eq_refl m config kernel []
    Hf) H Ha)).
Qed.

End properties.

(** ** Witnesses *)

#[export] Instance toy_uefi_laws : UefiLaws toy_uefi.
Proof. split. intros s n _ Hn. by apply Z.ltb_lt. Qed.

(** Does the answer of a call suit a working firmware? *)
Definition ok_with {A Er} (f : A -> bool) (r : result A Er) : bool := match r with Ok a => f a | Err _ => false end.
Definition held {A} (o : option A) (f : A -> bool) : bool := match o with Some a => f a | None => true end.

Definition works_okb (files : string -> option (list byte)) (content : Z -> option (list byte)) (secure : bool)
    (db : list byte) (v : event fwE) : bool :=
  match v with
  | @Ev _ A e x => match e in fwE A return A -> bool with
      | FwInit => ok_with (fun _ => true)
      | FwOpenLoadedImage => ok_with (fun _ => true)
      | FwDevice _ => fun r => bool_decide (is_Some r)
      | FwOpenFileSystem _ => ok_with (fun _ => true)
      | FwOpenVolume _ => ok_with (fun _ => true)
      | FwOpenFile _ path => fun r => match files path with
          | Some d => ok_with (fun f => bool_decide (content f = Some d)) r
          | None => negb (ok_with (fun _ => true) r) end
      | FwIsRegular f => fun r => held (content f) (fun _ => ok_with (fun b => b) r)
      | FwFileSize f => fun r => held (content f) (fun d => ok_with (Z.eqb (len d)) r)
      | FwReadFile f n => fun r => held (content f) (fun d => ok_with (bytes_eqb d) r)
      | FwAllocatePages _ => ok_with (fun _ => true)
      | FwAllocatePool _ => ok_with (fun _ => true)
      | FwGetVariable name _ _ => fun r =>
          (negb (name =? "SecureBoot")%string || ok_with (fun d => Bool.eqb (first_byte d =? 1) secure) r) &&
          (negb (name =? "db")%string || ok_with (bytes_eqb db) r)
      | _ => fun _ => true
      end x
  end.

Lemma works_okb_spec files content secure db A (e : fwE A) x :
  works_okb files content secure db (Ev e x) = true -> works files content secure db A e x.
Proof.
  destruct e; cbn; try done.
  all: try (destruct x as [[]|]; done).
  all: try (destruct x as [i|]; cbn; [intros _; by exists i|done]).
  - destruct (files path); destruct x as [f|e]; cbn; try done.
    + intros H. apply bool_decide_eq_true in H. by exists f.
    + intros _. by exists e.
  - intros H d E. rewrite E in H. destruct x as [[]|]; done.
  - intros H d E. rewrite E in H. destruct x as [n|]; [|done]. cbn in H. by apply Z.eqb_eq in H as ->.
  - intros H d E _. rewrite E in H. destruct x as [n|]; [|done]. cbn in H.
    unfold bytes_eqb in H. by apply bool_decide_eq_true in H as ->.
  - intros H. apply andb_prop in H as [H1 H2]. split; intros ->; cbn in *.
    + destruct x as [d|]; [|done]. exists d. split; [done|]. by apply Bool.eqb_prop.
    + destruct x as [d|]; [|done]. cbn in H2. unfold bytes_eqb in H2. by apply bool_decide_eq_true in H2 as ->.
Qed.

Lemma works_answered files content secure db h t :
  answers_ok h t = true -> forallb (works_okb files content secure db) t = true ->
  answered (good_firmware files content secure db) h t.
Proof.
  intros Ha Hw t1 v t2 E. pose proof (answers_ok_answered _ _ Ha _ _ _ E) as Hv.
  assert (works_okb files content secure db v = true) as Hb.
  { rewrite forallb_forall in Hw. apply Hw. rewrite E. apply in_or_app. right. by left. }
  destruct v as [A e x]. split; [exact Hv|by apply works_okb_spec].
Qed.

Definition toy_files (p : string) : option (list byte) := ffiles (secure_firmware 0) !! p.
Definition toy_content (f : Z) : option (list byte) := fopen (loader_run 0x100000).2 !! f ≫= toy_files.

Lemma signed_machine_starts_witness :
  length (loader_run 0x100000).1.1 = 81%nat /\ (loader_run 0x100000).1.2 = Stopped Replaced.
Proof.
  split; [vm_compute; reflexivity|].
  assert (forall data template sig, toy_files (replace "{}" "0304000000000000" template) = Some sig ->
    sig = toy_signature data -> signed_file toy_files [toy_list] data template) as Hs.
  { intros data template sig Hf ->. exists [x30; x03; x04]. split; [right; right; left|].
    exists (toy_cert [x03; x04]), [x03; x04], (toy_signature data). split_and!; [done..|].
    apply bool_decide_eq_true. done. }
  apply (signed_machine_starts blank toy_files toy_content true [toy_list] [] toy_config toy_kernel
    (loader_run 0x100000).1.1).
  - repeat constructor; vm_compute; try reflexivity; intros H; discriminate H.
  - done.
  - repeat split; try reflexivity; try (vm_compute; discriminate).
    + intros d Hd _. apply (Hs d _ (toy_signature d)); [|done]. vm_compute in Hd. injection Hd as <-. reflexivity.
    + by eapply Hs.
    + by eapply Hs.
  - exact (run_is_exec fw_os (main blank) (secure_firmware 0x100000)).
  - apply works_answered; vm_compute; reflexivity.
Defined.
