(* ===== verification/ChainOfTrust.v ===== *)
(** The chain of trust, from the firmware to init: the loader ([src/bin/efi.rs])
    and the boot sequence ([src/boot.rs]) read the same signature database, and
    everything that runs or is mounted on the way is endorsed by one of its
    certificates. *)

From S2P Require Import Prelude Prog Str PathLib Sys World Verity Efi Verify Tpm Fscrypt Cmd Mount Boot FileModel Calm BootSpec BootSteps BootMachine Attached Loader LoaderScan LoaderSpec.

Section chain.
Context `{X : Externals} `{XL : !ExternalsLaws X} `{AG : Age} `{UE : Uefi}.

(** The key identifier that names signature files. *)
Definition cert_key_id (cert : Certificate) : string :=
  public_key_id (match spki_to_der cert with Ok spki => spki | Err _ => [] end).

(** What the loader and the initrd both mean by signed: [data] has a valid
    signature by the key of a certificate of the database, and [found] says
    that it was read from a file named by the identifier of this key. *)
Definition endorsed (found : string -> list byte -> Prop) (ls : list SignatureList) (data : list byte) : Prop :=
  exists der cert key sig,
    der ∈ x509_entries ls /\ x509_from_der der = Ok cert /\
    rsa_from_pkcs1_der (default [] (spki_public_key cert)) = Some key /\
    found (cert_key_id cert) sig /\ rsa_verify key (sha256 data) sig = true.

(** The files read by the loader and by the initrd. *)
Definition loader_found (t : hist fwE) (template id : string) (sig : list byte) : Prop :=
  file_read t (replace "{}" id template) sig.
Definition initrd_found (t : hist sysE) (img id : string) (sig : list byte) : Prop :=
  Ev (FsRead (signature_path img (id +:+ ".db.sig"))) (Ok sig) ∈ t.

(** The database as its bytes, and what follows its lists. *)
Definition database (ls : list SignatureList) (db : list byte) : Prop :=
  Forall sl_wf ls /\ exists tail, len tail < 28 /\ db = encode_esl ls ++ tail.

(** The loader was given [db] whenever it asked for it. *)
Definition firmware_db (t : hist fwE) (db : list byte) : Prop :=
  forall r, Ev (FwGetVariable "db" IMAGE_SECURITY_DATABASE 4096) (Ok r) ∈ t -> r = db.

(** The initrd was given [db], after the attributes, whenever it asked for it. *)
Definition efivars_db (t : hist sysE) (db : list byte) : Prop :=
  forall base data, Ev (FsRead (base +:+ "/db-" +:+ EFI_IMAGE_SECURITY_DB_GUID)) (Ok data) ∈ t ->
    strip_attributes data = Ok db.

Lemma vouched_endorsed h ls db data template :
  database ls db -> LoaderSpec.vouched h db data template -> endorsed (loader_found h template) ls data.
Proof.
  intros (Hw&tail&Ht&Hd) [_ Hv]. destruct (Hv ls tail Hw Ht Hd) as (der&cert&key&id&sig&?&?&_&?&Hid&Hf&?).
  exists der, cert, key, sig. apply slice_inv in Hid as (_&_&->). split_and!; try done.
Qed.

Lemma endorsed_later h t ls template data :
  h `prefix_of` t -> endorsed (loader_found h template) ls data -> endorsed (loader_found t template) ls data.
Proof.
  intros Hp (der&cert&key&sig&?&?&?&Hf&?). exists der, cert, key, sig. split_and!; try done.
  by eapply file_read_mono.
Qed.

(** The parser of the initrd keeps the key of an entry. *)
Lemma esl_cert_entry ls cert :
  cert ∈ esl_certs ls ->
  exists der c, der ∈ x509_entries ls /\ x509_from_der der = Ok c /\
    key_id cert = cert_key_id c /\
    rsa_public_key_b64 cert = match spki_public_key c with Some pub => b64_encode pub | None => "" end.
Proof.
  rewrite <- entries_certs, list_elem_of_omap. intros (der&Hin&Hp).
  unfold parse_x509_cert in Hp. destruct (x509_from_der der) as [c|] eqn:Hc; [|done].
  destruct (spki_to_der c) as [spki|] eqn:Hs; [|done]. injection Hp as <-. exists der, c.
  unfold cert_key_id. by rewrite Hs.
Qed.

Lemma parse_database ls db : database ls db -> parse_esl db = Val (Ok (esl_certs ls)).
Proof. intros (Hw&tail&Ht&->). by apply parse_esl_encode. Qed.

Lemma signed_by_cert_endorsed t ls img dg cert :
  cert ∈ esl_certs ls -> signed_by_cert t img dg cert -> endorsed (initrd_found t img) ls dg.
Proof.
  intros (der&c&Hin&Hc&Hid&Hk)%esl_cert_entry (sig&kd&key&Hf&Hne&Hd&Hkey&Hv). rewrite Hk in Hne, Hd.
  destruct (spki_public_key c) as [pub|] eqn:Hp; [|done].
  rewrite b64_decode_encode in Hd. injection Hd as <-.
  exists der, c, key, sig. unfold initrd_found. by rewrite Hp, <- Hid.
Qed.

Lemma db_read_database t ls db base certs :
  database ls db -> efivars_db t db -> db_read t base certs -> certs = esl_certs ls.
Proof.
  intros Hd He (data&payload&Hin&Hs&Hp). rewrite (He _ _ Hin) in Hs. injection Hs as <-.
  rewrite (parse_database ls db Hd) in Hp. by injection Hp.
Qed.

(** What the loader entered, from its executions. *)
Lemma handover_verified m t o entry setup M :
  exec (main m) t o -> answered loader_rules [] t -> ~ secure_boot_not_on t ->
  Ev (FwHandover entry setup M) tt ∈ t ->
  exists h, h `prefix_of` t /\ verified_handover h entry setup M.
Proof.
  intros H Ha Hon Hin.
  destruct (wp_sound loader_rules (main m) [] t o _ (wp_main m []) H Ha) as [Hg _].
  apply list_elem_of_split in Hin as (t1&t2&->). exists t1. split; [by eexists|].
  destruct (Hg t1 _ t2 eq_refl) as [(r&Hr&?)|?]; [|done]. destruct Hon. exists r.
  split; [apply elem_of_app; by left|done].
Qed.

(** C4: The chain of trust, of the loader and the boot sequence together.  The
    loader entered a kernel on a firmware that hands out memory not in use and
    never answered that Secure Boot is not on, the initrd booted and did not read
    Secure Boot as off, and both were given the same well-formed database.  Then,
    by signature files that were read and that are named by the identifier of
    the key, one of its certificates endorses the config whose first line is the
    command line in memory, one the bytes in memory that were entered as the
    kernel, one those of the initrd if there is one, and one the fs-verity root
    hash of the bytes, at the end, of every file attached to a loop device, on
    any kernel of FileModel.v: both parts, with their own parsers of the
    database, mean the same certificates. *)
Theorem chain_of_trust (verity_digest : verity -> list byte -> list byte)
    (m : memory) (tl : hist fwE) (ol : outcome unit) (entry setup : Z) (M : memory)
    (tb : hist sysE) (ob : outcome (result unit string)) (s s' : files)
    (ls : list SignatureList) (db : list byte) :
  exec (main m) tl ol -> answered loader_rules [] tl -> ~ secure_boot_not_on tl ->
  Ev (FwHandover entry setup M) tt ∈ tl ->
  exec cmd_boot tb ob -> files_run verity_digest s tb s' -> backing s = [] -> ~ secure_boot_off tb ->
  database ls db -> firmware_db tl db -> efivars_db tb db ->
  (exists config pool, endorsed (loader_found tl "\EFI\BOOT\{}.sig") ls config /\
     get_field M setup "cmd_line_ptr" = u32_wrap pool /\
     mem_read M pool (slen (config_cmdline config) + 1) = as_bytes (config_cmdline config) ++ [x00]) /\
  (exists kernel_addr kernel_size,
     endorsed (loader_found tl "\EFI\BOOT\{}.kernel.sig") ls (mem_read M kernel_addr kernel_size) /\
     (0 < kernel_size -> entry = kernel_addr + (get_field M kernel_addr "setup_secs" + 1) * 512 + 512 +
                                 get_field M kernel_addr "handover_offset")) /\
  (get_field M setup "ramdisk_start" = 0 /\ get_field M setup "ramdisk_len" = 0 \/
   exists initrd_addr initrd_size,
     endorsed (loader_found tl "\EFI\BOOT\{}.initrd.sig") ls (mem_read M initrd_addr initrd_size) /\
     get_field M setup "ramdisk_start" = u32_wrap initrd_addr /\
     get_field M setup "ramdisk_len" = u32_wrap initrd_size) /\
  (forall i, i ∈ backing s' -> exists nd v img, nodes s' !! i = Some nd /\ node_verity nd = Some v /\
     endorsed (initrd_found tb img) ls (verity_digest v (node_bytes nd))).
Proof.
  intros Hl Ha Hon Hin Hb Hrun Hback Hoff Hd Hfd Hed.
  destruct (handover_verified _ _ _ _ _ _ Hl Ha Hon Hin) as (h&Hp&dbl&config&ka&ks&pool&Hr).
  destruct Hr as ((r&Hr&->)&_&Hvc&Hptr&Hcmd&Hvk&Hentry&Hvi).
  rewrite (Hfd r) in * by (by eapply elem_of_prefix). split_and!.
  - exists config, pool. split; [by eapply endorsed_later, vouched_endorsed|done].
  - exists ka, ks. split; [by eapply endorsed_later, vouched_endorsed|done].
  - destruct Hvi as [?|(ia&isz&Hv&?)]; [by left|right]. exists ia, isz. split; [by eapply endorsed_later, vouched_endorsed|done].
  - intros i Hi. destruct (boot_attaches_vouched verity_digest _ _ _ _ Hb Hrun Hback Hoff i Hi)
      as (nd&Hn&v&img&base&certs&cert&Hv&Hdb&Hc&Hs).
    exists nd, v, img. split_and!; [done..|]. rewrite (db_read_database _ _ _ _ _ Hd Hed Hdb) in Hc.
    by eapply signed_by_cert_endorsed.
Qed.

End chain.

(** ** A witness: the firmware of LoaderSpec.v starts the machine of BootSpec.v *)

Definition loader_reads (db : list byte) (v : event fwE) : bool :=
  match v with
  | @Ev _ A e x => match e in fwE A return A -> bool with
      | FwGetVariable name _ _ => fun r =>
          negb (name =? "db")%string || match r with Ok d => bytes_eqb d db | Err _ => true end
      | _ => fun _ => true
      end x
  end.

Lemma loader_reads_db t db : forallb (loader_reads db) t = true -> firmware_db t db.
Proof.
  intros H r Hin. rewrite forallb_forall in H. apply list_elem_of_In, H in Hin. cbn in Hin.
  unfold bytes_eqb in Hin. by apply bool_decide_eq_true in Hin.
Qed.

Definition initrd_reads (db : list byte) (v : event sysE) : bool :=
  match v with
  | @Ev _ A e x => match e in sysE A return A -> bool with
      | FsRead path => fun r =>
          negb (ends_with ("/db-" +:+ EFI_IMAGE_SECURITY_DB_GUID) path) ||
          match r with
          | Ok data => match strip_attributes data with Ok d => bytes_eqb d db | Err _ => false end
          | Err _ => true
          end
      | _ => fun _ => true
      end x
  end.

Lemma initrd_reads_db t db : forallb (initrd_reads db) t = true -> efivars_db t db.
Proof.
  intros H base data Hin. rewrite forallb_forall in H. apply list_elem_of_In, H in Hin.
  cbn [initrd_reads] in Hin. rewrite ends_with_app in Hin. cbn [negb orb] in Hin.
  destruct (strip_attributes data); [|done]. unfold bytes_eqb in Hin.
  by apply bool_decide_eq_true in Hin as ->.
Qed.

Definition reads_not_on (v : event fwE) : bool :=
  match v with
  | @Ev _ A e x => match e in fwE A return A -> bool with
      | FwGetVariable name _ _ => fun r =>
          (name =? "SecureBoot")%string && match r with Ok d => negb (first_byte d =? 1) | Err _ => true end
      | _ => fun _ => false
      end x
  end.

Lemma not_secure_boot_not_on t : forallb (fun v => negb (reads_not_on v)) t = true -> ~ secure_boot_not_on t.
Proof.
  intros H (r&Hin&Hr). rewrite forallb_forall in H. apply list_elem_of_In, H in Hin. cbn in Hin.
  destruct r as [d|]; [|done]. rewrite negb_involutive in Hin. by apply Z.eqb_eq in Hin.
Qed.

Lemma toy_database : database [toy_list] (encode_esl [toy_list]).
Proof.
  split.
  - repeat constructor; vm_compute; try reflexivity; intros H; discriminate H.
  - exists []. split; [vm_compute; reflexivity|]. symmetry. apply app_nil_r.
Qed.

Lemma chain_of_trust_witness :
  exists entry setup M, Ev (FwHandover entry setup M) tt ∈ (loader_run 0x100000).1.1 /\
    (exists ka ks, endorsed (loader_found (loader_run 0x100000).1.1 "\EFI\BOOT\{}.kernel.sig") [toy_list]
         (mem_read M ka ks) /\
       (0 < ks -> entry = ka + (get_field M ka "setup_secs" + 1) * 512 + 512 + get_field M ka "handover_offset")) /\
    length (backing secure_end) = 2%nat /\
    forall i, i ∈ backing secure_end -> exists nd v img, nodes secure_end !! i = Some nd /\
      node_verity nd = Some v /\ endorsed (initrd_found secure_trace img) [toy_list] (toy_verity v (node_bytes nd)).
Proof.
  assert (length (handovers (loader_run 0x100000).1.1) = 1%nat) as Hl by (vm_compute; reflexivity).
  destruct (handovers _) as [|[[entry setup] M] l] eqn:E; [discriminate Hl|].
  assert (Ev (FwHandover entry setup M) tt ∈ (loader_run 0x100000).1.1) as Hin
    by (apply elem_of_handovers; rewrite E; left).
  assert (outcome_of secure_machine cmd_boot = Stopped Replaced) as Hb by (vm_compute; reflexivity).
  exists entry, setup, M. split; [exact Hin|].
  destruct (chain_of_trust toy_verity blank (loader_run 0x100000).1.1 (loader_run 0x100000).1.2 entry setup M
    secure_trace (Stopped Replaced) secure_start secure_end [toy_list] (encode_esl [toy_list])) as (_&Hk&_&Hi).
  - exact (run_is_exec fw_os (main blank) (secure_firmware 0x100000)).
  - apply answers_ok_answered. vm_compute. reflexivity.
  - apply not_secure_boot_not_on. vm_compute. reflexivity.
  - exact Hin.
  - exact (toy_exec _ _ _ Hb).
  - apply files_after_run. unfold secure_end.
    destruct (files_after _ _ _) as [s|] eqn:E'; [reflexivity|]. vm_compute in E'. discriminate E'.
  - reflexivity.
  - apply not_secure_boot_off. vm_compute. reflexivity.
  - exact toy_database.
  - apply loader_reads_db. vm_compute. reflexivity.
  - apply initrd_reads_db. vm_compute. reflexivity.
  - split; [exact Hk|]. split; [vm_compute; reflexivity|exact Hi].
Defined.
